(** * secureVoting: vote hashing, encrypted storage, ballot submission and tallying

    A shallow embedding of the TypeScript sources
      - [src/utils/crypto.ts]      (hashing, encryption wrappers)
      - [src/utils/storage.ts]     (the [SecureStorage] facade over localStorage)
      - [src/components/VotingInterface.tsx]   (session creation, ballot, submission)
      - [src/components/ElectionManagement.tsx] (delete election)
      - [src/components/ResultsViewer.tsx]     (result tabulation)
    followed by the properties of the specification, stated and proved over
    that embedding for every platform that meets the contract of crypto-js
    and [JSON], and run on a reference platform: a JSON printer and parser
    proved inverse at the shapes of the data model, a stream cipher, and a
    polling day on them.

    Conventions.  A JavaScript string is a Rocq [string] (its UTF-8 bytes).
    Integral JavaScript numbers (counters, lengths, clock readings) are [Z] or
    [nat]; the vote counter, which has no bound, is added as doubles add
    ([JsNumber.add]); the two percentages of the tabulation are IEEE-754
    doubles, modelled by Rocq's primitive [float].  A TypeScript interface is
    a record.  An object used as a dictionary is a [gmap] when only lookups
    of own properties matter, and an association list ([JsObject.t]) when its
    enumeration order is observed or when it is read and assigned under
    names it may inherit from [Object.prototype]. *)

From Stdlib Require Import ZArith List String Ascii Bool Lia.
From Stdlib Require Import Floats.PrimFloat Numbers.Cyclic.Int63.Uint63.
From Stdlib Require Import Sorting.Permutation Sorting.Sorted.
From stdpp Require Import base option list gmap strings.

#[local] Open Scope string_scope.
#[local] Open Scope list_scope.
#[local] Open Scope Z_scope.

(* ================================================================== *)
(** * Strings, bytes and numerals *)
(* ================================================================== *)

Module Text.

(** The bytes of a string, most significant character first. *)
Fixpoint bytes (s : string) : list Z :=
  match s with
  | EmptyString => []
  | String c r => Z.of_N (N_of_ascii c) :: bytes r
  end.

Fixpoint of_bytes (l : list Z) : string :=
  match l with
  | [] => EmptyString
  | b :: r => String (ascii_of_N (Z.to_N (b mod 256))) (of_bytes r)
  end.

(** One hexadecimal digit, lower case, as [WordArray.toString()] prints. *)
Definition hex_digit (d : Z) : ascii :=
  if d <? 10 then ascii_of_N (Z.to_N (48 + d)) else ascii_of_N (Z.to_N (87 + d)).

(** [hex n x]: the [n] least significant hex digits of [x], big-endian. *)
Fixpoint hex (n : nat) (x : Z) : string :=
  match n with
  | O => EmptyString
  | S k => hex k (x / 16) +:+ String (hex_digit (x mod 16)) EmptyString
  end.

(** [Number.prototype.toString()] on an integer: minimal decimal digits. *)
Fixpoint dec_digits (fuel : nat) (x : Z) (acc : string) : string :=
  match fuel with
  | O => acc
  | S k =>
      let acc' := String (ascii_of_N (Z.to_N (48 + x mod 10))) acc in
      if x / 10 =? 0 then acc' else dec_digits k (x / 10) acc'
  end.

Definition of_Z (x : Z) : string :=
  if x <? 0 then "-" +:+ dec_digits (Z.to_nat (Z.log2 (- x)) + 1) (- x) ""
  else dec_digits (Z.to_nat (Z.log2 x) + 1) x "".

(** [n] decimal digits with leading zeros ([padStart(n, '0')]). *)
Fixpoint dec_pad (n : nat) (x : Z) : string :=
  match n with
  | O => EmptyString
  | S k => dec_pad k (x / 10) +:+ String (ascii_of_N (Z.to_N (48 + x mod 10))) EmptyString
  end.

(** [String.prototype.substr(start, len)]. *)
Definition substr (start len : nat) (s : string) : string := substring start len s.

(** [s === ""] is the only falsy string. *)
Definition truthy (s : string) : bool := negb (String.eqb s "").

End Text.

(* ================================================================== *)
(** * The SHA-2 digests of crypto-js ([CryptoJS.SHA256], [CryptoJS.SHA512])

    FIPS 180-4, over words of [wbits] bits held in [Z].  The round constants
    are not tabulated: they are computed, as the standard defines them, from
    the fractional parts of the square and cube roots of the first primes. *)
(* ================================================================== *)

Module SHA2.

Record variant := {
  wbits : Z;                 (* 32 or 64 *)
  nrounds : nat;             (* 64 or 80 *)
  big0 : Z * Z * Z;          (* rotations of the upper-case sigma 0 *)
  big1 : Z * Z * Z;
  small0 : Z * Z * Z;        (* two rotations and a shift *)
  small1 : Z * Z * Z
}.

Definition sha256_variant : variant :=
  {| wbits := 32; nrounds := 64;
     big0 := (2, 13, 22); big1 := (6, 11, 25);
     small0 := (7, 18, 3); small1 := (17, 19, 10) |}.

Definition sha512_variant : variant :=
  {| wbits := 64; nrounds := 80;
     big0 := (28, 34, 39); big1 := (14, 18, 41);
     small0 := (1, 8, 7); small1 := (19, 61, 6) |}.

(** ** Primes and integer roots *)

Definition is_prime (n : Z) : bool :=
  (1 <? n) && forallb (fun d => negb (n mod d =? 0) || (n <=? d))
                      (map Z.of_nat (seq 2 (Z.to_nat (Z.sqrt n)))).

Fixpoint primes_from (fuel : nat) (n : Z) (count : nat) : list Z :=
  match fuel, count with
  | O, _ | _, O => []
  | S f, S c => if is_prime n then n :: primes_from f (n + 1) c
                else primes_from f (n + 1) count
  end.

Definition first_primes (count : nat) : list Z := primes_from 1000 2 count.

(** Integer cube root, one bit at a time from bit [b] down. *)
Fixpoint icbrt_bits (b : nat) (n acc : Z) : Z :=
  let try := acc + 2 ^ Z.of_nat b in
  let acc' := if try * try * try <=? n then try else acc in
  match b with
  | O => acc'
  | S b' => icbrt_bits b' n acc'
  end.

Definition icbrt (n : Z) : Z := icbrt_bits (Z.to_nat (Z.log2 n / 3 + 1)) n 0.

Section Variant.
Variable v : variant.

Definition modulus : Z := 2 ^ wbits v.

(** First [wbits] bits of the fractional part of the square root of [p]. *)
Definition frac_sqrt (p : Z) : Z := Z.sqrt (p * 2 ^ (2 * wbits v)) mod modulus.
Definition frac_cbrt (p : Z) : Z := icbrt (p * 2 ^ (3 * wbits v)) mod modulus.

Definition H0 : list Z := map frac_sqrt (first_primes 8).
Definition K : list Z := map frac_cbrt (first_primes (nrounds v)).

Definition add (x y : Z) : Z := (x + y) mod modulus.
Definition rotr (n x : Z) : Z :=
  Z.lor (Z.shiftr x n) (Z.shiftl x (wbits v - n) mod modulus).
Definition shr (n x : Z) : Z := Z.shiftr x n.

Definition rot3 (r : Z * Z * Z) (x : Z) : Z :=
  let '(a, b, c) := r in Z.lxor (Z.lxor (rotr a x) (rotr b x)) (rotr c x).
Definition rot2shr (r : Z * Z * Z) (x : Z) : Z :=
  let '(a, b, c) := r in Z.lxor (Z.lxor (rotr a x) (rotr b x)) (shr c x).

Definition Ch (x y z : Z) : Z :=
  Z.lxor (Z.land x y) (Z.land (Z.lxor x (modulus - 1)) z).
Definition Maj (x y z : Z) : Z :=
  Z.lxor (Z.lxor (Z.land x y) (Z.land x z)) (Z.land y z).

Definition nthz (l : list Z) (i : nat) : Z := nth i l 0.

(** The message schedule: sixteen block words, then the recurrence. *)
Fixpoint schedule (n : nat) (W : list Z) : list Z :=
  match n with
  | O => W
  | S k =>
      let t := length W in
      let x := add (add (rot2shr (small1 v) (nthz W (t - 2))) (nthz W (t - 7)))
                   (add (rot2shr (small0 v) (nthz W (t - 15))) (nthz W (t - 16))) in
      schedule k (W ++ [x])
  end.

Definition state : Type := Z * Z * Z * Z * Z * Z * Z * Z.

Definition round (s : state) (kw : Z * Z) : state :=
  let '(a, b, c, d, e, f, g, h) := s in
  let '(k, wt) := kw in
  let T1 := add (add (add (add h (rot3 (big1 v) e)) (Ch e f g)) k) wt in
  let T2 := add (rot3 (big0 v) a) (Maj a b c) in
  (add T1 T2, a, b, c, add d T1, e, f, g).

Definition state_of (l : list Z) : state :=
  (nthz l 0, nthz l 1, nthz l 2, nthz l 3, nthz l 4, nthz l 5, nthz l 6, nthz l 7).
Definition words_of (s : state) : list Z :=
  let '(a, b, c, d, e, f, g, h) := s in [a; b; c; d; e; f; g; h].

Definition compress (ks : list Z) (hs : list Z) (block : list Z) : list Z :=
  let W := schedule (nrounds v - 16) block in
  let s := fold_left round (combine ks W) (state_of hs) in
  map (fun p => add (fst p) (snd p)) (combine hs (words_of s)).

(** Big-endian packing of bytes into words. *)
Definition word_bytes : nat := Z.to_nat (wbits v / 8).

Definition be_word (bs : list Z) : Z :=
  fold_left (fun acc b => acc * 256 + b) bs 0.

Fixpoint chunks {A} (fuel : nat) (size : nat) (l : list A) : list (list A) :=
  match fuel with
  | O => []
  | S f => match l with
           | [] => []
           | _ => firstn size l :: chunks f size (skipn size l)
           end
  end.

Definition be_bytes (n : nat) (x : Z) : list Z :=
  map (fun i => (x / 256 ^ Z.of_nat i) mod 256) (rev (seq 0 n)).

(** Padding: a one bit, zeros, and the bit length in two words. *)
Definition pad (msg : list Z) : list Z :=
  let block := (16 * word_bytes)%nat in
  let len := length msg in
  let used := ((len + 1 + 2 * word_bytes) mod block)%nat in
  let zeros := (if used =? 0 then 0 else block - used)%nat in
  msg ++ [128] ++ repeat 0 zeros ++ be_bytes (2 * word_bytes) (8 * Z.of_nat len).

Definition digest_words (msg : list Z) : list Z :=
  let ks := K in
  let padded := pad msg in
  let words := map be_word (chunks (length padded) word_bytes padded) in
  fold_left (compress ks) (chunks (length words) 16 words) H0.

(** The eight words as one number, below [2 ^ (8 * wbits)]. *)
Definition digest_number (msg : list Z) : Z :=
  fold_left (fun acc x => acc * modulus + x) (digest_words msg) 0 mod modulus ^ 8.

(** [hash(message).toString()]: lower-case hex of the eight words. *)
Definition digest_hex (msg : string) : string :=
  Text.hex (Z.to_nat (2 * wbits v)) (digest_number (Text.bytes msg)).

End Variant.

Definition SHA256 (message : string) : string := digest_hex sha256_variant message.
Definition SHA512 (message : string) : string := digest_hex sha512_variant message.

End SHA2.

Example sha256_abc :
  SHA2.SHA256 "abc" = "ba7816bf8f01cfea414140de5dae2223b00361a396177a9cb410ff61f20015ad".
Proof. vm_compute. reflexivity. Qed.

Example sha512_abc_prefix :
  Text.substr 0 32 (SHA2.SHA512 "abc") = "ddaf35a193617abacc417349ae204131".
Proof. vm_compute. reflexivity. Qed.

(* ================================================================== *)
(** * [Date.prototype.toISOString]

    A time value is a number of milliseconds since the epoch; the civil date
    is recovered from the day number in the proleptic Gregorian calendar. *)
(* ================================================================== *)

Module Date.

Definition msPerDay : Z := 86400000.

(** Year, month and day of the day number [days] (days since 1970-01-01). *)
Definition civil (days : Z) : Z * Z * Z :=
  let z := days + 719468 in
  let era := z / 146097 in
  let doe := z - era * 146097 in
  let yoe := (doe - doe / 1460 + doe / 36524 - doe / 146096) / 365 in
  let doy := doe - (365 * yoe + yoe / 4 - yoe / 100) in
  let mp := (5 * doy + 2) / 153 in
  let d := doy - (153 * mp + 2) / 5 + 1 in
  let m := if mp <? 10 then mp + 3 else mp - 9 in
  let y := yoe + era * 400 + (if m <=? 2 then 1 else 0) in
  (y, m, d).

Definition year_text (y : Z) : string :=
  if (0 <=? y) && (y <=? 9999) then Text.dec_pad 4 y
  else if y <? 0 then "-" +:+ Text.dec_pad 6 (- y)
  else "+" +:+ Text.dec_pad 6 y.

Definition toISOString (t : Z) : string :=
  let '(y, m, d) := civil (t / msPerDay) in
  let r := t mod msPerDay in
  year_text y +:+ "-" +:+ Text.dec_pad 2 m +:+ "-" +:+ Text.dec_pad 2 d +:+ "T"
  +:+ Text.dec_pad 2 (r / 3600000) +:+ ":" +:+ Text.dec_pad 2 (r / 60000 mod 60)
  +:+ ":" +:+ Text.dec_pad 2 (r / 1000 mod 60) +:+ "." +:+ Text.dec_pad 3 (r mod 1000)
  +:+ "Z".

End Date.

Example toISOString_sample :
  Date.toISOString 1709210096789 = "2024-02-29T12:34:56.789Z".
Proof. vm_compute. reflexivity. Qed.

(* ================================================================== *)
(** * Data model ([src/types/index.ts]) *)
(* ================================================================== *)

Inductive Role := admin | voter.

Inductive LogType :=
  | login | vote_cast | double_vote_attempt | invalid_access
  | admin_action | session_expired | suspicious_activity.

Inductive Severity := low | medium | high | critical.

#[global] Instance Role_eq_dec : EqDecision Role.
Proof. solve_decision. Defined.
#[global] Instance LogType_eq_dec : EqDecision LogType.
Proof. solve_decision. Defined.
#[global] Instance Severity_eq_dec : EqDecision Severity.
Proof. solve_decision. Defined.

Module User.
Record t := {
  id : string;
  email : string;
  name : string;
  role : Role;
  isVerified : bool;
  hasVoted : option (gmap string bool);        (* hasVoted?: { [electionId]: boolean } *)
  votingTokens : option (gmap string string);  (* votingTokens?: { [electionId]: string } *)
  registrationDate : string;
  lastLogin : string;
  password : string
}.

(** [{ ...u, hasVoted: h }] *)
Definition with_hasVoted (h : gmap string bool) (u : t) : t :=
  {| id := id u; email := email u; name := name u; role := role u;
     isVerified := isVerified u; hasVoted := Some h; votingTokens := votingTokens u;
     registrationDate := registrationDate u; lastLogin := lastLogin u;
     password := password u |}.

(** [{ ...u, votingTokens: k }] *)
Definition with_votingTokens (k : gmap string string) (u : t) : t :=
  {| id := id u; email := email u; name := name u; role := role u;
     isVerified := isVerified u; hasVoted := hasVoted u; votingTokens := Some k;
     registrationDate := registrationDate u; lastLogin := lastLogin u;
     password := password u |}.
End User.

Module Candidate.
Record t := {
  id : string;
  name : string;
  position : string;
  description : string;
  manifesto : string;
  photo : option string
}.
End Candidate.

Module Position.
Record t := {
  id : string;
  title : string;
  description : string;
  candidates : list Candidate.t;
  maxVotes : Z
}.
End Position.

Module Election.
Record t := {
  id : string;
  title : string;
  description : string;
  startDate : string;
  endDate : string;
  positions : list Position.t;
  isActive : bool;
  totalVotes : Z;
  createdBy : string;
  createdAt : string;
  cryptographicHash : string
}.

(** [{ ...e, totalVotes: n }] *)
Definition with_totalVotes (n : Z) (e : t) : t :=
  {| id := id e; title := title e; description := description e;
     startDate := startDate e; endDate := endDate e; positions := positions e;
     isActive := isActive e; totalVotes := n; createdBy := createdBy e;
     createdAt := createdAt e; cryptographicHash := cryptographicHash e |}.
End Election.

Module Vote.
Record t := {
  id : string;
  electionId : string;
  positionId : string;
  candidateId : string;
  voterToken : string;
  timestamp : string;
  cryptographicHash : string;
  verified : bool
}.
End Vote.

Module VotingSession.
Record t := {
  sessionId : string;
  voterToken : string;
  electionId : string;
  isActive : bool;
  expiresAt : string;
  ipAddress : string;
  userAgent : string
}.

(** [{ ...s, isActive: b }] *)
Definition with_isActive (b : bool) (s : t) : t :=
  {| sessionId := sessionId s; voterToken := voterToken s; electionId := electionId s;
     isActive := b; expiresAt := expiresAt s; ipAddress := ipAddress s;
     userAgent := userAgent s |}.
End VotingSession.

Module SecurityLog.
(** [Omit<SecurityLog, 'id' | 'timestamp'>], the argument of [addSecurityLog]. *)
Record entry := {
  e_type : LogType;
  e_message : string;
  e_userId : option string;
  e_electionId : option string;
  e_ipAddress : string;
  e_severity : Severity;
  e_metadata : option string     (* metadata?: any; no call site sets it *)
}.

Record t := {
  id : string;
  type : LogType;
  message : string;
  userId : option string;
  electionId : option string;
  timestamp : string;
  ipAddress : string;
  severity : Severity;
  metadata : option string
}.

(** [{ ...log, id, timestamp }] *)
Definition complete (log : entry) (id' timestamp' : string) : t :=
  {| id := id'; type := e_type log; message := e_message log; userId := e_userId log;
     electionId := e_electionId log; timestamp := timestamp';
     ipAddress := e_ipAddress log; severity := e_severity log;
     metadata := e_metadata log |}.
End SecurityLog.

Module ElectionResults.
Record candidate := {
  candidateId : string;
  candidateName : string;
  voteCount : nat;
  percentage : float
}.

Record position := {
  positionId : string;
  positionTitle : string;
  candidates : list candidate;
  totalVotes : nat
}.

Record t := {
  electionId : string;
  positions : list position;
  totalParticipants : nat;
  turnoutPercentage : float;
  verificationHash : string
}.

Definition with_verificationHash (h : string) (r : t) : t :=
  {| electionId := electionId r; positions := positions r;
     totalParticipants := totalParticipants r;
     turnoutPercentage := turnoutPercentage r; verificationHash := h |}.
End ElectionResults.

(* ================================================================== *)
(** * The run-time environment

    Everything the sources take from outside the repository: the browser's
    [localStorage], clock, random source and dialogs, the AES cipher of
    crypto-js, and [JSON].  Computations thread a [World]; a JavaScript
    exception is the [Throw] outcome. *)
(* ================================================================== *)

Inductive result (A : Type) : Type :=
  | Ok (a : A)
  | Throw (error : string).
Arguments Ok {A} a.
Arguments Throw {A} error.

(** What a handler does to the page besides touching storage. *)
Inductive Effect :=
  | Alert (message : string)
  | ConsoleError (message : string)
  | OnCancel                       (* the [onCancel] prop is called *)
  | OnCompleteAfter (ms : Z)       (* [setTimeout(() => onComplete(), ms)] *)
  | OnUpdate                       (* the [onUpdate] prop is called *)
  | SetInterval (ms : Z).

Record World := {
  localStorage : gmap string string;
  clock_reads : nat;        (* how many times the clock has been read *)
  random_draws : nat;       (* how many random values have been drawn *)
  effects : list Effect     (* most recent last *)
}.

(** The platform: oracles for the clock and the random source, and the
    passphrase-based AES of crypto-js with its contract.  [AES_encrypt salt
    message passphrase] is [CryptoJS.AES.encrypt(message, passphrase)
    .toString()] when the library draws [salt]; [AES_decrypt ciphertext
    passphrase] is [CryptoJS.AES.decrypt(ciphertext, passphrase)
    .toString(CryptoJS.enc.Utf8)], which throws on malformed UTF-8. *)
Class Platform := {
  Date_now : nat -> Z;
  WordArray_random : nat -> nat -> string;
  Math_random_toString36 : nat -> string;
  navigator_userAgent : string;
  AES_encrypt : string -> string -> string -> string;
  AES_decrypt : string -> string -> result string;
  AES_decrypt_encrypt :
    forall salt message passphrase,
      AES_decrypt (AES_encrypt salt message passphrase) passphrase = Ok message;
  AES_encrypt_nonempty :
    forall salt message passphrase, AES_encrypt salt message passphrase <> ""
}.

(** [JSON.stringify] and [JSON.parse] at the shape [A].  [Ok None] is the
    parse of the literal [null]; [Throw] is a [SyntaxError].  Text that is
    valid JSON of another shape is outside the typed model, as TypeScript
    trusts the cast from [any]. *)
Class JSON (A : Type) := {
  JSON_stringify : A -> string;
  JSON_parse : string -> result (option A)
}.

(** A shape is serializable when parsing undoes printing. *)
Class Serializable (A : Type) `{JSON A} :=
  JSON_parse_stringify : forall x : A, JSON_parse (JSON_stringify x) = Ok (Some x).

Definition JS (A : Type) : Type := World -> result A * World.

#[global] Instance JS_ret : MRet JS := fun A a w => (Ok a, w).
#[global] Instance JS_bind : MBind JS := fun A B f m w =>
  match m w with
  | (Ok a, w') => f a w'
  | (Throw e, w') => (Throw e, w')
  end.

Definition throw {A} (e : string) : JS A := fun w => (Throw e, w).

(** [try { body } catch (error) { handler }] *)
Definition try_catch {A} (body : JS A) (handler : string -> JS A) : JS A :=
  fun w => match body w with
           | (Ok a, w') => (Ok a, w')
           | (Throw e, w') => handler e w'
           end.

Definition lift {A} (r : result A) : JS A := fun w => (r, w).

Definition eval {A} (m : JS A) (w : World) : result A := fst (m w).
Definition exec {A} (m : JS A) (w : World) : World := snd (m w).

(** How a step changes the world. *)
Definition set_item (key value : string) (w : World) : World :=
  {| localStorage := <[key := value]> (localStorage w);
     clock_reads := clock_reads w;
     random_draws := random_draws w;
     effects := effects w |}.

Definition remove_item (key : string) (w : World) : World :=
  {| localStorage := delete key (localStorage w);
     clock_reads := clock_reads w;
     random_draws := random_draws w;
     effects := effects w |}.

Definition ticked (n : nat) (w : World) : World :=
  {| localStorage := localStorage w;
     clock_reads := (n + clock_reads w)%nat;
     random_draws := random_draws w;
     effects := effects w |}.

Definition drawn (n : nat) (w : World) : World :=
  {| localStorage := localStorage w;
     clock_reads := clock_reads w;
     random_draws := (n + random_draws w)%nat;
     effects := effects w |}.

Definition emitted (es : list Effect) (w : World) : World :=
  {| localStorage := localStorage w;
     clock_reads := clock_reads w;
     random_draws := random_draws w;
     effects := effects w ++ es |}.

Module Browser.
Definition getItem (key : string) : JS (option string) :=
  fun w => (Ok (localStorage w !! key), w).

Definition setItem (key value : string) : JS unit :=
  fun w => (Ok tt, set_item key value w).

Definition removeItem (key : string) : JS unit :=
  fun w => (Ok tt, remove_item key w).

Definition emit (e : Effect) : JS unit :=
  fun w => (Ok tt, emitted [e] w).

Definition alert (message : string) : JS unit := emit (Alert message).

Section Oracles.
Context `{Platform}.

(** [Date.now()], also the time value of [new Date()]. *)
Definition now : JS Z :=
  fun w => (Ok (Date_now (clock_reads w)), ticked 1 w).

Definition draw {A} (oracle : nat -> A) : JS A :=
  fun w => (Ok (oracle (random_draws w)), drawn 1 w).

(** [CryptoJS.lib.WordArray.random(nBytes)] *)
Definition random_bytes (nBytes : nat) : JS string :=
  draw (fun k => WordArray_random k nBytes).

(** [Math.random().toString(36)] *)
Definition random_base36 : JS string := draw Math_random_toString36.
End Oracles.
End Browser.

(* ================================================================== *)
(** * [src/utils/crypto.ts] *)
(* ================================================================== *)

Module Crypto.

Definition SECRET_KEY : string := "voting-platform-secret-2024".
Definition ENCRYPTION_KEY : string := "secure-voting-encryption-key-2024".

(** The argument of [hashVote]. *)
Record VoteData := {
  electionId : string;
  positionId : string;
  candidateId : string;
  voterToken : string;
  timestamp : string
}.

(** The template string [voteString] of [hashVote]. *)
Definition voteString (vote : VoteData) : string :=
  electionId vote +:+ "-" +:+ positionId vote +:+ "-" +:+ candidateId vote +:+ "-"
  +:+ voterToken vote +:+ "-" +:+ timestamp vote.

Definition hashVote (vote : VoteData) : string :=
  SHA2.SHA256 (voteString vote +:+ SECRET_KEY).

Definition verifyVoteIntegrity (vote : Vote.t) : bool :=
  let expectedHash :=
    hashVote {| electionId := Vote.electionId vote;
                positionId := Vote.positionId vote;
                candidateId := Vote.candidateId vote;
                voterToken := Vote.voterToken vote;
                timestamp := Vote.timestamp vote |} in
  String.eqb expectedHash (Vote.cryptographicHash vote).

Definition generateSecureHash (data : string) : string :=
  SHA2.SHA512 (data +:+ SECRET_KEY).

Definition verifyDataIntegrity (data hash : string) : bool :=
  let expectedHash := generateSecureHash data in
  String.eqb expectedHash hash.

(** [WordArray.toString()]: two hex digits per byte. *)
Definition toHex (bytes : string) : string :=
  String.concat "" (map (Text.hex 2) (Text.bytes bytes)).

Section WithPlatform.
Context `{Platform}.

Definition generateVoterToken : JS string :=
  bytes ← Browser.random_bytes 32; mret (toHex bytes).

Definition generateSessionId : JS string :=
  bytes ← Browser.random_bytes 16; mret (toHex bytes).

Definition generateElectionVerificationHash {A} `{JSON A} (results : A) : string :=
  let resultsString := JSON_stringify results in
  SHA2.SHA256 (resultsString +:+ SECRET_KEY).

(** crypto-js draws the eight salt bytes inside [AES.encrypt]. *)
Definition encryptSensitiveData (data : string) : JS string :=
  salt ← Browser.random_bytes 8; mret (AES_encrypt salt data ENCRYPTION_KEY).

Definition decryptSensitiveData (encryptedData : string) : JS string :=
  lift (AES_decrypt encryptedData ENCRYPTION_KEY).
End WithPlatform.

End Crypto.

(* ================================================================== *)
(** * [src/utils/storage.ts]: the [SecureStorage] class *)
(* ================================================================== *)

Module Storage.
Section WithPlatform.
Context `{Platform}.

Definition encrypt {A} `{JSON A} (data : A) : JS string :=
  Crypto.encryptSensitiveData (JSON_stringify data).

Definition decrypt {A} `{JSON A} (encryptedData : string) : JS (option A) :=
  try_catch
    (text ← Crypto.decryptSensitiveData encryptedData; lift (JSON_parse text))
    (fun _ => mret None).

(** [encrypted ? this.decrypt(encrypted) || [] : []] *)
Definition read_collection {A} `{JSON (list A)} (key : string) : JS (list A) :=
  encrypted ← Browser.getItem key;
  match encrypted with
  | Some e =>
      if Text.truthy e then decrypted ← decrypt e; mret (default [] decrypted)
      else mret []
  | None => mret []
  end.

Definition write {A} `{JSON A} (key : string) (data : A) : JS unit :=
  blob ← encrypt data; Browser.setItem key blob.

Context `{!JSON (list User.t)} `{!JSON (list Election.t)} `{!JSON (list Vote.t)}
        `{!JSON (list VotingSession.t)} `{!JSON (list SecurityLog.t)}
        `{!JSON (list ElectionResults.t)} `{!JSON User.t}.

(** ** User management *)
Definition getUsers : JS (list User.t) := read_collection "voting_users".
Definition saveUsers (users : list User.t) : JS unit := write "voting_users" users.

Definition getUserByEmail (email : string) : JS (option User.t) :=
  users ← getUsers;
  mret (List.find (fun user => String.eqb (User.email user) email) users).

Definition verifyPassword (inputPassword storedPassword : string) : bool :=
  let hashedInput := Crypto.generateSecureHash inputPassword in
  String.eqb hashedInput storedPassword.

Definition initializeAdminAccount : JS unit :=
  users ← getUsers;
  let adminExists :=
    List.find (fun u => bool_decide (User.role u = admin)) users in
  match adminExists with
  | Some _ => mret tt
  | None =>
      id_time ← Browser.now;
      registered ← Browser.now;
      last ← Browser.now;
      let adminUser :=
        {| User.id := "admin-" +:+ Text.of_Z id_time;
           User.email := "admin@bnmit.in";
           User.password := Crypto.generateSecureHash "VoteBNMIT2024!Admin";
           User.name := "System Administrator";
           User.role := admin;
           User.isVerified := true;
           User.hasVoted := Some ∅;
           User.votingTokens := Some ∅;
           User.registrationDate := Date.toISOString registered;
           User.lastLogin := Date.toISOString last |} in
      saveUsers (users ++ [adminUser])
  end.

(** ** Elections management *)
Definition getElections : JS (list Election.t) := read_collection "voting_elections".
Definition saveElections (elections : list Election.t) : JS unit :=
  write "voting_elections" elections.

Definition getElectionById (id : string) : JS (option Election.t) :=
  elections ← getElections;
  mret (List.find (fun election => String.eqb (Election.id election) id) elections).

(** ** Votes management *)
Definition getVotes : JS (list Vote.t) := read_collection "voting_votes".
Definition saveVotes (votes : list Vote.t) : JS unit := write "voting_votes" votes.

Definition getVotesByElection (electionId : string) : JS (list Vote.t) :=
  votes ← getVotes;
  mret (List.filter (fun vote => String.eqb (Vote.electionId vote) electionId) votes).

(** [user?.hasVoted?.[electionId] === true] *)
Definition hasUserVotedInElection (userId electionId : string) : JS bool :=
  users ← getUsers;
  let user := List.find (fun u => String.eqb (User.id u) userId) users in
  mret (match user with
        | Some u =>
            match User.hasVoted u with
            | Some flags => bool_decide (flags !! electionId = Some true)
            | None => false
            end
        | None => false
        end).

(** ** Voting sessions management *)
Definition getVotingSessions : JS (list VotingSession.t) :=
  read_collection "voting_sessions".
Definition saveVotingSessions (sessions : list VotingSession.t) : JS unit :=
  write "voting_sessions" sessions.

(** ** Security logs management *)
Definition getSecurityLogs : JS (list SecurityLog.t) :=
  read_collection "voting_security_logs".
Definition saveSecurityLogs (logs : list SecurityLog.t) : JS unit :=
  write "voting_security_logs" logs.

Definition addSecurityLog (log : SecurityLog.entry) : JS unit :=
  logs ← getSecurityLogs;
  id_time ← Browser.now;
  stamp ← Browser.now;
  let newLog := SecurityLog.complete log (Text.of_Z id_time) (Date.toISOString stamp) in
  saveSecurityLogs (logs ++ [newLog]).

(** ** Results management *)
Definition getElectionResults : JS (list ElectionResults.t) :=
  read_collection "voting_results".
Definition saveElectionResults (results : list ElectionResults.t) : JS unit :=
  write "voting_results" results.

(** ** Current user session *)
Definition getCurrentUser : JS (option User.t) :=
  encrypted ← Browser.getItem "voting_current_user";
  match encrypted with
  | Some e => if Text.truthy e then decrypt e else mret None
  | None => mret None
  end.

Definition setCurrentUser (user : option User.t) : JS unit :=
  match user with
  | Some u => write "voting_current_user" u
  | None => Browser.removeItem "voting_current_user"
  end.

Definition clearAllData : JS unit :=
  let keys := ["voting_users"; "voting_elections"; "voting_votes"; "voting_sessions";
               "voting_security_logs"; "voting_results"; "voting_current_user"] in
  fold_right (fun key rest => Browser.removeItem key;; rest) (mret tt) keys.

End WithPlatform.
End Storage.

(* ================================================================== *)
(** * JavaScript arrays and objects as the components use them *)
(* ================================================================== *)

Module Array.
Section Sort.
Context {A : Type}.
Variable compareFn : A -> A -> Z.

(** [x] goes before the first element it does not have to follow. *)
Fixpoint insert (x : A) (l : list A) : list A :=
  match l with
  | [] => [x]
  | y :: r => if compareFn x y <=? 0 then x :: y :: r else y :: insert x r
  end.

(** [Array.prototype.sort(compareFn)]: a stable sort (ECMAScript 2019). *)
Definition sort (l : list A) : list A := fold_right insert [] l.
End Sort.
End Array.

Module JsObject.
(** A plain object with string keys: its own properties, in creation order. *)
Definition t (V : Type) : Type := list (string * V).

Section Ops.
Context {V : Type}.

(** The own property [key] of [o]. *)
Fixpoint get (key : string) (o : t V) : option V :=
  match o with
  | [] => None
  | (k, v) :: r => if String.eqb k key then Some v else get key r
  end.

(** [{ ...o, [key]: value }]: the property is defined on the new object
    whatever its name; an existing property keeps its place. *)
Fixpoint set (key : string) (value : V) (o : t V) : t V :=
  match o with
  | [] => [(key, value)]
  | (k, v) :: r =>
      if String.eqb k key then (k, value) :: r else (k, v) :: set key value r
  end.

(** The names every plain object inherits from [Object.prototype]: under
    ["__proto__"] the prototype object itself, under the others a function. *)
Definition inherited : list string :=
  ["__proto__"; "constructor"; "hasOwnProperty"; "isPrototypeOf";
   "propertyIsEnumerable"; "toLocaleString"; "toString"; "valueOf";
   "__defineGetter__"; "__defineSetter__"; "__lookupGetter__"; "__lookupSetter__"].

(** What [o[key]] evaluates to: the own property; without one, the object or
    function inherited under that name; [undefined] otherwise. *)
Inductive lookup :=
  | Own (value : V)
  | Inherited
  | Undefined.

Definition read (key : string) (o : t V) : lookup :=
  match get key o with
  | Some v => Own v
  | None => if existsb (String.eqb key) inherited then Inherited else Undefined
  end.

(** [o[key] = value] for a value that is not an object (here: a string).  An
    own property is overwritten; a new one is created, except under the name
    ["__proto__"]: there the assignment calls the setter inherited from
    [Object.prototype], which ignores a value that is neither an object nor
    [null], and the object stays as it is. *)
Definition assign (key : string) (value : V) (o : t V) : t V :=
  match get key o with
  | Some _ => set key value o
  | None => if String.eqb key "__proto__" then o else set key value o
  end.

(** The value of a decimal numeral without sign. *)
Fixpoint numeral (s : string) (acc : Z) : option Z :=
  match s with
  | EmptyString => Some acc
  | String c r =>
      let d := Z.of_N (N_of_ascii c) - 48 in
      if (0 <=? d) && (d <=? 9) then numeral r (10 * acc + d) else None
  end.

(** An array index is the canonical numeral of an integer below 2^32 - 1. *)
Definition array_index (key : string) : option Z :=
  match key with
  | EmptyString => None
  | _ => match numeral key 0 with
         | Some n => if (n <=? 4294967294) && String.eqb (Text.of_Z n) key
                     then Some n else None
         | None => None
         end
  end.

Definition is_index (p : string * V) : bool :=
  match array_index (fst p) with Some _ => true | None => false end.

Definition index_order (p q : string * V) : Z :=
  default 0 (array_index (fst p)) - default 0 (array_index (fst q)).

(** [Object.entries(o)]: array-index keys in ascending order, then the
    other keys in creation order. *)
Definition entries (o : t V) : list (string * V) :=
  Array.sort index_order (List.filter is_index o)
  ++ List.filter (fun p => negb (is_index p)) o.
End Ops.

Arguments lookup V : clear implicits.
End JsObject.

(* ================================================================== *)
(** * JavaScript numbers that hold integers *)
(* ================================================================== *)

Module JsNumber.

(** The double nearest to the integer [z], ties to the even significand
    (IEEE 754 round-to-nearest-even): an integer of magnitude up to 2^53 is
    a double; a larger one keeps its 53 leading bits.  The integers the
    application adds are a stored counter, itself a finite double, and an
    array length, so that the sum stays below the largest double. *)
Definition round (z : Z) : Z :=
  if Z.abs z <=? 2 ^ 53 then z
  else
    let shift := Z.log2 (Z.abs z) - 52 in
    let kept := Z.shiftr (Z.abs z) shift in
    let rest := Z.land (Z.abs z) (Z.ones shift) in
    let half := Z.shiftl 1 (shift - 1) in
    let up := (half <? rest) || ((rest =? half) && Z.odd kept) in
    Z.sgn z * Z.shiftl (if up then kept + 1 else kept) shift.

(** [a + b] *)
Definition add (a b : Z) : Z := round (a + b).

End JsNumber.

(* ================================================================== *)
(** * [src/components/VotingInterface.tsx] *)
(* ================================================================== *)

Module VotingInterface.

(** The component's [useState] cells. *)
Record state := {
  currentStep : nat;
  votes : JsObject.t string;              (* positionId -> candidateId *)
  isSubmitting : bool;
  votingSession : option VotingSession.t;
  errors : list string;
  showConfirmation : bool;
  timeRemaining : Z;
  isCompleted : bool
}.

Definition initial : state :=
  {| currentStep := 0; votes := []; isSubmitting := false; votingSession := None;
     errors := []; showConfirmation := false; timeRemaining := 30 * 60;
     isCompleted := false |}.

Definition setCurrentStep (n : nat) (st : state) : state :=
  {| currentStep := n; votes := votes st; isSubmitting := isSubmitting st;
     votingSession := votingSession st; errors := errors st;
     showConfirmation := showConfirmation st; timeRemaining := timeRemaining st;
     isCompleted := isCompleted st |}.
Definition setVotes (v : JsObject.t string) (st : state) : state :=
  {| currentStep := currentStep st; votes := v; isSubmitting := isSubmitting st;
     votingSession := votingSession st; errors := errors st;
     showConfirmation := showConfirmation st; timeRemaining := timeRemaining st;
     isCompleted := isCompleted st |}.
Definition setIsSubmitting (b : bool) (st : state) : state :=
  {| currentStep := currentStep st; votes := votes st; isSubmitting := b;
     votingSession := votingSession st; errors := errors st;
     showConfirmation := showConfirmation st; timeRemaining := timeRemaining st;
     isCompleted := isCompleted st |}.
Definition setVotingSession (s : option VotingSession.t) (st : state) : state :=
  {| currentStep := currentStep st; votes := votes st; isSubmitting := isSubmitting st;
     votingSession := s; errors := errors st;
     showConfirmation := showConfirmation st; timeRemaining := timeRemaining st;
     isCompleted := isCompleted st |}.
Definition setErrors (e : list string) (st : state) : state :=
  {| currentStep := currentStep st; votes := votes st; isSubmitting := isSubmitting st;
     votingSession := votingSession st; errors := e;
     showConfirmation := showConfirmation st; timeRemaining := timeRemaining st;
     isCompleted := isCompleted st |}.
Definition setShowConfirmation (b : bool) (st : state) : state :=
  {| currentStep := currentStep st; votes := votes st; isSubmitting := isSubmitting st;
     votingSession := votingSession st; errors := errors st;
     showConfirmation := b; timeRemaining := timeRemaining st;
     isCompleted := isCompleted st |}.
Definition setTimeRemaining (t : Z) (st : state) : state :=
  {| currentStep := currentStep st; votes := votes st; isSubmitting := isSubmitting st;
     votingSession := votingSession st; errors := errors st;
     showConfirmation := showConfirmation st; timeRemaining := t;
     isCompleted := isCompleted st |}.
Definition setIsCompleted (b : bool) (st : state) : state :=
  {| currentStep := currentStep st; votes := votes st; isSubmitting := isSubmitting st;
     votingSession := votingSession st; errors := errors st;
     showConfirmation := showConfirmation st; timeRemaining := timeRemaining st;
     isCompleted := b |}.

Section Component.
Context `{Platform}.
Context `{!JSON (list User.t)} `{!JSON (list Election.t)} `{!JSON (list Vote.t)}
        `{!JSON (list VotingSession.t)} `{!JSON (list SecurityLog.t)}
        `{!JSON User.t}.

(** The props [election] and [user]. *)
Variable election : Election.t.
Variable user : User.t.

Definition createVotingSession (st : state) : JS state :=
  voterToken ← Crypto.generateVoterToken;
  sessionId ← Crypto.generateSessionId;
  created ← Browser.now;
  let session :=
    {| VotingSession.sessionId := sessionId;
       VotingSession.voterToken := voterToken;
       VotingSession.electionId := Election.id election;
       VotingSession.isActive := true;
       VotingSession.expiresAt := Date.toISOString (created + 30 * 60 * 1000);
       VotingSession.ipAddress := "localhost";
       VotingSession.userAgent := navigator_userAgent |} in
  sessions ← Storage.getVotingSessions;
  Storage.saveVotingSessions (sessions ++ [session]);;
  users ← Storage.getUsers;
  let updatedUsers :=
    map (fun u =>
           if String.eqb (User.id u) (User.id user)
           then User.with_votingTokens
                  (<[Election.id election := voterToken]>
                     (default ∅ (User.votingTokens u))) u
           else u) users in
  Storage.saveUsers updatedUsers;;
  mret (setVotingSession (Some session) st).

(** The [useEffect] that runs once when the component mounts. *)
Definition mount (st : state) : JS state :=
  voted ← Storage.hasUserVotedInElection (User.id user) (Election.id election);
  if voted : bool then
    Storage.addSecurityLog
      {| SecurityLog.e_type := double_vote_attempt;
         SecurityLog.e_message :=
           "User attempted to vote again in election: " +:+ Election.title election;
         SecurityLog.e_userId := Some (User.id user);
         SecurityLog.e_electionId := Some (Election.id election);
         SecurityLog.e_ipAddress := "localhost";
         SecurityLog.e_severity := high;
         SecurityLog.e_metadata := None |};;
    Browser.alert "Security Alert: You have already voted in this election!";;
    Browser.emit OnCancel;;
    mret st
  else
    st1 ← createVotingSession st;
    let initialVotes :=
      fold_left (fun o position => JsObject.assign (Position.id position) "" o)
                (Election.positions election) [] in
    Browser.emit (SetInterval 1000);;
    mret (setVotes initialVotes st1).

(** One firing of the countdown timer. *)
Definition tick (st : state) : JS state :=
  if timeRemaining st <=? 1 then
    Browser.alert "Your voting session has expired. Please start again.";;
    Browser.emit OnCancel;;
    mret (setTimeRemaining 0 st)
  else mret (setTimeRemaining (timeRemaining st - 1) st).

Definition handleVoteChange (positionId candidateId : string) (st : state) : state :=
  setVotes (JsObject.set positionId candidateId (votes st)) st.

(** [!positionVote]: [undefined] or the empty string; what a ballot
    inherits from [Object.prototype] is truthy. *)
Definition unselected (positionVote : JsObject.lookup string) : bool :=
  match positionVote with
  | JsObject.Own c => negb (Text.truthy c)
  | JsObject.Inherited => false
  | JsObject.Undefined => true
  end.

Definition validateVotes (st : state) : bool * state :=
  let newErrors :=
    flat_map (fun position =>
                if unselected (JsObject.read (Position.id position) (votes st))
                then ["Please select a candidate for " +:+ Position.title position]
                else [])
             (Election.positions election) in
  (bool_decide (length newErrors = 0%nat), setErrors newErrors st).

Definition handleNext (st : state) : state :=
  if bool_decide (Z.of_nat (currentStep st)
                  < Z.of_nat (length (Election.positions election)) - 1)
  then setCurrentStep (currentStep st + 1) st
  else
    let '(ok, st') := validateVotes st in
    if ok then setShowConfirmation true st' else st'.

Definition handlePrevious (st : state) : state :=
  if bool_decide (0 < currentStep st)%nat
  then setCurrentStep (currentStep st - 1) st else st.

(** The body of [Object.entries(votes).forEach(...)]: one vote record for
    an entry whose candidate is not empty. *)
Definition castVote (votingSession : VotingSession.t) (timestamp : string)
    (entry : string * string) (newVotes : list Vote.t) : JS (list Vote.t) :=
  let '(positionId, candidateId) := entry in
  if Text.truthy candidateId then
    let voteData :=
      {| Crypto.electionId := Election.id election;
         Crypto.positionId := positionId;
         Crypto.candidateId := candidateId;
         Crypto.voterToken := VotingSession.voterToken votingSession;
         Crypto.timestamp := timestamp |} in
    id_time ← Browser.now;
    suffix ← Browser.random_base36;
    let vote :=
      {| Vote.id := Text.of_Z id_time +:+ Text.substr 2 9 suffix;
         Vote.electionId := Crypto.electionId voteData;
         Vote.positionId := Crypto.positionId voteData;
         Vote.candidateId := Crypto.candidateId voteData;
         Vote.voterToken := Crypto.voterToken voteData;
         Vote.timestamp := Crypto.timestamp voteData;
         Vote.cryptographicHash := Crypto.hashVote voteData;
         Vote.verified := true |} in
    mret (newVotes ++ [vote])
  else mret newVotes.

Fixpoint forEach {A B} (f : A -> B -> JS B) (l : list A) (acc : B) : JS B :=
  match l with
  | [] => mret acc
  | x :: r => acc' ← f x acc; forEach f r acc'
  end.

Definition submitVotes (st : state) : JS state :=
  match votingSession st with
  | None =>
      Browser.alert "Invalid voting session. Please try again.";;
      mret st
  | Some session =>
      voted ← Storage.hasUserVotedInElection (User.id user) (Election.id election);
      if voted : bool then
        Storage.addSecurityLog
          {| SecurityLog.e_type := double_vote_attempt;
             SecurityLog.e_message :=
               "Double vote attempt blocked during submission for election: "
               +:+ Election.title election;
             SecurityLog.e_userId := Some (User.id user);
             SecurityLog.e_electionId := Some (Election.id election);
             SecurityLog.e_ipAddress := "localhost";
             SecurityLog.e_severity := critical;
             SecurityLog.e_metadata := None |};;
        Browser.alert "Security Alert: Vote already recorded for this election!";;
        Browser.emit OnCancel;;
        mret st
      else
        let st1 := setIsSubmitting true st in
        try_catch
          (allVotes ← Storage.getVotes;
           stamp ← Browser.now;
           let timestamp := Date.toISOString stamp in
           newVotes ← forEach (castVote session timestamp)
                              (JsObject.entries (votes st)) [];
           Storage.saveVotes (allVotes ++ newVotes);;
           users ← Storage.getUsers;
           let updatedUsers :=
             map (fun u =>
                    if String.eqb (User.id u) (User.id user)
                    then User.with_hasVoted
                           (<[Election.id election := true]>
                              (default ∅ (User.hasVoted u))) u
                    else u) users in
           Storage.saveUsers updatedUsers;;
           (match List.find (fun u => String.eqb (User.id u) (User.id user))
                            updatedUsers with
            | Some updatedUser => Storage.setCurrentUser (Some updatedUser)
            | None => mret tt
            end);;
           elections ← Storage.getElections;
           let updatedElections :=
             map (fun e =>
                    if String.eqb (Election.id e) (Election.id election)
                    then Election.with_totalVotes
                           (JsNumber.add (Election.totalVotes e)
                                         (Z.of_nat (length newVotes))) e
                    else e) elections in
           Storage.saveElections updatedElections;;
           sessions ← Storage.getVotingSessions;
           let updatedSessions :=
             map (fun s =>
                    if String.eqb (VotingSession.sessionId s)
                                  (VotingSession.sessionId session)
                    then VotingSession.with_isActive false s
                    else s) sessions in
           Storage.saveVotingSessions updatedSessions;;
           Storage.addSecurityLog
             {| SecurityLog.e_type := vote_cast;
                SecurityLog.e_message :=
                  "Vote successfully cast in election: " +:+ Election.title election;
                SecurityLog.e_userId := Some (User.id user);
                SecurityLog.e_electionId := Some (Election.id election);
                SecurityLog.e_ipAddress := "localhost";
                SecurityLog.e_severity := low;
                SecurityLog.e_metadata := None |};;
           Browser.emit (OnCompleteAfter 2000);;
           mret (setIsCompleted true (setIsSubmitting false st1)))
          (fun error =>
             Browser.emit (ConsoleError ("Error submitting votes: " +:+ error));;
             Browser.alert
               "An error occurred while submitting your vote. Please try again.";;
             mret (setIsSubmitting false st1))
  end.

End Component.
End VotingInterface.

(* ================================================================== *)
(** * [src/components/ElectionManagement.tsx] *)
(* ================================================================== *)

Module ElectionManagement.
Section Component.
Context `{Platform}.
Context `{!JSON (list Election.t)} `{!JSON (list Vote.t)}
        `{!JSON (list SecurityLog.t)} `{!JSON User.t}.

(** [loadElections]: the component's [elections] state is read from storage. *)
Definition loadElections : JS (list Election.t) := Storage.getElections.

(** [deleteElection(electionId)], run with the component's current
    [elections] state; [confirmed] is the answer to the [confirm] dialog.
    The result is the [elections] state after the handler. *)
Definition deleteElection (elections : list Election.t) (electionId : string)
    (confirmed : bool) : JS (list Election.t) :=
  if confirmed then
    let updatedElections :=
      List.filter (fun e => negb (String.eqb (Election.id e) electionId)) elections in
    Storage.saveElections updatedElections;;
    votes ← Storage.getVotes;
    let updatedVotes :=
      List.filter (fun v => negb (String.eqb (Vote.electionId v) electionId)) votes in
    Storage.saveVotes updatedVotes;;
    let title :=
      match List.find (fun e => String.eqb (Election.id e) electionId) elections with
      | Some e => Election.title e
      | None => "undefined"
      end in
    currentUser ← Storage.getCurrentUser;
    Storage.addSecurityLog
      {| SecurityLog.e_type := admin_action;
         SecurityLog.e_message := "Election deleted: " +:+ title;
         SecurityLog.e_userId := User.id <$> currentUser;
         SecurityLog.e_electionId := Some electionId;
         SecurityLog.e_ipAddress := "localhost";
         SecurityLog.e_severity := medium;
         SecurityLog.e_metadata := None |};;
    reloaded ← loadElections;
    Browser.emit OnUpdate;;
    mret reloaded
  else mret elections.
End Component.
End ElectionManagement.

(* ================================================================== *)
(** * [src/components/ResultsViewer.tsx] *)
(* ================================================================== *)

Module ResultsViewer.

(** A length as a JavaScript number. *)
Definition toNumber (n : nat) : float := of_uint63 (Uint63.of_Z (Z.of_nat n)).

(** [total > 0 ? (part / total) * 100 : 0] *)
Definition percentOf (part total : nat) : float :=
  if (0 <? total)%nat
  then PrimFloat.mul (PrimFloat.div (toNumber part) (toNumber total)) 100%float
  else 0%float.

(** The callback of [position.candidates.map]. *)
Definition candidateResult (positionVotes : list Vote.t) (totalPositionVotes : nat)
    (candidate : Candidate.t) : ElectionResults.candidate :=
  let candidateVotes :=
    length (List.filter (fun v => String.eqb (Vote.candidateId v) (Candidate.id candidate))
                        positionVotes) in
  {| ElectionResults.candidateId := Candidate.id candidate;
     ElectionResults.candidateName := Candidate.name candidate;
     ElectionResults.voteCount := candidateVotes;
     ElectionResults.percentage := percentOf candidateVotes totalPositionVotes |}.

(** [(a, b) => b.voteCount - a.voteCount] *)
Definition byVoteCountDescending (a b : ElectionResults.candidate) : Z :=
  Z.of_nat (ElectionResults.voteCount b) - Z.of_nat (ElectionResults.voteCount a).

(** The callback of [election.positions.map]. *)
Definition positionResult (votes : list Vote.t) (position : Position.t)
    : ElectionResults.position :=
  let positionVotes :=
    List.filter (fun v => String.eqb (Vote.positionId v) (Position.id position)) votes in
  let totalPositionVotes := length positionVotes in
  let candidateResults :=
    map (candidateResult positionVotes totalPositionVotes) (Position.candidates position) in
  {| ElectionResults.positionId := Position.id position;
     ElectionResults.positionTitle := Position.title position;
     ElectionResults.candidates := Array.sort byVoteCountDescending candidateResults;
     ElectionResults.totalVotes := totalPositionVotes |}.

(** [new Set(votes.map(v => v.voterToken)).size] *)
Definition uniqueVoters (votes : list Vote.t) : nat :=
  size (list_to_set (map Vote.voterToken votes) : gset string).

(** The winner badge of the results list. *)
Definition isWinner (index : nat) (candidate : ElectionResults.candidate) : bool :=
  (index =? 0)%nat && (0 <? ElectionResults.voteCount candidate)%nat.

Section Component.
Context `{Platform}.
Context `{!JSON (list User.t)} `{!JSON (list Vote.t)} `{!JSON ElectionResults.t}
        `{!JSON (list ElectionResults.t)}.

Definition calculateResults (election : Election.t) : JS ElectionResults.t :=
  votes ← Storage.getVotesByElection (Election.id election);
  let unique := uniqueVoters votes in
  users ← Storage.getUsers;
  let totalRegisteredVoters :=
    length (List.filter (fun u => bool_decide (User.role u = voter)) users) in
  let positionResults := map (positionResult votes) (Election.positions election) in
  let results :=
    {| ElectionResults.electionId := Election.id election;
       ElectionResults.positions := positionResults;
       ElectionResults.totalParticipants := unique;
       ElectionResults.turnoutPercentage := percentOf unique totalRegisteredVoters;
       ElectionResults.verificationHash := "" |} in
  mret (ElectionResults.with_verificationHash
          (Crypto.generateElectionVerificationHash results) results).

(** [savedResults[existingIndex] = calculatedResults], or [push]. *)
Fixpoint replaceOrPush (r : ElectionResults.t) (saved : list ElectionResults.t)
    : list ElectionResults.t :=
  match saved with
  | [] => [r]
  | x :: rest =>
      if String.eqb (ElectionResults.electionId x) (ElectionResults.electionId r)
      then r :: rest else x :: replaceOrPush r rest
  end.

Definition viewResults (election : Election.t) : JS ElectionResults.t :=
  calculatedResults ← calculateResults election;
  savedResults ← Storage.getElectionResults;
  Storage.saveElectionResults (replaceOrPush calculatedResults savedResults);;
  mret calculatedResults.
End Component.
End ResultsViewer.

(* ================================================================== *)
(** * JSON text: a printer and a parser

    The part of [JSON.stringify] and [JSON.parse] that the stored
    collections need: [null], booleans, integers, strings, arrays and
    objects, printed without white space. *)
(* ================================================================== *)

Module Json.

Inductive value :=
  | Null
  | Bool (b : bool)
  | Number (n : Z)
  | Str (s : string)
  | Array (items : values)
  | Object (fields : members)
with values :=
  | no_items
  | item (v : value) (rest : values)
with members :=
  | no_fields
  | field (key : string) (v : value) (rest : members).

Scheme value_mut := Induction for value Sort Prop
with values_mut := Induction for values Sort Prop
with members_mut := Induction for members Sort Prop.
Combined Scheme json_mutind from value_mut, values_mut, members_mut.

Definition quote : ascii := ascii_of_nat 34.
Definition backslash : ascii := ascii_of_nat 92.

Definition code (c : ascii) : Z := Z.of_N (N_of_ascii c).
Definition char (n : Z) : ascii := ascii_of_N (Z.to_N n).

(** ** Printing, as [JSON.stringify] without indentation *)

(** One character of a string literal. *)
Definition escape (c : ascii) : string :=
  let n := code c in
  if n =? 34 then String backslash (String quote "")
  else if n =? 92 then String backslash (String backslash "")
  else if n =? 8 then String backslash "b"
  else if n =? 12 then String backslash "f"
  else if n =? 10 then String backslash "n"
  else if n =? 13 then String backslash "r"
  else if n =? 9 then String backslash "t"
  else if n <? 32 then String backslash ("u00" +:+ Text.hex 2 n)
  else String c "".

Fixpoint escape_all (s : string) : string :=
  match s with
  | EmptyString => EmptyString
  | String c r => escape c +:+ escape_all r
  end.

Definition quoted (s : string) : string :=
  String quote (escape_all s +:+ String quote "").

Fixpoint print (v : value) : string :=
  match v with
  | Null => "null"
  | Bool true => "true"
  | Bool false => "false"
  | Number n => Text.of_Z n
  | Str s => quoted s
  | Array no_items => "[]"
  | Array items => "[" +:+ print_items items
  | Object no_fields => "{}"
  | Object fields => "{" +:+ print_fields fields
  end
with print_items (l : values) : string :=
  match l with
  | no_items => EmptyString
  | item x no_items => print x +:+ "]"
  | item x r => print x +:+ "," +:+ print_items r
  end
with print_fields (l : members) : string :=
  match l with
  | no_fields => EmptyString
  | field k x no_fields => quoted k +:+ ":" +:+ print x +:+ "}"
  | field k x r => quoted k +:+ ":" +:+ print x +:+ "," +:+ print_fields r
  end.

(** ** Parsing *)

Definition is_digit (c : ascii) : bool := (48 <=? code c) && (code c <=? 57).

(** The digits at the head of [s], read onto [acc]. *)
Fixpoint digits (s : string) (acc : Z) : Z * string :=
  match s with
  | String c r => if is_digit c then digits r (10 * acc + (code c - 48)) else (acc, s)
  | EmptyString => (acc, s)
  end.

(** An integer literal.  Fractions and exponents are not read. *)
Definition number (s : string) : option (Z * string) :=
  match s with
  | String c r =>
      if code c =? 45 then
        match r with
        | String d _ => if is_digit d then Some (- fst (digits r 0), snd (digits r 0))
                        else None
        | EmptyString => None
        end
      else if is_digit c then Some (digits s 0)
      else None
  | EmptyString => None
  end.

Definition hex_value (c : ascii) : option Z :=
  let n := code c in
  if (48 <=? n) && (n <=? 57) then Some (n - 48)
  else if (97 <=? n) && (n <=? 102) then Some (n - 87)
  else if (65 <=? n) && (n <=? 70) then Some (n - 55)
  else None.

(** The UTF-8 bytes of a code point of the basic plane. *)
Definition utf8 (cp : Z) : string :=
  if cp <? 128 then Text.of_bytes [cp]
  else if cp <? 2048 then Text.of_bytes [192 + cp / 64; 128 + cp mod 64]
  else Text.of_bytes [224 + cp / 4096; 128 + cp / 64 mod 64; 128 + cp mod 64].

(** [t] put before what was read after it. *)
Definition before (t : string) (r : option (string * string)) : option (string * string) :=
  match r with
  | Some (u, rest) => Some (t +:+ u, rest)
  | None => None
  end.

(** The characters of a string literal after its opening quote, up to the
    closing quote.  An escaped surrogate is not read. *)
Fixpoint literal (s : string) : option (string * string) :=
  match s with
  | EmptyString => None
  | String c r =>
      if code c =? 34 then Some (EmptyString, r)
      else if code c =? 92 then
        match r with
        | String e r1 =>
            let n := code e in
            if n =? 34 then before (String (char 34) "") (literal r1)
            else if n =? 92 then before (String (char 92) "") (literal r1)
            else if n =? 47 then before (String (char 47) "") (literal r1)
            else if n =? 98 then before (String (char 8) "") (literal r1)
            else if n =? 102 then before (String (char 12) "") (literal r1)
            else if n =? 110 then before (String (char 10) "") (literal r1)
            else if n =? 114 then before (String (char 13) "") (literal r1)
            else if n =? 116 then before (String (char 9) "") (literal r1)
            else if n =? 117 then
              match r1 with
              | String h1 (String h2 (String h3 (String h4 r2))) =>
                  match hex_value h1, hex_value h2, hex_value h3, hex_value h4 with
                  | Some a, Some b, Some c', Some d =>
                      let cp := ((a * 16 + b) * 16 + c') * 16 + d in
                      if (55296 <=? cp) && (cp <=? 57343) then None
                      else before (utf8 cp) (literal r2)
                  | _, _, _, _ => None
                  end
              | _ => None
              end
            else None
        | EmptyString => None
        end
      else if code c <? 32 then None
      else before (String c "") (literal r)
  end.

(** [s] without the prefix [p]. *)
Fixpoint after (p s : string) : option string :=
  match p, s with
  | EmptyString, _ => Some s
  | String a p', String b s' => if Ascii.eqb a b then after p' s' else None
  | String _ _, EmptyString => None
  end.

Definition keyword (p : string) (v : value) (s : string) : option (value * string) :=
  match after p s with
  | Some rest => Some (v, rest)
  | None => None
  end.

Definition starts_with (n : Z) (s : string) : bool :=
  match s with
  | String c _ => code c =? n
  | EmptyString => false
  end.

Definition tail (s : string) : string :=
  match s with
  | String _ r => r
  | EmptyString => EmptyString
  end.

Fixpoint parse_value (fuel : nat) (s : string) : option (value * string) :=
  match fuel with
  | O => None
  | S f =>
      match s with
      | EmptyString => None
      | String c r =>
          let n := code c in
          if n =? 110 then keyword "ull" Null r
          else if n =? 116 then keyword "rue" (Bool true) r
          else if n =? 102 then keyword "alse" (Bool false) r
          else if n =? 91 then
            if starts_with 93 r then Some (Array no_items, tail r)
            else match parse_items f r with
                 | Some (l, rest) => Some (Array l, rest)
                 | None => None
                 end
          else if n =? 123 then
            if starts_with 125 r then Some (Object no_fields, tail r)
            else match parse_fields f r with
                 | Some (l, rest) => Some (Object l, rest)
                 | None => None
                 end
          else if n =? 34 then
            match literal r with
            | Some (t, rest) => Some (Str t, rest)
            | None => None
            end
          else match number s with
               | Some (k, rest) => Some (Number k, rest)
               | None => None
               end
      end
  end
with parse_items (fuel : nat) (s : string) : option (values * string) :=
  match fuel with
  | O => None
  | S f =>
      match parse_value f s with
      | Some (v, rest) =>
          if starts_with 44 rest then
            match parse_items f (tail rest) with
            | Some (l, rest') => Some (item v l, rest')
            | None => None
            end
          else if starts_with 93 rest then Some (item v no_items, tail rest)
          else None
      | None => None
      end
  end
with parse_fields (fuel : nat) (s : string) : option (members * string) :=
  match fuel with
  | O => None
  | S f =>
      if starts_with 34 s then
        match literal (tail s) with
        | Some (k, rest) =>
            if starts_with 58 rest then
              match parse_value f (tail rest) with
              | Some (v, rest') =>
                  if starts_with 44 rest' then
                    match parse_fields f (tail rest') with
                    | Some (l, rest'') => Some (field k v l, rest'')
                    | None => None
                    end
                  else if starts_with 125 rest' then Some (field k v no_fields, tail rest')
                  else None
              | None => None
              end
            else None
        | None => None
        end
      else None
  end.

(** [JSON.parse], for text without white space between tokens. *)
Definition parse (text : string) : option value :=
  match parse_value (S (String.length text)) text with
  | Some (v, EmptyString) => Some v
  | _ => None
  end.

End Json.

(* ================================================================== *)
(** * JSON at the shapes of the data model *)
(* ================================================================== *)

Module Shape.
Import Json.

(** How a type is written as a JSON value and read back. *)
Class t (A : Type) := {
  to_json : A -> value;
  of_json : value -> option A
}.

#[global] Instance string_shape : t string := {|
  to_json s := Str s;
  of_json v := match v with Str s => Some s | _ => None end
|}.

#[global] Instance bool_shape : t bool := {|
  to_json b := Bool b;
  of_json v := match v with Bool b => Some b | _ => None end
|}.

#[global] Instance Z_shape : t Z := {|
  to_json n := Number n;
  of_json v := match v with Number n => Some n | _ => None end
|}.

Section Containers.
Context {A : Type} `{t A}.

Fixpoint to_items (l : list A) : values :=
  match l with
  | [] => no_items
  | x :: r => item (to_json x) (to_items r)
  end.

Fixpoint of_items (vs : values) : option (list A) :=
  match vs with
  | no_items => Some []
  | item v r =>
      match of_json v, of_items r with
      | Some x, Some l => Some (x :: l)
      | _, _ => None
      end
  end.

Fixpoint to_fields (l : list (string * A)) : members :=
  match l with
  | [] => no_fields
  | (k, x) :: r => field k (to_json x) (to_fields r)
  end.

Fixpoint of_fields (m : members) : option (list (string * A)) :=
  match m with
  | no_fields => Some []
  | field k v r =>
      match of_json v, of_fields r with
      | Some x, Some l => Some ((k, x) :: l)
      | _, _ => None
      end
  end.

(** An array. *)
#[global] Instance list_shape : t (list A) := {|
  to_json l := Array (to_items l);
  of_json v := match v with Array vs => of_items vs | _ => None end
|}.

(** An object used as a dictionary. *)
#[global] Instance dict_shape : t (gmap string A) := {|
  to_json m := Object (to_fields (map_to_list m));
  of_json v :=
    match v with
    | Object ms => match of_fields ms with
                   | Some l => Some (list_to_map l)
                   | None => None
                   end
    | _ => None
    end
|}.

(** The value of a property of an object. *)
Fixpoint get (k : string) (m : members) : option value :=
  match m with
  | no_fields => None
  | field k' v r => if String.eqb k k' then Some v else get k r
  end.

(** A property that the interface requires. *)
Definition required (k : string) (m : members) : option A :=
  match get k m with
  | Some v => of_json v
  | None => None
  end.

(** A property that the interface marks with [?]. *)
Definition optional (k : string) (m : members) : option (option A) :=
  match get k m with
  | Some v => match of_json v with Some x => Some (Some x) | None => None end
  | None => Some None
  end.

Definition put (k : string) (x : A) (rest : members) : members :=
  field k (to_json x) rest.

(** [JSON.stringify] leaves out a property that is [undefined]. *)
Definition put_optional (k : string) (x : option A) (rest : members) : members :=
  match x with
  | Some a => put k a rest
  | None => rest
  end.
End Containers.

#[global] Instance Role_shape : t Role := {|
  to_json r := Str match r with admin => "admin" | voter => "voter" end;
  of_json v :=
    match v with
    | Str s => if String.eqb s "admin" then Some admin
               else if String.eqb s "voter" then Some voter
               else None
    | _ => None
    end
|}.

Definition LogType_name (x : LogType) : string :=
  match x with
  | login => "login"
  | vote_cast => "vote_cast"
  | double_vote_attempt => "double_vote_attempt"
  | invalid_access => "invalid_access"
  | admin_action => "admin_action"
  | session_expired => "session_expired"
  | suspicious_activity => "suspicious_activity"
  end.

Definition named {A} (name : A -> string) (all : list A) (s : string) : option A :=
  List.find (fun x => String.eqb s (name x)) all.

#[global] Instance LogType_shape : t LogType := {|
  to_json x := Str (LogType_name x);
  of_json v :=
    match v with
    | Str s => named LogType_name
                 [login; vote_cast; double_vote_attempt; invalid_access;
                  admin_action; session_expired; suspicious_activity] s
    | _ => None
    end
|}.

Definition Severity_name (x : Severity) : string :=
  match x with
  | low => "low"
  | medium => "medium"
  | high => "high"
  | critical => "critical"
  end.

#[global] Instance Severity_shape : t Severity := {|
  to_json x := Str (Severity_name x);
  of_json v :=
    match v with
    | Str s => named Severity_name [low; medium; high; critical] s
    | _ => None
    end
|}.

Definition object {A} (read : members -> option A) (v : value) : option A :=
  match v with
  | Object m => read m
  | _ => None
  end.

#[global] Instance User_shape : t User.t := {|
  to_json u :=
    Object
      (put "id" (User.id u)
      (put "email" (User.email u)
      (put "name" (User.name u)
      (put "role" (User.role u)
      (put "isVerified" (User.isVerified u)
      (put_optional "hasVoted" (User.hasVoted u)
      (put_optional "votingTokens" (User.votingTokens u)
      (put "registrationDate" (User.registrationDate u)
      (put "lastLogin" (User.lastLogin u)
      (put "password" (User.password u) no_fields))))))))));
  of_json := object (fun m =>
    id ← required "id" m;
    email ← required "email" m;
    name ← required "name" m;
    role ← required "role" m;
    isVerified ← required "isVerified" m;
    hasVoted ← optional "hasVoted" m;
    votingTokens ← optional "votingTokens" m;
    registrationDate ← required "registrationDate" m;
    lastLogin ← required "lastLogin" m;
    password ← required "password" m;
    Some {| User.id := id; User.email := email; User.name := name; User.role := role;
            User.isVerified := isVerified; User.hasVoted := hasVoted;
            User.votingTokens := votingTokens;
            User.registrationDate := registrationDate; User.lastLogin := lastLogin;
            User.password := password |})
|}.

#[global] Instance Candidate_shape : t Candidate.t := {|
  to_json c :=
    Object
      (put "id" (Candidate.id c)
      (put "name" (Candidate.name c)
      (put "position" (Candidate.position c)
      (put "description" (Candidate.description c)
      (put "manifesto" (Candidate.manifesto c)
      (put_optional "photo" (Candidate.photo c) no_fields))))));
  of_json := object (fun m =>
    id ← required "id" m;
    name ← required "name" m;
    position ← required "position" m;
    description ← required "description" m;
    manifesto ← required "manifesto" m;
    photo ← optional "photo" m;
    Some {| Candidate.id := id; Candidate.name := name; Candidate.position := position;
            Candidate.description := description; Candidate.manifesto := manifesto;
            Candidate.photo := photo |})
|}.

#[global] Instance Position_shape : t Position.t := {|
  to_json p :=
    Object
      (put "id" (Position.id p)
      (put "title" (Position.title p)
      (put "description" (Position.description p)
      (put "candidates" (Position.candidates p)
      (put "maxVotes" (Position.maxVotes p) no_fields)))));
  of_json := object (fun m =>
    id ← required "id" m;
    title ← required "title" m;
    description ← required "description" m;
    candidates ← required "candidates" m;
    maxVotes ← required "maxVotes" m;
    Some {| Position.id := id; Position.title := title;
            Position.description := description; Position.candidates := candidates;
            Position.maxVotes := maxVotes |})
|}.

#[global] Instance Election_shape : t Election.t := {|
  to_json e :=
    Object
      (put "id" (Election.id e)
      (put "title" (Election.title e)
      (put "description" (Election.description e)
      (put "startDate" (Election.startDate e)
      (put "endDate" (Election.endDate e)
      (put "positions" (Election.positions e)
      (put "isActive" (Election.isActive e)
      (put "totalVotes" (Election.totalVotes e)
      (put "createdBy" (Election.createdBy e)
      (put "createdAt" (Election.createdAt e)
      (put "cryptographicHash" (Election.cryptographicHash e) no_fields)))))))))));
  of_json := object (fun m =>
    id ← required "id" m;
    title ← required "title" m;
    description ← required "description" m;
    startDate ← required "startDate" m;
    endDate ← required "endDate" m;
    positions ← required "positions" m;
    isActive ← required "isActive" m;
    totalVotes ← required "totalVotes" m;
    createdBy ← required "createdBy" m;
    createdAt ← required "createdAt" m;
    cryptographicHash ← required "cryptographicHash" m;
    Some {| Election.id := id; Election.title := title;
            Election.description := description; Election.startDate := startDate;
            Election.endDate := endDate; Election.positions := positions;
            Election.isActive := isActive; Election.totalVotes := totalVotes;
            Election.createdBy := createdBy; Election.createdAt := createdAt;
            Election.cryptographicHash := cryptographicHash |})
|}.

#[global] Instance Vote_shape : t Vote.t := {|
  to_json v :=
    Object
      (put "id" (Vote.id v)
      (put "electionId" (Vote.electionId v)
      (put "positionId" (Vote.positionId v)
      (put "candidateId" (Vote.candidateId v)
      (put "voterToken" (Vote.voterToken v)
      (put "timestamp" (Vote.timestamp v)
      (put "cryptographicHash" (Vote.cryptographicHash v)
      (put "verified" (Vote.verified v) no_fields))))))));
  of_json := object (fun m =>
    id ← required "id" m;
    electionId ← required "electionId" m;
    positionId ← required "positionId" m;
    candidateId ← required "candidateId" m;
    voterToken ← required "voterToken" m;
    timestamp ← required "timestamp" m;
    cryptographicHash ← required "cryptographicHash" m;
    verified ← required "verified" m;
    Some {| Vote.id := id; Vote.electionId := electionId; Vote.positionId := positionId;
            Vote.candidateId := candidateId; Vote.voterToken := voterToken;
            Vote.timestamp := timestamp; Vote.cryptographicHash := cryptographicHash;
            Vote.verified := verified |})
|}.

#[global] Instance VotingSession_shape : t VotingSession.t := {|
  to_json s :=
    Object
      (put "sessionId" (VotingSession.sessionId s)
      (put "voterToken" (VotingSession.voterToken s)
      (put "electionId" (VotingSession.electionId s)
      (put "isActive" (VotingSession.isActive s)
      (put "expiresAt" (VotingSession.expiresAt s)
      (put "ipAddress" (VotingSession.ipAddress s)
      (put "userAgent" (VotingSession.userAgent s) no_fields)))))));
  of_json := object (fun m =>
    sessionId ← required "sessionId" m;
    voterToken ← required "voterToken" m;
    electionId ← required "electionId" m;
    isActive ← required "isActive" m;
    expiresAt ← required "expiresAt" m;
    ipAddress ← required "ipAddress" m;
    userAgent ← required "userAgent" m;
    Some {| VotingSession.sessionId := sessionId; VotingSession.voterToken := voterToken;
            VotingSession.electionId := electionId; VotingSession.isActive := isActive;
            VotingSession.expiresAt := expiresAt; VotingSession.ipAddress := ipAddress;
            VotingSession.userAgent := userAgent |})
|}.

#[global] Instance SecurityLog_shape : t SecurityLog.t := {|
  to_json l :=
    Object
      (put "type" (SecurityLog.type l)
      (put "message" (SecurityLog.message l)
      (put_optional "userId" (SecurityLog.userId l)
      (put_optional "electionId" (SecurityLog.electionId l)
      (put "ipAddress" (SecurityLog.ipAddress l)
      (put "severity" (SecurityLog.severity l)
      (put_optional "metadata" (SecurityLog.metadata l)
      (put "id" (SecurityLog.id l)
      (put "timestamp" (SecurityLog.timestamp l) no_fields)))))))));
  of_json := object (fun m =>
    type ← required "type" m;
    message ← required "message" m;
    userId ← optional "userId" m;
    electionId ← optional "electionId" m;
    ipAddress ← required "ipAddress" m;
    severity ← required "severity" m;
    metadata ← optional "metadata" m;
    id ← required "id" m;
    timestamp ← required "timestamp" m;
    Some {| SecurityLog.id := id; SecurityLog.type := type;
            SecurityLog.message := message; SecurityLog.userId := userId;
            SecurityLog.electionId := electionId; SecurityLog.timestamp := timestamp;
            SecurityLog.ipAddress := ipAddress; SecurityLog.severity := severity;
            SecurityLog.metadata := metadata |})
|}.

(** [JSON.stringify] and [JSON.parse] at a shape. *)
Definition stringify {A} `{t A} (x : A) : string := print (to_json x).

Definition parse_as {A} `{t A} (text : string) : result (option A) :=
  match parse text with
  | None => Throw "SyntaxError"
  | Some Null => Ok None
  | Some v =>
      match of_json v with
      | Some x => Ok (Some x)
      | None => Throw "TypeError"
      end
  end.

End Shape.

(* ================================================================== *)
(** * A reference platform

    A platform on which the handlers can be run: a clock that advances one
    second per reading, counter-based random values, and, in the place of
    the AES of crypto-js, a stream cipher keyed by SHA-256 of the passphrase
    and the salt, with the salt carried in an OpenSSL-style header. *)
(* ================================================================== *)

Module Reference.

Definition xor_ascii (a b : ascii) : ascii :=
  let '(Ascii a0 a1 a2 a3 a4 a5 a6 a7) := a in
  let '(Ascii b0 b1 b2 b3 b4 b5 b6 b7) := b in
  Ascii (xorb a0 b0) (xorb a1 b1) (xorb a2 b2) (xorb a3 b3)
        (xorb a4 b4) (xorb a5 b5) (xorb a6 b6) (xorb a7 b7).

(** [s] with the characters of [key] xor-ed onto it, [key] repeated as often
    as needed; [cur] is what is left of the current repetition. *)
Fixpoint mask (key cur s : string) : string :=
  match s with
  | EmptyString => EmptyString
  | String c r =>
      match cur with
      | String k cur' => String (xor_ascii c k) (mask key cur' r)
      | EmptyString =>
          match key with
          | String k cur' => String (xor_ascii c k) (mask key cur' r)
          | EmptyString => s
          end
      end
  end.

(** Exactly [n] characters: [s] cut, or filled up with zero bytes. *)
Fixpoint fit (n : nat) (s : string) : string :=
  match n with
  | O => EmptyString
  | S k =>
      match s with
      | String c r => String c (fit k r)
      | EmptyString => String Ascii.zero (fit k EmptyString)
      end
  end.

Fixpoint split_at (n : nat) (s : string) : string * string :=
  match n, s with
  | S k, String c r => let (a, b) := split_at k r in (String c a, b)
  | _, _ => (EmptyString, s)
  end.

Definition header : string := "Salted__".

Definition key_of (passphrase salt : string) : string :=
  SHA2.SHA256 (passphrase +:+ salt).

Definition encrypt (salt message passphrase : string) : string :=
  let salt8 := fit 8 salt in
  header +:+ salt8 +:+ mask (key_of passphrase salt8) EmptyString message.

Definition decrypt (ciphertext passphrase : string) : result string :=
  match Json.after header ciphertext with
  | Some rest =>
      let (salt8, body) := split_at 8 rest in
      Ok (mask (key_of passphrase salt8) EmptyString body)
  | None => Throw "Malformed UTF-8 data"
  end.

(** The clock starts at 2026-01-01T00:00:00.000Z. *)
Definition clock (reads : nat) : Z := 1767225600000 + 1000 * Z.of_nat reads.

Definition random_byte (draw i : nat) : Z :=
  (167 * Z.of_nat draw + 59 * Z.of_nat i + 13) mod 256.

Definition random (draw nBytes : nat) : string :=
  Text.of_bytes (map (random_byte draw) (seq 0 nBytes)).

Definition base36_digit (d : Z) : ascii :=
  if d <? 10 then ascii_of_N (Z.to_N (48 + d)) else ascii_of_N (Z.to_N (87 + d)).

Definition random_base36 (draw : nat) : string :=
  "0." +:+ Text.of_bytes
             (map (fun i => Json.code (base36_digit (random_byte draw i mod 36))) (seq 0 11)).

End Reference.

(* ================================================================== *)
(** * Running computations: equations for the storage facade *)
(* ================================================================== *)

Lemma bind_run {A B} (m : JS A) (f : A -> JS B) (w w' : World) (a : A) :
  m w = (Ok a, w') -> (m ≫= f) w = f a w'.
Proof. intros Hm. unfold mbind, JS_bind. now rewrite Hm. Qed.

Lemma bind_throw {A B} (m : JS A) (f : A -> JS B) (w w' : World) (e : string) :
  m w = (Throw e, w') -> (m ≫= f) w = (Throw e, w').
Proof. intros Hm. unfold mbind, JS_bind. now rewrite Hm. Qed.

Lemma ret_run {A} (a : A) (w : World) : (mret a : JS A) w = (Ok a, w).
Proof. reflexivity. Qed.

(** The world after a write: one salt drawn, one item set. *)
Definition stored (key blob : string) (w : World) : World :=
  set_item key blob (drawn 1 w).

Section Facade.
Context `{Platform}.

(** What [SecureStorage.decrypt] returns for a blob. *)
Definition decode {A} `{JSON A} (blob : string) : option A :=
  match AES_decrypt blob Crypto.ENCRYPTION_KEY with
  | Ok text => match JSON_parse text with
               | Ok value => value
               | Throw _ => None
               end
  | Throw _ => None
  end.

(** The blob [SecureStorage.encrypt] produces with the salt [salt]. *)
Definition encode {A} `{JSON A} (salt : string) (data : A) : string :=
  AES_encrypt salt (JSON_stringify data) Crypto.ENCRYPTION_KEY.

(** The collection a getter finds under [key]. *)
Definition collection {A} `{JSON (list A)} (key : string) (ls : gmap string string)
    : list A :=
  match ls !! key with
  | Some e => if Text.truthy e then default [] (decode e) else []
  | None => []
  end.

Definition record {A} `{JSON A} (key : string) (ls : gmap string string) : option A :=
  match ls !! key with
  | Some e => if Text.truthy e then decode e else None
  | None => None
  end.

Lemma decrypt_run {A} `{JSON A} (blob : string) (w : World) :
  Storage.decrypt blob w = (Ok (decode blob), w).
Proof.
  unfold Storage.decrypt, try_catch, decode, Crypto.decryptSensitiveData, lift,
    mbind, JS_bind, mret, JS_ret.
  destruct (AES_decrypt blob Crypto.ENCRYPTION_KEY) as [text|e]; [|reflexivity].
  destruct (JSON_parse text) as [v|e]; reflexivity.
Qed.

Lemma encrypt_run {A} `{JSON A} (data : A) (w : World) :
  Storage.encrypt data w
  = (Ok (encode (WordArray_random (random_draws w) 8) data), drawn 1 w).
Proof. reflexivity. Qed.

Lemma read_collection_run {A} `{JSON (list A)} (key : string) (w : World) :
  Storage.read_collection key w = (Ok (collection key (localStorage w)), w).
Proof.
  unfold Storage.read_collection, collection, Browser.getItem, mbind, JS_bind.
  destruct (localStorage w !! key) as [e|]; [|reflexivity].
  destruct (Text.truthy e); [|reflexivity].
  now rewrite decrypt_run.
Qed.

Lemma write_run {A} `{JSON A} (key : string) (data : A) (w : World) :
  Storage.write key data w
  = (Ok tt, stored key (encode (WordArray_random (random_draws w) 8) data) w).
Proof. reflexivity. Qed.

Lemma truthy_encode {A} `{JSON A} (salt : string) (data : A) :
  Text.truthy (encode salt data) = true.
Proof.
  unfold Text.truthy, encode.
  destruct (String.eqb_spec (AES_encrypt salt (JSON_stringify data) Crypto.ENCRYPTION_KEY) "")
    as [E|E]; [|reflexivity].
  now apply AES_encrypt_nonempty in E.
Qed.

Lemma decode_encode {A} `{Serializable A} (salt : string) (data : A) :
  decode (encode salt data) = Some data.
Proof.
  unfold decode, encode. rewrite AES_decrypt_encrypt.
  now rewrite JSON_parse_stringify.
Qed.

Lemma collection_insert_eq {A} `{Serializable (list A)} key salt (l : list A) ls :
  collection key (<[key := encode salt l]> ls) = l.
Proof.
  unfold collection. rewrite lookup_insert_eq, truthy_encode, decode_encode.
  reflexivity.
Qed.

Lemma collection_insert_ne {A} `{JSON (list A)} key key' blob ls :
  key' <> key ->
  collection (A := A) key (<[key' := blob]> ls) = collection key ls.
Proof. intros Hne. unfold collection. now rewrite lookup_insert_ne. Qed.

Lemma record_insert_eq {A} `{Serializable A} key salt (x : A) ls :
  record key (<[key := encode salt x]> ls) = Some x.
Proof.
  unfold record. now rewrite lookup_insert_eq, truthy_encode, decode_encode.
Qed.

Lemma record_insert_ne {A} `{JSON A} key key' blob ls :
  key' <> key -> record (A := A) key (<[key' := blob]> ls) = record key ls.
Proof. intros Hne. unfold record. now rewrite lookup_insert_ne. Qed.

(** The browser primitives. *)
Lemma now_run w : Browser.now w = (Ok (Date_now (clock_reads w)), ticked 1 w).
Proof. reflexivity. Qed.

Lemma random_bytes_run n w :
  Browser.random_bytes n w = (Ok (WordArray_random (random_draws w) n), drawn 1 w).
Proof. reflexivity. Qed.

Lemma random_base36_run w :
  Browser.random_base36 w = (Ok (Math_random_toString36 (random_draws w)), drawn 1 w).
Proof. reflexivity. Qed.

End Facade.

Lemma emit_run e w : Browser.emit e w = (Ok tt, emitted [e] w).
Proof. reflexivity. Qed.

Lemma alert_run message w : Browser.alert message w = (Ok tt, emitted [Alert message] w).
Proof. reflexivity. Qed.

Lemma emitted_emitted es es' w : emitted es' (emitted es w) = emitted (es ++ es') w.
Proof.
  unfold emitted; cbn [localStorage clock_reads random_draws effects].
  now rewrite app_assoc.
Qed.

Lemma ticked_ticked n m w : ticked n (ticked m w) = ticked (n + m) w.
Proof.
  unfold ticked; cbn [localStorage clock_reads random_draws effects].
  f_equal. lia.
Qed.

Lemma drawn_drawn n m w : drawn n (drawn m w) = drawn (n + m) w.
Proof.
  unfold drawn; cbn [localStorage clock_reads random_draws effects].
  f_equal. lia.
Qed.

(** The storage seen through each step. *)
Lemma storage_set_item k v w : localStorage (set_item k v w) = <[k := v]> (localStorage w).
Proof. reflexivity. Qed.
Lemma storage_remove_item k w : localStorage (remove_item k w) = delete k (localStorage w).
Proof. reflexivity. Qed.
Lemma storage_stored k v w : localStorage (stored k v w) = <[k := v]> (localStorage w).
Proof. reflexivity. Qed.
Lemma storage_ticked n w : localStorage (ticked n w) = localStorage w.
Proof. reflexivity. Qed.
Lemma storage_drawn n w : localStorage (drawn n w) = localStorage w.
Proof. reflexivity. Qed.
Lemma storage_emitted es w : localStorage (emitted es w) = localStorage w.
Proof. reflexivity. Qed.

(** The counters and the effects seen through each step. *)
Lemma clock_set_item k v w : clock_reads (set_item k v w) = clock_reads w.
Proof. reflexivity. Qed.
Lemma clock_stored k v w : clock_reads (stored k v w) = clock_reads w.
Proof. reflexivity. Qed.
Lemma clock_ticked n w : clock_reads (ticked n w) = (n + clock_reads w)%nat.
Proof. reflexivity. Qed.
Lemma clock_drawn n w : clock_reads (drawn n w) = clock_reads w.
Proof. reflexivity. Qed.
Lemma clock_emitted es w : clock_reads (emitted es w) = clock_reads w.
Proof. reflexivity. Qed.
Lemma draws_set_item k v w : random_draws (set_item k v w) = random_draws w.
Proof. reflexivity. Qed.
Lemma draws_stored k v w : random_draws (stored k v w) = S (random_draws w).
Proof. reflexivity. Qed.
Lemma draws_ticked n w : random_draws (ticked n w) = random_draws w.
Proof. reflexivity. Qed.
Lemma draws_drawn n w : random_draws (drawn n w) = (n + random_draws w)%nat.
Proof. reflexivity. Qed.
Lemma draws_emitted es w : random_draws (emitted es w) = random_draws w.
Proof. reflexivity. Qed.
Lemma effects_set_item k v w : effects (set_item k v w) = effects w.
Proof. reflexivity. Qed.
Lemma effects_stored k v w : effects (stored k v w) = effects w.
Proof. reflexivity. Qed.
Lemma effects_ticked n w : effects (ticked n w) = effects w.
Proof. reflexivity. Qed.
Lemma effects_drawn n w : effects (drawn n w) = effects w.
Proof. reflexivity. Qed.
Lemma effects_emitted es w : effects (emitted es w) = effects w ++ es.
Proof. reflexivity. Qed.

Create Rewrite HintDb world.
#[global] Hint Rewrite storage_set_item storage_remove_item storage_stored
  storage_ticked storage_drawn storage_emitted
  clock_set_item clock_stored clock_ticked clock_drawn clock_emitted
  draws_set_item draws_stored draws_ticked draws_drawn draws_emitted
  effects_set_item effects_stored effects_ticked effects_drawn effects_emitted : world.

Arguments Date.toISOString : simpl never.
Arguments Text.of_Z : simpl never.
Arguments Text.hex : simpl never.
Arguments Text.substr : simpl never.
Arguments SHA2.SHA256 : simpl never.
Arguments SHA2.SHA512 : simpl never.
Arguments Crypto.hashVote : simpl never.
Arguments Crypto.generateSecureHash : simpl never.
Arguments Crypto.toHex : simpl never.

Create HintDb js_run discriminated.
#[global] Hint Resolve emit_run alert_run ret_run : js_run.
#[global] Hint Resolve now_run random_bytes_run random_base36_run : js_run.
#[global] Hint Resolve decrypt_run encrypt_run read_collection_run write_run : js_run.

(** One step of a sequence: run the first computation by a known equation. *)
Ltac js_step :=
  lazymatch goal with
  | |- (?m ≫= ?f) ?w = _ =>
      erewrite (bind_run m f w) by (solve [eauto with js_run nocore])
  end.

(** ** The stored collections of a world *)

Section Views.
Context `{Platform}.
Context `{!JSON (list User.t)} `{!JSON (list Election.t)} `{!JSON (list Vote.t)}
        `{!JSON (list VotingSession.t)} `{!JSON (list SecurityLog.t)}
        `{!JSON (list ElectionResults.t)} `{!JSON User.t}.

Definition users_of (w : World) : list User.t :=
  collection "voting_users" (localStorage w).
Definition elections_of (w : World) : list Election.t :=
  collection "voting_elections" (localStorage w).
Definition votes_of (w : World) : list Vote.t :=
  collection "voting_votes" (localStorage w).
Definition sessions_of (w : World) : list VotingSession.t :=
  collection "voting_sessions" (localStorage w).
Definition logs_of (w : World) : list SecurityLog.t :=
  collection "voting_security_logs" (localStorage w).
Definition results_of (w : World) : list ElectionResults.t :=
  collection "voting_results" (localStorage w).
Definition current_user_of (w : World) : option User.t :=
  record "voting_current_user" (localStorage w).

Lemma getUsers_run w : Storage.getUsers w = (Ok (users_of w), w).
Proof. apply read_collection_run. Qed.
Lemma getElections_run w : Storage.getElections w = (Ok (elections_of w), w).
Proof. apply read_collection_run. Qed.
Lemma getVotes_run w : Storage.getVotes w = (Ok (votes_of w), w).
Proof. apply read_collection_run. Qed.
Lemma getVotingSessions_run w : Storage.getVotingSessions w = (Ok (sessions_of w), w).
Proof. apply read_collection_run. Qed.
Lemma getSecurityLogs_run w : Storage.getSecurityLogs w = (Ok (logs_of w), w).
Proof. apply read_collection_run. Qed.
Lemma getElectionResults_run w :
  Storage.getElectionResults w = (Ok (results_of w), w).
Proof. apply read_collection_run. Qed.

Lemma getCurrentUser_run w : Storage.getCurrentUser w = (Ok (current_user_of w), w).
Proof.
  unfold Storage.getCurrentUser, current_user_of, record, Browser.getItem, mbind, JS_bind.
  destruct (localStorage w !! "voting_current_user") as [e|]; [|reflexivity].
  destruct (Text.truthy e); [|reflexivity].
  apply decrypt_run.
Qed.

(** [user?.hasVoted?.[electionId] === true] on a list of users. *)
Definition voted_in (users : list User.t) (userId electionId : string) : bool :=
  match List.find (fun u => String.eqb (User.id u) userId) users with
  | Some u => match User.hasVoted u with
              | Some flags => bool_decide (flags !! electionId = Some true)
              | None => false
              end
  | None => false
  end.

Lemma hasUserVotedInElection_run userId electionId w :
  Storage.hasUserVotedInElection userId electionId w
  = (Ok (voted_in (users_of w) userId electionId), w).
Proof.
  unfold Storage.hasUserVotedInElection. now rewrite (bind_run _ _ _ _ _ (getUsers_run w)).
Qed.

Lemma getUserByEmail_run email w :
  Storage.getUserByEmail email w
  = (Ok (List.find (fun user => String.eqb (User.email user) email) (users_of w)), w).
Proof.
  unfold Storage.getUserByEmail. now rewrite (bind_run _ _ _ _ _ (getUsers_run w)).
Qed.

Lemma getElectionById_run id w :
  Storage.getElectionById id w
  = (Ok (List.find (fun e => String.eqb (Election.id e) id) (elections_of w)), w).
Proof.
  unfold Storage.getElectionById. now rewrite (bind_run _ _ _ _ _ (getElections_run w)).
Qed.

Lemma getVotesByElection_run id w :
  Storage.getVotesByElection id w
  = (Ok (List.filter (fun v => String.eqb (Vote.electionId v) id) (votes_of w)), w).
Proof.
  unfold Storage.getVotesByElection. now rewrite (bind_run _ _ _ _ _ (getVotes_run w)).
Qed.

(** The salt the next encryption draws. *)
Definition next_salt (w : World) : string := WordArray_random (random_draws w) 8.

Lemma addSecurityLog_run log w :
  Storage.addSecurityLog log w
  = (Ok tt,
     stored "voting_security_logs"
       (encode (next_salt w)
          (logs_of w ++ [SecurityLog.complete log
                           (Text.of_Z (Date_now (clock_reads w)))
                           (Date.toISOString (Date_now (S (clock_reads w))))]))
       (ticked 2 w)).
Proof.
  unfold Storage.addSecurityLog.
  rewrite (bind_run _ _ _ _ _ (getSecurityLogs_run w)).
  reflexivity.
Qed.

End Views.

#[global] Hint Resolve getUsers_run getElections_run getVotes_run getVotingSessions_run
  getSecurityLogs_run getElectionResults_run getCurrentUser_run
  hasUserVotedInElection_run getUserByEmail_run getElectionById_run
  getVotesByElection_run addSecurityLog_run : js_run.

(* ================================================================== *)
(** * The default administrator account *)
(* ================================================================== *)

Section AdminAccount.
Context `{Platform}.
Context `{!JSON (list User.t)} `{!Serializable (list User.t)}.

Definition is_admin (u : User.t) : bool := bool_decide (User.role u = admin).

(** [n] successive calls of [initializeAdminAccount]. *)
Fixpoint initialize_times (n : nat) : JS unit :=
  match n with
  | O => mret tt
  | S k => Storage.initializeAdminAccount;; initialize_times k
  end.

(** The record a call creates in the world [w]. *)
Definition default_admin (w : World) : User.t :=
  {| User.id := "admin-" +:+ Text.of_Z (Date_now (clock_reads w));
     User.email := "admin@bnmit.in";
     User.password := Crypto.generateSecureHash "VoteBNMIT2024!Admin";
     User.name := "System Administrator";
     User.role := admin;
     User.isVerified := true;
     User.hasVoted := Some ∅;
     User.votingTokens := Some ∅;
     User.registrationDate := Date.toISOString (Date_now (S (clock_reads w)));
     User.lastLogin := Date.toISOString (Date_now (S (S (clock_reads w)))) |}.

Lemma find_admin_existsb (users : list User.t) :
  List.find is_admin users = None <-> existsb is_admin users = false.
Proof.
  induction users as [|u r IH]; simpl; [tauto|].
  destruct (is_admin u); simpl; [split; discriminate | exact IH].
Qed.

Lemma initialize_present w :
  existsb is_admin (users_of w) = true ->
  Storage.initializeAdminAccount w = (Ok tt, w).
Proof.
  intros Hex. unfold Storage.initializeAdminAccount.
  rewrite (bind_run _ _ _ _ _ (getUsers_run w)).
  fold is_admin.
  destruct (List.find is_admin (users_of w)) eqn:E; [reflexivity|].
  apply find_admin_existsb in E. congruence.
Qed.

Lemma initialize_absent w :
  existsb is_admin (users_of w) = false ->
  Storage.initializeAdminAccount w
  = (Ok tt, stored "voting_users"
              (encode (next_salt w) (users_of w ++ [default_admin w])) (ticked 3 w)).
Proof.
  intros Hex. unfold Storage.initializeAdminAccount.
  rewrite (bind_run _ _ _ _ _ (getUsers_run w)).
  fold is_admin.
  destruct (List.find is_admin (users_of w)) eqn:E.
  - apply find_some in E as [Hin Ha].
    assert (existsb is_admin (users_of w) = true) by (apply existsb_exists; eauto).
    congruence.
  - reflexivity.
Qed.

Lemma users_of_stored salt (users : list User.t) w :
  users_of (stored "voting_users" (encode salt users) w) = users.
Proof. unfold users_of, stored, set_item; simpl. apply collection_insert_eq. Qed.

Lemma filter_admin_app_one (users : list User.t) (a : User.t) :
  existsb is_admin users = false -> is_admin a = true ->
  List.filter is_admin (users ++ [a]) = [a].
Proof.
  intros Hno Ha. rewrite List.filter_app. simpl. rewrite Ha.
  induction users as [|u r IH]; simpl in *; [reflexivity|].
  apply orb_false_iff in Hno as [Hu Hr]. rewrite Hu. now apply IH.
Qed.

Lemma initialize_times_present n w :
  existsb is_admin (users_of w) = true ->
  initialize_times n w = (Ok tt, w).
Proof.
  intros Hex. induction n as [|n IH]; [reflexivity|].
  simpl. now rewrite (bind_run _ _ _ _ _ (initialize_present w Hex)).
Qed.

(** C7. [initializeAdminAccount] is idempotent.  With an administrator in
    the users collection a call changes nothing; with none it appends exactly
    one administrator, whose password is the hash of the fixed default
    password; hence any positive number of calls from a collection without
    administrator leaves exactly one, the one the first call created. *)
Theorem initializeAdminAccount_idempotent (w : World) (users : list User.t) :
  eval Storage.getUsers w = Ok users ->
  (existsb is_admin users = true ->
     Storage.initializeAdminAccount w = (Ok tt, w))
  /\ (existsb is_admin users = false ->
      forall n : nat,
        let w' := exec (initialize_times (S n)) w in
        let a := default_admin w in
        eval (initialize_times (S n)) w = Ok tt
        /\ eval Storage.getUsers w' = Ok (users ++ [a])
        /\ User.role a = admin
        /\ User.password a = Crypto.generateSecureHash "VoteBNMIT2024!Admin"
        /\ List.filter is_admin (users ++ [a]) = [a]
        /\ w' = exec Storage.initializeAdminAccount w
        /\ Storage.initializeAdminAccount w' = (Ok tt, w')).
Proof.
  intros Hget. unfold eval in Hget. rewrite getUsers_run in Hget.
  injection Hget as <-. split.
  - apply initialize_present.
  - intros Hno n.
    pose proof (initialize_absent w Hno) as Hrun.
    set (w1 := stored "voting_users"
                 (encode (next_salt w) (users_of w ++ [default_admin w])) (ticked 3 w))
      in Hrun.
    assert (Husers : users_of w1 = users_of w ++ [default_admin w])
      by apply users_of_stored.
    assert (Hex : existsb is_admin (users_of w1) = true).
    { rewrite Husers, existsb_app. simpl. now rewrite orb_true_r. }
    assert (Htimes : initialize_times (S n) w = (Ok tt, w1)).
    { simpl. rewrite (bind_run _ _ _ _ _ Hrun). now apply initialize_times_present. }
    cbv zeta. unfold exec, eval. rewrite Htimes, Hrun. cbn [fst snd].
    rewrite getUsers_run. cbn [fst]. rewrite Husers.
    repeat split.
    + now apply filter_admin_app_one.
    + now apply initialize_present.
Qed.

End AdminAccount.

(* ================================================================== *)
(** * Reads fail soft *)
(* ================================================================== *)

Section FailSoft.
Context `{Platform}.
Context `{!JSON (list User.t)} `{!JSON (list Election.t)} `{!JSON (list Vote.t)}
        `{!JSON (list VotingSession.t)} `{!JSON (list SecurityLog.t)}
        `{!JSON (list ElectionResults.t)} `{!JSON User.t}.

(** Decryption throws, or it yields text that [JSON.parse] rejects. *)
Definition undecodable (A : Type) `{JSON A} (blob : string) : Prop :=
  (exists e, AES_decrypt blob Crypto.ENCRYPTION_KEY = Throw e)
  \/ (exists text e, AES_decrypt blob Crypto.ENCRYPTION_KEY = Ok text
                     /\ JSON_parse (A := A) text = Throw e).

Definition returns {A} (m : JS A) (w : World) : Prop :=
  exists a, m w = (Ok a, w).

Lemma undecodable_decode (A : Type) `{JSON A} blob :
  undecodable A blob -> decode (A := A) blob = None.
Proof.
  unfold decode. intros [[e He]|(text & e & Hd & Hp)].
  - now rewrite He.
  - now rewrite Hd, Hp.
Qed.

Lemma undecodable_decrypt (A : Type) `{JSON A} blob w :
  undecodable A blob -> Storage.decrypt (A := A) blob w = (Ok None, w).
Proof. intros Hu. rewrite decrypt_run. now rewrite undecodable_decode. Qed.

Lemma undecodable_collection (A : Type) `{JSON (list A)} key blob ls :
  ls !! key = Some blob -> undecodable (list A) blob ->
  collection (A := A) key ls = [].
Proof.
  intros Hl Hu. unfold collection. rewrite Hl.
  destruct (Text.truthy blob); [|reflexivity].
  now rewrite undecodable_decode.
Qed.

Lemma undecodable_record (A : Type) `{JSON A} key blob ls :
  ls !! key = Some blob -> undecodable A blob -> record (A := A) key ls = None.
Proof.
  intros Hl Hu. unfold record. rewrite Hl.
  destruct (Text.truthy blob); [|reflexivity].
  now apply undecodable_decode.
Qed.

(** C6. Reads fail soft.  When the blob stored under a collection's key
    cannot be decrypted or parsed, the getter of that collection returns the
    empty collection, [getCurrentUser] returns null, and the lookups built
    on them answer as for absent data; [SecureStorage.decrypt] itself
    returns null; and in every world, whatever the blobs, each read returns
    normally and leaves the world as it was. *)
Theorem reads_fail_soft (w : World) (blob : string) :
  (undecodable (list User.t) blob ->
     Storage.decrypt (A := list User.t) blob w = (Ok None, w))
  /\ (localStorage w !! "voting_users" = Some blob ->
      undecodable (list User.t) blob ->
      Storage.getUsers w = (Ok [], w)
      /\ (forall email, Storage.getUserByEmail email w = (Ok None, w))
      /\ (forall u e, Storage.hasUserVotedInElection u e w = (Ok false, w)))
  /\ (localStorage w !! "voting_elections" = Some blob ->
      undecodable (list Election.t) blob ->
      Storage.getElections w = (Ok [], w)
      /\ (forall id, Storage.getElectionById id w = (Ok None, w)))
  /\ (localStorage w !! "voting_votes" = Some blob ->
      undecodable (list Vote.t) blob ->
      Storage.getVotes w = (Ok [], w)
      /\ (forall id, Storage.getVotesByElection id w = (Ok [], w)))
  /\ (localStorage w !! "voting_sessions" = Some blob ->
      undecodable (list VotingSession.t) blob ->
      Storage.getVotingSessions w = (Ok [], w))
  /\ (localStorage w !! "voting_security_logs" = Some blob ->
      undecodable (list SecurityLog.t) blob ->
      Storage.getSecurityLogs w = (Ok [], w))
  /\ (localStorage w !! "voting_results" = Some blob ->
      undecodable (list ElectionResults.t) blob ->
      Storage.getElectionResults w = (Ok [], w))
  /\ (localStorage w !! "voting_current_user" = Some blob ->
      undecodable User.t blob ->
      Storage.getCurrentUser w = (Ok None, w))
  /\ (returns Storage.getUsers w /\ returns Storage.getElections w
      /\ returns Storage.getVotes w /\ returns Storage.getVotingSessions w
      /\ returns Storage.getSecurityLogs w /\ returns Storage.getElectionResults w
      /\ returns Storage.getCurrentUser w).
Proof.
  split; [apply undecodable_decrypt|].
  split.
  { intros Hl Hu.
    assert (E : users_of w = []) by (eapply undecodable_collection; eauto).
    repeat split; intros.
    - rewrite getUsers_run. now rewrite E.
    - rewrite getUserByEmail_run. now rewrite E.
    - rewrite hasUserVotedInElection_run. unfold voted_in. now rewrite E. }
  split.
  { intros Hl Hu.
    assert (E : elections_of w = []) by (eapply undecodable_collection; eauto).
    split; intros.
    - rewrite getElections_run. now rewrite E.
    - rewrite getElectionById_run. now rewrite E. }
  split.
  { intros Hl Hu.
    assert (E : votes_of w = []) by (eapply undecodable_collection; eauto).
    split; intros.
    - rewrite getVotes_run. now rewrite E.
    - rewrite getVotesByElection_run. now rewrite E. }
  split.
  { intros Hl Hu. rewrite getVotingSessions_run. unfold sessions_of.
    erewrite undecodable_collection; eauto. }
  split.
  { intros Hl Hu. rewrite getSecurityLogs_run. unfold logs_of.
    erewrite undecodable_collection; eauto. }
  split.
  { intros Hl Hu. rewrite getElectionResults_run. unfold results_of.
    erewrite undecodable_collection; eauto. }
  split.
  { intros Hl Hu. rewrite getCurrentUser_run. unfold current_user_of.
    erewrite undecodable_record; eauto. }
  unfold returns.
  rewrite getUsers_run, getElections_run, getVotes_run, getVotingSessions_run,
    getSecurityLogs_run, getElectionResults_run, getCurrentUser_run.
  repeat split; eexists; reflexivity.
Qed.

End FailSoft.

(* ================================================================== *)
(** * Entering the voting flow *)
(* ================================================================== *)

(** Reading a collection through the steps that led to a world. *)
Ltac read_views :=
  unfold users_of, elections_of, votes_of, sessions_of, logs_of, results_of,
    current_user_of, next_salt;
  autorewrite with world;
  repeat first
    [ rewrite collection_insert_eq
    | rewrite record_insert_eq
    | rewrite collection_insert_ne by discriminate
    | rewrite record_insert_ne by discriminate ].

(** A step, then the views of the world it reached brought back to the
    world the handler started from. *)
Ltac js_next := js_step; read_views.

Section EnterVoting.
Context `{Platform}.
Context `{!JSON (list User.t)} `{!JSON (list Election.t)} `{!JSON (list Vote.t)}
        `{!JSON (list VotingSession.t)} `{!JSON (list SecurityLog.t)}
        `{!JSON User.t}.
Context `{!Serializable (list SecurityLog.t)}.

Variable election : Election.t.
Variable user : User.t.

(** The log entry the mount effect writes for a repeated attempt. *)
Definition repeated_attempt : SecurityLog.entry :=
  {| SecurityLog.e_type := double_vote_attempt;
     SecurityLog.e_message :=
       "User attempted to vote again in election: " +:+ Election.title election;
     SecurityLog.e_userId := Some (User.id user);
     SecurityLog.e_electionId := Some (Election.id election);
     SecurityLog.e_ipAddress := "localhost";
     SecurityLog.e_severity := high;
     SecurityLog.e_metadata := None |}.

Lemma mount_voted_run (st : VotingInterface.state) (w : World) :
  voted_in (users_of w) (User.id user) (Election.id election) = true ->
  VotingInterface.mount election user st w
  = (Ok st,
     emitted [Alert "Security Alert: You have already voted in this election!"; OnCancel]
       (stored "voting_security_logs"
          (encode (next_salt w)
             (logs_of w ++ [SecurityLog.complete repeated_attempt
                              (Text.of_Z (Date_now (clock_reads w)))
                              (Date.toISOString (Date_now (S (clock_reads w))))]))
          (ticked 2 w))).
Proof.
  intros Hv. unfold VotingInterface.mount.
  js_step. rewrite Hv. do 3 js_step.
  now rewrite ret_run, emitted_emitted.
Qed.

(** C4. A second entry short-circuits.  When [hasUserVotedInElection]
    already answers true for the user and the election, the mount effect
    appends one [double_vote_attempt] entry of severity [high] to the
    security log, calls [onCancel], and returns with the component state
    untouched (no session is set); the sessions, users, votes and elections
    collections are what they were, so no session record was added. *)
Theorem second_entry_short_circuits (st : VotingInterface.state) (w : World) :
  eval (Storage.hasUserVotedInElection (User.id user) (Election.id election)) w
    = Ok true ->
  exists (w' : World) (entry : SecurityLog.t),
    VotingInterface.mount election user st w = (Ok st, w')
    /\ eval Storage.getSecurityLogs w'
       = Ok (logs_of w ++ [entry])
    /\ eval Storage.getSecurityLogs w = Ok (logs_of w)
    /\ SecurityLog.type entry = double_vote_attempt
    /\ SecurityLog.severity entry = high
    /\ SecurityLog.userId entry = Some (User.id user)
    /\ SecurityLog.electionId entry = Some (Election.id election)
    /\ In OnCancel (effects w')
    /\ eval Storage.getVotingSessions w' = eval Storage.getVotingSessions w
    /\ length (sessions_of w') = length (sessions_of w)
    /\ eval Storage.getUsers w' = eval Storage.getUsers w
    /\ eval Storage.getVotes w' = eval Storage.getVotes w
    /\ eval Storage.getElections w' = eval Storage.getElections w.
Proof.
  unfold eval. rewrite hasUserVotedInElection_run. cbn [fst]. intros [= Hv].
  eexists _, _. split; [apply (mount_voted_run st w Hv)|].
  rewrite !getSecurityLogs_run, !getVotingSessions_run, !getUsers_run,
    !getVotes_run, !getElections_run.
  cbn [fst]. read_views.
  repeat split; try reflexivity.
  cbn [effects]. apply in_or_app. right. simpl. tauto.
Qed.

End EnterVoting.

(* ================================================================== *)
(** * [Array.prototype.sort] with a comparator that compares keys *)
(* ================================================================== *)

Section SortFacts.
Context {A : Type}.
Variable compareFn : A -> A -> Z.

Lemma insert_Permutation (x : A) (l : list A) :
  Permutation (Array.insert compareFn x l) (x :: l).
Proof.
  induction l as [|y r IH]; simpl; [reflexivity|].
  destruct (compareFn x y <=? 0); [reflexivity|].
  rewrite IH. apply perm_swap.
Qed.

Lemma sort_Permutation (l : list A) : Permutation (Array.sort compareFn l) l.
Proof.
  induction l as [|x r IH]; simpl; [reflexivity|].
  rewrite insert_Permutation. now constructor.
Qed.

Lemma sort_length (l : list A) : length (Array.sort compareFn l) = length l.
Proof. apply Permutation_length, sort_Permutation. Qed.

(** The comparator orders by a key, larger keys first. *)
Variable key : A -> Z.
Hypothesis compare_key : forall x y, compareFn x y <= 0 <-> key y <= key x.

Definition descending (l : list A) : Prop :=
  StronglySorted (fun a b => key b <= key a) l.

Lemma insert_descending (x : A) (l : list A) :
  descending l -> descending (Array.insert compareFn x l).
Proof.
  unfold descending. induction l as [|y r IH]; intros Hs; simpl.
  - repeat constructor.
  - inversion Hs as [|? ? Hr Hall]; subst.
    destruct (Z.leb_spec (compareFn x y) 0) as [Hc|Hc].
    + apply compare_key in Hc. constructor; [assumption|].
      constructor; [assumption|].
      eapply Forall_impl; [exact Hall|]. simpl. intros; lia.
    + assert (Hk : key x < key y).
      { destruct (Z.le_gt_cases (key y) (key x)) as [Hle|Hlt]; [|assumption].
        apply compare_key in Hle. lia. }
      constructor; [now apply IH|].
      eapply Permutation_Forall; [symmetry; apply insert_Permutation|].
      constructor; [lia | assumption].
Qed.

Lemma sort_descending (l : list A) : descending (Array.sort compareFn l).
Proof.
  induction l as [|x r IH]; simpl; [constructor | now apply insert_descending].
Qed.

(** Stability: the elements of one key keep their order. *)
Definition at_key (z : Z) (l : list A) : list A :=
  List.filter (fun a => key a =? z) l.

Lemma insert_at_key (z : Z) (x : A) (l : list A) :
  at_key z (Array.insert compareFn x l) = at_key z (x :: l).
Proof.
  unfold at_key. induction l as [|y r IH]; simpl; [reflexivity|].
  destruct (Z.leb_spec (compareFn x y) 0) as [Hc|Hc]; [reflexivity|].
  assert (Hk : key x < key y).
  { destruct (Z.le_gt_cases (key y) (key x)) as [Hle|Hlt]; [|assumption].
    apply compare_key in Hle. lia. }
  simpl in *. rewrite IH.
  destruct (Z.eqb_spec (key x) z), (Z.eqb_spec (key y) z); try reflexivity; lia.
Qed.

Lemma sort_stable (z : Z) (l : list A) :
  at_key z (Array.sort compareFn l) = at_key z l.
Proof.
  induction l as [|x r IH]; simpl; [reflexivity|].
  rewrite insert_at_key. unfold at_key in *. simpl. now rewrite IH.
Qed.

End SortFacts.

Section ObjectFacts.
Context {V : Type}.

Lemma index_order_key (p q : string * V) :
  JsObject.index_order p q <= 0
  <-> - default 0 (JsObject.array_index (fst q)) <= - default 0 (JsObject.array_index (fst p)).
Proof. unfold JsObject.index_order. lia. Qed.

Lemma filter_partition_Permutation {A} (f : A -> bool) (l : list A) :
  Permutation (List.filter f l ++ List.filter (fun a => negb (f a)) l) l.
Proof.
  induction l as [|x r IH]; simpl; [reflexivity|].
  destruct (f x); simpl.
  - now constructor.
  - rewrite <- Permutation_middle. now constructor.
Qed.

Lemma entries_Permutation (o : JsObject.t V) : Permutation (JsObject.entries o) o.
Proof.
  unfold JsObject.entries. rewrite sort_Permutation.
  apply filter_partition_Permutation.
Qed.

Lemma filter_Permutation {A} (f : A -> bool) (l l' : list A) :
  Permutation l l' -> Permutation (List.filter f l) (List.filter f l').
Proof.
  induction 1; simpl.
  - reflexivity.
  - destruct (f x); [now constructor | assumption].
  - destruct (f x), (f y); try reflexivity. apply perm_swap.
  - etransitivity; eassumption.
Qed.

(** Without array-index keys the entries come in creation order. *)
Lemma entries_no_index (o : JsObject.t V) :
  forallb (fun p => negb (JsObject.is_index p)) o = true -> JsObject.entries o = o.
Proof.
  unfold JsObject.entries. intros Hall.
  assert (E1 : List.filter JsObject.is_index o = []).
  { induction o as [|p r IH]; simpl in *; [reflexivity|].
    apply andb_true_iff in Hall as [Hp Hr].
    destruct (JsObject.is_index p); [discriminate | now apply IH]. }
  assert (E2 : List.filter (fun p => negb (JsObject.is_index p)) o = o).
  { induction o as [|p r IH]; simpl in *; [reflexivity|].
    apply andb_true_iff in Hall as [Hp Hr]. rewrite Hp. f_equal.
    apply IH; [assumption|].
    simpl in E1. destruct (JsObject.is_index p); [discriminate | assumption]. }
  now rewrite E1, E2.
Qed.

Lemma get_set_eq (k : string) (v : V) (o : JsObject.t V) :
  JsObject.get k (JsObject.set k v o) = Some v.
Proof.
  induction o as [|[k' v'] r IH]; simpl.
  - now rewrite String.eqb_refl.
  - destruct (String.eqb_spec k' k) as [->|Hne]; simpl.
    + now rewrite String.eqb_refl.
    + destruct (String.eqb_spec k' k); [contradiction | assumption].
Qed.

Lemma get_set_ne (k k' : string) (v : V) (o : JsObject.t V) :
  k <> k' -> JsObject.get k' (JsObject.set k v o) = JsObject.get k' o.
Proof.
  intros Hne. induction o as [|[k0 v0] r IH]; simpl.
  - destruct (String.eqb_spec k k'); [contradiction | reflexivity].
  - destruct (String.eqb_spec k0 k) as [->|Hk]; simpl.
    + destruct (String.eqb_spec k k'); [contradiction | reflexivity].
    + now rewrite IH.
Qed.

End ObjectFacts.

(* ================================================================== *)
(** * Submitting the ballot *)
(* ================================================================== *)

Lemma ticked_drawn n m w : ticked n (drawn m w) = drawn m (ticked n w).
Proof. reflexivity. Qed.

Lemma ticked_0 w : ticked 0 w = w.
Proof. now destruct w. Qed.

Lemma drawn_0 w : drawn 0 w = w.
Proof. now destruct w. Qed.

Lemma try_catch_ok {A} (body : JS A) (handler : string -> JS A) w a w' :
  body w = (Ok a, w') -> try_catch body handler w = (Ok a, w').
Proof. intros Hb. unfold try_catch. now rewrite Hb. Qed.

Section Submission.
Context `{Platform}.
Context `{!JSON (list User.t)} `{!JSON (list Election.t)} `{!JSON (list Vote.t)}
        `{!JSON (list VotingSession.t)} `{!JSON (list SecurityLog.t)}
        `{!JSON User.t}.

Variable election : Election.t.
Variable user : User.t.

(** An entry of the ballot with a candidate chosen. *)
Definition selected (entry : string * string) : bool := Text.truthy (snd entry).

(** The record [castVote] builds at the [clock]-th reading of the clock and
    the [rand]-th random draw. *)
Definition ballot_vote (session : VotingSession.t) (timestamp : string)
    (entry : string * string) (clock rand : nat) : Vote.t :=
  let voteData :=
    {| Crypto.electionId := Election.id election;
       Crypto.positionId := fst entry;
       Crypto.candidateId := snd entry;
       Crypto.voterToken := VotingSession.voterToken session;
       Crypto.timestamp := timestamp |} in
  {| Vote.id := Text.of_Z (Date_now clock)
                +:+ Text.substr 2 9 (Math_random_toString36 rand);
     Vote.electionId := Election.id election;
     Vote.positionId := fst entry;
     Vote.candidateId := snd entry;
     Vote.voterToken := VotingSession.voterToken session;
     Vote.timestamp := timestamp;
     Vote.cryptographicHash := Crypto.hashVote voteData;
     Vote.verified := true |}.

Fixpoint ballot_votes (session : VotingSession.t) (timestamp : string)
    (entries : list (string * string)) (clock rand : nat) : list Vote.t :=
  match entries with
  | [] => []
  | entry :: rest =>
      if selected entry
      then ballot_vote session timestamp entry clock rand
           :: ballot_votes session timestamp rest (S clock) (S rand)
      else ballot_votes session timestamp rest clock rand
  end.

Lemma castVote_run session timestamp entry acc w :
  VotingInterface.castVote election session timestamp entry acc w
  = if selected entry
    then (Ok (acc ++ [ballot_vote session timestamp entry
                        (clock_reads w) (random_draws w)]),
          drawn 1 (ticked 1 w))
    else (Ok acc, w).
Proof.
  unfold VotingInterface.castVote, selected. destruct entry as [p c]. simpl.
  destruct (Text.truthy c); reflexivity.
Qed.

Lemma forEach_castVote_run session timestamp entries acc w :
  let k := length (List.filter selected entries) in
  VotingInterface.forEach (VotingInterface.castVote election session timestamp)
    entries acc w
  = (Ok (acc ++ ballot_votes session timestamp entries
                  (clock_reads w) (random_draws w)),
     drawn k (ticked k w)).
Proof.
  revert acc w. induction entries as [|entry rest IH]; intros acc w; simpl.
  - now rewrite app_nil_r, ticked_0, drawn_0.
  - unfold mbind, JS_bind. rewrite castVote_run.
    destruct (selected entry); simpl.
    + rewrite IH. rewrite <- app_assoc. simpl. f_equal.
      rewrite ticked_drawn, ticked_ticked, drawn_drawn.
      now rewrite !Nat.add_1_r.
    + apply IH.
Qed.

Lemma ballot_votes_fields session timestamp entries clock rand :
  map (fun v => (Vote.positionId v, Vote.candidateId v))
      (ballot_votes session timestamp entries clock rand)
  = List.filter selected entries.
Proof.
  revert clock rand. induction entries as [|[p c] rest IH]; intros; simpl;
    [reflexivity|].
  destruct (selected (p, c)); simpl; now rewrite IH.
Qed.

Lemma ballot_votes_length session timestamp entries clock rand :
  length (ballot_votes session timestamp entries clock rand)
  = length (List.filter selected entries).
Proof.
  rewrite <- (ballot_votes_fields session timestamp entries clock rand).
  now rewrite length_map.
Qed.

Lemma ballot_vote_verifies session timestamp entry clock rand :
  Crypto.verifyVoteIntegrity (ballot_vote session timestamp entry clock rand) = true.
Proof.
  unfold Crypto.verifyVoteIntegrity, ballot_vote.
  cbn [Vote.electionId Vote.positionId Vote.candidateId Vote.voterToken
       Vote.timestamp Vote.cryptographicHash].
  apply String.eqb_refl.
Qed.

Lemma ballot_votes_Forall (P : Vote.t -> Prop) session timestamp entries clock rand :
  (forall entry c r, P (ballot_vote session timestamp entry c r)) ->
  Forall P (ballot_votes session timestamp entries clock rand).
Proof.
  intros HP. revert clock rand.
  induction entries as [|entry rest IH]; intros; simpl; [constructor|].
  destruct (selected entry); [constructor|]; auto.
Qed.

(** [users.map(u => u.id === user.id ? { ...u, hasVoted: { ...u.hasVoted,
    [election.id]: true } } : u)] *)
Definition mark_voted (u : User.t) : User.t :=
  if String.eqb (User.id u) (User.id user)
  then User.with_hasVoted
         (<[Election.id election := true]> (default ∅ (User.hasVoted u))) u
  else u.

(** [elections.map(e => e.id === election.id ? { ...e, totalVotes:
    e.totalVotes + newVotes.length } : e)] *)
Definition count_votes (n : nat) (e : Election.t) : Election.t :=
  if String.eqb (Election.id e) (Election.id election)
  then Election.with_totalVotes (JsNumber.add (Election.totalVotes e) (Z.of_nat n)) e
  else e.

Definition deactivate (session : VotingSession.t) (s : VotingSession.t)
    : VotingSession.t :=
  if String.eqb (VotingSession.sessionId s) (VotingSession.sessionId session)
  then VotingSession.with_isActive false s
  else s.

Lemma mark_voted_id (u : User.t) : User.id (mark_voted u) = User.id u.
Proof. unfold mark_voted. now destruct (String.eqb _ _). Qed.

Lemma mark_voted_flag (u : User.t) :
  User.id u = User.id user ->
  User.hasVoted (mark_voted u)
  = Some (<[Election.id election := true]> (default ∅ (User.hasVoted u))).
Proof. intros E. unfold mark_voted. now rewrite E, String.eqb_refl. Qed.

Lemma voted_in_mark_voted (users : list User.t) :
  (exists u, In u users /\ User.id u = User.id user) ->
  voted_in (map mark_voted users) (User.id user) (Election.id election) = true.
Proof.
  intros (u & Hin & Hid). unfold voted_in.
  induction users as [|x r IH]; [contradiction|].
  cbn [map List.find]. rewrite mark_voted_id.
  destruct (String.eqb_spec (User.id x) (User.id user)) as [E|E].
  - rewrite (mark_voted_flag x E).
    apply bool_decide_eq_true. apply lookup_insert_eq.
  - apply IH. destruct Hin as [->|Hin]; [contradiction | assumption].
Qed.


(** The sum at the last integer before the doubles thin out, against the
    primitive floats. *)
Example add_past_the_exact_integers :
  JsNumber.add 9007199254740991 2 = 9007199254740992
  /\ PrimFloat.add (of_uint63 (Uint63.of_Z 9007199254740991)) (of_uint63 (Uint63.of_Z 2))
     = of_uint63 (Uint63.of_Z (JsNumber.add 9007199254740991 2)).
Proof. split; vm_compute; reflexivity. Qed.



Lemma deactivate_inactive session (sessions : list VotingSession.t) :
  Forall (fun s => VotingSession.sessionId s = VotingSession.sessionId session ->
                   VotingSession.isActive s = false)
         (map (deactivate session) sessions).
Proof.
  induction sessions as [|s r IH]; simpl; constructor; [|exact IH].
  unfold deactivate.
  destruct (String.eqb_spec (VotingSession.sessionId s)
                            (VotingSession.sessionId session)); simpl;
    [reflexivity | intros; contradiction].
Qed.


End Submission.

Section Writes.
Context `{Platform}.
Context `{!JSON (list User.t)} `{!JSON (list Election.t)} `{!JSON (list Vote.t)}
        `{!JSON (list VotingSession.t)} `{!JSON (list SecurityLog.t)}
        `{!JSON (list ElectionResults.t)} `{!JSON User.t}.

Lemma saveUsers_run users w :
  Storage.saveUsers users w
  = (Ok tt, stored "voting_users" (encode (next_salt w) users) w).
Proof. reflexivity. Qed.

Lemma saveElections_run elections w :
  Storage.saveElections elections w
  = (Ok tt, stored "voting_elections" (encode (next_salt w) elections) w).
Proof. reflexivity. Qed.

Lemma saveVotes_run votes w :
  Storage.saveVotes votes w
  = (Ok tt, stored "voting_votes" (encode (next_salt w) votes) w).
Proof. reflexivity. Qed.

Lemma saveVotingSessions_run sessions w :
  Storage.saveVotingSessions sessions w
  = (Ok tt, stored "voting_sessions" (encode (next_salt w) sessions) w).
Proof. reflexivity. Qed.

Lemma saveSecurityLogs_run logs w :
  Storage.saveSecurityLogs logs w
  = (Ok tt, stored "voting_security_logs" (encode (next_salt w) logs) w).
Proof. reflexivity. Qed.

Lemma saveElectionResults_run results w :
  Storage.saveElectionResults results w
  = (Ok tt, stored "voting_results" (encode (next_salt w) results) w).
Proof. reflexivity. Qed.

(** The world after [setCurrentUser(user)]. *)
Definition current_user_set (user : option User.t) (w : World) : World :=
  match user with
  | Some u => stored "voting_current_user" (encode (next_salt w) u) w
  | None => remove_item "voting_current_user" w
  end.

Lemma setCurrentUser_run user w :
  Storage.setCurrentUser user w = (Ok tt, current_user_set user w).
Proof. destruct user; reflexivity. Qed.
End Writes.

Lemma storage_current_user_set `{Platform} `{!JSON User.t} (u : User.t) w :
  localStorage (current_user_set (Some u) w)
  = <["voting_current_user" := encode (next_salt w) u]> (localStorage w).
Proof. reflexivity. Qed.

Lemma clock_current_user_set `{Platform} `{!JSON User.t} (u : option User.t) w :
  clock_reads (current_user_set u w) = clock_reads w.
Proof. now destruct u. Qed.

Lemma draws_current_user_set `{Platform} `{!JSON User.t} (u : User.t) w :
  random_draws (current_user_set (Some u) w) = S (random_draws w).
Proof. reflexivity. Qed.

Lemma effects_current_user_set `{Platform} `{!JSON User.t} (u : option User.t) w :
  effects (current_user_set u w) = effects w.
Proof. now destruct u. Qed.

#[global] Hint Rewrite @storage_current_user_set @clock_current_user_set
  @draws_current_user_set @effects_current_user_set : world.

#[global] Hint Resolve saveUsers_run saveElections_run saveVotes_run
  saveVotingSessions_run saveSecurityLogs_run saveElectionResults_run
  setCurrentUser_run forEach_castVote_run : js_run.

Section SubmissionClaims.
Context `{Platform}.
Context `{!JSON (list User.t)} `{!JSON (list Election.t)} `{!JSON (list Vote.t)}
        `{!JSON (list VotingSession.t)} `{!JSON (list SecurityLog.t)}
        `{!JSON User.t}.
Context `{!Serializable (list User.t)} `{!Serializable (list Election.t)}
        `{!Serializable (list Vote.t)} `{!Serializable (list VotingSession.t)}
        `{!Serializable (list SecurityLog.t)}.

Variable election : Election.t.
Variable user : User.t.

(** The log entry of a successful submission. *)
Definition cast_entry : SecurityLog.entry :=
  {| SecurityLog.e_type := vote_cast;
     SecurityLog.e_message :=
       "Vote successfully cast in election: " +:+ Election.title election;
     SecurityLog.e_userId := Some (User.id user);
     SecurityLog.e_electionId := Some (Election.id election);
     SecurityLog.e_ipAddress := "localhost";
     SecurityLog.e_severity := low;
     SecurityLog.e_metadata := None |}.

(** The vote records a submission builds from the ballot of [st]. *)
Definition new_votes (st : VotingInterface.state) (session : VotingSession.t)
    (w : World) : list Vote.t :=
  ballot_votes election session (Date.toISOString (Date_now (clock_reads w)))
    (JsObject.entries (VotingInterface.votes st))
    (S (clock_reads w)) (random_draws w).

Definition completed (st : VotingInterface.state) : VotingInterface.state :=
  VotingInterface.setIsCompleted true
    (VotingInterface.setIsSubmitting false (VotingInterface.setIsSubmitting true st)).

(** What a submission that goes through leaves in storage. *)
Lemma submitVotes_spec (st : VotingInterface.state) session (w : World) :
  VotingInterface.votingSession st = Some session ->
  voted_in (users_of w) (User.id user) (Election.id election) = false ->
  exists w' entry,
    VotingInterface.submitVotes election user st w = (Ok (completed st), w')
    /\ votes_of w' = votes_of w ++ new_votes st session w
    /\ users_of w' = map (mark_voted election user) (users_of w)
    /\ elections_of w'
       = map (count_votes election (length (new_votes st session w))) (elections_of w)
    /\ sessions_of w' = map (deactivate session) (sessions_of w)
    /\ logs_of w' = logs_of w ++ [entry]
    /\ SecurityLog.type entry = vote_cast
    /\ effects w' = effects w ++ [OnCompleteAfter 2000].
Proof.
  intros Hs Hv.
  destruct (List.find (fun u => String.eqb (User.id u) (User.id user))
                      (map (mark_voted election user)
                           (collection "voting_users" (localStorage w))))
    as [updatedUser|] eqn:Efind.
  - eexists _, _. split.
    + unfold VotingInterface.submitVotes. rewrite Hs.
      js_step. rewrite Hv. apply try_catch_ok.
      do 5 js_next. 
      unfold mark_voted in Efind.
      js_next. rewrite Efind. repeat js_next. rewrite ret_run. reflexivity.
    + read_views. repeat split; reflexivity.
  - eexists _, _. split.
    + unfold VotingInterface.submitVotes. rewrite Hs.
      js_step. rewrite Hv. apply try_catch_ok.
      do 5 js_next.
      unfold mark_voted in Efind.
      js_next. rewrite Efind. repeat js_next. rewrite ret_run. reflexivity.
    + read_views. repeat split; reflexivity.
Qed.

Lemma submitVotes_no_session (st : VotingInterface.state) (w : World) :
  VotingInterface.votingSession st = None ->
  VotingInterface.submitVotes election user st w
  = (Ok st, emitted [Alert "Invalid voting session. Please try again."] w).
Proof. intros Hs. unfold VotingInterface.submitVotes. now rewrite Hs. Qed.

Lemma submitVotes_voted (st : VotingInterface.state) session (w : World) :
  VotingInterface.votingSession st = Some session ->
  voted_in (users_of w) (User.id user) (Election.id election) = true ->
  exists w', VotingInterface.submitVotes election user st w = (Ok st, w').
Proof.
  intros Hs Hv. unfold VotingInterface.submitVotes. rewrite Hs.
  eexists. js_step. rewrite Hv. repeat js_step. now rewrite ret_run.
Qed.

(** The positions of the ballot with a candidate chosen. *)
Definition selections (st : VotingInterface.state) : list (string * string) :=
  List.filter selected (VotingInterface.votes st).

Lemma selections_entries (st : VotingInterface.state) :
  length (List.filter selected (JsObject.entries (VotingInterface.votes st)))
  = length (selections st).
Proof.
  apply Permutation_length, filter_Permutation, entries_Permutation.
Qed.


(** C9. Every vote record a completed submission stored passes
    [verifyVoteIntegrity]: its hash is [hashVote] of its own election,
    position, candidate, token and timestamp. *)
Theorem submitted_votes_verify (st st' : VotingInterface.state) (w w' : World) :
  VotingInterface.isCompleted st = false ->
  VotingInterface.submitVotes election user st w = (Ok st', w') ->
  VotingInterface.isCompleted st' = true ->
  exists newVotes : list Vote.t,
    eval Storage.getVotes w' = Ok (votes_of w ++ newVotes)
    /\ length newVotes = length (selections st)
    /\ Forall (fun v => Crypto.verifyVoteIntegrity v = true) newVotes
    /\ Forall (fun v =>
                 Vote.cryptographicHash v
                 = Crypto.hashVote
                     {| Crypto.electionId := Vote.electionId v;
                        Crypto.positionId := Vote.positionId v;
                        Crypto.candidateId := Vote.candidateId v;
                        Crypto.voterToken := Vote.voterToken v;
                        Crypto.timestamp := Vote.timestamp v |}) newVotes.
Proof.
  intros Hnot Hrun Hdone.
  destruct (VotingInterface.votingSession st) as [session|] eqn:Hs.
  2: { rewrite (submitVotes_no_session st w Hs) in Hrun.
       injection Hrun as <- _. congruence. }
  destruct (voted_in (users_of w) (User.id user) (Election.id election)) eqn:Hv.
  { destruct (submitVotes_voted st session w Hs Hv) as [w1 Hw1].
    rewrite Hw1 in Hrun. injection Hrun as <- _. congruence. }
  destruct (submitVotes_spec st session w Hs Hv) as (w1 & entry & Hw1 & Hvotes & _).
  rewrite Hw1 in Hrun. injection Hrun as _ <-.
  exists (new_votes st session w).
  unfold eval. rewrite getVotes_run. cbn [fst]. rewrite Hvotes.
  unfold new_votes. rewrite ballot_votes_length, selections_entries.
  repeat split.
  - apply ballot_votes_Forall. intros. apply ballot_vote_verifies.
  - apply ballot_votes_Forall. intros. reflexivity.
Qed.

End SubmissionClaims.

(* ================================================================== *)
(** * Deleting an election *)
(* ================================================================== *)

Section ListFacts.
Context {A : Type}.
Variable key : A -> string.

Lemma find_filter_other (removed wanted : string) (l : list A) :
  wanted <> removed ->
  List.find (fun a => String.eqb (key a) wanted)
            (List.filter (fun a => negb (String.eqb (key a) removed)) l)
  = List.find (fun a => String.eqb (key a) wanted) l.
Proof.
  intros Hne. induction l as [|a r IH]; [reflexivity|].
  cbn [List.filter List.find].
  destruct (String.eqb_spec (key a) removed) as [E|E]; cbn [negb List.find].
  - destruct (String.eqb_spec (key a) wanted) as [E'|_]; [congruence | exact IH].
  - now rewrite IH.
Qed.

Lemma find_filter_removed (removed : string) (l : list A) :
  List.find (fun a => String.eqb (key a) removed)
            (List.filter (fun a => negb (String.eqb (key a) removed)) l)
  = None.
Proof.
  induction l as [|a r IH]; [reflexivity|].
  cbn [List.filter].
  destruct (String.eqb_spec (key a) removed) as [E|E]; cbn [negb List.find]; [exact IH|].
  destruct (String.eqb_spec (key a) removed); [contradiction | exact IH].
Qed.

Lemma filter_filter_other (removed wanted : string) (l : list A) :
  wanted <> removed ->
  List.filter (fun a => String.eqb (key a) wanted)
              (List.filter (fun a => negb (String.eqb (key a) removed)) l)
  = List.filter (fun a => String.eqb (key a) wanted) l.
Proof.
  intros Hne. induction l as [|a r IH]; [reflexivity|].
  cbn [List.filter].
  destruct (String.eqb_spec (key a) removed) as [E|E]; cbn [negb List.filter].
  - destruct (String.eqb_spec (key a) wanted) as [E'|_]; [congruence | exact IH].
  - now rewrite IH.
Qed.

Lemma filter_filter_removed (removed : string) (l : list A) :
  List.filter (fun a => String.eqb (key a) removed)
              (List.filter (fun a => negb (String.eqb (key a) removed)) l)
  = [].
Proof.
  induction l as [|a r IH]; [reflexivity|].
  cbn [List.filter].
  destruct (String.eqb_spec (key a) removed) as [E|E]; cbn [negb List.filter]; [exact IH|].
  destruct (String.eqb_spec (key a) removed); [contradiction | exact IH].
Qed.

Lemma filter_keeps_others (removed : string) (l : list A) (a : A) :
  key a <> removed ->
  (In a (List.filter (fun a => negb (String.eqb (key a) removed)) l) <-> In a l).
Proof.
  intros Hne. rewrite filter_In.
  destruct (String.eqb_spec (key a) removed); [contradiction|]. simpl. tauto.
Qed.

Lemma filter_drops_removed (removed : string) (l : list A) :
  Forall (fun a => key a <> removed)
         (List.filter (fun a => negb (String.eqb (key a) removed)) l).
Proof.
  apply List.Forall_forall. intros a Hin. apply filter_In in Hin as [_ Hk].
  destruct (String.eqb_spec (key a) removed); [discriminate | assumption].
Qed.

End ListFacts.

Section DeleteElection.
Context `{Platform}.
Context `{!JSON (list User.t)} `{!JSON (list Election.t)} `{!JSON (list Vote.t)}
        `{!JSON (list VotingSession.t)} `{!JSON (list SecurityLog.t)} `{!JSON User.t}.
Context `{!Serializable (list Election.t)} `{!Serializable (list Vote.t)}
        `{!Serializable (list SecurityLog.t)}.

Definition other_elections (electionId : string) (elections : list Election.t)
    : list Election.t :=
  List.filter (fun e => negb (String.eqb (Election.id e) electionId)) elections.

Definition other_votes (electionId : string) (votes : list Vote.t) : list Vote.t :=
  List.filter (fun v => negb (String.eqb (Vote.electionId v) electionId)) votes.

(** What a confirmed deletion leaves in storage. *)
Lemma deleteElection_spec (elections : list Election.t) (electionId : string) (w : World) :
  exists w' entry,
    ElectionManagement.deleteElection elections electionId true w
    = (Ok (other_elections electionId elections), w')
    /\ elections_of w' = other_elections electionId elections
    /\ votes_of w' = other_votes electionId (votes_of w)
    /\ users_of w' = users_of w
    /\ sessions_of w' = sessions_of w
    /\ logs_of w' = logs_of w ++ [entry]
    /\ SecurityLog.type entry = admin_action
    /\ SecurityLog.electionId entry = Some electionId
    /\ effects w' = effects w ++ [OnUpdate].
Proof.
  eexists _, _. split.
  - unfold ElectionManagement.deleteElection, ElectionManagement.loadElections.
    repeat js_next. rewrite ret_run. reflexivity.
  - read_views. repeat split; reflexivity.
Qed.

Lemma deleteElection_declined (elections : list Election.t) (electionId : string) w :
  ElectionManagement.deleteElection elections electionId false w = (Ok elections, w).
Proof. reflexivity. Qed.

(** C8. Deleting an election, the dialog confirmed, from a component whose
    [elections] state is the stored collection.  Afterwards no stored election
    and no stored vote carries the deleted id; the elections collection is
    the old one without the elections of that id, and the votes collection
    the old one without their votes, so every other election and every vote
    of another election is still there, unchanged and in its place: looking
    up another election by id, or the votes of another election, answers as
    before.  Users and sessions are not touched. *)
Theorem deleteElection_cascades (elections : list Election.t) (electionId : string)
    (w : World) :
  eval Storage.getElections w = Ok elections ->
  exists (w' : World) (votes : list Vote.t),
    eval Storage.getVotes w = Ok votes
    /\ ElectionManagement.deleteElection elections electionId true w
       = (Ok (other_elections electionId elections), w')
    /\ eval Storage.getElections w' = Ok (other_elections electionId elections)
    /\ eval Storage.getVotes w' = Ok (other_votes electionId votes)
    /\ eval (Storage.getElectionById electionId) w' = Ok None
    /\ eval (Storage.getVotesByElection electionId) w' = Ok []
    /\ Forall (fun e => Election.id e <> electionId) (other_elections electionId elections)
    /\ Forall (fun v => Vote.electionId v <> electionId) (other_votes electionId votes)
    /\ (forall e, Election.id e <> electionId ->
                  (In e (other_elections electionId elections) <-> In e elections))
    /\ (forall v, Vote.electionId v <> electionId ->
                  (In v (other_votes electionId votes) <-> In v votes))
    /\ (forall id, id <> electionId ->
          eval (Storage.getElectionById id) w' = eval (Storage.getElectionById id) w)
    /\ (forall id, id <> electionId ->
          eval (Storage.getVotesByElection id) w' = eval (Storage.getVotesByElection id) w)
    /\ eval Storage.getUsers w' = eval Storage.getUsers w
    /\ eval Storage.getVotingSessions w' = eval Storage.getVotingSessions w.
Proof.
  unfold eval. rewrite getElections_run. cbn [fst]. intros [= Hstate].
  destruct (deleteElection_spec elections electionId w)
    as (w' & entry & Hrun & He & Hv & Hu & Hs & _).
  exists w', (votes_of w).
  rewrite !getVotes_run, !getElections_run, !getUsers_run, !getVotingSessions_run.
  cbn [fst]. rewrite He, Hv, Hu, Hs.
  repeat split; try assumption.
  - rewrite getElectionById_run. cbn [fst]. rewrite He.
    unfold other_elections. now rewrite find_filter_removed.
  - rewrite getVotesByElection_run. cbn [fst]. rewrite Hv.
    unfold other_votes. now rewrite filter_filter_removed.
  - apply filter_drops_removed.
  - apply filter_drops_removed.
  - apply (filter_keeps_others Election.id); assumption.
  - apply (filter_keeps_others Election.id); assumption.
  - apply (filter_keeps_others Vote.electionId); assumption.
  - apply (filter_keeps_others Vote.electionId); assumption.
  - intros id Hne. rewrite !getElectionById_run. cbn [fst]. rewrite He, <- Hstate.
    unfold other_elections. now rewrite find_filter_other.
  - intros id Hne. rewrite !getVotesByElection_run. cbn [fst]. rewrite Hv.
    unfold other_votes. now rewrite filter_filter_other.
Qed.

End DeleteElection.

(* ================================================================== *)
(** * Result tabulation *)
(* ================================================================== *)

Section Tabulation.

(** The votes of a position, and those of one of its candidates. *)
Definition votes_for_position (votes : list Vote.t) (position : Position.t) : list Vote.t :=
  List.filter (fun v => String.eqb (Vote.positionId v) (Position.id position)) votes.

Definition votes_for_candidate (votes : list Vote.t) (position : Position.t)
    (candidateId : string) : nat :=
  length (List.filter (fun v => String.eqb (Vote.candidateId v) candidateId)
                      (votes_for_position votes position)).

Definition count_key (c : ElectionResults.candidate) : Z :=
  Z.of_nat (ElectionResults.voteCount c).

Lemma byVoteCountDescending_key (a b : ElectionResults.candidate) :
  ResultsViewer.byVoteCountDescending a b <= 0 <-> count_key b <= count_key a.
Proof. unfold ResultsViewer.byVoteCountDescending, count_key. lia. Qed.

(** The candidates' results before sorting, in the order of the position. *)
Definition unsorted_results (votes : list Vote.t) (position : Position.t)
    : list ElectionResults.candidate :=
  map (ResultsViewer.candidateResult (votes_for_position votes position)
         (length (votes_for_position votes position)))
      (Position.candidates position).

Lemma positionResult_candidates votes position :
  ElectionResults.candidates (ResultsViewer.positionResult votes position)
  = Array.sort ResultsViewer.byVoteCountDescending (unsorted_results votes position).
Proof. reflexivity. Qed.

Lemma positionResult_totalVotes votes position :
  ElectionResults.totalVotes (ResultsViewer.positionResult votes position)
  = length (votes_for_position votes position).
Proof. reflexivity. Qed.

Lemma unsorted_results_spec votes position :
  Forall2 (fun (candidate : Candidate.t) (r : ElectionResults.candidate) =>
             ElectionResults.candidateId r = Candidate.id candidate
             /\ ElectionResults.candidateName r = Candidate.name candidate
             /\ ElectionResults.voteCount r
                = votes_for_candidate votes position (Candidate.id candidate)
             /\ ElectionResults.percentage r
                = ResultsViewer.percentOf
                    (votes_for_candidate votes position (Candidate.id candidate))
                    (length (votes_for_position votes position)))
          (Position.candidates position) (unsorted_results votes position).
Proof.
  unfold unsorted_results.
  induction (Position.candidates position) as [|c r IH]; simpl; constructor; [|exact IH].
  repeat split.
Qed.

Lemma unsorted_results_percentage votes position :
  Forall (fun r => ElectionResults.percentage r
                   = ResultsViewer.percentOf (ElectionResults.voteCount r)
                       (length (votes_for_position votes position)))
         (unsorted_results votes position).
Proof.
  unfold unsorted_results. apply List.Forall_forall. intros r Hin.
  apply in_map_iff in Hin as (c & <- & _). reflexivity.
Qed.

Lemma percentOf_zero_total part : ResultsViewer.percentOf part 0 = 0%float.
Proof. reflexivity. Qed.

Lemma isWinner_spec index candidate :
  ResultsViewer.isWinner index candidate = true
  <-> index = 0%nat /\ (0 < ElectionResults.voteCount candidate)%nat.
Proof.
  unfold ResultsViewer.isWinner. rewrite andb_true_iff, Nat.eqb_eq, Nat.ltb_lt. tauto.
Qed.

Lemma votes_for_candidate_le votes position candidateId :
  (votes_for_candidate votes position candidateId
   <= length (votes_for_position votes position))%nat.
Proof. unfold votes_for_candidate. apply List.filter_length_le. Qed.

(** The winner flags of a sorted result list, by index. *)
Definition winner_flags (candidates : list ElectionResults.candidate) : list bool :=
  imap ResultsViewer.isWinner candidates.

End Tabulation.

(** The ballot box of the specification's example: candidates A, B and C of
    one position, three votes for A and one for B. *)
Definition example_candidate (id name : string) : Candidate.t :=
  {| Candidate.id := id; Candidate.name := name; Candidate.position := "President";
     Candidate.description := ""; Candidate.manifesto := ""; Candidate.photo := None |}.

Definition example_position : Position.t :=
  {| Position.id := "1"; Position.title := "President"; Position.description := "";
     Position.candidates := [example_candidate "a" "A"; example_candidate "b" "B";
                             example_candidate "c" "C"];
     Position.maxVotes := 1 |}.

Definition example_vote (n : string) (positionId candidateId : string) : Vote.t :=
  {| Vote.id := n; Vote.electionId := "e1"; Vote.positionId := positionId;
     Vote.candidateId := candidateId; Vote.voterToken := "token-" +:+ n;
     Vote.timestamp := "2024-03-01T10:00:00.000Z";
     Vote.cryptographicHash := ""; Vote.verified := true |}.

Definition example_votes : list Vote.t :=
  [example_vote "1" "1" "a"; example_vote "2" "1" "b"; example_vote "3" "1" "a";
   example_vote "4" "2" "z"; example_vote "5" "1" "a"].

Example tabulation_example :
  let r := ResultsViewer.positionResult example_votes example_position in
  map ElectionResults.candidateName (ElectionResults.candidates r) = ["A"; "B"; "C"]
  /\ map ElectionResults.voteCount (ElectionResults.candidates r) = [3; 1; 0]%nat
  /\ map ElectionResults.percentage (ElectionResults.candidates r)
     = [75%float; 25%float; 0%float]
  /\ ElectionResults.totalVotes r = 4%nat
  /\ winner_flags (ElectionResults.candidates r) = [true; false; false].
Proof. vm_compute. repeat split. Qed.

Example tabulation_no_votes :
  let r := ResultsViewer.positionResult [example_vote "4" "2" "z"] example_position in
  map ElectionResults.candidateName (ElectionResults.candidates r) = ["A"; "B"; "C"]
  /\ map ElectionResults.percentage (ElectionResults.candidates r)
     = [0%float; 0%float; 0%float]
  /\ winner_flags (ElectionResults.candidates r) = [false; false; false].
Proof. vm_compute. repeat split. Qed.

Section TabulationClaims.
Context `{Platform}.
Context `{!JSON (list User.t)} `{!JSON (list Vote.t)} `{!JSON ElectionResults.t}
        `{!JSON (list ElectionResults.t)}.

Definition is_voter (u : User.t) : bool := bool_decide (User.role u = voter).

Definition election_votes (election : Election.t) (w : World) : list Vote.t :=
  List.filter (fun v => String.eqb (Vote.electionId v) (Election.id election)) (votes_of w).

(** The results object before its verification hash is filled in. *)
Definition tabulated (election : Election.t) (w : World) : ElectionResults.t :=
  let votes := election_votes election w in
  {| ElectionResults.electionId := Election.id election;
     ElectionResults.positions :=
       map (ResultsViewer.positionResult votes) (Election.positions election);
     ElectionResults.totalParticipants := ResultsViewer.uniqueVoters votes;
     ElectionResults.turnoutPercentage :=
       ResultsViewer.percentOf (ResultsViewer.uniqueVoters votes)
         (length (List.filter is_voter (users_of w)));
     ElectionResults.verificationHash := "" |}.

Lemma calculateResults_run (election : Election.t) (w : World) :
  ResultsViewer.calculateResults election w
  = (Ok (ElectionResults.with_verificationHash
           (Crypto.generateElectionVerificationHash (tabulated election w))
           (tabulated election w)), w).
Proof.
  unfold ResultsViewer.calculateResults. do 2 js_step. now rewrite ret_run.
Qed.

(** C3. Result tabulation, position by position.  [calculateResults] maps
    every position of the election to its result over the election's votes.
    In the result of a position: the total is the number of votes cast for
    that position; each candidate's count is the number of those votes that
    name the candidate, and its percentage is taken of that position's total;
    the candidates are the position's candidates, ordered by count, larger
    first, candidates of equal count in their original order; and the winner
    badge goes to index 0 only, and only with a count above zero, so a
    position whose counts are all zero has no winner.  On the example of
    three, one and no votes the order is A, B, C with 75, 25 and 0 percent
    and A the winner. *)
Theorem tabulation_per_position (election : Election.t) (w : World) :
  exists (r : ElectionResults.t) (votes : list Vote.t),
    ResultsViewer.calculateResults election w = (Ok r, w)
    /\ eval (Storage.getVotesByElection (Election.id election)) w = Ok votes
    /\ ElectionResults.positions r
       = map (ResultsViewer.positionResult votes) (Election.positions election)
    /\ (forall position : Position.t,
          let pr := ResultsViewer.positionResult votes position in
          ElectionResults.totalVotes pr = length (votes_for_position votes position)
          /\ Forall2 (fun (candidate : Candidate.t) (c : ElectionResults.candidate) =>
                        ElectionResults.candidateId c = Candidate.id candidate
                        /\ ElectionResults.candidateName c = Candidate.name candidate
                        /\ ElectionResults.voteCount c
                           = votes_for_candidate votes position (Candidate.id candidate)
                        /\ ElectionResults.percentage c
                           = ResultsViewer.percentOf
                               (votes_for_candidate votes position (Candidate.id candidate))
                               (ElectionResults.totalVotes pr))
                     (Position.candidates position) (unsorted_results votes position)
          /\ Permutation (ElectionResults.candidates pr) (unsorted_results votes position)
          /\ Forall (fun c => ElectionResults.percentage c
                              = ResultsViewer.percentOf (ElectionResults.voteCount c)
                                  (ElectionResults.totalVotes pr))
                    (ElectionResults.candidates pr)
          /\ descending count_key (ElectionResults.candidates pr)
          /\ (forall z, at_key count_key z (ElectionResults.candidates pr)
                        = at_key count_key z (unsorted_results votes position))
          /\ (Forall (fun c => ElectionResults.voteCount c = 0%nat)
                     (ElectionResults.candidates pr) ->
              forall i c, In c (ElectionResults.candidates pr) ->
                          ResultsViewer.isWinner i c = false))
    /\ (forall i c, ResultsViewer.isWinner i c = true
                    <-> i = 0%nat /\ (0 < ElectionResults.voteCount c)%nat)
    /\ (let ex := ResultsViewer.positionResult example_votes example_position in
        map ElectionResults.candidateName (ElectionResults.candidates ex) = ["A"; "B"; "C"]
        /\ map ElectionResults.percentage (ElectionResults.candidates ex)
           = [75%float; 25%float; 0%float]
        /\ winner_flags (ElectionResults.candidates ex) = [true; false; false]).
Proof.
  eexists _, (election_votes election w).
  split; [apply calculateResults_run|].
  split; [unfold eval; now rewrite getVotesByElection_run|].
  split; [reflexivity|].
  split; [|split; [apply isWinner_spec | ]].
  2: { pose proof tabulation_example as Hex. cbv zeta in Hex |- *. tauto. }
  intros position pr. subst pr.
  rewrite positionResult_candidates, positionResult_totalVotes.
  repeat split.
  - apply unsorted_results_spec.
  - apply sort_Permutation.
  - eapply Permutation_Forall; [symmetry; apply sort_Permutation|].
    apply unsorted_results_percentage.
  - apply (sort_descending _ count_key), byVoteCountDescending_key.
  - intros z. apply (sort_stable _ count_key), byVoteCountDescending_key.
  - intros Hzero i c Hin.
    rewrite List.Forall_forall in Hzero. specialize (Hzero c Hin).
    unfold ResultsViewer.isWinner. rewrite Hzero. now rewrite andb_false_r.
Qed.

(** C10. The guards of the tabulation.  [calculateResults] returns a result
    in every world, without touching it.  In a position that received no
    vote every candidate's percentage is exactly 0, and with no user of role
    voter the turnout is exactly 0: in both cases the division is not
    evaluated. *)
Theorem tabulation_guards (election : Election.t) (w : World) :
  exists (r : ElectionResults.t) (users : list User.t),
    ResultsViewer.calculateResults election w = (Ok r, w)
    /\ eval Storage.getUsers w = Ok users
    /\ Forall (fun pr =>
                 ElectionResults.totalVotes pr = 0%nat ->
                 Forall (fun c => ElectionResults.percentage c = 0%float)
                        (ElectionResults.candidates pr))
              (ElectionResults.positions r)
    /\ (length (List.filter is_voter users) = 0%nat ->
        ElectionResults.turnoutPercentage r = 0%float)
    /\ (forall part : nat, ResultsViewer.percentOf part 0 = 0%float).
Proof.
  eexists _, (users_of w).
  split; [apply calculateResults_run|].
  split; [unfold eval; now rewrite getUsers_run|].
  split; [|split].
  - cbn [ElectionResults.positions ElectionResults.with_verificationHash tabulated].
    apply List.Forall_forall. intros pr Hin.
    apply in_map_iff in Hin as (position & <- & _).
    rewrite positionResult_candidates, positionResult_totalVotes. intros Hzero.
    eapply Permutation_Forall; [symmetry; apply sort_Permutation|].
    eapply Forall_impl; [apply unsorted_results_percentage|].
    cbv beta. intros c ->. now rewrite Hzero.
  - cbn [ElectionResults.turnoutPercentage ElectionResults.with_verificationHash tabulated].
    now intros ->.
  - reflexivity.
Qed.

End TabulationClaims.

(* ================================================================== *)
(** * The vote hash *)
(* ================================================================== *)

Section StringFacts.

Lemma chars_app (s t : string) :
  list_ascii_of_string (s +:+ t) = list_ascii_of_string s ++ list_ascii_of_string t.
Proof.
  induction s as [|c s IH]; [reflexivity|].
  change (c :: list_ascii_of_string (s +:+ t)
          = c :: (list_ascii_of_string s ++ list_ascii_of_string t)).
  now rewrite IH.
Qed.

Lemma chars_inj (s t : string) :
  list_ascii_of_string s = list_ascii_of_string t -> s = t.
Proof.
  intros E. rewrite <- (string_of_list_ascii_of_string s),
    <- (string_of_list_ascii_of_string t). now rewrite E.
Qed.

Lemma append_inv_head (a s t : string) : a +:+ s = a +:+ t -> s = t.
Proof.
  intros E. apply chars_inj. apply (f_equal list_ascii_of_string) in E.
  rewrite !chars_app in E. now apply app_inv_head in E.
Qed.

Lemma append_inv_tail (b s t : string) : s +:+ b = t +:+ b -> s = t.
Proof.
  intros E. apply chars_inj. apply (f_equal list_ascii_of_string) in E.
  rewrite !chars_app in E. now apply app_inv_tail in E.
Qed.

(** [a ++ x ++ b] determines [x]. *)
Lemma append_inv_middle (a b x y : string) : a +:+ x +:+ b = a +:+ y +:+ b -> x = y.
Proof. intros E. apply append_inv_head in E. now apply append_inv_tail in E. Qed.

Definition dash : ascii := ascii_of_nat 45.

Definition dash_free (s : string) : Prop :=
  Forall (fun c => c <> dash) (list_ascii_of_string s).

Lemma split_at_dash (x1 x2 r1 r2 : list ascii) :
  Forall (fun c => c <> dash) x1 -> Forall (fun c => c <> dash) x2 ->
  x1 ++ dash :: r1 = x2 ++ dash :: r2 -> x1 = x2 /\ r1 = r2.
Proof.
  revert x2. induction x1 as [|c x1 IH]; intros [|d x2] H1 H2 E; simpl in E.
  - injection E as <-. now split.
  - injection E as <- _. inversion H2; subst. contradiction.
  - injection E as -> _. inversion H1; subst. contradiction.
  - injection E as <- E. inversion H1; inversion H2; subst.
    destruct (IH x2) as [-> ->]; auto.
Qed.

Lemma joined_split (x1 x2 r1 r2 : string) :
  dash_free x1 -> dash_free x2 ->
  x1 +:+ "-" +:+ r1 = x2 +:+ "-" +:+ r2 -> x1 = x2 /\ r1 = r2.
Proof.
  intros H1 H2 E. apply (f_equal list_ascii_of_string) in E.
  rewrite !chars_app in E. cbn [list_ascii_of_string app] in E.
  destruct (split_at_dash _ _ _ _ H1 H2 E) as [Ex Er].
  split; now apply chars_inj.
Qed.

End StringFacts.

Section VoteHash.
Import Crypto.

(** The five fields of the argument of [hashVote]. *)
Inductive field := ElectionId | PositionId | CandidateId | VoterToken | Timestamp.

Definition get (f : field) (vote : VoteData) : string :=
  match f with
  | ElectionId => electionId vote
  | PositionId => positionId vote
  | CandidateId => candidateId vote
  | VoterToken => voterToken vote
  | Timestamp => timestamp vote
  end.

(** The two tuples differ in the field [f] and agree on the other four. *)
Definition differ_only_in (f : field) (v1 v2 : VoteData) : Prop :=
  get f v1 <> get f v2 /\ forall g, g <> f -> get g v1 = get g v2.

(** Election, position, candidate and token contain no dash; the timestamp
    may. *)
Definition dash_free_ids (vote : VoteData) : Prop :=
  dash_free (electionId vote) /\ dash_free (positionId vote)
  /\ dash_free (candidateId vote) /\ dash_free (voterToken vote).

(** What [hashVote] digests. *)
Definition digested (vote : VoteData) : string := voteString vote +:+ SECRET_KEY.

Lemma hashVote_digested vote : hashVote vote = SHA2.SHA256 (digested vote).
Proof. reflexivity. Qed.

Lemma digested_one_field (f : field) (v1 v2 : VoteData) :
  differ_only_in f v1 v2 -> digested v1 <> digested v2.
Proof.
  intros [Hf Hothers] E. apply Hf. clear Hf.
  unfold digested in E. apply append_inv_tail in E. unfold voteString in E.
  assert (He := Hothers ElectionId). assert (Hp := Hothers PositionId).
  assert (Hc := Hothers CandidateId). assert (Ht := Hothers VoterToken).
  assert (Hs := Hothers Timestamp). clear Hothers. cbn [get] in *.
  destruct f; cbn [get].
  - rewrite (Hp ltac:(discriminate)), (Hc ltac:(discriminate)),
      (Ht ltac:(discriminate)), (Hs ltac:(discriminate)) in E.
    now apply append_inv_tail in E.
  - rewrite (He ltac:(discriminate)), (Hc ltac:(discriminate)),
      (Ht ltac:(discriminate)), (Hs ltac:(discriminate)) in E.
    do 2 apply append_inv_head in E. now apply append_inv_tail in E.
  - rewrite (He ltac:(discriminate)), (Hp ltac:(discriminate)),
      (Ht ltac:(discriminate)), (Hs ltac:(discriminate)) in E.
    do 4 apply append_inv_head in E. now apply append_inv_tail in E.
  - rewrite (He ltac:(discriminate)), (Hp ltac:(discriminate)),
      (Hc ltac:(discriminate)), (Hs ltac:(discriminate)) in E.
    do 6 apply append_inv_head in E. now apply append_inv_tail in E.
  - rewrite (He ltac:(discriminate)), (Hp ltac:(discriminate)),
      (Hc ltac:(discriminate)), (Ht ltac:(discriminate)) in E.
    now do 8 apply append_inv_head in E.
Qed.

Lemma digested_dash_free (v1 v2 : VoteData) :
  dash_free_ids v1 -> dash_free_ids v2 -> digested v1 = digested v2 -> v1 = v2.
Proof.
  intros (He1 & Hp1 & Hc1 & Ht1) (He2 & Hp2 & Hc2 & Ht2) E.
  unfold digested in E. apply append_inv_tail in E. unfold voteString in E.
  apply joined_split in E as [Ee E]; [|assumption..].
  apply joined_split in E as [Ep E]; [|assumption..].
  apply joined_split in E as [Ec E]; [|assumption..].
  apply joined_split in E as [Et E]; [|assumption..].
  destruct v1, v2; cbn in *. congruence.
Qed.

End VoteHash.

Section Pigeonhole.

Lemma bounded_search (P : nat -> bool) (m : nat) :
  (exists i, (i <= m)%nat /\ P i = true) \/ (forall i, (i <= m)%nat -> P i = false).
Proof.
  induction m as [|m [(i & Hi & HP)|Hnone]].
  - destruct (P 0%nat) eqn:E.
    + left. exists 0%nat. split; [lia | assumption].
    + right. intros i Hi. now replace i with 0%nat by lia.
  - left. exists i. split; [lia | assumption].
  - destruct (P (S m)) eqn:E.
    + left. exists (S m). split; [lia | assumption].
    + right. intros i Hi.
      destruct (Nat.eq_dec i (S m)) as [->|Hne]; [assumption|].
      apply Hnone. lia.
Qed.

(** [n + 1] values below [n] cannot all differ. *)
Lemma pigeonhole (n : nat) (f : nat -> nat) :
  (forall i, (i <= n)%nat -> (f i < n)%nat) ->
  exists i j, (i < j <= n)%nat /\ f i = f j.
Proof.
  revert f. induction n as [|m IH]; intros f Hf.
  - specialize (Hf 0%nat ltac:(lia)). lia.
  - destruct (bounded_search (fun i => Nat.eqb (f i) (f (S m))) m)
      as [(i & Hi & HP)|Hnone].
    + apply Nat.eqb_eq in HP. exists i, (S m). split; [lia | assumption].
    + set (h := f (S m)).
      set (g := fun i => if (f i <? h)%nat then f i else (f i - 1)%nat).
      assert (Hg : forall i, (i <= m)%nat -> (g i < m)%nat).
      { intros i Hi. unfold g.
        pose proof (Hf i ltac:(lia)) as Hfi.
        pose proof (Hf (S m) ltac:(lia)) as Hh. fold h in Hh.
        pose proof (Hnone i Hi) as Hne. apply Nat.eqb_neq in Hne. fold h in Hne.
        destruct (Nat.ltb_spec (f i) h); lia. }
      destruct (IH g Hg) as (i & j & Hij & E).
      exists i, j. split; [lia|].
      pose proof (Hnone i ltac:(lia)) as Hi. apply Nat.eqb_neq in Hi. fold h in Hi.
      pose proof (Hnone j ltac:(lia)) as Hj. apply Nat.eqb_neq in Hj. fold h in Hj.
      unfold g in E.
      destruct (Nat.ltb_spec (f i) h), (Nat.ltb_spec (f j) h); lia.
Qed.

End Pigeonhole.

Section VoteHashCollisions.
Import Crypto.

Fixpoint zeros (n : nat) : string :=
  match n with
  | O => EmptyString
  | S k => String (ascii_of_nat 48) (zeros k)
  end.

Lemma zeros_length n : String.length (zeros n) = n.
Proof. induction n as [|n IH]; simpl; [reflexivity | now rewrite IH]. Qed.

(** A family of tuples that differ in the timestamp only. *)
Definition stamped (n : nat) : VoteData :=
  {| electionId := "e"; positionId := "p"; candidateId := "c"; voterToken := "t";
     timestamp := zeros n |}.

Lemma stamped_differ (i j : nat) : i <> j -> differ_only_in Timestamp (stamped i) (stamped j).
Proof.
  intros Hne. split.
  - cbn [get stamped timestamp]. intros E. apply Hne.
    now rewrite <- (zeros_length i), <- (zeros_length j), E.
  - intros [] Hg; try reflexivity. contradiction.
Qed.

(** The digest of a tuple as a number below [2 ^ 256]. *)
Definition vote_digest (vote : VoteData) : Z :=
  SHA2.digest_number SHA2.sha256_variant (Text.bytes (digested vote)).

Lemma hashVote_vote_digest vote : hashVote vote = Text.hex 64 (vote_digest vote).
Proof. reflexivity. Qed.

Lemma vote_digest_bound vote :
  0 <= vote_digest vote < SHA2.modulus SHA2.sha256_variant ^ 8.
Proof.
  unfold vote_digest, SHA2.digest_number. apply Z.mod_pos_bound. reflexivity.
Qed.

(** Over all strings the hash cannot separate every pair: there are more
    timestamps than digests, so some two tuples that differ in the timestamp
    only have the same hash.  The timestamps counted here are runs of zeros
    of every length up to 2^256, not dates. *)
Lemma hashVote_collides :
  exists v1 v2, differ_only_in Timestamp v1 v2 /\ hashVote v1 = hashVote v2.
Proof.
  set (M := SHA2.modulus SHA2.sha256_variant ^ 8).
  assert (HM : 0 <= M) by (subst M; apply Z.lt_le_incl; reflexivity).
  assert (Hb : forall v, 0 <= vote_digest v < M) by (intros; apply vote_digest_bound).
  clearbody M.
  destruct (pigeonhole (Z.to_nat M) (fun i => Z.to_nat (vote_digest (stamped i))))
    as (i & j & Hij & E).
  - intros i _. apply Z2Nat.inj_lt; [apply Hb | assumption | apply Hb].
  - exists (stamped i), (stamped j). split.
    + apply stamped_differ. lia.
    + rewrite !hashVote_vote_digest. f_equal.
      apply Z2Nat.inj; [apply Hb | apply Hb | assumption].
Qed.

End VoteHashCollisions.

Section VoteHashClaims.
Import Crypto.

(** X29. What [hashVote] separates.  It is the SHA-256 digest of the five
    fields joined by dashes, followed by the secret, so that equal tuples have
    equal hashes.  Two tuples that differ in exactly one field are digested
    from different strings, and so are any two different tuples whose
    election id, position id, candidate id and voter token contain no dash;
    such tuples hash alike only if SHA-256 collides on two different
    strings. *)
Theorem hashVote_deterministic (v1 v2 : VoteData) :
  (v1 = v2 -> hashVote v1 = hashVote v2)
  /\ hashVote v1 = SHA2.SHA256 (voteString v1 +:+ SECRET_KEY)
  /\ (forall f : field,
        differ_only_in f v1 v2 ->
        digested v1 <> digested v2
        /\ (hashVote v1 = hashVote v2 ->
            exists s1 s2, s1 <> s2 /\ SHA2.SHA256 s1 = SHA2.SHA256 s2))
  /\ (dash_free_ids v1 -> dash_free_ids v2 -> v1 <> v2 ->
      digested v1 <> digested v2
      /\ (hashVote v1 = hashVote v2 ->
          exists s1 s2, s1 <> s2 /\ SHA2.SHA256 s1 = SHA2.SHA256 s2)).
Proof.
  split; [now intros ->|]. split; [reflexivity|]. split.
  - intros f Hd. pose proof (digested_one_field f v1 v2 Hd) as Hne.
    split; [assumption|]. intros E. exists (digested v1), (digested v2). now split.
  - intros H1 H2 Hv.
    assert (Hne : digested v1 <> digested v2).
    { intros E. apply Hv. now apply digested_dash_free. }
    split; [assumption|]. intros E. exists (digested v1), (digested v2). now split.
Qed.

End VoteHashClaims.

(* ================================================================== *)
(** * Encryption round trip *)
(* ================================================================== *)

Section RoundTrip.
Context `{Platform}.

Lemma encryptSensitiveData_run (data : string) (w : World) :
  Crypto.encryptSensitiveData data w
  = (Ok (AES_encrypt (next_salt w) data Crypto.ENCRYPTION_KEY), drawn 1 w).
Proof. reflexivity. Qed.

Lemma decryptSensitiveData_run (blob : string) (w : World) :
  Crypto.decryptSensitiveData blob w = (AES_decrypt blob Crypto.ENCRYPTION_KEY, w).
Proof. reflexivity. Qed.

(** C5. Decryption undoes encryption.  For every string [data], what
    [encryptSensitiveData data] returns is decrypted back to [data] by
    [decryptSensitiveData]; and for every value [x] that [JSON.parse] recovers
    from [JSON.stringify x], what the facade's [encrypt x] returns is
    decrypted back to [x] by the facade's [decrypt]. *)
Theorem decrypt_encrypt_roundtrip {A : Type} `{JSON A} (x : A) (w : World) :
  JSON_parse (JSON_stringify x) = Ok (Some x) ->
  (forall data : string,
     exists blob w1,
       Crypto.encryptSensitiveData data w = (Ok blob, w1)
       /\ forall w2, Crypto.decryptSensitiveData blob w2 = (Ok data, w2))
  /\ (exists blob w1,
        Crypto.encryptSensitiveData (JSON_stringify x) w = (Ok blob, w1)
        /\ forall w2, Crypto.decryptSensitiveData blob w2 = (Ok (JSON_stringify x), w2))
  /\ (exists blob w1,
        Storage.encrypt x w = (Ok blob, w1)
        /\ forall w2, Storage.decrypt blob w2 = (Ok (Some x), w2)).
Proof.
  intros Hx.
  assert (Hraw : forall data : string,
             exists blob w1,
               Crypto.encryptSensitiveData data w = (Ok blob, w1)
               /\ forall w2, Crypto.decryptSensitiveData blob w2 = (Ok data, w2)).
  { intros data. eexists _, _. split; [apply encryptSensitiveData_run|].
    intros w2. rewrite decryptSensitiveData_run. now rewrite AES_decrypt_encrypt. }
  split; [exact Hraw|]. split; [apply Hraw|].
  eexists _, _. split; [apply encrypt_run|].
  intros w2. rewrite decrypt_run. unfold decode, encode.
  now rewrite AES_decrypt_encrypt, Hx.
Qed.

End RoundTrip.

(* ================================================================== *)
(** * [src/utils/crypto.ts]: the remaining functions *)
(* ================================================================== *)

Module Tokens.
Section WithPlatform.
Context `{Platform}.

(** [hashElection(election)]; the positions are digested as JSON text. *)
Definition hashElection `{JSON (list Position.t)} (election : Election.t) : string :=
  let electionString :=
    Election.id election +:+ "-" +:+ Election.title election +:+ "-"
    +:+ Election.startDate election +:+ "-" +:+ Election.endDate election +:+ "-"
    +:+ JSON_stringify (Election.positions election) in
  SHA2.SHA256 (electionString +:+ Crypto.SECRET_KEY).

Definition generateTimestampedToken : JS string :=
  time ← Browser.now;
  let timestamp := Text.of_Z time in
  bytes ← Browser.random_bytes 16;
  let randomData := Crypto.toHex bytes in
  mret (SHA2.SHA256 (timestamp +:+ randomData +:+ Crypto.SECRET_KEY)).

(** The token's age is not looked at. *)
Definition validateTokenTimestamp (token : string) (maxAge : Z) : bool := true.

End WithPlatform.
End Tokens.

(* ================================================================== *)
(** * The text of digests and tokens *)
(* ================================================================== *)

Section HexText.

(** A digit of lower-case hexadecimal. *)
Definition lower_hex (c : ascii) : bool :=
  let n := Z.of_N (N_of_ascii c) in
  ((48 <=? n) && (n <=? 57)) || ((97 <=? n) && (n <=? 102)).

(** [n] lower-case hexadecimal digits. *)
Definition hex_text (n : nat) (s : string) : Prop :=
  String.length s = n /\ Forall (fun c => lower_hex c = true) (list_ascii_of_string s).

Lemma length_chars (s : string) : List.length (list_ascii_of_string s) = String.length s.
Proof. induction s as [|c s IH]; [reflexivity|]. simpl. now rewrite IH. Qed.

Lemma hex_digit_lower (d : Z) : 0 <= d < 16 -> lower_hex (Text.hex_digit d) = true.
Proof.
  intros Hd.
  assert (Hcases : In d [0; 1; 2; 3; 4; 5; 6; 7; 8; 9; 10; 11; 12; 13; 14; 15])
    by (simpl; lia).
  simpl in Hcases.
  repeat (destruct Hcases as [<-|Hcases]; [reflexivity|]). contradiction.
Qed.

Lemma hex_hex_text (n : nat) (x : Z) : hex_text n (Text.hex n x).
Proof.
  unfold hex_text. revert x. induction n as [|n IH]; intros x.
  - split; [reflexivity | constructor].
  - destruct (IH (x / 16)) as [Hl Hc].
    change (Text.hex (S n) x)
      with (Text.hex n (x / 16) +:+ String (Text.hex_digit (x mod 16)) EmptyString).
    split.
    + rewrite <- length_chars, chars_app, length_app, length_chars, Hl.
      simpl. lia.
    + rewrite chars_app. apply Forall_app. split; [exact Hc|].
      constructor; [|constructor]. apply hex_digit_lower.
      apply Z.mod_pos_bound. lia.
Qed.

Lemma SHA256_hex_text (message : string) : hex_text 64 (SHA2.SHA256 message).
Proof. apply (hex_hex_text 64). Qed.

Lemma SHA512_hex_text (message : string) : hex_text 128 (SHA2.SHA512 message).
Proof. apply (hex_hex_text 128). Qed.

Lemma concat_hex_text (l : list string) (n : nat) :
  Forall (hex_text n) l -> hex_text (n * List.length l) (String.concat "" l).
Proof.
  induction l as [|s [|t l] IH]; intros Hall.
  - split; [simpl; lia | constructor].
  - inversion Hall as [|? ? Hs _]; subst. simpl. now rewrite Nat.mul_1_r.
  - inversion Hall as [|? ? [Hl Hc] Hr]; subst.
    destruct (IH Hr) as [Hl' Hc'].
    change (String.concat "" (s :: t :: l)) with (s +:+ "" +:+ String.concat "" (t :: l)).
    change ("" +:+ String.concat "" (t :: l)) with (String.concat "" (t :: l)).
    split.
    + rewrite <- length_chars, chars_app, length_app, !length_chars, Hl'.
      cbn [List.length]. lia.
    + rewrite chars_app. apply Forall_app. now split.
Qed.

Lemma toHex_hex_text (bytes : string) :
  hex_text (2 * String.length bytes) (Crypto.toHex bytes).
Proof.
  unfold Crypto.toHex.
  assert (Hlen : List.length (map (Text.hex 2) (Text.bytes bytes)) = String.length bytes).
  { rewrite length_map. induction bytes as [|c r IH]; [reflexivity|]. simpl. now rewrite IH. }
  rewrite <- Hlen. apply concat_hex_text.
  apply Forall_map. apply Forall_forall. intros b _. apply hex_hex_text.
Qed.

(** Reading two hexadecimal digits back. *)
Definition hex_value (c : ascii) : Z :=
  let n := Z.of_N (N_of_ascii c) in if n <? 58 then n - 48 else n - 87.

Fixpoint of_hex (s : string) : string :=
  match s with
  | String h (String l r) =>
      String (ascii_of_N (Z.to_N (16 * hex_value h + hex_value l))) (of_hex r)
  | _ => EmptyString
  end.

Lemma of_hex_byte (c : ascii) (r : string) :
  of_hex (Text.hex 2 (Z.of_N (N_of_ascii c)) +:+ r) = String c (of_hex r).
Proof. destruct c as [[] [] [] [] [] [] [] []]; reflexivity. Qed.

Lemma of_hex_toHex (bytes : string) : of_hex (Crypto.toHex bytes) = bytes.
Proof.
  unfold Crypto.toHex.
  induction bytes as [|c [|d r] IH]; [reflexivity | |].
  - cbn [Text.bytes map String.concat].
    pose proof (of_hex_byte c EmptyString) as E.
    destruct c as [[] [] [] [] [] [] [] []]; reflexivity.
  - change (String.concat "" (map (Text.hex 2) (Text.bytes (String c (String d r)))))
      with (Text.hex 2 (Z.of_N (N_of_ascii c)) +:+ ""
            +:+ String.concat "" (map (Text.hex 2) (Text.bytes (String d r)))).
    change ("" +:+ String.concat "" (map (Text.hex 2) (Text.bytes (String d r))))
      with (String.concat "" (map (Text.hex 2) (Text.bytes (String d r)))).
    now rewrite of_hex_byte, IH.
Qed.

End HexText.

Section TokenText.
Context `{Platform}.
Context `{!JSON (list Position.t)}.

(** X1. The text of digests and tokens.  Every digest the application
    computes is a fixed number of lower-case hexadecimal digits, whatever is
    digested: 64 for the vote, election, results and timestamped-token
    hashes, 128 for a password hash.  A voter token or session id is the
    random bytes written as two such digits each; the bytes can be read back
    from it, so different random bytes give different tokens. *)
Theorem digests_and_tokens_are_hex (vote : Crypto.VoteData) (data : string)
    (election : Election.t) (w : World) :
  hex_text 64 (Crypto.hashVote vote)
  /\ hex_text 128 (Crypto.generateSecureHash data)
  /\ hex_text 64 (Tokens.hashElection election)
  /\ (forall (A : Type) (codec : JSON A) (results : A),
        hex_text 64 (Crypto.generateElectionVerificationHash results))
  /\ (exists token, eval Tokens.generateTimestampedToken w = Ok token
                    /\ hex_text 64 token)
  /\ Crypto.generateVoterToken w
     = (Ok (Crypto.toHex (WordArray_random (random_draws w) 32)), drawn 1 w)
  /\ Crypto.generateSessionId w
     = (Ok (Crypto.toHex (WordArray_random (random_draws w) 16)), drawn 1 w)
  /\ (forall bytes, hex_text (2 * String.length bytes) (Crypto.toHex bytes))
  /\ (forall bytes, of_hex (Crypto.toHex bytes) = bytes)
  /\ (forall a b, Crypto.toHex a = Crypto.toHex b -> a = b).
Proof.
  split; [apply SHA256_hex_text|]. split; [apply SHA512_hex_text|].
  split; [apply SHA256_hex_text|]. split; [intros; apply SHA256_hex_text|].
  split; [eexists; split; [reflexivity | apply SHA256_hex_text]|].
  split; [reflexivity|]. split; [reflexivity|].
  split; [apply toHex_hex_text|]. split; [apply of_hex_toHex|].
  intros a b E. rewrite <- (of_hex_toHex a), <- (of_hex_toHex b). now rewrite E.
Qed.

End TokenText.

(* ================================================================== *)
(** * The storage facade: what is written is what is read *)
(* ================================================================== *)

Section StorageLaws.
Context `{Platform}.
Context `{!JSON (list User.t)} `{!JSON (list Election.t)} `{!JSON (list Vote.t)}
        `{!JSON (list VotingSession.t)} `{!JSON (list SecurityLog.t)}
        `{!JSON (list ElectionResults.t)} `{!JSON User.t}.
Context `{!Serializable (list User.t)} `{!Serializable (list Election.t)}
        `{!Serializable (list Vote.t)} `{!Serializable (list VotingSession.t)}
        `{!Serializable (list SecurityLog.t)} `{!Serializable User.t}.

(** What the getters of the facade return, one after the other. *)
Definition read_all
    : JS (list User.t * list Election.t * list Vote.t * list VotingSession.t
          * list SecurityLog.t * option User.t) :=
  users ← Storage.getUsers;
  elections ← Storage.getElections;
  votes ← Storage.getVotes;
  sessions ← Storage.getVotingSessions;
  logs ← Storage.getSecurityLogs;
  currentUser ← Storage.getCurrentUser;
  mret (users, elections, votes, sessions, logs, currentUser).

Lemma read_all_run (w : World) :
  read_all w
  = (Ok (users_of w, elections_of w, votes_of w, sessions_of w, logs_of w,
         current_user_of w), w).
Proof. unfold read_all. repeat js_step. reflexivity. Qed.

Lemma then_read_all {A} (m : JS A) (w w' : World) (a : A) :
  m w = (Ok a, w') ->
  eval (m;; read_all) w
  = Ok (users_of w', elections_of w', votes_of w', sessions_of w', logs_of w',
        current_user_of w').
Proof.
  intros Hm. unfold eval. rewrite (bind_run _ _ _ _ _ Hm). now rewrite read_all_run.
Qed.

Lemma record_delete_ne {A} `{JSON A} key key' ls :
  key' <> key -> record (A := A) key (delete key' ls) = record key ls.
Proof. intros Hne. unfold record. now rewrite lookup_delete_ne. Qed.

Lemma collection_delete_ne {A} `{JSON (list A)} key key' ls :
  key' <> key -> collection (A := A) key (delete key' ls) = collection key ls.
Proof. intros Hne. unfold collection. now rewrite lookup_delete_ne. Qed.

Lemma record_delete_eq {A} `{JSON A} key ls : record (A := A) key (delete key ls) = None.
Proof. unfold record. now rewrite lookup_delete_eq. Qed.

Lemma collection_delete_eq {A} `{JSON (list A)} key ls :
  collection (A := A) key (delete key ls) = [].
Proof. unfold collection. now rewrite lookup_delete_eq. Qed.

(** X2. What is written is what is read.  After a save, the getter of that
    collection returns the saved list and every other getter returns what it
    returned before; the same for the current-user record, which reads as
    null after [setCurrentUser(null)]; and [addSecurityLog] adds one entry at
    the end of the log, with the clock reading as id, and changes nothing
    else. *)
Theorem saved_is_read_back (w : World)
    (us : list User.t) (es : list Election.t) (vs : list Vote.t)
    (ss : list VotingSession.t) (ls : list SecurityLog.t) (cu : option User.t)
    (users : list User.t) (elections : list Election.t) (votes : list Vote.t)
    (sessions : list VotingSession.t) (logs : list SecurityLog.t) (user : User.t)
    (log : SecurityLog.entry) :
  eval read_all w = Ok (us, es, vs, ss, ls, cu) ->
  eval (Storage.saveUsers users;; read_all) w = Ok (users, es, vs, ss, ls, cu)
  /\ eval (Storage.saveElections elections;; read_all) w = Ok (us, elections, vs, ss, ls, cu)
  /\ eval (Storage.saveVotes votes;; read_all) w = Ok (us, es, votes, ss, ls, cu)
  /\ eval (Storage.saveVotingSessions sessions;; read_all) w
     = Ok (us, es, vs, sessions, ls, cu)
  /\ eval (Storage.saveSecurityLogs logs;; read_all) w = Ok (us, es, vs, ss, logs, cu)
  /\ eval (Storage.setCurrentUser (Some user);; read_all) w
     = Ok (us, es, vs, ss, ls, Some user)
  /\ eval (Storage.setCurrentUser None;; read_all) w = Ok (us, es, vs, ss, ls, None)
  /\ eval (Storage.addSecurityLog log;; read_all) w
     = Ok (us, es, vs, ss,
           ls ++ [SecurityLog.complete log
                    (Text.of_Z (Date_now (clock_reads w)))
                    (Date.toISOString (Date_now (S (clock_reads w))))],
           cu).
Proof.
  unfold eval at 1. rewrite read_all_run. cbn [fst]. intros [= <- <- <- <- <- <-].
  repeat split.
  - rewrite (then_read_all _ _ _ _ (saveUsers_run users w)). read_views. reflexivity.
  - rewrite (then_read_all _ _ _ _ (saveElections_run elections w)). read_views. reflexivity.
  - rewrite (then_read_all _ _ _ _ (saveVotes_run votes w)). read_views. reflexivity.
  - rewrite (then_read_all _ _ _ _ (saveVotingSessions_run sessions w)). read_views.
    reflexivity.
  - rewrite (then_read_all _ _ _ _ (saveSecurityLogs_run logs w)). read_views. reflexivity.
  - rewrite (then_read_all _ _ _ _ (setCurrentUser_run (Some user) w)). read_views.
    reflexivity.
  - rewrite (then_read_all _ _ _ _ (setCurrentUser_run None w)).
    unfold current_user_set. read_views.
    rewrite !collection_delete_ne by discriminate. now rewrite record_delete_eq.
  - rewrite (then_read_all _ _ _ _ (addSecurityLog_run log w)). read_views. reflexivity.
Qed.

(** The seven keys of the facade. *)
Definition facade_keys : list string :=
  ["voting_users"; "voting_elections"; "voting_votes"; "voting_sessions";
   "voting_security_logs"; "voting_results"; "voting_current_user"].

Lemma clearAllData_run (w : World) :
  Storage.clearAllData w
  = (Ok tt, fold_left (fun w key => remove_item key w) facade_keys w).
Proof. reflexivity. Qed.

(** X3. [clearAllData] empties the facade and nothing else.  Afterwards
    every getter returns the empty collection and the current user is null,
    whatever was stored; entries of localStorage under other keys are kept.
    The administrator account is gone too: the next
    [initializeAdminAccount] creates it anew, alone in the collection, with
    the default password. *)
Theorem clearAllData_clears (w : World) :
  eval (Storage.clearAllData;; read_all) w = Ok ([], [], [], [], [], None)
  /\ (forall codec : JSON (list ElectionResults.t),
        eval (Storage.clearAllData;; Storage.getElectionResults) w = Ok [])
  /\ (forall key, In key facade_keys ->
        localStorage (exec Storage.clearAllData w) !! key = None)
  /\ (forall key, ~ In key facade_keys ->
        localStorage (exec Storage.clearAllData w) !! key = localStorage w !! key)
  /\ (exists a,
        eval (Storage.clearAllData;; Storage.initializeAdminAccount;; Storage.getUsers) w
        = Ok [a]
        /\ User.role a = admin
        /\ User.email a = "admin@bnmit.in"
        /\ Storage.verifyPassword "VoteBNMIT2024!Admin" (User.password a) = true).
Proof.
  assert (Hkeys : forall key,
            localStorage (exec Storage.clearAllData w) !! key
            = if bool_decide (In key facade_keys) then None else localStorage w !! key).
  { intros key. unfold exec. rewrite clearAllData_run. cbn [snd facade_keys fold_left].
    autorewrite with world.
    case_bool_decide as Hin.
    - cbn [In] in Hin.
      repeat (destruct Hin as [<-|Hin];
              [repeat (first [ apply lookup_delete_eq
                             | rewrite lookup_delete_ne by discriminate ])|]).
      contradiction.
    - cbn [In] in Hin.
      rewrite !lookup_delete_ne; [reflexivity|..]; intros <-; apply Hin;
        repeat ((left; reflexivity) || right). }
  assert (Hcleared : forall (A : Type) (codec : JSON (list A)) key,
            In key facade_keys ->
            collection (A := A) key (localStorage (exec Storage.clearAllData w)) = []).
  { intros A codec key Hin. unfold collection. rewrite Hkeys.
    now rewrite bool_decide_eq_true_2. }
  assert (Hrun : Storage.clearAllData w = (Ok tt, exec Storage.clearAllData w))
    by reflexivity.
  split.
  { rewrite (then_read_all _ _ _ _ Hrun).
    unfold users_of, elections_of, votes_of, sessions_of, logs_of, current_user_of.
    rewrite !Hcleared by (cbn; tauto).
    unfold record. rewrite Hkeys. now rewrite bool_decide_eq_true_2 by (cbn; tauto). }
  split.
  { intros codec. unfold eval. rewrite (bind_run _ _ _ _ _ Hrun).
    unfold Storage.getElectionResults. rewrite read_collection_run. cbn [fst].
    now rewrite Hcleared by (cbn; tauto). }
  split; [intros key Hin; rewrite Hkeys; now rewrite bool_decide_eq_true_2|].
  split; [intros key Hin; rewrite Hkeys; now rewrite bool_decide_eq_false_2|].
  set (w0 := exec Storage.clearAllData w) in *.
  assert (Hnone : users_of w0 = []) by (apply Hcleared; cbn; tauto).
  exists (default_admin w0).
  split.
  - unfold eval. rewrite (bind_run _ _ _ _ _ Hrun).
    fold w0.
    rewrite (bind_run _ _ _ _ _
               (initialize_absent w0 ltac:(now rewrite Hnone))).
    rewrite getUsers_run. cbn [fst]. rewrite users_of_stored. now rewrite Hnone.
  - split; [reflexivity|]. split; [reflexivity|].
    unfold Storage.verifyPassword. apply String.eqb_refl.
Qed.

Lemma find_app_none {A} (f : A -> bool) (l l' : list A) :
  List.find f l = None -> List.find f (l ++ l') = List.find f l'.
Proof.
  induction l as [|x l IH]; [reflexivity|]. simpl.
  destruct (f x); [discriminate | exact IH].
Qed.

(** X4. The default administrator can log in.  After
    [initializeAdminAccount] on a collection with no administrator and no
    user of the administrator's email, [getUserByEmail] finds the new
    administrator under "admin@bnmit.in" and [verifyPassword] accepts the
    default password for it; it accepts another password only if its salted
    SHA-512 digest is the same. *)
Theorem default_admin_can_log_in (w : World) (users : list User.t) :
  eval Storage.getUsers w = Ok users ->
  existsb is_admin users = false ->
  List.find (fun u => String.eqb (User.email u) "admin@bnmit.in") users = None ->
  exists a,
    eval (Storage.initializeAdminAccount;; Storage.getUserByEmail "admin@bnmit.in") w
    = Ok (Some a)
    /\ User.role a = admin
    /\ Storage.verifyPassword "VoteBNMIT2024!Admin" (User.password a) = true
    /\ (forall p, Storage.verifyPassword p (User.password a) = true ->
                  Crypto.generateSecureHash p
                  = Crypto.generateSecureHash "VoteBNMIT2024!Admin").
Proof.
  unfold eval at 1. rewrite getUsers_run. cbn [fst]. intros [= <-] Hno Hfree.
  exists (default_admin w). split.
  - unfold eval. rewrite (bind_run _ _ _ _ _ (initialize_absent w Hno)).
    rewrite getUserByEmail_run. cbn [fst]. rewrite users_of_stored.
    rewrite (find_app_none _ _ _ Hfree). reflexivity.
  - split; [reflexivity|]. split; [apply String.eqb_refl|].
    intros p Hp. unfold Storage.verifyPassword in Hp. now apply String.eqb_eq in Hp.
Qed.

End StorageLaws.

(* ================================================================== *)
(** * The voting interface: entering, choosing, counting down *)
(* ================================================================== *)

Lemma generateVoterToken_run `{Platform} (w : World) :
  Crypto.generateVoterToken w
  = (Ok (Crypto.toHex (WordArray_random (random_draws w) 32)), drawn 1 w).
Proof. reflexivity. Qed.

Lemma generateSessionId_run `{Platform} (w : World) :
  Crypto.generateSessionId w
  = (Ok (Crypto.toHex (WordArray_random (random_draws w) 16)), drawn 1 w).
Proof. reflexivity. Qed.

#[global] Hint Resolve generateVoterToken_run generateSessionId_run : js_run.

Section FirstEntry.
Context `{Platform}.
Context `{!JSON (list User.t)} `{!JSON (list Election.t)} `{!JSON (list Vote.t)}
        `{!JSON (list VotingSession.t)} `{!JSON (list SecurityLog.t)}
        `{!JSON User.t}.
Context `{!Serializable (list User.t)} `{!Serializable (list VotingSession.t)}.

Variable election : Election.t.
Variable user : User.t.

(** The session [createVotingSession] builds in the world [w]. *)
Definition new_session (w : World) : VotingSession.t :=
  {| VotingSession.sessionId := Crypto.toHex (WordArray_random (S (random_draws w)) 16);
     VotingSession.voterToken := Crypto.toHex (WordArray_random (random_draws w) 32);
     VotingSession.electionId := Election.id election;
     VotingSession.isActive := true;
     VotingSession.expiresAt :=
       Date.toISOString (Date_now (clock_reads w) + 30 * 60 * 1000);
     VotingSession.ipAddress := "localhost";
     VotingSession.userAgent := navigator_userAgent |}.

(** [users.map(u => u.id === user.id ? { ...u, votingTokens: { ...u.votingTokens,
    [election.id]: voterToken } } : u)] *)
Definition give_token (voterToken : string) (u : User.t) : User.t :=
  if String.eqb (User.id u) (User.id user)
  then User.with_votingTokens
         (<[Election.id election := voterToken]> (default ∅ (User.votingTokens u))) u
  else u.

(** The ballot the mount effect starts from. *)
Definition blank_ballot : JsObject.t string :=
  fold_left (fun o position => JsObject.assign (Position.id position) "" o)
            (Election.positions election) [].

Lemma createVotingSession_spec (st : VotingInterface.state) (w : World) :
  exists w',
    VotingInterface.createVotingSession election user st w
    = (Ok (VotingInterface.setVotingSession (Some (new_session w)) st), w')
    /\ sessions_of w' = sessions_of w ++ [new_session w]
    /\ users_of w'
       = map (give_token (VotingSession.voterToken (new_session w))) (users_of w)
    /\ votes_of w' = votes_of w
    /\ elections_of w' = elections_of w
    /\ logs_of w' = logs_of w
    /\ effects w' = effects w.
Proof.
  eexists. split.
  - unfold VotingInterface.createVotingSession.
    repeat js_next. rewrite ret_run. reflexivity.
  - read_views. repeat split; reflexivity.
Qed.


Lemma voted_in_give_token (voterToken : string) (users : list User.t) (userId electionId : string) :
  voted_in (map (give_token voterToken) users) userId electionId
  = voted_in users userId electionId.
Proof.
  unfold voted_in. induction users as [|u r IH]; [reflexivity|].
  cbn [map List.find].
  assert (Hid : User.id (give_token voterToken u) = User.id u)
    by (unfold give_token; now destruct (String.eqb _ _)).
  assert (Hflags : User.hasVoted (give_token voterToken u) = User.hasVoted u)
    by (unfold give_token; now destruct (String.eqb _ _)).
  rewrite Hid. destruct (String.eqb (User.id u) userId); [now rewrite Hflags | exact IH].
Qed.

Lemma give_token_recorded (voterToken : string) (users : list User.t) :
  Forall (fun u => User.id u = User.id user ->
                   exists tokens, User.votingTokens u = Some tokens
                                  /\ tokens !! Election.id election = Some voterToken)
         (map (give_token voterToken) users).
Proof.
  apply Forall_map, Forall_forall. intros u _. unfold give_token.
  destruct (String.eqb_spec (User.id u) (User.id user)) as [E|E].
  - intros _. eexists. split; [reflexivity|]. apply lookup_insert_eq.
  - intros E'. contradiction.
Qed.

Lemma get_assign (k k' : string) (o : JsObject.t string) :
  JsObject.get "__proto__" o = None ->
  JsObject.get k' (JsObject.assign k "" o)
  = if String.eqb k k' && negb (String.eqb k "__proto__")
    then Some "" else JsObject.get k' o.
Proof.
  intros Hproto. unfold JsObject.assign.
  destruct (String.eqb_spec k "__proto__") as [->|Hk].
  - rewrite Hproto, andb_false_r. reflexivity.
  - rewrite andb_true_r.
    assert (E : JsObject.get k' (JsObject.set k "" o)
                = if String.eqb k k' then Some "" else JsObject.get k' o).
    { destruct (String.eqb_spec k k') as [<-|Hne];
        [apply get_set_eq | now apply get_set_ne]. }
    now destruct (JsObject.get k o).
Qed.

Lemma blank_ballot_get_aux (positions : list Position.t) (o : JsObject.t string) (k : string) :
  JsObject.get "__proto__" o = None ->
  JsObject.get k (fold_left (fun o position => JsObject.assign (Position.id position) "" o)
                            positions o)
  = if existsb (fun position => String.eqb (Position.id position) k) positions
       && negb (String.eqb k "__proto__")
    then Some "" else JsObject.get k o.
Proof.
  revert o. induction positions as [|p r IH]; intros o Hproto; [reflexivity|].
  cbn [fold_left existsb].
  assert (Hproto' : JsObject.get "__proto__" (JsObject.assign (Position.id p) "" o) = None).
  { rewrite get_assign by assumption.
    now destruct (String.eqb (Position.id p) "__proto__"). }
  rewrite (IH _ Hproto'), get_assign by assumption.
  destruct (String.eqb k "__proto__") eqn:Hk; cbn [negb].
  - rewrite !andb_false_r. apply String.eqb_eq in Hk. rewrite Hk.
    now rewrite andb_negb_r.
  - rewrite !andb_true_r.
    destruct (existsb (fun position => String.eqb (Position.id position) k) r);
      [now rewrite orb_true_r|].
    rewrite orb_false_r.
    destruct (String.eqb_spec (Position.id p) k) as [E|E]; [|reflexivity].
    rewrite E, Hk. reflexivity.
Qed.

Lemma blank_ballot_get (position : Position.t) :
  In position (Election.positions election) ->
  Position.id position <> "__proto__" ->
  JsObject.get (Position.id position) blank_ballot = Some "".
Proof.
  intros Hin Hid. unfold blank_ballot. rewrite blank_ballot_get_aux by reflexivity.
  replace (existsb _ _) with true.
  - now rewrite (proj2 (String.eqb_neq _ _) Hid).
  - symmetry. apply existsb_exists. exists position. split; [assumption|].
    apply String.eqb_refl.
Qed.

Lemma blank_ballot_proto : JsObject.get "__proto__" blank_ballot = None.
Proof.
  unfold blank_ballot. rewrite blank_ballot_get_aux by reflexivity.
  now rewrite andb_false_r.
Qed.

(** What the mount effect leaves when the user has not voted. *)
Lemma mount_fresh_spec (st : VotingInterface.state) (w : World) :
  voted_in (users_of w) (User.id user) (Election.id election) = false ->
  exists w',
    VotingInterface.mount election user st w
    = (Ok (VotingInterface.setVotes blank_ballot
             (VotingInterface.setVotingSession (Some (new_session w)) st)), w')
    /\ sessions_of w' = sessions_of w ++ [new_session w]
    /\ users_of w'
       = map (give_token (VotingSession.voterToken (new_session w))) (users_of w)
    /\ votes_of w' = votes_of w
    /\ elections_of w' = elections_of w
    /\ logs_of w' = logs_of w
    /\ effects w' = effects w ++ [SetInterval 1000].
Proof.
  intros Hv.
  destruct (createVotingSession_spec st w)
    as (w1 & Hrun & Hsessions & Husers & Hvotes & Helections & Hlogs & Heffects).
  exists (emitted [SetInterval 1000] w1).
  split.
  { unfold VotingInterface.mount. js_step. rewrite Hv.
    rewrite (bind_run _ _ _ _ _ Hrun). js_step. now rewrite ret_run. }
  split; [exact Hsessions|]. split; [exact Husers|]. split; [exact Hvotes|].
  split; [exact Helections|]. split; [exact Hlogs|].
  autorewrite with world. now rewrite Heffects.
Qed.

(** X5. The first entry opens a session.  When the has-voted check answers
    false, the mount effect adds exactly one session record, active, for
    this election, expiring thirty minutes after the clock reading, and
    keeps it in the component state; it writes the session's voter token
    into the stored record of every user with the acting user's id; it
    starts the one-second timer and the ballot, which holds the empty
    selection for every position whose id is not ["__proto__"] and no
    property of that name (assigning a string to it creates none); votes,
    elections and the log are not touched, and the has-voted check still
    answers false. *)
Theorem first_entry_opens_a_session (st : VotingInterface.state) (w : World) :
  eval (Storage.hasUserVotedInElection (User.id user) (Election.id election)) w
    = Ok false ->
  exists (w' : World) (session : VotingSession.t),
    VotingInterface.mount election user st w
    = (Ok (VotingInterface.setVotes blank_ballot
             (VotingInterface.setVotingSession (Some session) st)), w')
    /\ VotingSession.electionId session = Election.id election
    /\ VotingSession.isActive session = true
    /\ VotingSession.expiresAt session
       = Date.toISOString (Date_now (clock_reads w) + 30 * 60 * 1000)
    /\ VotingSession.voterToken session
       = Crypto.toHex (WordArray_random (random_draws w) 32)
    /\ VotingSession.sessionId session
       = Crypto.toHex (WordArray_random (S (random_draws w)) 16)
    /\ eval Storage.getVotingSessions w' = Ok (sessions_of w ++ [session])
    /\ eval Storage.getVotingSessions w = Ok (sessions_of w)
    /\ eval Storage.getUsers w'
       = Ok (map (give_token (VotingSession.voterToken session)) (users_of w))
    /\ Forall (fun u => User.id u = User.id user ->
                        exists tokens,
                          User.votingTokens u = Some tokens
                          /\ tokens !! Election.id election
                             = Some (VotingSession.voterToken session))
              (users_of w')
    /\ (forall position, In position (Election.positions election) ->
          Position.id position <> "__proto__" ->
          JsObject.get (Position.id position) blank_ballot = Some "")
    /\ JsObject.get "__proto__" blank_ballot = None
    /\ eval Storage.getVotes w' = eval Storage.getVotes w
    /\ eval Storage.getElections w' = eval Storage.getElections w
    /\ eval Storage.getSecurityLogs w' = eval Storage.getSecurityLogs w
    /\ eval (Storage.hasUserVotedInElection (User.id user) (Election.id election)) w'
       = Ok false
    /\ effects w' = effects w ++ [SetInterval 1000].
Proof.
  unfold eval. rewrite hasUserVotedInElection_run. cbn [fst]. intros [= Hv].
  destruct (mount_fresh_spec st w Hv)
    as (w' & Hrun & Hsessions & Husers & Hvotes & Helections & Hlogs & Heffects).
  exists w', (new_session w).
  split; [exact Hrun|].
  rewrite !getVotingSessions_run, !getUsers_run, !getVotes_run, !getElections_run,
    !getSecurityLogs_run, hasUserVotedInElection_run.
  cbn [fst].
  rewrite Hsessions, Husers, Hvotes, Helections, Hlogs.
  rewrite voted_in_give_token, Hv.
  split; [reflexivity|]. split; [reflexivity|]. split; [reflexivity|].
  split; [reflexivity|]. split; [reflexivity|]. split; [reflexivity|].
  split; [reflexivity|]. split; [reflexivity|].
  split; [apply give_token_recorded|].
  split; [apply blank_ballot_get|].
  split; [apply blank_ballot_proto|].
  split; [reflexivity|]. split; [reflexivity|]. split; [reflexivity|].
  split; [reflexivity|]. exact Heffects.
Qed.

End FirstEntry.

Section AfterEntry.
Context `{Platform}.
Context `{!JSON (list User.t)} `{!JSON (list Election.t)} `{!JSON (list Vote.t)}
        `{!JSON (list VotingSession.t)} `{!JSON (list SecurityLog.t)}
        `{!JSON User.t}.
Context `{!Serializable (list User.t)} `{!Serializable (list Election.t)}
        `{!Serializable (list Vote.t)} `{!Serializable (list VotingSession.t)}
        `{!Serializable (list SecurityLog.t)}.

Variable election : Election.t.
Variable user : User.t.

Lemma mark_voted_votingTokens (u : User.t) :
  User.votingTokens (mark_voted election user u) = User.votingTokens u.
Proof. unfold mark_voted. now destruct (String.eqb _ _). Qed.

(** A submission that reaches the completed state ran with a session and an
    unset has-voted flag. *)
Lemma completed_submission (st st' : VotingInterface.state) (w w' : World) :
  VotingInterface.isCompleted st = false ->
  VotingInterface.submitVotes election user st w = (Ok st', w') ->
  VotingInterface.isCompleted st' = true ->
  exists session,
    VotingInterface.votingSession st = Some session
    /\ voted_in (users_of w) (User.id user) (Election.id election) = false
    /\ votes_of w' = votes_of w ++ new_votes election st session w
    /\ users_of w' = map (mark_voted election user) (users_of w)
    /\ sessions_of w' = map (deactivate session) (sessions_of w).
Proof.
  intros Hnot Hrun Hdone.
  destruct (VotingInterface.votingSession st) as [session|] eqn:Hs.
  2: { rewrite (submitVotes_no_session election user st w Hs) in Hrun.
       injection Hrun as <- _. congruence. }
  destruct (voted_in (users_of w) (User.id user) (Election.id election)) eqn:Hv.
  { destruct (submitVotes_voted election user st session w Hs Hv) as [w1 Hw1].
    rewrite Hw1 in Hrun. injection Hrun as <- _. congruence. }
  destruct (submitVotes_spec election user st session w Hs Hv)
    as (w1 & entry & Hw1 & Hvotes & Husers & _ & Hsessions & _).
  rewrite Hw1 in Hrun. injection Hrun as _ <-.
  exists session. repeat split; assumption.
Qed.

(** X6. Votes can be traced to the voter.  When a user enters an election
    and the submission completes, every vote record it stored carries the
    session's voter token, and the same token stands under this election in
    the [votingTokens] of the stored record of every user with the acting
    user's id: the users collection joins each vote to its voter. *)
Theorem votes_are_linked_to_the_voter
    (st st1 st2 st3 : VotingInterface.state) (w w1 w2 : World) :
  eval (Storage.hasUserVotedInElection (User.id user) (Election.id election)) w
    = Ok false ->
  VotingInterface.mount election user st w = (Ok st1, w1) ->
  VotingInterface.votingSession st2 = VotingInterface.votingSession st1 ->
  VotingInterface.isCompleted st2 = false ->
  VotingInterface.submitVotes election user st2 w1 = (Ok st3, w2) ->
  VotingInterface.isCompleted st3 = true ->
  exists (token : string) (newVotes : list Vote.t),
    token = Crypto.toHex (WordArray_random (random_draws w) 32)
    /\ eval Storage.getVotes w2 = Ok (votes_of w ++ newVotes)
    /\ Forall (fun v => Vote.voterToken v = token) newVotes
    /\ eval Storage.getUsers w2 = Ok (users_of w2)
    /\ Forall (fun u => User.id u = User.id user ->
                        exists tokens,
                          User.votingTokens u = Some tokens
                          /\ tokens !! Election.id election = Some token)
              (users_of w2).
Proof.
  unfold eval at 1. rewrite hasUserVotedInElection_run. cbn [fst]. intros [= Hv].
  intros Hmount Hsame Hnot Hrun Hdone.
  destruct (mount_fresh_spec election user st w Hv)
    as (w1' & Hm & _ & Husers1 & Hvotes1 & _).
  rewrite Hm in Hmount. injection Hmount as <- <-.
  cbn [VotingInterface.votingSession VotingInterface.setVotes
       VotingInterface.setVotingSession] in Hsame.
  destruct (completed_submission st2 st3 w1' w2 Hnot Hrun Hdone)
    as (session & Hs & _ & Hvotes2 & Husers2 & _).
  assert (Hsession : session = new_session election w) by congruence.
  exists (Crypto.toHex (WordArray_random (random_draws w) 32)),
    (new_votes election st2 session w1').
  split; [reflexivity|].
  unfold eval. rewrite getVotes_run, getUsers_run. cbn [fst].
  rewrite Hvotes2, Hvotes1.
  split; [reflexivity|]. split.
  - unfold new_votes. apply ballot_votes_Forall. intros entry c r.
    now rewrite Hsession.
  - split; [reflexivity|].
    rewrite Husers2, Husers1. apply Forall_map.
    pose proof (give_token_recorded election user
                  (VotingSession.voterToken (new_session election w)) (users_of w)) as Hall.
    eapply Forall_impl; [exact Hall|].
    intros u Hu Hid. rewrite mark_voted_id in Hid. rewrite mark_voted_votingTokens.
    now apply Hu.
Qed.

(** What a submission leaves when the has-voted check answers true. *)
Lemma submitVotes_blocked_spec (st : VotingInterface.state) session (w : World) :
  VotingInterface.votingSession st = Some session ->
  voted_in (users_of w) (User.id user) (Election.id election) = true ->
  exists w' entry,
    VotingInterface.submitVotes election user st w = (Ok st, w')
    /\ votes_of w' = votes_of w
    /\ users_of w' = users_of w
    /\ elections_of w' = elections_of w
    /\ sessions_of w' = sessions_of w
    /\ logs_of w' = logs_of w ++ [entry]
    /\ SecurityLog.type entry = double_vote_attempt
    /\ SecurityLog.severity entry = critical
    /\ SecurityLog.userId entry = Some (User.id user)
    /\ effects w'
       = effects w ++ [Alert "Security Alert: Vote already recorded for this election!";
                       OnCancel].
Proof.
  intros Hs Hv. eexists _, _. split.
  - unfold VotingInterface.submitVotes. rewrite Hs.
    js_step. rewrite Hv. do 3 js_step. now rewrite ret_run.
  - read_views. rewrite <- app_assoc. repeat split; reflexivity.
Qed.

(** X7. A second submission is blocked.  After a submission completed for
    a user of the users collection, [submitVotes] from any state that holds
    a session returns that state unchanged and stores no vote: votes, users,
    elections and sessions are what they were; one [double_vote_attempt]
    entry of severity critical is added to the log, the user is alerted and
    [onCancel] is called.  Without a session it only alerts. *)
Theorem second_submission_is_blocked
    (st st' st2 : VotingInterface.state) (session2 : VotingSession.t) (w w' : World) :
  VotingInterface.isCompleted st = false ->
  VotingInterface.submitVotes election user st w = (Ok st', w') ->
  VotingInterface.isCompleted st' = true ->
  (exists u, In u (users_of w) /\ User.id u = User.id user) ->
  VotingInterface.votingSession st2 = Some session2 ->
  exists (w'' : World) (entry : SecurityLog.t),
    VotingInterface.submitVotes election user st2 w' = (Ok st2, w'')
    /\ eval Storage.getVotes w'' = eval Storage.getVotes w'
    /\ eval Storage.getUsers w'' = eval Storage.getUsers w'
    /\ eval Storage.getElections w'' = eval Storage.getElections w'
    /\ eval Storage.getVotingSessions w'' = eval Storage.getVotingSessions w'
    /\ eval Storage.getSecurityLogs w'' = Ok (logs_of w' ++ [entry])
    /\ SecurityLog.type entry = double_vote_attempt
    /\ SecurityLog.severity entry = critical
    /\ effects w''
       = effects w' ++ [Alert "Security Alert: Vote already recorded for this election!";
                        OnCancel]
    /\ (forall st0 w0,
          VotingInterface.votingSession st0 = None ->
          VotingInterface.submitVotes election user st0 w0
          = (Ok st0, emitted [Alert "Invalid voting session. Please try again."] w0)).
Proof.
  intros Hnot Hrun Hdone Hu Hs2.
  destruct (completed_submission st st' w w' Hnot Hrun Hdone)
    as (session & _ & _ & _ & Husers & _).
  assert (Hv : voted_in (users_of w') (User.id user) (Election.id election) = true).
  { rewrite Husers. now apply voted_in_mark_voted. }
  destruct (submitVotes_blocked_spec st2 session2 w' Hs2 Hv)
    as (w'' & entry & Hrun2 & Hvotes & Husers2 & Helections & Hsessions & Hlogs
        & Htype & Hsev & _ & Heffects).
  exists w'', entry. split; [exact Hrun2|].
  unfold eval. rewrite !getVotes_run, !getUsers_run, !getElections_run,
    !getVotingSessions_run, !getSecurityLogs_run.
  cbn [fst]. rewrite Hvotes, Husers2, Helections, Hsessions, Hlogs.
  split; [reflexivity|]. split; [reflexivity|]. split; [reflexivity|].
  split; [reflexivity|]. split; [reflexivity|]. split; [exact Htype|].
  split; [exact Hsev|]. split; [exact Heffects|].
  intros st0 w0 Hs0. now apply submitVotes_no_session.
Qed.

End AfterEntry.

(* ================================================================== *)
(** * The countdown *)
(* ================================================================== *)

Section Countdown.

(** [n] firings of the timer. *)
Fixpoint ticks (n : nat) (st : VotingInterface.state) : JS VotingInterface.state :=
  match n with
  | O => mret st
  | S k => st' ← VotingInterface.tick st; ticks k st'
  end.

Definition expired : list Effect :=
  [Alert "Your voting session has expired. Please start again."; OnCancel].

Lemma setTimeRemaining_same (st : VotingInterface.state) :
  VotingInterface.setTimeRemaining (VotingInterface.timeRemaining st) st = st.
Proof. now destruct st. Qed.

Lemma setTimeRemaining_twice (a b : Z) (st : VotingInterface.state) :
  VotingInterface.setTimeRemaining a (VotingInterface.setTimeRemaining b st)
  = VotingInterface.setTimeRemaining a st.
Proof. reflexivity. Qed.

Lemma tick_run (st : VotingInterface.state) (w : World) :
  VotingInterface.tick st w
  = if VotingInterface.timeRemaining st <=? 1
    then (Ok (VotingInterface.setTimeRemaining 0 st), emitted expired w)
    else (Ok (VotingInterface.setTimeRemaining (VotingInterface.timeRemaining st - 1) st), w).
Proof.
  unfold VotingInterface.tick.
  destruct (VotingInterface.timeRemaining st <=? 1); [|reflexivity].
  do 2 js_step. rewrite ret_run. now rewrite emitted_emitted.
Qed.

Lemma ticks_before (n : nat) (st : VotingInterface.state) (w : World) :
  Z.of_nat n < VotingInterface.timeRemaining st ->
  ticks n st w
  = (Ok (VotingInterface.setTimeRemaining
           (VotingInterface.timeRemaining st - Z.of_nat n) st), w).
Proof.
  revert st. induction n as [|n IH]; intros st Hlt.
  - cbn [ticks]. rewrite ret_run, Z.sub_0_r. now rewrite setTimeRemaining_same.
  - cbn [ticks]. unfold mbind, JS_bind. rewrite tick_run.
    destruct (Z.leb_spec (VotingInterface.timeRemaining st) 1) as [Hle|Hgt]; [lia|].
    rewrite IH by (cbn [VotingInterface.timeRemaining VotingInterface.setTimeRemaining]; lia).
    cbn [VotingInterface.timeRemaining VotingInterface.setTimeRemaining].
    rewrite setTimeRemaining_twice.
    replace (VotingInterface.timeRemaining st - 1 - Z.of_nat n)
      with (VotingInterface.timeRemaining st - Z.of_nat (S n)) by lia.
    reflexivity.
Qed.

Lemma ticks_expiry (n : nat) (st : VotingInterface.state) (w : World) :
  Z.of_nat (S n) = VotingInterface.timeRemaining st ->
  ticks (S n) st w = (Ok (VotingInterface.setTimeRemaining 0 st), emitted expired w).
Proof.
  revert st. induction n as [|n IH]; intros st Ht.
  - cbn [ticks]. unfold mbind, JS_bind. rewrite tick_run.
    destruct (Z.leb_spec (VotingInterface.timeRemaining st) 1); [reflexivity | lia].
  - change (ticks (S (S n)) st w)
      with ((st' ← VotingInterface.tick st; ticks (S n) st') w).
    unfold mbind, JS_bind. rewrite tick_run.
    destruct (Z.leb_spec (VotingInterface.timeRemaining st) 1); [lia|].
    rewrite IH by (cbn [VotingInterface.timeRemaining VotingInterface.setTimeRemaining]; lia).
    now rewrite setTimeRemaining_twice.
Qed.

(** X8. The countdown.  While fewer timer firings have happened than
    seconds remain, each firing takes one second off and has no other
    effect; the firing at one second remaining (or fewer) sets the time to
    zero, alerts the voter and calls [onCancel]: a session of [t] seconds is
    cancelled by exactly the [t]-th firing, the initial thirty minutes by
    the 1800th.  The time never becomes negative from a non-negative one. *)
Theorem countdown_reaches_zero (st : VotingInterface.state) (w : World) (n : nat) :
  let t := VotingInterface.timeRemaining st in
  (Z.of_nat n < t ->
     ticks n st w = (Ok (VotingInterface.setTimeRemaining (t - Z.of_nat n) st), w))
  /\ (Z.of_nat (S n) = t ->
      ticks (S n) st w = (Ok (VotingInterface.setTimeRemaining 0 st), emitted expired w))
  /\ (t <= 1 ->
      VotingInterface.tick st w
      = (Ok (VotingInterface.setTimeRemaining 0 st), emitted expired w))
  /\ (0 <= t ->
      forall st' w', ticks n st w = (Ok st', w') ->
                     0 <= VotingInterface.timeRemaining st' <= t)
  /\ VotingInterface.timeRemaining VotingInterface.initial = 1800.
Proof.
  cbv zeta. split; [apply ticks_before|]. split.
  { intros Ht. now apply ticks_expiry. }
  split.
  { intros Ht. rewrite tick_run.
    destruct (Z.leb_spec (VotingInterface.timeRemaining st) 1); [reflexivity | lia]. }
  split; [|reflexivity].
  revert st w. induction n as [|n IH]; intros st w Ht st' w' Hrun.
  - cbn [ticks] in Hrun. rewrite ret_run in Hrun. injection Hrun as <- _. lia.
  - cbn [ticks] in Hrun. unfold mbind, JS_bind in Hrun. rewrite tick_run in Hrun.
    destruct (Z.leb_spec (VotingInterface.timeRemaining st) 1).
    + apply IH in Hrun; cbn [VotingInterface.timeRemaining
                             VotingInterface.setTimeRemaining] in *; lia.
    + apply IH in Hrun; cbn [VotingInterface.timeRemaining
                             VotingInterface.setTimeRemaining] in *; lia.
Qed.

End Countdown.

(* ================================================================== *)
(** * The buttons of the voting interface

    How the JSX of [VotingInterface] wires its handlers: the completion
    screen has no button; the confirmation screen has "Review Votes", which
    hides it again; the ballot screen has one card per candidate of
    [election.positions[currentStep]], "Previous" (disabled on the first
    position) and "Next". *)
(* ================================================================== *)

Module VotingScreen.

Inductive button :=
  | CandidateCard (index : nat)   (* the card of [currentPosition.candidates[index]] *)
  | Previous
  | Next
  | ReviewVotes.

Section Component.
Variable election : Election.t.

(** [election.positions[currentStep]] *)
Definition currentPosition (st : VotingInterface.state) : option Position.t :=
  nth_error (Election.positions election) (VotingInterface.currentStep st).

(** A click on a button, where the screen shows it and it is enabled. *)
Definition press (b : button) (st : VotingInterface.state) : VotingInterface.state :=
  if VotingInterface.isCompleted st then st
  else if VotingInterface.showConfirmation st then
    match b with
    | ReviewVotes =>
        if VotingInterface.isSubmitting st then st
        else VotingInterface.setShowConfirmation false st
    | _ => st
    end
  else
    match b with
    | CandidateCard index =>
        match currentPosition st with
        | Some position =>
            match nth_error (Position.candidates position) index with
            | Some candidate =>
                VotingInterface.handleVoteChange
                  (Position.id position) (Candidate.id candidate) st
            | None => st
            end
        | None => st
        end
    | Previous =>
        if (VotingInterface.currentStep st =? 0)%nat then st
        else VotingInterface.handlePrevious st
    | Next => VotingInterface.handleNext election st
    | ReviewVotes => st
    end.

(** The state after the mount effect opened [session]. *)
Definition mounted (session : VotingSession.t) : VotingInterface.state :=
  VotingInterface.setVotes (blank_ballot election)
    (VotingInterface.setVotingSession (Some session) VotingInterface.initial).

Definition after (presses : list button) (session : VotingSession.t)
    : VotingInterface.state :=
  fold_left (fun st b => press b st) presses (mounted session).

End Component.
End VotingScreen.

Section ObjectKeys.
Context {V : Type}.

Lemma set_keys_present (k : string) (v : V) (o : JsObject.t V) :
  In k (map fst o) -> map fst (JsObject.set k v o) = map fst o.
Proof.
  induction o as [|[k' v'] r IH]; intros Hin; [contradiction|].
  cbn [JsObject.set]. destruct (String.eqb_spec k' k) as [->|Hne]; [reflexivity|].
  cbn [map fst]. f_equal. apply IH. destruct Hin as [E|Hin]; [contradiction | assumption].
Qed.

Lemma set_keys_absent (k : string) (v : V) (o : JsObject.t V) :
  ~ In k (map fst o) -> JsObject.set k v o = o ++ [(k, v)].
Proof.
  induction o as [|[k' v'] r IH]; intros Hin; [reflexivity|].
  cbn [JsObject.set]. destruct (String.eqb_spec k' k) as [->|Hne].
  - exfalso. apply Hin. now left.
  - cbn [app]. f_equal. apply IH. intros Hr. apply Hin. now right.
Qed.

Lemma set_In (k k' : string) (v v' : V) (o : JsObject.t V) :
  In (k', v') (JsObject.set k v o) -> (k' = k /\ v' = v) \/ In (k', v') o.
Proof.
  induction o as [|[k0 v0] r IH]; cbn [JsObject.set].
  - intros [[= <- <-]|[]]. now left.
  - destruct (String.eqb_spec k0 k) as [->|Hne].
    + intros [[= <- <-]|Hin]; [now left | right; now right].
    + intros [E|Hin]; [right; now left|].
      destruct (IH Hin) as [?|?]; [now left | right; now right].
Qed.

Lemma In_get (k : string) (v : V) (o : JsObject.t V) :
  List.NoDup (map fst o) -> In (k, v) o -> JsObject.get k o = Some v.
Proof.
  induction o as [|[k0 v0] r IH]; intros Hnd Hin; [contradiction|].
  cbn [map fst] in Hnd. apply List.NoDup_cons_iff in Hnd as [Hk0 Hr].
  cbn [JsObject.get]. destruct Hin as [[= -> ->]|Hin].
  - now rewrite String.eqb_refl.
  - destruct (String.eqb_spec k0 k) as [->|Hne]; [|now apply IH].
    exfalso. apply Hk0. change k with (fst (k, v)). now apply in_map.
Qed.

Lemma get_In (k : string) (v : V) (o : JsObject.t V) :
  JsObject.get k o = Some v -> In (k, v) o.
Proof.
  induction o as [|[k0 v0] r IH]; cbn [JsObject.get]; [discriminate|].
  destruct (String.eqb_spec k0 k) as [->|Hne].
  - intros [= ->]. now left.
  - intros Hg. right. now apply IH.
Qed.

Lemma get_None_absent (k : string) (o : JsObject.t V) :
  JsObject.get k o = None <-> ~ In k (map fst o).
Proof.
  induction o as [|[k0 v0] r IH]; cbn [JsObject.get map fst In]; [tauto|].
  destruct (String.eqb_spec k0 k) as [->|Hne].
  - split; [discriminate | intros Hout; exfalso; apply Hout; now left].
  - rewrite IH. tauto.
Qed.

Lemma set_keys (k k' : string) (v : V) (o : JsObject.t V) :
  In k' (map fst (JsObject.set k v o)) <-> In k' (map fst o) \/ k' = k.
Proof.
  destruct (in_dec string_dec k (map fst o)) as [Hin|Hout].
  - rewrite set_keys_present by assumption. split; [tauto|].
    intros [?| ->]; assumption.
  - rewrite set_keys_absent by assumption. rewrite map_app, in_app_iff.
    cbn [map fst In]. intuition congruence.
Qed.

Lemma set_NoDup (k : string) (v : V) (o : JsObject.t V) :
  List.NoDup (map fst o) -> List.NoDup (map fst (JsObject.set k v o)).
Proof.
  intros Hnd. destruct (in_dec string_dec k (map fst o)) as [Hin|Hout].
  - now rewrite set_keys_present.
  - rewrite set_keys_absent by assumption. rewrite map_app. cbn [map fst].
    apply List.NoDup_app; [assumption | |].
    + constructor; [intros [] | constructor].
    + intros k' Hk [<-|[]]. contradiction.
Qed.

Lemma assign_proto (v : V) (o : JsObject.t V) :
  ~ In "__proto__" (map fst o) -> JsObject.assign "__proto__" v o = o.
Proof.
  intros Hout. unfold JsObject.assign.
  now rewrite (proj2 (get_None_absent _ _) Hout).
Qed.

Lemma assign_other (k : string) (v : V) (o : JsObject.t V) :
  k <> "__proto__" -> JsObject.assign k v o = JsObject.set k v o.
Proof.
  intros Hk. unfold JsObject.assign.
  rewrite (proj2 (String.eqb_neq _ _) Hk). now destruct (JsObject.get k o).
Qed.

End ObjectKeys.

Section BallotInvariants.
Variable election : Election.t.

(** [c] is the id of a candidate of a position with the id [k]. *)
Definition of_position (k c : string) : Prop :=
  exists position candidate,
    In position (Election.positions election) /\ Position.id position = k
    /\ In candidate (Position.candidates position) /\ Candidate.id candidate = c.

Record sound (session : VotingSession.t) (st : VotingInterface.state) : Prop := {
  step_in_range :
    (VotingInterface.currentStep st < List.length (Election.positions election))%nat;
  keys_distinct : List.NoDup (map fst (VotingInterface.votes st));
  keys_positions :
    forall k, In k (map fst (VotingInterface.votes st)) ->
              In k (map Position.id (Election.positions election));
  positions_keys :
    forall position, In position (Election.positions election) ->
                     Position.id position <> "__proto__" ->
                     In (Position.id position) (map fst (VotingInterface.votes st));
  choices :
    forall k c, In (k, c) (VotingInterface.votes st) -> c = "" \/ of_position k c;
  confirmed :
    VotingInterface.showConfirmation st = true ->
    forall k c, In (k, c) (VotingInterface.votes st) -> c <> "";
  not_completed : VotingInterface.isCompleted st = false;
  session_kept : VotingInterface.votingSession st = Some session
}.

Lemma blank_fold (l : list Position.t) (o : JsObject.t string) :
  List.NoDup (map fst o) ->
  ~ In "__proto__" (map fst o) ->
  (forall k c, In (k, c) o -> c = "") ->
  let o' := fold_left (fun o position => JsObject.assign (Position.id position) "" o) l o in
  List.NoDup (map fst o')
  /\ (forall k, In k (map fst o')
                <-> In k (map fst o) \/ (In k (map Position.id l) /\ k <> "__proto__"))
  /\ (forall k c, In (k, c) o' -> c = "").
Proof.
  revert o. induction l as [|p r IH]; intros o Hnd Hproto Hblank; cbn [fold_left].
  - split; [assumption|]. split; [|assumption]. intros k. cbn [map In]. tauto.
  - destruct (String.eqb_spec (Position.id p) "__proto__") as [E|E].
    + rewrite E, assign_proto by assumption.
      destruct (IH _ Hnd Hproto Hblank) as (H1 & H2 & H3).
      split; [exact H1|]. split; [|exact H3].
      intros k. rewrite H2. cbn [map In]. intuition congruence.
    + rewrite assign_other by assumption.
      assert (Hnd' : List.NoDup (map fst (JsObject.set (Position.id p) "" o)))
        by now apply set_NoDup.
      assert (Hproto' : ~ In "__proto__" (map fst (JsObject.set (Position.id p) "" o))).
      { rewrite set_keys. intros [?|?]; [contradiction | congruence]. }
      assert (Hblank' : forall k c, In (k, c) (JsObject.set (Position.id p) "" o) -> c = "").
      { intros k c Hin. apply set_In in Hin as [[_ ->]|Hin]; [reflexivity|].
        eapply Hblank; eassumption. }
      destruct (IH _ Hnd' Hproto' Hblank') as (H1 & H2 & H3).
      split; [exact H1|]. split; [|exact H3].
      intros k. rewrite H2, set_keys. cbn [map In]. intuition congruence.
Qed.

Lemma mounted_sound (session : VotingSession.t) :
  (Election.positions election) <> [] -> sound session (VotingScreen.mounted election session).
Proof.
  intros Hne.
  destruct (blank_fold (Election.positions election) [] (List.NoDup_nil _)
              ltac:(intros []) ltac:(intros ? ? []))
    as (Hnd & Hkeys & Hblank).
  split; cbn [VotingScreen.mounted VotingInterface.setVotes
              VotingInterface.setVotingSession VotingInterface.initial
              VotingInterface.currentStep VotingInterface.votes
              VotingInterface.showConfirmation VotingInterface.isCompleted
              VotingInterface.votingSession].
  - destruct (Election.positions election); [contradiction | simpl; lia].
  - exact Hnd.
  - intros k Hk. unfold blank_ballot in Hk. apply Hkeys in Hk as [[]|[Hk _]]. exact Hk.
  - intros position Hpos Hid. unfold blank_ballot. apply Hkeys. right.
    split; [now apply in_map | exact Hid].
  - intros k c Hin. left. eapply Hblank. exact Hin.
  - discriminate.
  - reflexivity.
  - reflexivity.
Qed.

(** [validateVotes] passes exactly when no position reads as unselected. *)
Lemma validateVotes_ok (st : VotingInterface.state) :
  fst (VotingInterface.validateVotes election st) = true
  <-> forall position, In position (Election.positions election) ->
        VotingInterface.unselected
          (JsObject.read (Position.id position) (VotingInterface.votes st)) = false.
Proof.
  unfold VotingInterface.validateVotes. cbn [fst].
  rewrite bool_decide_eq_true.
  induction (Election.positions election) as [|p r IH]; cbn [flat_map].
  - split; [intros _ ? [] | reflexivity].
  - rewrite length_app. split.
    + intros Hlen position [<-|Hin].
      * destruct (VotingInterface.unselected _); [simpl in Hlen; lia | reflexivity].
      * apply IH; [|assumption].
        destruct (VotingInterface.unselected _); simpl in Hlen; lia.
    + intros Hall.
      rewrite (Hall p (or_introl eq_refl)).
      cbn [List.length]. apply IH. intros position Hin. apply Hall. now right.
Qed.

(** A position with an own entry reads as selected when the entry is not
    empty; one without reads as selected when [Object.prototype] has its
    id. *)
Lemma unselected_own (k c : string) (o : JsObject.t string) :
  JsObject.get k o = Some c ->
  VotingInterface.unselected (JsObject.read k o) = false <-> c <> "".
Proof.
  intros Hget. unfold JsObject.read. rewrite Hget.
  cbn [VotingInterface.unselected]. unfold Text.truthy. rewrite negb_involutive.
  apply String.eqb_neq.
Qed.

Lemma unselected_proto (o : JsObject.t string) :
  JsObject.get "__proto__" o = None ->
  VotingInterface.unselected (JsObject.read "__proto__" o) = false.
Proof. intros Hget. unfold JsObject.read. now rewrite Hget. Qed.

Lemma validateVotes_state (st : VotingInterface.state) :
  exists errors,
    snd (VotingInterface.validateVotes election st) = VotingInterface.setErrors errors st.
Proof. eexists. reflexivity. Qed.

Lemma press_sound (session : VotingSession.t) (b : VotingScreen.button)
    (st : VotingInterface.state) :
  sound session st -> sound session (VotingScreen.press election b st).
Proof.
  intros Hst. pose proof Hst as [Hstep Hnd Hkeys Hpos Hchoices _ Hdone Hsess].
  unfold VotingScreen.press. rewrite Hdone.
  destruct (VotingInterface.showConfirmation st) eqn:Hshow.
  { destruct b; try exact Hst.
    destruct (VotingInterface.isSubmitting st); [exact Hst|].
    split; try assumption. discriminate. }
  destruct b as [index| | |].
  - unfold VotingScreen.currentPosition.
    destruct (nth_error (Election.positions election) (VotingInterface.currentStep st))
      as [position|] eqn:Hp; [|exact Hst].
    destruct (nth_error (Position.candidates position) index) as [candidate|] eqn:Hc;
      [|exact Hst].
    apply nth_error_In in Hp, Hc.
    unfold VotingInterface.handleVoteChange.
    split; cbn [VotingInterface.setVotes VotingInterface.currentStep VotingInterface.votes
                VotingInterface.showConfirmation VotingInterface.isCompleted
                VotingInterface.votingSession]; try assumption.
    + now apply set_NoDup.
    + intros k Hk. apply set_keys in Hk as [Hk| ->]; [now apply Hkeys|].
      now apply in_map.
    + intros position' Hpos' Hid. apply set_keys. left. now apply Hpos.
    + intros k c Hin. apply set_In in Hin as [[-> ->]|Hin]; [|now apply Hchoices].
      right. exists position, candidate. repeat split; assumption.
    + rewrite Hshow. discriminate.
  - destruct (Nat.eqb_spec (VotingInterface.currentStep st) 0); [exact Hst|].
    unfold VotingInterface.handlePrevious.
    case_bool_decide; [|exact Hst].
    split; cbn [VotingInterface.setCurrentStep VotingInterface.currentStep
                VotingInterface.votes VotingInterface.showConfirmation
                VotingInterface.isCompleted VotingInterface.votingSession];
      try assumption; [lia | rewrite Hshow; discriminate].
  - unfold VotingInterface.handleNext.
    case_bool_decide as Hlast.
    + split; cbn [VotingInterface.setCurrentStep VotingInterface.currentStep
                  VotingInterface.votes VotingInterface.showConfirmation
                  VotingInterface.isCompleted VotingInterface.votingSession];
        try assumption; [lia | rewrite Hshow; discriminate].
    + destruct (VotingInterface.validateVotes election st) as [ok st1] eqn:Hval.
      destruct (validateVotes_state st) as [errors Hst1].
      rewrite Hval in Hst1. cbn [snd] in Hst1. subst st1.
      destruct ok.
      * split; cbn [VotingInterface.setShowConfirmation VotingInterface.setErrors
                    VotingInterface.currentStep VotingInterface.votes
                    VotingInterface.showConfirmation VotingInterface.isCompleted
                    VotingInterface.votingSession]; try assumption.
        intros _ k c Hin.
        assert (Hok : fst (VotingInterface.validateVotes election st) = true)
          by now rewrite Hval.
        pose proof (proj1 (validateVotes_ok st) Hok) as Hall.
        assert (Hk : In k (map Position.id (Election.positions election))).
        { apply Hkeys. change k with (fst (k, c)). now apply in_map. }
        apply in_map_iff in Hk as (position & <- & Hposition).
        apply (unselected_own _ _ _ (In_get _ _ _ Hnd Hin)).
        now apply Hall.
      * split; cbn [VotingInterface.setErrors VotingInterface.currentStep
                    VotingInterface.votes VotingInterface.showConfirmation
                    VotingInterface.isCompleted VotingInterface.votingSession];
          try assumption. rewrite Hshow. discriminate.
  - exact Hst.
Qed.

Lemma after_sound (session : VotingSession.t) (presses : list VotingScreen.button) :
  (Election.positions election) <> [] -> sound session (VotingScreen.after election presses session).
Proof.
  intros Hne. unfold VotingScreen.after.
  assert (Hall : forall st, sound session st ->
                            sound session (fold_left (fun st b => VotingScreen.press election b st)
                                                     presses st)).
  { induction presses as [|b r IH]; intros st Hst; [exact Hst|].
    cbn [fold_left]. apply IH. now apply press_sound. }
  apply Hall. now apply mounted_sound.
Qed.

(** X9. The interface keeps the ballot sound.  After the mount effect and
    any sequence of clicks on candidate cards, "Previous", "Next" and
    "Review Votes", of an election with at least one position: the current
    step is the index of a position; the ballot holds at most one entry per
    key, every key is the id of a position, and every position id other
    than ["__proto__"] is a key (the mount effect creates no property of
    that name; a click on one of its candidates does); each entry is empty
    or the id of a candidate of a position with that id; and the
    confirmation screen is shown only when [validateVotes] passes and every
    position with an id other than ["__proto__"] has a choice. *)
Theorem interface_keeps_the_ballot_sound
    (session : VotingSession.t) (presses : list VotingScreen.button) :
  (Election.positions election) <> [] ->
  let st := VotingScreen.after election presses session in
  (VotingInterface.currentStep st < List.length (Election.positions election))%nat
  /\ VotingScreen.currentPosition election st <> None
  /\ List.NoDup (map fst (VotingInterface.votes st))
  /\ (forall k, In k (map fst (VotingInterface.votes st)) ->
                In k (map Position.id (Election.positions election)))
  /\ (forall position, In position (Election.positions election) ->
        Position.id position <> "__proto__" ->
        In (Position.id position) (map fst (VotingInterface.votes st)))
  /\ (forall k c, JsObject.get k (VotingInterface.votes st) = Some c ->
                  c = "" \/ of_position k c)
  /\ (VotingInterface.showConfirmation st = true ->
      fst (VotingInterface.validateVotes election st) = true
      /\ forall position, In position (Election.positions election) ->
           Position.id position <> "__proto__" ->
           exists c, JsObject.get (Position.id position) (VotingInterface.votes st) = Some c
                     /\ of_position (Position.id position) c)
  /\ VotingInterface.votingSession st = Some session
  /\ VotingInterface.isCompleted st = false.
Proof.
  intros Hne. cbv zeta.
  destruct (after_sound session presses Hne)
    as [Hstep Hnd Hkeys Hpos Hchoices Hconf Hdone Hsess].
  split; [exact Hstep|]. split.
  { unfold VotingScreen.currentPosition. apply nth_error_Some. exact Hstep. }
  split; [exact Hnd|]. split; [exact Hkeys|]. split; [exact Hpos|]. split.
  { intros k c Hget. apply Hchoices. now apply get_In. }
  split; [|split; assumption].
  intros Hshow. split.
  - apply validateVotes_ok. intros position Hposition.
    destruct (JsObject.get (Position.id position)
                (VotingInterface.votes (VotingScreen.after election presses session)))
      as [c|] eqn:Hget.
    + apply (unselected_own _ _ _ Hget). apply (Hconf Hshow (Position.id position)).
      now apply get_In.
    + destruct (String.eqb_spec (Position.id position) "__proto__") as [E|E].
      * rewrite E in Hget |- *. now apply unselected_proto.
      * exfalso. apply get_None_absent in Hget. apply Hget. now apply Hpos.
  - intros position Hposition Hid.
    pose proof (Hpos position Hposition Hid) as Hk.
    apply in_map_iff in Hk as ([k c] & Hfst & Hin). cbn [fst] in Hfst. subst k.
    exists c. split; [now apply In_get|].
    pose proof (Hconf Hshow _ _ Hin) as Hc.
    destruct (Hchoices _ _ Hin) as [->|Hof]; [contradiction | exact Hof].
Qed.

End BallotInvariants.

Section ConfirmedBallot.
Context `{Platform}.
Context `{!JSON (list User.t)} `{!JSON (list Election.t)} `{!JSON (list Vote.t)}
        `{!JSON (list VotingSession.t)} `{!JSON (list SecurityLog.t)}
        `{!JSON User.t}.
Context `{!Serializable (list User.t)} `{!Serializable (list Election.t)}
        `{!Serializable (list Vote.t)} `{!Serializable (list VotingSession.t)}
        `{!Serializable (list SecurityLog.t)}.

Variable election : Election.t.
Variable user : User.t.

Lemma filter_all {A} (f : A -> bool) (l : list A) :
  (forall x, In x l -> f x = true) -> List.filter f l = l.
Proof.
  induction l as [|x r IH]; intros Hall; [reflexivity|].
  cbn [List.filter]. rewrite (Hall x (or_introl eq_refl)). f_equal.
  apply IH. intros y Hy. apply Hall. now right.
Qed.

(** X10. A confirmed ballot is cast in full.  When the confirmation screen
    is shown after any sequence of clicks and the submission completes, the
    votes it stored are at most one per position id, one for every position
    whose id is not ["__proto__"], and no other: each is for a candidate of
    a position with that id and carries the token of the session opened at
    entry. *)
Theorem confirmed_ballot_is_cast_in_full
    (session : VotingSession.t) (presses : list VotingScreen.button)
    (st' : VotingInterface.state) (w w' : World) :
  Election.positions election <> [] ->
  let st := VotingScreen.after election presses session in
  VotingInterface.showConfirmation st = true ->
  VotingInterface.submitVotes election user st w = (Ok st', w') ->
  VotingInterface.isCompleted st' = true ->
  exists newVotes : list Vote.t,
    eval Storage.getVotes w' = Ok (votes_of w ++ newVotes)
    /\ List.NoDup (map Vote.positionId newVotes)
    /\ (forall position, In position (Election.positions election) ->
          Position.id position <> "__proto__" ->
          exists v, In v newVotes /\ Vote.positionId v = Position.id position)
    /\ Forall (fun v => of_position election (Vote.positionId v) (Vote.candidateId v)
                        /\ Vote.electionId v = Election.id election
                        /\ Vote.voterToken v = VotingSession.voterToken session)
              newVotes.
Proof.
  intros Hne. cbv zeta. set (st := VotingScreen.after election presses session).
  intros Hshow Hrun Hdone.
  destruct (after_sound election session presses Hne)
    as [_ Hnd _ Hkeys Hchoices Hconf Hnot Hsess].
  fold st in Hnd, Hkeys, Hchoices, Hconf, Hnot, Hsess.
  destruct (completed_submission election user st st' w w' Hnot Hrun Hdone)
    as (session' & Hs & _ & Hvotes & _).
  assert (session' = session) by congruence. subst session'.
  exists (new_votes election st session w).
  unfold eval. rewrite getVotes_run. cbn [fst]. rewrite Hvotes.
  split; [reflexivity|].
  pose proof (entries_Permutation (VotingInterface.votes st)) as Hperm.
  assert (Hsel : List.filter selected (JsObject.entries (VotingInterface.votes st))
                 = JsObject.entries (VotingInterface.votes st)).
  { apply filter_all. intros [k c] Hin. unfold selected, Text.truthy. cbn [snd].
    apply negb_true_iff, String.eqb_neq.
    apply (Hconf Hshow k). eapply Permutation_in; [exact Hperm | exact Hin]. }
  assert (Hfields : map (fun v => (Vote.positionId v, Vote.candidateId v))
                        (new_votes election st session w)
                    = JsObject.entries (VotingInterface.votes st)).
  { unfold new_votes. now rewrite ballot_votes_fields. }
  assert (Hids : map Vote.positionId (new_votes election st session w)
                 = map fst (JsObject.entries (VotingInterface.votes st))).
  { rewrite <- Hfields, map_map. reflexivity. }
  split.
  { rewrite Hids. eapply Permutation_NoDup; [|exact Hnd].
    apply Permutation_map. now symmetry. }
  split.
  { intros position Hpos Hid.
    assert (Hk : In (Position.id position)
                    (map Vote.positionId (new_votes election st session w))).
    { rewrite Hids. eapply Permutation_in.
      - apply Permutation_map. symmetry. exact Hperm.
      - now apply Hkeys. }
    apply in_map_iff in Hk as (v & Hv & Hin). now exists v. }
  apply List.Forall_forall. intros v Hv.
  assert (Hentry : In (Vote.positionId v, Vote.candidateId v) (VotingInterface.votes st)).
  { eapply Permutation_in; [exact Hperm|]. rewrite <- Hfields.
    now apply (in_map (fun v => (Vote.positionId v, Vote.candidateId v))). }
  split.
  - destruct (Hchoices _ _ Hentry) as [E|Hof]; [|exact Hof].
    exfalso. now apply (Hconf Hshow _ _ Hentry).
  - unfold new_votes in Hv.
    pose proof (ballot_votes_Forall election
                  (fun v => Vote.electionId v = Election.id election
                            /\ Vote.voterToken v = VotingSession.voterToken session)
                  session
                  (Date.toISOString (Date_now (clock_reads w)))
                  (JsObject.entries (VotingInterface.votes st))
                  (S (clock_reads w)) (random_draws w)
                  ltac:(intros; split; reflexivity)) as Hall.
    rewrite List.Forall_forall in Hall. now apply Hall.
Qed.

End ConfirmedBallot.

(* ================================================================== *)
(** * Regular expressions, as the validators use them

    The backtracking matcher of ECMAScript for the constructs that occur in
    [src/utils/validation.ts]: character classes, sequence, alternation,
    greedy repetition, negative lookahead, the word boundary and the two
    anchors.  Strings are bytes; every class of the validators is a class
    of ASCII characters, so a character outside ASCII is bytes that no
    class but a negated one accepts. *)
(* ================================================================== *)

Module RegExp.

Inductive t :=
  | Empty                           (* the empty pattern *)
  | Char (class : ascii -> bool)    (* one character of a class *)
  | Seq (r1 r2 : t)                 (* r1r2 *)
  | Alt (r1 r2 : t)                 (* r1|r2, the left alternative first *)
  | Star (r : t)                    (* r*, greedy *)
  | NotAhead (r : t)                (* (?!r) *)
  | WordBoundary                    (* \b *)
  | Start                           (* ^ *)
  | End.                            (* $ *)

(** [r+], [r?] and a literal string. *)
Definition Plus (r : t) : t := Seq r (Star r).
Definition Opt (r : t) : t := Alt r Empty.

Fixpoint Lit (s : string) : t :=
  match s with
  | EmptyString => Empty
  | String c r => Seq (Char (Ascii.eqb c)) (Lit r)
  end.

Definition code (c : ascii) : Z := Z.of_N (N_of_ascii c).

(** A range [lo-hi] of a class, and a list of single characters. *)
Definition between (lo hi : string) (c : ascii) : bool :=
  match lo, hi with
  | String l _, String h _ => (code l <=? code c) && (code c <=? code h)
  | _, _ => false
  end.

Definition one_of (chars : string) (c : ascii) : bool :=
  existsb (Ascii.eqb c) (list_ascii_of_string chars).

(** [\w] *)
Definition word_char (c : ascii) : bool :=
  between "a" "z" c || between "A" "Z" c || between "0" "9" c || one_of "_" c.

Definition is_word (c : option ascii) : bool :=
  match c with Some c => word_char c | None => false end.

Definition head (s : string) : option ascii :=
  match s with String c _ => Some c | EmptyString => None end.

(** A letter under the flag [i]: either case. *)
Definition fold_case (c : ascii) : ascii :=
  if between "A" "Z" c then ascii_of_N (Z.to_N (code c + 32)) else c.

Definition either_case (p : ascii) (c : ascii) : bool :=
  Ascii.eqb (fold_case p) (fold_case c).

Fixpoint LitI (s : string) : t :=
  match s with
  | EmptyString => Empty
  | String c r => Seq (Char (either_case c)) (LitI r)
  end.

(** A matcher reads from a position, given the character before it and the
    rest of the input, and hands the position it reached to a continuation;
    [None] is failure, which makes the caller try its next choice. *)
Definition continuation (X : Type) : Type := option ascii -> string -> option X.
Definition matcher (X : Type) : Type :=
  option ascii -> string -> continuation X -> option X.

(** Greedy repetition: one more round of [m] that consumes something, and
    only if what follows then fails, none. *)
Fixpoint star {X} (m : matcher X) (k : continuation X) (fuel : nat)
    (prev : option ascii) (s : string) : option X :=
  match fuel with
  | O => k prev s
  | S fuel' =>
      match m prev s (fun prev' s' =>
                        if (String.length s' <? String.length s)%nat
                        then star m k fuel' prev' s'
                        else None) with
      | Some x => Some x
      | None => k prev s
      end
  end.

Fixpoint run (r : t) (X : Type) : matcher X :=
  match r with
  | Empty => fun prev s k => k prev s
  | Char class => fun prev s k =>
      match s with
      | String c s' => if class c then k (Some c) s' else None
      | EmptyString => None
      end
  | Seq r1 r2 => fun prev s k => run r1 X prev s (fun prev' s' => run r2 X prev' s' k)
  | Alt r1 r2 => fun prev s k =>
      match run r1 X prev s k with
      | Some x => Some x
      | None => run r2 X prev s k
      end
  | Star r1 => fun prev s k => star (run r1 X) k (String.length s) prev s
  | NotAhead r1 => fun prev s k =>
      match run r1 unit prev s (fun _ _ => Some tt) with
      | Some _ => None
      | None => k prev s
      end
  | WordBoundary => fun prev s k =>
      if xorb (is_word prev) (is_word (head s)) then k prev s else None
  | Start => fun prev s k => match prev with None => k prev s | Some _ => None end
  | End => fun prev s k => match s with EmptyString => k prev s | _ => None end
  end.

(** The match at a position: the character before the end of the match and
    the input after it. *)
Definition exec_at (r : t) (prev : option ascii) (s : string)
    : option (option ascii * string) :=
  run r _ prev s (fun prev' s' => Some (prev', s')).

(** [regex.test(s)] without the flag [g]: is there a match at some position? *)
Fixpoint search (r : t) (prev : option ascii) (s : string) : bool :=
  match exec_at r prev s with
  | Some _ => true
  | None =>
      match s with
      | String c s' => search r (Some c) s'
      | EmptyString => false
      end
  end.

Definition test (r : t) (s : string) : bool := search r None s.

(** [s.replace(regex, '')] with the flag [g]: every match, leftmost first,
    is left out; after an empty match the next character is kept. *)
Fixpoint remove (r : t) (fuel : nat) (prev : option ascii) (s : string) : string :=
  match fuel with
  | O => s
  | S fuel' =>
      match exec_at r prev s with
      | Some (prev', rest) =>
          if (String.length rest <? String.length s)%nat
          then remove r fuel' prev' rest
          else match s with
               | String c s' => String c (remove r fuel' (Some c) s')
               | EmptyString => EmptyString
               end
      | None =>
          match s with
          | String c s' => String c (remove r fuel' (Some c) s')
          | EmptyString => EmptyString
          end
      end
  end.

Definition remove_all (r : t) (s : string) : string :=
  remove r (S (String.length s)) None s.

End RegExp.

(* ================================================================== *)
(** * What the matcher finds *)
(* ================================================================== *)

Section RegExpFacts.
Import RegExp.

Lemma append_cons (c : ascii) (s t : string) : String c s +:+ t = String c (s +:+ t).
Proof. reflexivity. Qed.

Lemma append_nil_l (t : string) : "" +:+ t = t.
Proof. reflexivity. Qed.

Lemma append_nil_r (s : string) : s +:+ "" = s.
Proof. induction s as [|c s IH]; [reflexivity|]. now rewrite append_cons, IH. Qed.

Lemma append_assoc (a b c : string) : (a +:+ b) +:+ c = a +:+ b +:+ c.
Proof. induction a as [|x a IH]; [reflexivity|]. now rewrite !append_cons, IH. Qed.

Lemma append_length (a b : string) :
  String.length (a +:+ b) = (String.length a + String.length b)%nat.
Proof.
  induction a as [|x a IH]; [reflexivity|]. rewrite append_cons. simpl. now rewrite IH.
Qed.

Lemma append_eq_nil (a b : string) : a +:+ b = "" -> a = "" /\ b = "".
Proof. destruct a; [now intros <- | discriminate]. Qed.

(** The character before the position reached by reading [a]. *)
Fixpoint last_of (prev : option ascii) (a : string) : option ascii :=
  match a with
  | EmptyString => prev
  | String c r => last_of (Some c) r
  end.

Lemma last_of_app (prev : option ascii) (a b : string) :
  last_of prev (a +:+ b) = last_of (last_of prev a) b.
Proof.
  revert prev. induction a as [|c a IH]; intros prev; [reflexivity|].
  rewrite append_cons. cbn [last_of]. apply IH.
Qed.

Lemma last_of_none (prev : option ascii) (a : string) :
  last_of prev a = None -> prev = None /\ a = "".
Proof.
  revert prev. induction a as [|c a IH]; intros prev; cbn [last_of].
  - intros ->. now split.
  - intros E. now apply IH in E as [[=] _].
Qed.

(** Zero or more pieces, none empty, each read by [M] where the one before
    ended. *)
Inductive starred (M : option ascii -> string -> string -> Prop)
    : option ascii -> string -> string -> Prop :=
  | starred_nil prev rest : starred M prev "" rest
  | starred_cons prev a1 a2 rest :
      a1 <> "" -> M prev a1 (a2 +:+ rest) -> starred M (last_of prev a1) a2 rest ->
      starred M prev (a1 +:+ a2) rest.

(** [matches r prev a rest]: the pattern [r] reads exactly [a], after the
    character [prev] and before the input [rest]. *)
Fixpoint matches (r : RegExp.t) (prev : option ascii) (a rest : string) : Prop :=
  match r with
  | Empty => a = ""
  | Char class => exists c, a = String c "" /\ class c = true
  | Seq r1 r2 =>
      exists a1 a2, a = a1 +:+ a2 /\ matches r1 prev a1 (a2 +:+ rest)
                    /\ matches r2 (last_of prev a1) a2 rest
  | Alt r1 r2 => matches r1 prev a rest \/ matches r2 prev a rest
  | Star r1 => starred (matches r1) prev a rest
  | NotAhead r1 =>
      a = "" /\ ~ (exists a' rest', rest = a' +:+ rest' /\ matches r1 prev a' rest')
  | WordBoundary => a = "" /\ xorb (is_word prev) (is_word (head rest)) = true
  | Start => a = "" /\ prev = None
  | End => a = "" /\ rest = ""
  end.

(** A matcher finds only what [M] reads, and finds something whenever [M]
    reads a prefix after which the continuation succeeds. *)
Definition sound_for {X} (M : option ascii -> string -> string -> Prop)
    (m : matcher X) : Prop :=
  forall prev s k x,
    m prev s k = Some x ->
    exists a b, s = a +:+ b /\ M prev a b /\ k (last_of prev a) b = Some x.

Definition complete_for {X} (M : option ascii -> string -> string -> Prop)
    (m : matcher X) : Prop :=
  forall prev a b k x,
    M prev a b -> k (last_of prev a) b = Some x ->
    exists x', m prev (a +:+ b) k = Some x'.

Lemma star_sound {X} M (m : matcher X) (k : continuation X) :
  sound_for M m ->
  forall fuel prev s x,
    star m k fuel prev s = Some x ->
    exists a b, s = a +:+ b /\ starred M prev a b /\ k (last_of prev a) b = Some x.
Proof.
  intros Hm. induction fuel as [|fuel IH]; intros prev s x; cbn [star].
  - intros Hk. exists "", s. split; [reflexivity|]. split; [constructor | exact Hk].
  - destruct (m prev s _) as [y|] eqn:Hrun.
    + intros [= ->]. apply Hm in Hrun as (a1 & b1 & -> & HM & Hk).
      destruct (Nat.ltb_spec (String.length b1) (String.length (a1 +:+ b1)))
        as [Hlt|Hge]; [|discriminate].
      apply IH in Hk as (a2 & b & -> & Hstar & Hk).
      exists (a1 +:+ a2), b. split; [now rewrite append_assoc|].
      split; [|now rewrite last_of_app].
      constructor; [|assumption|assumption].
      intros ->. rewrite append_nil_l in Hlt. lia.
    + intros Hk. exists "", s. split; [reflexivity|]. split; [constructor | exact Hk].
Qed.

Lemma star_complete {X} M (m : matcher X) (k : continuation X) :
  complete_for M m ->
  forall prev a b, starred M prev a b ->
  forall fuel x,
    (String.length (a +:+ b) <= fuel)%nat ->
    k (last_of prev a) b = Some x ->
    exists x', star m k fuel prev (a +:+ b) = Some x'.
Proof.
  intros Hm prev a b Hstar.
  induction Hstar as [prev rest|prev a1 a2 rest Hne HM Hstar IH]; intros fuel x Hfuel Hk.
  - rewrite append_nil_l. destruct fuel as [|fuel]; cbn [star]; [eauto|].
    destruct (m prev rest _); eauto.
  - destruct fuel as [|fuel].
    { exfalso. rewrite append_length in Hfuel.
      destruct a1; [contradiction | simpl in Hfuel; lia]. }
    cbn [star]. rewrite append_assoc.
    assert (Hlen : (String.length (a2 +:+ rest) < String.length (a1 +:+ a2 +:+ rest))%nat).
    { rewrite (append_length a1). destruct a1; [contradiction | simpl; lia]. }
    rewrite last_of_app in Hk.
    destruct (IH fuel x) as [y Hy]; [|exact Hk|].
    { rewrite append_assoc, (append_length a1) in Hfuel.
      destruct a1; [contradiction | simpl in Hfuel; lia]. }
    destruct (Hm prev a1 (a2 +:+ rest)
                (fun prev' s' =>
                   if (String.length s' <? String.length (a1 +:+ a2 +:+ rest))%nat
                   then star m k fuel prev' s' else None) y HM) as [x' Hx'].
    { apply Nat.ltb_lt in Hlen. now rewrite Hlen. }
    rewrite Hx'. eauto.
Qed.

Lemma run_correct (r : RegExp.t) :
  forall X, sound_for (matches r) (run r X) /\ complete_for (matches r) (run r X).
Proof.
  induction r as [|class|r1 IH1 r2 IH2|r1 IH1 r2 IH2|r1 IH1|r1 IH1| | |]; intros X.
  - split.
    + intros prev s k x Hk. exists "", s. now repeat split.
    + intros prev a b k x -> Hk. rewrite append_nil_l. eauto.
  - split.
    + intros prev [|c s] k x; cbn [run]; [discriminate|].
      destruct (class c) eqn:Hc; [|discriminate]. intros Hk.
      exists (String c ""), s. split; [reflexivity|]. split; [now exists c | exact Hk].
    + intros prev a b k x (c & -> & Hc) Hk. rewrite append_cons, append_nil_l.
      cbn [run]. rewrite Hc. eauto.
  - destruct (IH1 X) as [S1 C1], (IH2 X) as [S2 C2]. split.
    + intros prev s k x Hrun. cbn [run] in Hrun.
      apply S1 in Hrun as (a1 & b1 & -> & H1 & Hrun).
      apply S2 in Hrun as (a2 & b & -> & H2 & Hk).
      exists (a1 +:+ a2), b. split; [now rewrite append_assoc|].
      split; [now exists a1, a2 | now rewrite last_of_app].
    + intros prev a b k x (a1 & a2 & -> & H1 & H2) Hk. cbn [run].
      rewrite append_assoc. rewrite last_of_app in Hk.
      destruct (C2 _ _ _ _ _ H2 Hk) as [y Hy].
      exact (C1 _ _ _ (fun prev' s' => run r2 X prev' s' k) _ H1 Hy).
  - destruct (IH1 X) as [S1 C1], (IH2 X) as [S2 C2]. split.
    + intros prev s k x Hrun. cbn [run] in Hrun.
      destruct (run r1 X prev s k) as [y|] eqn:E1.
      * injection Hrun as ->. apply S1 in E1 as (a & b & -> & H1 & Hk).
        exists a, b. split; [reflexivity|]. split; [now left | exact Hk].
      * apply S2 in Hrun as (a & b & -> & H2 & Hk).
        exists a, b. split; [reflexivity|]. split; [now right | exact Hk].
    + intros prev a b k x [H1|H2] Hk; cbn [run].
      * destruct (C1 _ _ _ _ _ H1 Hk) as [y ->]. eauto.
      * destruct (run r1 X prev (a +:+ b) k); [eauto|].
        exact (C2 _ _ _ _ _ H2 Hk).
  - destruct (IH1 X) as [S1 C1]. split.
    + intros prev s k x Hrun. cbn [run] in Hrun.
      exact (star_sound _ _ _ S1 _ _ _ _ Hrun).
    + intros prev a b k x Hstar Hk. cbn [run].
      exact (star_complete _ _ _ C1 _ _ _ Hstar _ _ (Nat.le_refl _) Hk).
  - destruct (IH1 unit) as [S1 C1]. split.
    + intros prev s k x Hrun. cbn [run] in Hrun.
      destruct (run r1 unit prev s (fun _ _ => Some tt)) as [[]|] eqn:E1; [discriminate|].
      exists "", s. split; [reflexivity|]. split; [|exact Hrun].
      split; [reflexivity|]. intros (a' & rest' & -> & H1).
      destruct (C1 prev a' rest' (fun _ _ => Some tt) tt H1 eq_refl) as [y Hy].
      congruence.
    + intros prev a b k x [-> Hno] Hk. rewrite append_nil_l. cbn [run].
      destruct (run r1 unit prev b (fun _ _ => Some tt)) as [[]|] eqn:E1; [|eauto].
      exfalso. apply S1 in E1 as (a' & rest' & -> & H1 & _). apply Hno. eauto.
  - split.
    + intros prev s k x Hrun. cbn [run] in Hrun.
      destruct (xorb (is_word prev) (is_word (head s))) eqn:Hb; [|discriminate].
      exists "", s. now repeat split.
    + intros prev a b k x [-> Hb] Hk. rewrite append_nil_l. cbn [run]. rewrite Hb. eauto.
  - split.
    + intros [c|] s k x Hrun; cbn [run] in Hrun; [discriminate|].
      exists "", s. now repeat split.
    + intros prev a b k x [-> ->] Hk. rewrite append_nil_l. cbn [run]. eauto.
  - split.
    + intros prev [|c s] k x Hrun; cbn [run] in Hrun; [|discriminate].
      exists "", "". now repeat split.
    + intros prev a b k x [-> ->] Hk. cbn [run]. eauto.
Qed.

(** [exec_at] finds a match exactly where the pattern reads something. *)
Lemma exec_at_some (r : RegExp.t) (prev : option ascii) (s : string) :
  (exists m, exec_at r prev s = Some m)
  <-> exists a b, s = a +:+ b /\ matches r prev a b.
Proof.
  destruct (run_correct r (option ascii * string)) as [Hs Hc]. split.
  - intros [m Hm]. apply Hs in Hm as (a & b & -> & H & _). eauto.
  - intros (a & b & -> & H).
    exact (Hc prev a b (fun prev' s' => Some (prev', s')) _ H eq_refl).
Qed.

Lemma exec_at_ends (r : RegExp.t) (prev : option ascii) (s : string) prev' rest :
  exec_at r prev s = Some (prev', rest) ->
  exists a, s = a +:+ rest /\ matches r prev a rest /\ prev' = last_of prev a.
Proof.
  destruct (run_correct r (option ascii * string)) as [Hs _].
  intros Hm. apply Hs in Hm as (a & b & -> & H & [= <- <-]). eauto.
Qed.

(** [test]: some part of the string is read by the pattern. *)
Lemma search_true (r : RegExp.t) (prev : option ascii) (s : string) :
  search r prev s = true
  <-> exists a0 a b, s = a0 +:+ a +:+ b /\ matches r (last_of prev a0) a b.
Proof.
  revert prev. induction s as [|c s IH]; intros prev; cbn [search].
  - destruct (exec_at r prev "") as [m|] eqn:E.
    + split; [intros _|reflexivity].
      destruct (proj1 (exec_at_some r prev "") (ex_intro _ m E)) as (a & b & Hab & H).
      exists "", a, b. now split.
    + split; [discriminate|]. intros (a0 & a & b & Hs & H).
      symmetry in Hs. apply append_eq_nil in Hs as [-> Hs].
      assert (exists m, exec_at r prev "" = Some m) as [m Hm]; [|congruence].
      apply exec_at_some. exists a, b. split; [now symmetry | exact H].
  - destruct (exec_at r prev (String c s)) as [m|] eqn:E.
    + split; [intros _|reflexivity].
      destruct (proj1 (exec_at_some r prev _) (ex_intro _ m E)) as (a & b & Hab & H).
      exists "", a, b. now split.
    + rewrite IH. split.
      * intros (a0 & a & b & -> & H). exists (String c a0), a, b. now split.
      * intros ([|c0 a0] & a & b & Hs & H).
        -- exfalso.
           assert (exists m, exec_at r prev (String c s) = Some m) as [m Hm]; [|congruence].
           apply exec_at_some. exists a, b. now split.
        -- rewrite append_cons in Hs. injection Hs as <- ->.
           exists a0, a, b. now split.
Qed.

(** A pattern between [^] and [$] is tested against the whole string. *)
Lemma test_anchored (r : RegExp.t) (s : string) :
  test (Seq Start (Seq r End)) s = true <-> matches r None s "".
Proof.
  unfold test. rewrite search_true. split.
  - intros (a0 & a & b & -> & a1 & a2 & -> & [-> Hstart] & a3 & a4 & -> & H & -> & ->).
    apply last_of_none in Hstart as [_ ->].
    cbn [last_of] in H. rewrite !append_nil_l, !append_nil_r in *. exact H.
  - intros H. exists "", s, "". split; [now rewrite append_nil_l, append_nil_r|].
    exists "", s. split; [reflexivity|]. split; [now split|].
    exists s, "". split; [now rewrite append_nil_r|]. split; [exact H | now split].
Qed.

End RegExpFacts.

(* ================================================================== *)
(** * [src/utils/validation.ts] *)
(* ================================================================== *)

(** The time value of [new Date(text)]; [None] is an invalid date. *)
Class DateParser := Date_parse : string -> option Z.

Module Validation.
Import RegExp.

(** ** Strings as JavaScript sees them *)

(** A byte that continues a UTF-8 sequence. *)
Definition continues (c : ascii) : bool := (128 <=? code c) && (code c <? 192).

(** The code points of a string, each as its bytes. *)
Fixpoint code_points (s : string) : list string :=
  match s with
  | EmptyString => []
  | String c r =>
      match code_points r with
      | String d p :: rest =>
          if continues d then String c (String d p) :: rest
          else String c EmptyString :: String d p :: rest
      | rest => String c EmptyString :: rest
      end
  end.

(** [s.length]: one UTF-16 unit per code point, two beyond the basic plane. *)
Definition length16 (s : string) : Z :=
  fold_right (fun p n => (if (String.length p <? 4)%nat then 1 else 2) + n) 0
             (code_points s).

(** WhiteSpace and LineTerminator of ECMAScript: what [trim] strips and
    [\s] reads. *)
Definition white_space_code_points : list Z :=
  [9; 10; 11; 12; 13; 32; 160; 5760; 8192; 8193; 8194; 8195; 8196; 8197; 8198;
   8199; 8200; 8201; 8202; 8232; 8233; 8239; 8287; 12288; 65279].

Definition white_space : list string := map Json.utf8 white_space_code_points.

Definition is_space (p : string) : bool := existsb (String.eqb p) white_space.

Fixpoint drop_spaces (l : list string) : list string :=
  match l with
  | p :: r => if is_space p then drop_spaces r else l
  | [] => []
  end.

(** [s.trim()] *)
Definition trim (s : string) : string :=
  String.concat "" (rev (drop_spaces (rev (drop_spaces (code_points s))))).

(** ** The validators *)

Definition letter (c : ascii) : bool := between "a" "z" c || between "A" "Z" c.
Definition digit (c : ascii) : bool := between "0" "9" c.

Definition email_local (c : ascii) : bool :=
  between "a" "z" c || between "A" "Z" c || between "0" "9" c || one_of "._%+-" c.

(** [/^[a-zA-Z0-9._%+-]+@bnmit\.in$/] *)
Definition emailRegex : RegExp.t :=
  Seq Start (Seq (Seq (Plus (Char email_local)) (Lit "@bnmit.in")) End).

Definition validateBnmitEmail (email : string) : bool := test emailRegex email.

Definition not_lt (c : ascii) : bool := negb (one_of "<" c).
Definition angle (c : ascii) : bool := one_of "<>" c.

(** The pattern of the first [replace], with the flags [gi]: [<script\b],
    then [[^<]] any number of times, then any number of times a [<] that
    does not begin [<\/script>] followed by [[^<]] any number of times, then
    [<\/script>]. *)
Definition scriptRegex : RegExp.t :=
  Seq (LitI "<script")
   (Seq WordBoundary
   (Seq (Star (Char not_lt))
   (Seq (Star (Seq (NotAhead (LitI "</script>")) (Seq (LitI "<") (Star (Char not_lt)))))
        (LitI "</script>")))).

Definition sanitizeInput (input : string) : string :=
  remove_all (Char angle) (remove_all scriptRegex (trim input)).

(** [\s] *)
Definition Space : RegExp.t := fold_right (fun ws r => Alt (Lit ws) r) (NotAhead Empty) white_space.

(** [/^[a-zA-Z\s]+$/] *)
Definition nameRegex : RegExp.t :=
  Seq Start (Seq (Plus (Alt (Char letter) Space)) End).

Definition validateCandidateName (name : string) : bool :=
  test nameRegex (trim name) && (0 <? length16 (trim name)).

(** The characters of the class of the special-character rule; the
    fourteenth is the double quote. *)
Definition special : string :=
  "!@#$%^&*(),.?" +:+ String Json.quote ":{}|<>".

Definition validatePassword (password : string) : bool * list string :=
  let errors :=
    (if length16 password <? 8
     then ["Password must be at least 8 characters long"] else [])
    ++ (if negb (test (Char (between "A" "Z")) password)
        then ["Password must contain at least one uppercase letter"] else [])
    ++ (if negb (test (Char (between "a" "z")) password)
        then ["Password must contain at least one lowercase letter"] else [])
    ++ (if negb (test (Char digit) password)
        then ["Password must contain at least one number"] else [])
    ++ (if negb (test (Char (one_of special)) password)
        then ["Password must contain at least one special character"] else []) in
  (bool_decide (List.length errors = 0%nat), errors).

(** [a > b] on two dates: false when either is invalid. *)
Definition later (a b : option Z) : bool :=
  match a, b with
  | Some x, Some y => y <? x
  | _, _ => false
  end.

Definition octet : RegExp.t :=
  Alt (Seq (Lit "25") (Char (between "0" "5")))
 (Alt (Seq (Lit "2") (Seq (Char (between "0" "4")) (Char digit)))
      (Seq (Opt (Char (one_of "01"))) (Seq (Char digit) (Opt (Char digit))))).

(** [/^(?:(?:25[0-5]|2[0-4][0-9]|[01]?[0-9][0-9]?)\.){3}(?:25[0-5]|2[0-4][0-9]|[01]?[0-9][0-9]?)$/] *)
Definition ipRegex : RegExp.t :=
  let dotted := Seq octet (Lit ".") in
  Seq Start (Seq (Seq (Seq dotted (Seq dotted dotted)) octet) End).

Definition validateIPAddress (ip : string) : bool := test ipRegex ip.

Section WithPlatform.
Context `{Platform} `{DateParser}.

Definition isValidElectionDate (startDate endDate : string) : JS bool :=
  let start := Date_parse startDate in
  let end_ := Date_parse endDate in
  now ← Browser.now;
  mret (later start (Some now) && later end_ start).

(** [logs.filter(log => log.type === 'invalid_access' && new Date(log.timestamp)
    > new Date(Date.now() - 15 * 60 * 1000))]: the clock is read for each
    entry of that type. *)
Fixpoint recentFailedLogins (logs : list SecurityLog.t) : JS (list SecurityLog.t) :=
  match logs with
  | [] => mret []
  | log :: rest =>
      keep ← (if bool_decide (SecurityLog.type log = invalid_access)
              then now ← Browser.now;
                   mret (later (Date_parse (SecurityLog.timestamp log))
                               (Some (now - 15 * 60 * 1000)))
              else mret false);
      kept ← recentFailedLogins rest;
      mret (if keep : bool then log :: kept else kept)
  end.

Definition detectSuspiciousActivity (logs : list SecurityLog.t) : JS bool :=
  recent ← recentFailedLogins logs;
  mret (bool_decide (3 < List.length recent)%nat).

(** [session] may be null; an empty id or token is falsy. *)
Definition validateSessionIntegrity (session : option VotingSession.t) : JS bool :=
  match session with
  | None => mret false
  | Some s =>
      if negb (Text.truthy (VotingSession.sessionId s))
         || negb (Text.truthy (VotingSession.voterToken s))
      then mret false
      else
        now ← Browser.now;
        if later (Some now) (Date_parse (VotingSession.expiresAt s))
        then mret false
        else mret true
  end.

End WithPlatform.
End Validation.

(* ================================================================== *)
(** * What the validators accept *)
(* ================================================================== *)

Section ValidationFacts.
Import RegExp Validation.

Lemma matches_Lit (t : string) (prev : option ascii) (a rest : string) :
  matches (Lit t) prev a rest <-> a = t.
Proof.
  revert prev a rest. induction t as [|c t IH]; intros prev a rest; cbn [Lit matches].
  - reflexivity.
  - split.
    + intros (a1 & a2 & -> & (c' & -> & Hc) & H2). apply IH in H2 as ->.
      apply Ascii.eqb_eq in Hc as <-. reflexivity.
    + intros ->. exists (String c ""), t. split; [reflexivity|]. split.
      * exists c. split; [reflexivity | apply Ascii.eqb_refl].
      * now apply IH.
Qed.

(** Every character of a string is of a class. *)
Definition all_of (class : ascii -> bool) (s : string) : Prop :=
  forallb class (list_ascii_of_string s) = true.

Lemma all_of_cons (class : ascii -> bool) (c : ascii) (s : string) :
  all_of class (String c s) <-> class c = true /\ all_of class s.
Proof. unfold all_of. cbn [list_ascii_of_string forallb]. apply andb_true_iff. Qed.

Lemma all_of_app (class : ascii -> bool) (a b : string) :
  all_of class (a +:+ b) <-> all_of class a /\ all_of class b.
Proof.
  unfold all_of. rewrite chars_app, forallb_app. apply andb_true_iff.
Qed.

Lemma matches_star_class (class : ascii -> bool) (prev : option ascii) (a rest : string) :
  matches (Star (Char class)) prev a rest <-> all_of class a.
Proof.
  cbn [matches]. split.
  - induction 1 as [|prev a1 a2 rest _ (c & -> & Hc) _ IH]; [reflexivity|].
    rewrite append_cons, append_nil_l. now apply all_of_cons.
  - revert prev. induction a as [|c a IH]; intros prev Hall; [constructor|].
    apply all_of_cons in Hall as [Hc Hall].
    change (String c a) with (String c "" +:+ a).
    constructor; [discriminate | now exists c | now apply IH].
Qed.

Lemma matches_plus_class (class : ascii -> bool) (prev : option ascii) (a rest : string) :
  matches (Plus (Char class)) prev a rest <-> a <> "" /\ all_of class a.
Proof.
  unfold Plus. cbn [matches]. split.
  - intros (a1 & a2 & -> & (c & -> & Hc) & Hstar).
    apply (matches_star_class class) in Hstar.
    rewrite append_cons, append_nil_l. split; [discriminate|]. now apply all_of_cons.
  - intros [Hne Hall]. destruct a as [|c a]; [contradiction|].
    apply all_of_cons in Hall as [Hc Hall].
    exists (String c ""), a. split; [reflexivity|]. split; [now exists c|].
    now apply (matches_star_class class).
Qed.

(** [test] of a class alone: some character is of the class. *)
Lemma test_class (class : ascii -> bool) (s : string) :
  test (Char class) s = existsb class (list_ascii_of_string s).
Proof.
  unfold test. generalize (@None ascii). induction s as [|c s IH]; intros prev.
  - reflexivity.
  - cbn [search list_ascii_of_string existsb]. unfold exec_at. cbn [run].
    destruct (class c); [reflexivity|]. apply IH.
Qed.

(** X11. The e-mail rule.  [validateBnmitEmail] accepts exactly the
    strings made of a non-empty local part of letters, digits and the
    characters [._%+-], followed by "@bnmit.in" in lower case, with nothing
    before or after: no white space, no angle bracket, no second "@", no
    other domain. *)
Theorem validateBnmitEmail_accepts (email : string) :
  validateBnmitEmail email = true
  <-> exists localPart,
        email = localPart +:+ "@bnmit.in"
        /\ localPart <> ""
        /\ all_of email_local localPart.
Proof.
  unfold validateBnmitEmail, emailRegex. rewrite test_anchored. cbn [matches]. split.
  - intros (a1 & a2 & -> & Hlocal & Hdomain).
    apply matches_plus_class in Hlocal as [Hne Hall].
    apply matches_Lit in Hdomain as ->. now exists a1.
  - intros (localPart & -> & Hne & Hall). exists localPart, "@bnmit.in".
    split; [reflexivity|]. split; [now apply matches_plus_class | now apply matches_Lit].
Qed.

(** ** [sanitizeInput] *)

(** [s] without the characters of a class. *)
Fixpoint without (class : ascii -> bool) (s : string) : string :=
  match s with
  | EmptyString => EmptyString
  | String c r => if class c then without class r else String c (without class r)
  end.

Lemma remove_class (class : ascii -> bool) (fuel : nat) (prev : option ascii) (s : string) :
  (String.length s < fuel)%nat ->
  remove (Char class) fuel prev s = without class s.
Proof.
  revert prev s. induction fuel as [|fuel IH]; intros prev s Hlen; [lia|].
  destruct s as [|c s]; [reflexivity|].
  cbn [remove without]. unfold exec_at. cbn [run]. cbn [String.length] in Hlen.
  destruct (class c).
  - replace (String.length s <? String.length (String c s))%nat with true
      by (symmetry; apply Nat.ltb_lt; simpl; lia).
    apply IH. lia.
  - f_equal. apply IH. lia.
Qed.

Lemma without_none (class : ascii -> bool) (s : string) :
  all_of (fun c => negb (class c)) (without class s).
Proof.
  induction s as [|c s IH]; [reflexivity|]. cbn [without].
  destruct (class c) eqn:Hc; [exact IH|].
  apply all_of_cons. now rewrite Hc.
Qed.

Lemma without_clean (class : ascii -> bool) (s : string) :
  all_of (fun c => negb (class c)) s -> without class s = s.
Proof.
  induction s as [|c s IH]; [reflexivity|]. intros Hall.
  apply all_of_cons in Hall as [Hc Hall]. cbn [without].
  apply negb_true_iff in Hc. rewrite Hc. f_equal. now apply IH.
Qed.

(** Where the pattern reads nothing, nothing is removed. *)
Lemma remove_nothing (r : RegExp.t) (fuel : nat) (prev : option ascii) (s : string) :
  (forall prev' a b, s = a +:+ b -> exec_at r prev' b = None) ->
  remove r fuel prev s = s.
Proof.
  revert prev s. induction fuel as [|fuel IH]; intros prev s Hnone; [reflexivity|].
  cbn [remove]. rewrite (Hnone prev "" s eq_refl).
  destruct s as [|c s]; [reflexivity|]. f_equal. apply IH.
  intros prev' a b ->. apply (Hnone prev' (String c a) b). reflexivity.
Qed.

Lemma either_case_lt (c : ascii) : either_case "<" c = true -> c = "<"%char.
Proof.
  destruct c as [[] [] [] [] [] [] [] []]; vm_compute; intros E;
    first [reflexivity | discriminate E].
Qed.

Lemma scriptRegex_reads_lt (prev : option ascii) (a b : string) :
  matches scriptRegex prev a b -> exists a', a = String "<"%char a'.
Proof.
  unfold scriptRegex. cbn [LitI matches].
  intros (a1 & a2 & -> & (a3 & a4 & -> & (c & -> & Hc) & _) & _).
  apply either_case_lt in Hc as ->. rewrite !append_cons, append_nil_l. eauto.
Qed.

Lemma scriptRegex_needs_lt (s : string) :
  all_of not_lt s -> forall prev a b, s = a +:+ b -> exec_at scriptRegex prev b = None.
Proof.
  intros Hall prev a b ->.
  destruct (exec_at scriptRegex prev b) as [m|] eqn:E; [exfalso | reflexivity].
  destruct (proj1 (exec_at_some scriptRegex prev b) (ex_intro _ m E))
    as (a1 & b1 & -> & Hm).
  apply scriptRegex_reads_lt in Hm as [a' ->].
  apply all_of_app in Hall as [_ Hall]. apply all_of_app in Hall as [Hall _].
  apply all_of_cons in Hall as [Hc _]. discriminate Hc.
Qed.

(** The code points of a string are the string. *)
Lemma code_points_concat (s : string) : String.concat "" (code_points s) = s.
Proof.
  induction s as [|c s IH]; [reflexivity|].
  cbn [code_points]. destruct (code_points s) as [|[|d p] rest] eqn:E.
  - cbn [String.concat] in *. now rewrite <- IH.
  - rewrite <- IH. destruct rest; reflexivity.
  - destruct (continues d).
    + rewrite <- IH. destruct rest; reflexivity.
    + rewrite <- IH. reflexivity.
Qed.

Lemma all_of_concat (class : ascii -> bool) (l : list string) :
  List.Forall (all_of class) l -> all_of class (String.concat "" l).
Proof.
  induction l as [|p [|q l] IH]; intros Hall; [reflexivity | |].
  - now apply List.Forall_inv in Hall.
  - change (String.concat "" (p :: q :: l)) with (p +:+ "" +:+ String.concat "" (q :: l)).
    rewrite append_nil_l. apply all_of_app.
    split; [now apply List.Forall_inv in Hall|].
    apply IH. now apply List.Forall_inv_tail in Hall.
Qed.

Lemma concat_all_of (class : ascii -> bool) (l : list string) :
  all_of class (String.concat "" l) -> List.Forall (all_of class) l.
Proof.
  induction l as [|p [|q l] IH]; intros Hall; [constructor | |].
  - constructor; [exact Hall | constructor].
  - change (String.concat "" (p :: q :: l))
      with (p +:+ "" +:+ String.concat "" (q :: l)) in Hall.
    rewrite append_nil_l in Hall. apply all_of_app in Hall as [Hp Hr].
    constructor; [exact Hp | now apply IH].
Qed.

Lemma drop_spaces_Forall (P : string -> Prop) (l : list string) :
  List.Forall P l -> List.Forall P (drop_spaces l).
Proof.
  induction l as [|p l IH]; intros Hall; [constructor|].
  cbn [drop_spaces]. destruct (is_space p); [|exact Hall].
  apply IH. now apply List.Forall_inv_tail in Hall.
Qed.

(** [trim] only leaves characters out. *)
Lemma trim_all_of (class : ascii -> bool) (s : string) :
  all_of class s -> all_of class (trim s).
Proof.
  intros Hall. unfold trim. apply all_of_concat.
  apply List.Forall_rev, drop_spaces_Forall, List.Forall_rev, drop_spaces_Forall.
  apply concat_all_of. now rewrite code_points_concat.
Qed.

Lemma angle_not_lt (s : string) :
  all_of (fun c => negb (angle c)) s -> all_of not_lt s.
Proof.
  unfold all_of. intros Hall. rewrite forallb_forall in *. intros c Hc.
  specialize (Hall c Hc). unfold not_lt, angle, one_of in *.
  cbn [list_ascii_of_string existsb] in *.
  now destruct (Ascii.eqb c "<").
Qed.

Lemma sanitizeInput_clean (input : string) :
  all_of (fun c => negb (angle c)) (trim input) -> sanitizeInput input = trim input.
Proof.
  intros Hclean. unfold sanitizeInput.
  assert (Hscript : remove_all scriptRegex (trim input) = trim input).
  { unfold remove_all. apply remove_nothing.
    apply scriptRegex_needs_lt. now apply angle_not_lt. }
  rewrite Hscript. unfold remove_all. rewrite remove_class by lia.
  now apply (without_clean angle).
Qed.

Lemma sanitizeInput_no_angle (input : string) :
  all_of (fun c => negb (angle c)) (sanitizeInput input).
Proof.
  unfold sanitizeInput, remove_all. rewrite remove_class by lia.
  apply (without_none angle).
Qed.

(** X12. [sanitizeInput].  Its result never contains an angle bracket.  On
    an input without angle brackets it is [trim]: nothing else is changed.
    It is not idempotent: removing a bracket can uncover white space that a
    second pass trims. *)
Theorem sanitizeInput_strips_brackets (input : string) :
  all_of (fun c => negb (one_of "<>" c)) (sanitizeInput input)
  /\ (all_of (fun c => negb (one_of "<>" c)) input -> sanitizeInput input = trim input)
  /\ sanitizeInput (sanitizeInput "< a") <> sanitizeInput "< a".
Proof.
  split; [|split].
  - apply sanitizeInput_no_angle.
  - intros Hclean. apply sanitizeInput_clean. now apply (trim_all_of _ input).
  - vm_compute. discriminate.
Qed.

(** ** [validateCandidateName] *)

Lemma matches_any_of (l : list string) (prev : option ascii) (a rest : string) :
  matches (fold_right (fun ws r => Alt (Lit ws) r) (NotAhead Empty) l) prev a rest
  <-> In a l.
Proof.
  induction l as [|ws l IH]; cbn [fold_right matches In].
  - split; [|contradiction]. intros [_ Hno]. apply Hno. exists "", rest. now split.
  - rewrite IH, matches_Lit. intuition congruence.
Qed.

(** One letter, or the bytes of one white-space character. *)
Definition name_piece (p : string) : Prop :=
  (exists c, p = String c "" /\ letter c = true) \/ In p white_space.

Lemma name_piece_nonempty (p : string) : name_piece p -> p <> "".
Proof.
  intros [(c & -> & _)|Hin]; [discriminate|].
  assert (Hall : forallb (fun ws => negb (String.eqb ws "")) white_space = true)
    by (vm_compute; reflexivity).
  rewrite forallb_forall in Hall. intros ->. now apply Hall in Hin.
Qed.

Lemma matches_name_piece (prev : option ascii) (a rest : string) :
  matches (Alt (Char letter) Space) prev a rest <-> name_piece a.
Proof.
  cbn [matches]. unfold Space. rewrite matches_any_of. reflexivity.
Qed.

Lemma starred_pieces (prev : option ascii) (a rest : string) :
  starred (matches (Alt (Char letter) Space)) prev a rest
  <-> exists pieces, a = String.concat "" pieces /\ List.Forall name_piece pieces.
Proof.
  split.
  - induction 1 as [|prev a1 a2 rest Hne Hp _ (pieces & -> & Hall)].
    + exists []. split; [reflexivity | constructor].
    + apply matches_name_piece in Hp. exists (a1 :: pieces). split.
      * destruct pieces; [now rewrite append_nil_r | reflexivity].
      * now constructor.
  - intros (pieces & -> & Hall). revert prev.
    induction Hall as [|p pieces Hp Hall IH]; intros prev; [constructor|].
    replace (String.concat "" (p :: pieces)) with (p +:+ String.concat "" pieces)
      by (destruct pieces; [now rewrite append_nil_r | reflexivity]).
    constructor; [now apply name_piece_nonempty | now apply matches_name_piece | apply IH].
Qed.

Lemma length16_positive (s : string) : s <> "" -> 0 < length16 s.
Proof.
  assert (Hnonneg : forall l, 0 <= fold_right
            (fun p n => (if (String.length p <? 4)%nat then 1 else 2) + n) 0 l).
  { induction l as [|p l IH]; cbn [fold_right]; [lia|].
    destruct (String.length p <? 4)%nat; lia. }
  destruct s as [|c s]; [contradiction|]. intros _. unfold length16.
  assert (Hne : code_points (String c s) <> []).
  { cbn [code_points]. destruct (code_points s) as [|[|d p] rest]; try discriminate.
    destruct (continues d); discriminate. }
  destruct (code_points (String c s)) as [|p l]; [contradiction|].
  cbn [fold_right]. pose proof (Hnonneg l).
  destruct (String.length p <? 4)%nat; lia.
Qed.

(** A letter, an ASCII white-space character, or a byte of a character
    outside ASCII. *)
Definition name_byte (c : ascii) : bool :=
  letter c || one_of (String.concat "" (map Json.utf8 [9; 10; 11; 12; 13; 32])) c
  || (128 <=? code c).

Lemma name_piece_bytes (p : string) : name_piece p -> all_of name_byte p.
Proof.
  intros [(c & -> & Hc)|Hin].
  - apply all_of_cons. split; [|reflexivity]. unfold name_byte. now rewrite Hc.
  - assert (Hall : forallb (fun ws => forallb name_byte (list_ascii_of_string ws))
                           white_space = true) by (vm_compute; reflexivity).
    rewrite forallb_forall in Hall. now apply Hall.
Qed.

Lemma validateCandidateName_pieces (name : string) :
  validateCandidateName name = true
  <-> exists pieces,
        trim name = String.concat "" pieces
        /\ pieces <> []
        /\ List.Forall name_piece pieces.
Proof.
  unfold validateCandidateName, nameRegex. rewrite andb_true_iff, test_anchored.
  unfold Plus. cbn [matches]. split.
  - intros [(a1 & a2 & E & Hp & Hstar) _].
    apply matches_name_piece in Hp.
    apply starred_pieces in Hstar as (pieces & -> & Hall).
    exists (a1 :: pieces). split; [|split; [discriminate | now constructor]].
    rewrite E. destruct pieces; [now rewrite append_nil_r | reflexivity].
  - intros (pieces & E & Hne & Hall).
    destruct Hall as [|p pieces Hp Hall]; [contradiction|].
    assert (Hcat : trim name = p +:+ String.concat "" pieces).
    { rewrite E. destruct pieces; [now rewrite append_nil_r | reflexivity]. }
    split.
    + exists p, (String.concat "" pieces). split; [exact Hcat|].
      split; [now apply matches_name_piece|].
      apply starred_pieces. now exists pieces.
    + apply Z.ltb_lt, length16_positive. rewrite Hcat.
      apply name_piece_nonempty in Hp. destruct p; [contradiction | discriminate].
Qed.

Lemma validateCandidateName_bytes (name : string) :
  validateCandidateName name = true -> all_of name_byte (trim name).
Proof.
  intros Hvalid. apply validateCandidateName_pieces in Hvalid as (pieces & -> & _ & Hall).
  apply all_of_concat. eapply List.Forall_impl; [|exact Hall].
  apply name_piece_bytes.
Qed.

(** X13. The candidate-name rule.  [validateCandidateName] accepts a name
    exactly when, outer white space trimmed, it is not empty and is a
    sequence of ASCII letters and white-space characters; so an accepted
    name has no digit, punctuation mark or angle bracket. *)
Theorem validateCandidateName_accepts (name : string) :
  (validateCandidateName name = true
   <-> exists pieces,
         trim name = String.concat "" pieces
         /\ pieces <> []
         /\ List.Forall name_piece pieces)
  /\ (validateCandidateName name = true -> all_of name_byte (trim name)).
Proof.
  split; [apply validateCandidateName_pieces | apply validateCandidateName_bytes].
Qed.

End ValidationFacts.

(* ================================================================== *)
(** * [src/components/Login.tsx] and [src/App.tsx] *)
(* ================================================================== *)

(** [String.prototype.toLowerCase], a table of Unicode. *)
Class CaseMapping := toLowerCase : string -> string.

Module Login.

Record form := {
  email : string;
  password : string;
  name : string;
  confirmPassword : string
}.

(** The component's [useState] cells. *)
Record state := {
  isLogin : bool;
  showPassword : bool;
  formData : form;
  errors : list string;
  isLoading : bool
}.

Definition initial : state :=
  {| isLogin := true; showPassword := false;
     formData := {| email := ""; password := ""; name := ""; confirmPassword := "" |};
     errors := []; isLoading := false |}.

Definition setErrors (e : list string) (st : state) : state :=
  {| isLogin := isLogin st; showPassword := showPassword st; formData := formData st;
     errors := e; isLoading := isLoading st |}.
Definition setIsLoading (b : bool) (st : state) : state :=
  {| isLogin := isLogin st; showPassword := showPassword st; formData := formData st;
     errors := errors st; isLoading := b |}.
Definition setIsLogin (b : bool) (st : state) : state :=
  {| isLogin := b; showPassword := showPassword st; formData := formData st;
     errors := errors st; isLoading := isLoading st |}.
Definition setFormData (f : form) (st : state) : state :=
  {| isLogin := isLogin st; showPassword := showPassword st; formData := f;
     errors := errors st; isLoading := isLoading st |}.

Section Component.
Context `{Platform} `{CaseMapping}.
Context `{!JSON (list User.t)} `{!JSON (list SecurityLog.t)}.

(** [sanitizedData.email] *)
Definition sanitizedEmail (st : state) : string :=
  Validation.sanitizeInput (toLowerCase (email (formData st))).

(** The record a registration builds from three readings of the clock. *)
Definition newUser (st : state) (id_time registered last : Z) : User.t :=
  {| User.id := Text.of_Z id_time;
     User.email := sanitizedEmail st;
     User.password := Crypto.generateSecureHash (password (formData st));
     User.name := Validation.sanitizeInput (name (formData st));
     User.role := voter;
     User.isVerified := true;
     User.hasVoted := Some ∅;
     User.votingTokens := Some ∅;
     User.registrationDate := Date.toISOString registered;
     User.lastLogin := Date.toISOString last |}.

Definition log (type : LogType) (message : string) (userId : option string)
    (severity : Severity) : SecurityLog.entry :=
  {| SecurityLog.e_type := type; SecurityLog.e_message := message;
     SecurityLog.e_userId := userId; SecurityLog.e_electionId := None;
     SecurityLog.e_ipAddress := "localhost"; SecurityLog.e_severity := severity;
     SecurityLog.e_metadata := None |}.

(** [handleSubmit]: the state it leaves, and the user it passes to the
    [onLogin] prop when it calls it. *)
Definition handleSubmit (st0 : state) : JS (state * option User.t) :=
  let st := setErrors [] (setIsLoading true st0) in
  let email := sanitizedEmail st0 in
  let password := password (formData st0) in
  let confirmPassword := confirmPassword (formData st0) in
  if negb (Validation.validateBnmitEmail email) then
    mret (setIsLoading false
            (setErrors ["Only @bnmit.in email addresses are allowed"] st), None)
  else if isLogin st0 then
    user ← Storage.getUserByEmail email;
    match user with
    | None =>
        Storage.addSecurityLog
          (log invalid_access ("Failed login attempt for email: " +:+ email) None medium);;
        mret (setIsLoading false
                (setErrors ["User not found. Please register first."] st), None)
    | Some user =>
        if negb (Storage.verifyPassword password (User.password user)) then
          Storage.addSecurityLog
            (log invalid_access ("Invalid password attempt for user: " +:+ User.id user)
                 (Some (User.id user)) high);;
          mret (setIsLoading false (setErrors ["Invalid password"] st), None)
        else
          Storage.addSecurityLog
            (log login ("User logged in: " +:+ User.email user)
                 (Some (User.id user)) low);;
          mret (setIsLoading false st, Some user)
    end
  else
    let passwordValidation := Validation.validatePassword password in
    let newErrors :=
      (if fst passwordValidation then [] else snd passwordValidation)
      ++ (if negb (String.eqb password confirmPassword)
          then ["Passwords do not match"] else []) in
    if bool_decide (0 < List.length newErrors)%nat then
      mret (setIsLoading false (setErrors newErrors st), None)
    else
      existingUser ← Storage.getUserByEmail email;
      match existingUser with
      | Some _ =>
          mret (setIsLoading false
                  (setErrors ["User already exists with this email"] st), None)
      | None =>
          id_time ← Browser.now;
          registered ← Browser.now;
          last ← Browser.now;
          let user := newUser st0 id_time registered last in
          users ← Storage.getUsers;
          Storage.saveUsers (users ++ [user]);;
          Storage.addSecurityLog
            (log login ("New user registered: " +:+ User.email user)
                 (Some (User.id user)) low);;
          mret (setIsLoading false st, Some user)
      end.

End Component.
End Login.

Module App.

Record state := {
  currentUser : option User.t;
  isLoading : bool
}.

Definition initial : state := {| currentUser := None; isLoading := true |}.

Section Component.
Context `{Platform}.
Context `{!JSON (list User.t)} `{!JSON User.t}.

(** The [useEffect] that runs when the application starts. *)
Definition mount (st : state) : JS state :=
  Storage.initializeAdminAccount;;
  savedUser ← Storage.getCurrentUser;
  mret {| currentUser := match savedUser with
                         | Some u => Some u
                         | None => currentUser st
                         end;
          isLoading := false |}.

Definition handleLogin (user : User.t) (st : state) : JS state :=
  Storage.setCurrentUser (Some user);;
  mret {| currentUser := Some user; isLoading := isLoading st |}.

Definition handleLogout (st : state) : JS state :=
  Storage.setCurrentUser None;;
  mret {| currentUser := None; isLoading := isLoading st |}.

End Component.
End App.

(* ================================================================== *)
(** * Registering and logging in *)
(* ================================================================== *)

Section LoginFlows.
Context `{Platform} `{CaseMapping}.
Context `{!JSON (list User.t)} `{!JSON (list Election.t)} `{!JSON (list Vote.t)}
        `{!JSON (list VotingSession.t)} `{!JSON (list SecurityLog.t)}
        `{!JSON (list ElectionResults.t)} `{!JSON User.t}.
Context `{!Serializable (list User.t)} `{!Serializable (list SecurityLog.t)}
        `{!Serializable User.t}.

(** The first stored user with an e-mail address. *)
Definition user_of_email (email : string) (w : World) : option User.t :=
  List.find (fun user => String.eqb (User.email user) email) (users_of w).

(** The log after one more entry. *)
Definition logged (entry : SecurityLog.entry) (w : World) : list SecurityLog.t :=
  logs_of w ++ [SecurityLog.complete entry
                  (Text.of_Z (Date_now (clock_reads w)))
                  (Date.toISOString (Date_now (S (clock_reads w))))].

Lemma logging_spec (entry : SecurityLog.entry) (w : World) :
  exists w',
    Storage.addSecurityLog entry w = (Ok tt, w')
    /\ logs_of w' = logged entry w
    /\ users_of w' = users_of w
    /\ current_user_of w' = current_user_of w.
Proof.
  eexists. split; [apply addSecurityLog_run|].
  read_views. repeat split; reflexivity.
Qed.

(** What a log-in attempt does. *)
Lemma login_spec (st : Login.state) (w : World) :
  Login.isLogin st = true ->
  Validation.validateBnmitEmail (Login.sanitizedEmail st) = true ->
  exists w' entry st' r,
    Login.handleSubmit st w = (Ok (st', r), w')
    /\ logs_of w' = logged entry w
    /\ users_of w' = users_of w
    /\ Login.isLoading st' = false
    /\ match user_of_email (Login.sanitizedEmail st) w with
       | None =>
           r = None
           /\ entry = Login.log invalid_access
                        ("Failed login attempt for email: " +:+ Login.sanitizedEmail st)
                        None medium
           /\ Login.errors st' = ["User not found. Please register first."]
       | Some user =>
           if Storage.verifyPassword (Login.password (Login.formData st))
                                     (User.password user)
           then r = Some user
                /\ entry = Login.log login ("User logged in: " +:+ User.email user)
                             (Some (User.id user)) low
                /\ Login.errors st' = []
           else r = None
                /\ entry = Login.log invalid_access
                             ("Invalid password attempt for user: " +:+ User.id user)
                             (Some (User.id user)) high
                /\ Login.errors st' = ["Invalid password"]
       end.
Proof.
  intros Hmode Hemail. unfold Login.handleSubmit. rewrite Hemail, Hmode. cbn [negb].
  unfold user_of_email.
  destruct (List.find (fun user => String.eqb (User.email user) (Login.sanitizedEmail st))
                      (users_of w)) as [user|] eqn:Hfind.
  - destruct (Storage.verifyPassword (Login.password (Login.formData st))
                                     (User.password user)) eqn:Hpw.
    + destruct (logging_spec
                  (Login.log login ("User logged in: " +:+ User.email user)
                             (Some (User.id user)) low) w)
        as (w' & Hrun & Hlogs & Husers & _).
      eexists w', _, _, _. split.
      { js_step. rewrite Hfind, Hpw. cbn [negb]. rewrite (bind_run _ _ _ _ _ Hrun).
        now rewrite ret_run. }
      repeat split; assumption || reflexivity.
    + destruct (logging_spec
                  (Login.log invalid_access
                     ("Invalid password attempt for user: " +:+ User.id user)
                     (Some (User.id user)) high) w)
        as (w' & Hrun & Hlogs & Husers & _).
      eexists w', _, _, _. split.
      { js_step. rewrite Hfind, Hpw. cbn [negb]. rewrite (bind_run _ _ _ _ _ Hrun).
        now rewrite ret_run. }
      repeat split; assumption || reflexivity.
  - destruct (logging_spec
                (Login.log invalid_access
                   ("Failed login attempt for email: " +:+ Login.sanitizedEmail st)
                   None medium) w)
      as (w' & Hrun & Hlogs & Husers & _).
    eexists w', _, _, _. split.
    { js_step. rewrite Hfind. rewrite (bind_run _ _ _ _ _ Hrun). now rewrite ret_run. }
    repeat split; assumption || reflexivity.
Qed.

(** The user a registration stores when it starts in a world. *)
Definition registered (st : Login.state) (w : World) : User.t :=
  Login.newUser st (Date_now (clock_reads w)) (Date_now (S (clock_reads w)))
                (Date_now (S (S (clock_reads w)))).

(** The conditions under which [handleSubmit] registers. *)
Definition registers (st : Login.state) (w : World) : Prop :=
  Login.isLogin st = false
  /\ Validation.validateBnmitEmail (Login.sanitizedEmail st) = true
  /\ fst (Validation.validatePassword (Login.password (Login.formData st))) = true
  /\ Login.password (Login.formData st) = Login.confirmPassword (Login.formData st)
  /\ user_of_email (Login.sanitizedEmail st) w = None.

Lemma register_spec (st : Login.state) (w : World) :
  registers st w ->
  exists w' st' entry,
    Login.handleSubmit st w = (Ok (st', Some (registered st w)), w')
    /\ users_of w' = users_of w ++ [registered st w]
    /\ logs_of w' = logs_of w ++ [entry]
    /\ SecurityLog.type entry = login
    /\ SecurityLog.userId entry = Some (User.id (registered st w))
    /\ Login.errors st' = []
    /\ Login.isLoading st' = false.
Proof.
  intros (Hmode & Hemail & Hpw & Hconfirm & Hnew). unfold user_of_email in Hnew.
  eexists _, _, _. split.
  { unfold Login.handleSubmit. rewrite Hemail, Hmode, Hpw, <- Hconfirm, String.eqb_refl.
    cbn [negb app List.length bool_decide]. rewrite bool_decide_eq_false_2 by (cbn; lia).
    js_step. rewrite Hnew.
    do 3 js_next. js_step. js_next. rewrite (bind_run _ _ _ _ _ (addSecurityLog_run _ _)).
    rewrite ret_run. reflexivity. }
  read_views. repeat split; reflexivity.
Qed.

(** What a registration attempt that is refused leaves behind. *)
Lemma register_refused (st : Login.state) (w : World) :
  Login.isLogin st = false ->
  ~ registers st w ->
  exists st', Login.handleSubmit st w = (Ok (st', None), w)
              /\ Login.errors st' <> [] /\ Login.isLoading st' = false.
Proof.
  intros Hmode Hnot. unfold Login.handleSubmit.
  destruct (Validation.validateBnmitEmail (Login.sanitizedEmail st)) eqn:Hemail;
    cbn [negb]; [|eexists; rewrite ret_run; repeat split; discriminate].
  rewrite Hmode.
  destruct (fst (Validation.validatePassword (Login.password (Login.formData st))))
    eqn:Hpw.
  - destruct (String.eqb_spec (Login.password (Login.formData st))
                              (Login.confirmPassword (Login.formData st))) as [Heq|Hne];
      cbn [negb app List.length].
    + rewrite bool_decide_eq_false_2 by (cbn; lia).
      rewrite (bind_run _ _ _ _ _ (getUserByEmail_run _ _)).
      destruct (List.find _ (users_of w)) eqn:Hfind.
      * eexists; rewrite ret_run; repeat split; discriminate.
      * exfalso. apply Hnot. repeat split; assumption.
    + rewrite bool_decide_eq_true_2 by (cbn; lia).
      eexists; rewrite ret_run; repeat split; discriminate.
  - assert (Herrors : snd (Validation.validatePassword
                             (Login.password (Login.formData st))) <> []).
    { intros Hnil. unfold Validation.validatePassword in Hpw, Hnil.
      cbn [fst snd] in Hpw, Hnil. rewrite Hnil in Hpw. discriminate. }
    destruct (snd (Validation.validatePassword (Login.password (Login.formData st))))
      as [|e es] eqn:Hsnd; [congruence|].
    cbn [app List.length]. rewrite bool_decide_eq_true_2 by (cbn; lia).
    eexists; rewrite ret_run; repeat split; discriminate.
Qed.

Lemma registers_dec (st : Login.state) (w : World) : registers st w \/ ~ registers st w.
Proof.
  unfold registers.
  destruct (Login.isLogin st); [right; intros (? & _); discriminate|].
  destruct (Validation.validateBnmitEmail (Login.sanitizedEmail st));
    [|right; intros (_ & ? & _); discriminate].
  destruct (fst (Validation.validatePassword (Login.password (Login.formData st))));
    [|right; intros (_ & _ & ? & _); discriminate].
  destruct (String.eqb_spec (Login.password (Login.formData st))
                            (Login.confirmPassword (Login.formData st)));
    [|right; intros (_ & _ & _ & ? & _); contradiction].
  destruct (user_of_email (Login.sanitizedEmail st) w);
    [right; intros (_ & _ & _ & _ & ?); discriminate|].
  left. repeat split; assumption.
Qed.

Lemma user_of_email_new (email : string) (user : User.t) (w : World) :
  user_of_email email w = None ->
  User.email user = email ->
  List.find (fun u => String.eqb (User.email u) email) (users_of w ++ [user]) = Some user.
Proof.
  intros Hnone Hemail. rewrite (find_app_none _ _ _ Hnone). cbn [List.find].
  now rewrite Hemail, String.eqb_refl.
Qed.

Lemma emails_new (email : string) (user : User.t) (users : list User.t) :
  List.find (fun u => String.eqb (User.email u) email) users = None ->
  User.email user = email ->
  List.NoDup (map User.email users) ->
  List.NoDup (map User.email (users ++ [user])).
Proof.
  intros Hnone Hemail Hdistinct. rewrite map_app. apply List.NoDup_app.
  - exact Hdistinct.
  - cbn [map]. apply List.NoDup_cons; [intros [] | apply List.NoDup_nil].
  - intros e Hin [<-|[]]. apply in_map_iff in Hin as (u & Hu & Hin).
    apply (find_none _ _ Hnone) in Hin. rewrite Hu, Hemail, String.eqb_refl in Hin.
    discriminate.
Qed.

(** X14. Registering, then logging in.  When the e-mail passes the
    college rule, the password passes the strength rule and equals its
    confirmation, and no stored user has the e-mail, [handleSubmit] in
    registration mode passes a new voter to [onLogin] and appends it to the
    stored users, with the password kept as its SHA-512 digest only and one
    [login] entry added to the log.  Submitting the same e-mail and
    password in log-in mode afterwards passes that same user to [onLogin]
    and leaves the users as they are. *)
Theorem registration_then_login (st again : Login.state) (w : World) :
  registers st w ->
  Login.email (Login.formData again) = Login.email (Login.formData st) ->
  Login.password (Login.formData again) = Login.password (Login.formData st) ->
  Login.isLogin again = true ->
  exists (user : User.t) (st1 st2 : Login.state) (w1 w2 : World),
    Login.handleSubmit st w = (Ok (st1, Some user), w1)
    /\ users_of w1 = users_of w ++ [user]
    /\ User.role user = voter
    /\ User.email user = Login.sanitizedEmail st
    /\ User.password user = Crypto.generateSecureHash (Login.password (Login.formData st))
    /\ User.hasVoted user = Some ∅
    /\ (exists entry, logs_of w1 = logs_of w ++ [entry]
                      /\ SecurityLog.type entry = login
                      /\ SecurityLog.userId entry = Some (User.id user))
    /\ Login.errors st1 = []
    /\ Login.handleSubmit again w1 = (Ok (st2, Some user), w2)
    /\ users_of w2 = users_of w1
    /\ Login.errors st2 = [].
Proof.
  intros Hreg Haddress Hform Hmode.
  destruct (register_spec st w Hreg)
    as (w1 & st1 & entry & Hrun & Husers & Hlogs & Htype & Hid & Herrors & _).
  destruct Hreg as (_ & Hemail & _ & _ & Hnew).
  assert (Hsame : Login.sanitizedEmail again = Login.sanitizedEmail st)
    by (unfold Login.sanitizedEmail; now rewrite Haddress).
  destruct (login_spec again w1 Hmode) as (w2 & entry2 & st2 & r & Hrun2 & _ & Husers2 & _ & Hcase);
    [now rewrite Hsame|].
  unfold user_of_email in Hcase. rewrite Hsame, Husers in Hcase.
  rewrite (user_of_email_new _ (registered st w) w Hnew eq_refl) in Hcase.
  rewrite Hform in Hcase. unfold Storage.verifyPassword in Hcase.
  change (User.password (registered st w))
    with (Crypto.generateSecureHash (Login.password (Login.formData st))) in Hcase.
  rewrite String.eqb_refl in Hcase. destruct Hcase as (-> & _ & Herrors2).
  exists (registered st w), st1, st2, w1, w2.
  split; [exact Hrun|]. split; [exact Husers|].
  split; [reflexivity|]. split; [reflexivity|]. split; [reflexivity|].
  split; [reflexivity|].
  split; [exists entry; split; [exact Hlogs|]; split; [exact Htype | exact Hid]|].
  split; [exact Herrors|]. split; [exact Hrun2|]. split; [exact Husers2 | exact Herrors2].
Qed.

(** X15. Log-in attempts.  In log-in mode [handleSubmit] never changes
    the stored users.  An e-mail that fails the college rule is refused
    before anything is read or written.  Otherwise exactly one entry is added
    to the security log: [login] of low severity when the first stored user
    with the e-mail has the submitted password's digest, and that user is
    passed to [onLogin]; [invalid_access] of high severity for a wrong
    password and of medium severity for an unknown e-mail, and [onLogin] is
    not called. *)
Theorem login_attempts_are_logged (st : Login.state) (w : World) :
  Login.isLogin st = true ->
  exists (st' : Login.state) (r : option User.t) (w' : World),
    Login.handleSubmit st w = (Ok (st', r), w')
    /\ users_of w' = users_of w
    /\ (r = None <-> Login.errors st' <> [])
    /\ if Validation.validateBnmitEmail (Login.sanitizedEmail st) then
         exists entry,
           logs_of w' = logs_of w ++ [entry]
           /\ match user_of_email (Login.sanitizedEmail st) w with
              | None =>
                  r = None
                  /\ SecurityLog.type entry = invalid_access
                  /\ SecurityLog.severity entry = medium
                  /\ SecurityLog.userId entry = None
              | Some user =>
                  SecurityLog.userId entry = Some (User.id user)
                  /\ if String.eqb (Crypto.generateSecureHash
                                      (Login.password (Login.formData st)))
                                   (User.password user)
                     then r = Some user
                          /\ SecurityLog.type entry = login
                          /\ SecurityLog.severity entry = low
                     else r = None
                          /\ SecurityLog.type entry = invalid_access
                          /\ SecurityLog.severity entry = high
              end
       else w' = w /\ r = None.
Proof.
  intros Hmode.
  destruct (Validation.validateBnmitEmail (Login.sanitizedEmail st)) eqn:Hemail.
  - destruct (login_spec st w Hmode Hemail)
      as (w' & entry & st' & r & Hrun & Hlogs & Husers & _ & Hcase).
    exists st', r, w'. split; [exact Hrun|]. split; [exact Husers|].
    unfold Storage.verifyPassword in Hcase.
    destruct (user_of_email (Login.sanitizedEmail st) w) as [user|].
    + destruct (String.eqb _ (User.password user)).
      * destruct Hcase as (-> & -> & Herrors). rewrite Herrors.
        split; [split; [discriminate | congruence]|].
        eexists. split; [exact Hlogs|]. repeat split; reflexivity.
      * destruct Hcase as (-> & -> & Herrors). rewrite Herrors.
        split; [split; [discriminate | reflexivity]|].
        eexists. split; [exact Hlogs|]. repeat split; reflexivity.
    + destruct Hcase as (-> & -> & Herrors). rewrite Herrors.
      split; [split; [discriminate | reflexivity]|].
      eexists. split; [exact Hlogs|]. repeat split; reflexivity.
  - unfold Login.handleSubmit. rewrite Hemail. cbn [negb].
    eexists _, _, _. rewrite ret_run. split; [reflexivity|]. split; [reflexivity|].
    split; [split; [discriminate | reflexivity]|]. split; reflexivity.
Qed.

(** X16. One account per e-mail.  Whatever the form holds and whichever
    mode it is in, [handleSubmit] returns, and if the stored users had
    pairwise different e-mails before, they have afterwards; the users stored
    before are kept, in order, with at most one new user after them; and a
    registration that is refused writes nothing at all. *)
Theorem emails_stay_distinct (st : Login.state) (w : World) :
  List.NoDup (map User.email (users_of w)) ->
  exists (st' : Login.state) (r : option User.t) (w' : World),
    Login.handleSubmit st w = (Ok (st', r), w')
    /\ List.NoDup (map User.email (users_of w'))
    /\ (users_of w' = users_of w
        \/ exists user, r = Some user /\ Login.isLogin st = false
                        /\ users_of w' = users_of w ++ [user])
    /\ (Login.isLogin st = false -> r = None -> w' = w).
Proof.
  intros Hdistinct. destruct (Login.isLogin st) eqn:Hmode.
  - destruct (Validation.validateBnmitEmail (Login.sanitizedEmail st)) eqn:Hemail.
    + destruct (login_spec st w Hmode Hemail)
        as (w' & entry & st' & r & Hrun & _ & Husers & _).
      exists st', r, w'. split; [exact Hrun|]. rewrite Husers.
      split; [exact Hdistinct|]. split; [now left | discriminate].
    + unfold Login.handleSubmit. rewrite Hemail. cbn [negb].
      eexists _, _, _. rewrite ret_run. split; [reflexivity|].
      split; [exact Hdistinct|]. split; [now left | discriminate].
  - destruct (registers_dec st w) as [Hreg|Hnot].
    + destruct (register_spec st w Hreg) as (w' & st' & entry & Hrun & Husers & _).
      destruct Hreg as (_ & _ & _ & _ & Hnew).
      exists st', (Some (registered st w)), w'. split; [exact Hrun|]. rewrite Husers.
      split; [now apply (emails_new (Login.sanitizedEmail st))|].
      split; [right; now exists (registered st w) | discriminate].
    + destruct (register_refused st w Hmode Hnot) as (st' & Hrun & _).
      exists st', None, w. split; [exact Hrun|].
      split; [exact Hdistinct|]. split; [now left | reflexivity].
Qed.

End LoginFlows.

(* ================================================================== *)
(** * The signed-in user across reloads *)
(* ================================================================== *)

Section Reload.
Context `{Platform}.
Context `{!JSON (list User.t)} `{!JSON (list Election.t)} `{!JSON (list Vote.t)}
        `{!JSON (list VotingSession.t)} `{!JSON (list SecurityLog.t)}
        `{!JSON (list ElectionResults.t)} `{!JSON User.t}.
Context `{!Serializable (list User.t)} `{!Serializable User.t}.

Lemma handleLogin_run (user : User.t) (st : App.state) (w : World) :
  App.handleLogin user st w
  = (Ok {| App.currentUser := Some user; App.isLoading := App.isLoading st |},
     current_user_set (Some user) w).
Proof. reflexivity. Qed.

Lemma handleLogout_run (st : App.state) (w : World) :
  App.handleLogout st w
  = (Ok {| App.currentUser := None; App.isLoading := App.isLoading st |},
     current_user_set None w).
Proof. reflexivity. Qed.

Lemma mount_spec (st : App.state) (w : World) :
  exists w',
    App.mount st w
    = (Ok {| App.currentUser := match current_user_of w with
                                | Some u => Some u
                                | None => App.currentUser st
                                end;
             App.isLoading := false |}, w')
    /\ current_user_of w' = current_user_of w
    /\ existsb is_admin (users_of w') = true
    /\ (existsb is_admin (users_of w) = true -> w' = w).
Proof.
  unfold App.mount. destruct (existsb is_admin (users_of w)) eqn:Hadmin.
  - exists w. rewrite (bind_run _ _ _ _ _ (initialize_present w Hadmin)).
    rewrite (bind_run _ _ _ _ _ (getCurrentUser_run w)). rewrite ret_run.
    repeat split; assumption || reflexivity.
  - eexists. rewrite (bind_run _ _ _ _ _ (initialize_absent w Hadmin)).
    rewrite (bind_run _ _ _ _ _ (getCurrentUser_run _)). rewrite ret_run.
    split; [|split; [|split; [|discriminate]]].
    + f_equal. f_equal. f_equal. read_views. reflexivity.
    + read_views. reflexivity.
    + rewrite users_of_stored, existsb_app. cbn. apply orb_true_r.
Qed.

(** X17. The signed-in user across reloads.  The start-up effect of
    [App] restores the user that [handleLogin] stored, whatever the component
    state it starts from, and restores nobody after [handleLogout]; it leaves
    the stored current user as it is, and after it the stored users include
    an administrator, nothing being written when they already did. *)
Theorem session_survives_reload (user : User.t) (st : App.state) (w : World) :
  eval (App.handleLogin user st;; App.mount App.initial) w
  = Ok {| App.currentUser := Some user; App.isLoading := false |}
  /\ eval (App.handleLogout st;; App.mount App.initial) w
     = Ok {| App.currentUser := None; App.isLoading := false |}
  /\ eval (App.mount st;; Storage.getCurrentUser) w = eval Storage.getCurrentUser w
  /\ (exists users, eval (App.mount st;; Storage.getUsers) w = Ok users
                    /\ existsb is_admin users = true)
  /\ (existsb is_admin (users_of w) = true -> exec (App.mount st) w = w).
Proof.
  split; [|split; [|split; [|split]]].
  - unfold eval. rewrite (bind_run _ _ _ _ _ (handleLogin_run user st w)).
    destruct (mount_spec App.initial (current_user_set (Some user) w))
      as (w' & -> & _). cbn [fst]. do 2 f_equal.
    assert (E : current_user_of (current_user_set (Some user) w) = Some user)
      by (read_views; reflexivity).
    now rewrite E.
  - unfold eval. rewrite (bind_run _ _ _ _ _ (handleLogout_run st w)).
    destruct (mount_spec App.initial (current_user_set None w)) as (w' & -> & _).
    cbn [fst]. do 2 f_equal.
    assert (E : current_user_of (current_user_set None w) = None).
    { unfold current_user_of, current_user_set. autorewrite with world.
      apply record_delete_eq. }
    now rewrite E.
  - destruct (mount_spec st w) as (w' & Hrun & Hcurrent & _).
    unfold eval. rewrite (bind_run _ _ _ _ _ Hrun), !getCurrentUser_run. cbn [fst].
    now rewrite Hcurrent.
  - destruct (mount_spec st w) as (w' & Hrun & _ & Hadmin & _).
    exists (users_of w'). unfold eval. rewrite (bind_run _ _ _ _ _ Hrun), getUsers_run.
    split; [reflexivity | exact Hadmin].
  - intros Hadmin. destruct (mount_spec st w) as (w' & Hrun & _ & _ & Hsame).
    unfold exec. rewrite Hrun. cbn [snd]. now apply Hsame.
Qed.

End Reload.

(* ================================================================== *)
(** * The dashboards

    [VoterDashboard] (second part of [src/components/SecurityMonitor.tsx]),
    [AdminDashboard], [SecurityMonitor] and the election list of
    [ResultsViewer]. *)
(* ================================================================== *)

Module Callback.
(** [array.filter(callback)] with a callback that reads the clock. *)
Fixpoint filter {A} (callback : A -> JS bool) (array : list A) : JS (list A) :=
  match array with
  | [] => mret []
  | x :: rest =>
      keep ← callback x;
      kept ← filter callback rest;
      mret (if keep : bool then x :: kept else kept)
  end.
End Callback.

(** [a >= b] on two dates: false when either is invalid. *)
Definition at_least (a b : option Z) : bool :=
  match a, b with
  | Some x, Some y => y <=? x
  | _, _ => false
  end.

Module VoterDashboard.

Inductive status := upcoming | completed | active.

#[global] Instance status_eq_dec : EqDecision status.
Proof. solve_decision. Defined.

Record state := {
  elections : list Election.t;
  selectedElection : option Election.t
}.

Section Component.
Context `{Platform} `{DateParser}.
Context `{!JSON (list User.t)} `{!JSON (list Election.t)} `{!JSON User.t}.
Variable user : User.t.

Definition loadElections (st : state) : JS state :=
  allElections ← Storage.getElections;
  mret {| elections := allElections; selectedElection := selectedElection st |}.

(** The status of an election when the clock reads [now]. *)
Definition status_at (now : Z) (election : Election.t) : status :=
  let start := Date_parse (Election.startDate election) in
  let end_ := Date_parse (Election.endDate election) in
  if Validation.later start (Some now) then upcoming
  else if Validation.later (Some now) end_ then completed
  else active.

Definition getElectionStatus (election : Election.t) : JS status :=
  now ← Browser.now;
  mret (status_at now election).

(** [user.hasVoted?.[electionId] === true] *)
Definition hasUserVoted (electionId : string) : bool :=
  match User.hasVoted user with
  | Some flags => bool_decide (flags !! electionId = Some true)
  | None => false
  end.

Definition getAvailableElections (st : state) : JS (list Election.t) :=
  Callback.filter
    (fun election =>
       status ← getElectionStatus election;
       mret (bool_decide (status = active) && negb (hasUserVoted (Election.id election))))
    (elections st).

Definition getVotedElections (st : state) : list Election.t :=
  List.filter (fun election => hasUserVoted (Election.id election)) (elections st).

Definition getCompletedElections (st : state) : JS (list Election.t) :=
  Callback.filter
    (fun election =>
       status ← getElectionStatus election;
       mret (bool_decide (status = completed)))
    (elections st).

(** The [onComplete] prop the dashboard gives to [VotingInterface]. *)
Definition onComplete (st : state) : JS state :=
  st1 ← loadElections {| elections := elections st; selectedElection := None |};
  updatedUser ← Storage.getUserByEmail (User.email user);
  match updatedUser with
  | Some u => Storage.setCurrentUser (Some u)
  | None => mret tt
  end;;
  mret st1.

End Component.
End VoterDashboard.

Module AdminDashboard.

Record state := {
  elections : list Election.t;
  users : list User.t;
  securityLogs : list SecurityLog.t
}.

Module ElectionStats.
Record t := {
  active : nat;
  upcoming : nat;
  completed : nat;
  total : nat
}.
End ElectionStats.

Module SecurityStats.
Record t := {
  total : nat;
  critical : nat;
  high : nat;
  medium : nat
}.
End SecurityStats.

(** [array.slice(-n)]: the last [n] elements. *)
Definition slice_last {A} (n : nat) (array : list A) : list A :=
  skipn (List.length array - n) array.

Section Component.
Context `{Platform} `{DateParser}.
Context `{!JSON (list User.t)} `{!JSON (list Election.t)} `{!JSON (list SecurityLog.t)}.

Definition loadData : JS state :=
  es ← Storage.getElections;
  us ← Storage.getUsers;
  logs ← Storage.getSecurityLogs;
  mret {| elections := es; users := us; securityLogs := slice_last 50 logs |}.

Definition getElectionStats (st : state) : JS ElectionStats.t :=
  activeElections ←
    Callback.filter
      (fun e =>
         now ← Browser.now;
         let start := Date_parse (Election.startDate e) in
         let end_ := Date_parse (Election.endDate e) in
         mret (at_least (Some now) start && at_least end_ (Some now)))
      (elections st);
  upcomingElections ←
    Callback.filter
      (fun e =>
         now ← Browser.now;
         let start := Date_parse (Election.startDate e) in
         mret (Validation.later start (Some now)))
      (elections st);
  completedElections ←
    Callback.filter
      (fun e =>
         now ← Browser.now;
         let end_ := Date_parse (Election.endDate e) in
         mret (Validation.later (Some now) end_))
      (elections st);
  mret {| ElectionStats.active := List.length activeElections;
          ElectionStats.upcoming := List.length upcomingElections;
          ElectionStats.completed := List.length completedElections;
          ElectionStats.total := List.length (elections st) |}.

Definition with_severity (s : Severity) (logs : list SecurityLog.t) : list SecurityLog.t :=
  List.filter (fun log => bool_decide (SecurityLog.severity log = s)) logs.

(** The entries of the last day: the clock is read for each entry. *)
Definition lastDay (logs : list SecurityLog.t) : JS (list SecurityLog.t) :=
  Callback.filter
    (fun log =>
       let logTime := Date_parse (SecurityLog.timestamp log) in
       now ← Browser.now;
       let oneDayAgo := now - 24 * 60 * 60 * 1000 in
       mret (Validation.later logTime (Some oneDayAgo)))
    logs.

Definition getSecurityStats (st : state) : JS SecurityStats.t :=
  recent ← lastDay (securityLogs st);
  mret {| SecurityStats.total := List.length recent;
          SecurityStats.critical := List.length (with_severity critical recent);
          SecurityStats.high := List.length (with_severity high recent);
          SecurityStats.medium := List.length (with_severity medium recent) |}.

End Component.
End AdminDashboard.

Module SecurityMonitor.

(** The value of the severity filter. *)
Inductive choice := all | only (severity : Severity).

Record state := {
  logs : list SecurityLog.t;
  filter : choice
}.

Module LogStats.
Record t := {
  total : nat;
  critical : nat;
  high : nat;
  medium : nat;
  low : nat
}.
End LogStats.

Definition initial : state := {| logs := []; filter := all |}.

Definition setLogs (l : list SecurityLog.t) (st : state) : state :=
  {| logs := l; filter := filter st |}.
Definition setFilter (c : choice) (st : state) : state :=
  {| logs := logs st; filter := c |}.

Section Component.
Context `{Platform} `{DateParser}.
Context `{!JSON (list SecurityLog.t)}.

Definition loadLogs (st : state) : JS state :=
  allLogs ← Storage.getSecurityLogs;
  mret (setLogs (rev allLogs) st).

(** The effect that runs when the monitor is shown. *)
Definition mount (st : state) : JS state :=
  st1 ← loadLogs st;
  Browser.emit (SetInterval 5000);;
  mret st1.

Definition getFilteredLogs (st : state) : list SecurityLog.t :=
  match filter st with
  | all => logs st
  | only severity => AdminDashboard.with_severity severity (logs st)
  end.

Definition getLogStats (st : state) : JS LogStats.t :=
  recent ← AdminDashboard.lastDay (logs st);
  mret {| LogStats.total := List.length recent;
          LogStats.critical := List.length (AdminDashboard.with_severity critical recent);
          LogStats.high := List.length (AdminDashboard.with_severity high recent);
          LogStats.medium := List.length (AdminDashboard.with_severity medium recent);
          LogStats.low := List.length (AdminDashboard.with_severity low recent) |}.

(** [clearLogs]; [confirmed] is the answer to the [confirm] dialog. *)
Definition clearLogs (confirmed : bool) (st : state) : JS state :=
  if confirmed then
    Storage.saveSecurityLogs [];;
    mret (setLogs [] st)
  else mret st.

End Component.
End SecurityMonitor.

Module CompletedElections.
Section Component.
Context `{Platform} `{DateParser}.
Context `{!JSON (list Election.t)}.

(** [loadElections] of [ResultsViewer]: the elections whose end has passed. *)
Definition loadElections : JS (list Election.t) :=
  allElections ← Storage.getElections;
  Callback.filter
    (fun election =>
       now ← Browser.now;
       let end_ := Date_parse (Election.endDate election) in
       mret (Validation.later (Some now) end_))
    allElections.

End Component.
End CompletedElections.

(* ================================================================== *)
(** * What the dashboards show *)
(* ================================================================== *)

Section ClockedFilters.
Context `{Platform}.
Context {A : Type}.

(** The elements a filter keeps when its callback decides by the clock,
    read once for each element from the reading [k] on. *)
Fixpoint clocked (p : Z -> A -> bool) (k : nat) (l : list A) : list A :=
  match l with
  | [] => []
  | x :: rest =>
      if p (Date_now k) x then x :: clocked p (S k) rest else clocked p (S k) rest
  end.

Lemma filter_clocked (callback : A -> JS bool) (p : Z -> A -> bool) :
  (forall x w, callback x w = (Ok (p (Date_now (clock_reads w)) x), ticked 1 w)) ->
  forall l w,
    Callback.filter callback l w = (Ok (clocked p (clock_reads w) l), ticked (List.length l) w).
Proof.
  intros Hcall. induction l as [|x rest IH]; intros w.
  - cbn [Callback.filter clocked List.length]. now rewrite ret_run, ticked_0.
  - cbn [Callback.filter clocked List.length].
    rewrite (bind_run _ _ _ _ _ (Hcall x w)).
    rewrite (bind_run _ _ _ _ _ (IH (ticked 1 w))). rewrite ret_run.
    rewrite clock_ticked, ticked_ticked.
    replace (List.length rest + 1)%nat with (S (List.length rest)) by lia.
    replace (1 + clock_reads w)%nat with (S (clock_reads w)) by lia.
    now destruct (p (Date_now (clock_reads w)) x).
Qed.

Lemma clocked_In (p : Z -> A -> bool) (k : nat) (l : list A) (x : A) :
  In x (clocked p k l) -> In x l /\ exists j, p (Date_now j) x = true.
Proof.
  revert k. induction l as [|y rest IH]; intros k; cbn [clocked]; [contradiction|].
  destruct (p (Date_now k) y) eqn:Hp.
  - intros [<-|Hin]; [split; [now left | now exists k]|].
    apply IH in Hin as [Hin Hj]. split; [now right | exact Hj].
  - intros Hin. apply IH in Hin as [Hin Hj]. split; [now right | exact Hj].
Qed.

Lemma clocked_length (p : Z -> A -> bool) (k : nat) (l : list A) :
  (List.length (clocked p k l) <= List.length l)%nat.
Proof.
  revert k. induction l as [|y rest IH]; intros k; cbn [clocked List.length]; [lia|].
  specialize (IH (S k)). destruct (p (Date_now k) y); cbn [List.length]; lia.
Qed.

(** While the clock stands still the filter is an ordinary one. *)
Lemma clocked_still (p : Z -> A -> bool) (now : Z) (k : nat) (l : list A) :
  (forall j, (j < List.length l)%nat -> Date_now (k + j) = now) ->
  clocked p k l = List.filter (p now) l.
Proof.
  revert k. induction l as [|y rest IH]; intros k Hstill; [reflexivity|].
  cbn [clocked List.filter]. cbn [List.length] in Hstill.
  assert (E : Date_now k = now) by (rewrite <- (Hstill 0%nat) by lia; f_equal; lia).
  rewrite E. rewrite (IH (S k)).
  - reflexivity.
  - intros j Hj. rewrite <- (Hstill (S j)) by lia. f_equal. lia.
Qed.

End ClockedFilters.

Section VoterLists.
Context `{Platform} `{DateParser}.
Context `{!JSON (list User.t)} `{!JSON (list Election.t)} `{!JSON (list Vote.t)}
        `{!JSON (list VotingSession.t)} `{!JSON (list SecurityLog.t)}
        `{!JSON (list ElectionResults.t)} `{!JSON User.t}.
Context `{!Serializable (list User.t)} `{!Serializable (list Election.t)}
        `{!Serializable (list Vote.t)} `{!Serializable (list VotingSession.t)}
        `{!Serializable (list SecurityLog.t)} `{!Serializable User.t}.

(** Whether the available list keeps an election at a reading of the clock. *)
Definition available_at (user : User.t) (now : Z) (election : Election.t) : bool :=
  bool_decide (VoterDashboard.status_at now election = VoterDashboard.active)
  && negb (VoterDashboard.hasUserVoted user (Election.id election)).

Definition completed_at (now : Z) (election : Election.t) : bool :=
  bool_decide (VoterDashboard.status_at now election = VoterDashboard.completed).

Lemma getAvailableElections_run (user : User.t) (st : VoterDashboard.state) (w : World) :
  VoterDashboard.getAvailableElections user st w
  = (Ok (clocked (available_at user) (clock_reads w) (VoterDashboard.elections st)),
     ticked (List.length (VoterDashboard.elections st)) w).
Proof. apply filter_clocked. reflexivity. Qed.

Lemma getCompletedElections_run (st : VoterDashboard.state) (w : World) :
  VoterDashboard.getCompletedElections st w
  = (Ok (clocked completed_at (clock_reads w) (VoterDashboard.elections st)),
     ticked (List.length (VoterDashboard.elections st)) w).
Proof. apply filter_clocked. reflexivity. Qed.

Variable election : Election.t.
Variable user : User.t.

Lemma mark_voted_email (u : User.t) :
  User.email (mark_voted election user u) = User.email u.
Proof. unfold mark_voted. now destruct (String.eqb _ _). Qed.

Lemma find_email_mark_voted (email : string) (users : list User.t) :
  List.find (fun u => String.eqb (User.email u) email) (map (mark_voted election user) users)
  = mark_voted election user
      <$> List.find (fun u => String.eqb (User.email u) email) users.
Proof.
  induction users as [|u users IH]; [reflexivity|].
  cbn [map List.find]. rewrite mark_voted_email.
  destruct (String.eqb (User.email u) email); [reflexivity | exact IH].
Qed.

Lemma loadElections_run (d : VoterDashboard.state) (w : World) :
  VoterDashboard.loadElections d w
  = (Ok {| VoterDashboard.elections := elections_of w;
           VoterDashboard.selectedElection := VoterDashboard.selectedElection d |}, w).
Proof.
  unfold VoterDashboard.loadElections.
  now rewrite (bind_run _ _ _ _ _ (getElections_run w)), ret_run.
Qed.

Lemma onComplete_spec (d : VoterDashboard.state) (w : World) :
  exists w',
    VoterDashboard.onComplete user d w
    = (Ok {| VoterDashboard.elections := elections_of w;
             VoterDashboard.selectedElection := None |}, w')
    /\ users_of w' = users_of w
    /\ votes_of w' = votes_of w
    /\ elections_of w' = elections_of w
    /\ current_user_of w'
       = match List.find (fun u => String.eqb (User.email u) (User.email user))
                         (users_of w) with
         | Some u => Some u
         | None => current_user_of w
         end.
Proof.
  unfold VoterDashboard.onComplete.
  destruct (List.find (fun u => String.eqb (User.email u) (User.email user)) (users_of w))
    as [u|] eqn:Hfind.
  - eexists. split.
    + rewrite (bind_run _ _ _ _ _ (loadElections_run _ w)).
      js_step. rewrite Hfind. js_step. now rewrite ret_run.
    + read_views. repeat split; reflexivity.
  - exists w. split.
    + rewrite (bind_run _ _ _ _ _ (loadElections_run _ w)).
      js_step. rewrite Hfind. now rewrite (bind_run _ _ _ _ _ (ret_run tt w)), ret_run.
    + repeat split; reflexivity.
Qed.

(** X18. A ballot cast moves the election to the voted list.  After a
    submission that completes for a user whose stored record is the first
    with the user's e-mail, the dashboard's [onComplete] reloads the elections
    from storage and stores the updated record as the current user; after
    the next start of the application the signed-in user carries the
    has-voted flag of the election, so the election is in no list of
    available elections, whatever the clock reads, and in the list of voted
    elections whenever it is among the loaded ones. *)
Theorem cast_ballot_moves_to_voted
    (st st' : VotingInterface.state) (d : VoterDashboard.state) (stored : User.t)
    (w w' : World) :
  VotingInterface.isCompleted st = false ->
  VotingInterface.submitVotes election user st w = (Ok st', w') ->
  VotingInterface.isCompleted st' = true ->
  eval (Storage.getUserByEmail (User.email user)) w = Ok (Some stored) ->
  User.id stored = User.id user ->
  exists (d' : VoterDashboard.state) (w'' : World) (reloaded : User.t),
    VoterDashboard.onComplete user d w' = (Ok d', w'')
    /\ VoterDashboard.selectedElection d' = None
    /\ eval Storage.getElections w' = Ok (VoterDashboard.elections d')
    /\ eval (App.mount App.initial) w''
       = Ok {| App.currentUser := Some reloaded; App.isLoading := false |}
    /\ User.id reloaded = User.id user
    /\ VoterDashboard.hasUserVoted reloaded (Election.id election) = true
    /\ (forall dash w0 available,
          eval (VoterDashboard.getAvailableElections reloaded dash) w0 = Ok available ->
          Forall (fun e => Election.id e <> Election.id election) available)
    /\ (forall dash, In election (VoterDashboard.elections dash) ->
                     In election (VoterDashboard.getVotedElections reloaded dash)).
Proof.
  intros Hnot Hrun Hdone Hstored Hid.
  unfold eval in Hstored. rewrite getUserByEmail_run in Hstored. cbn [fst] in Hstored.
  injection Hstored as Hstored.
  destruct (completed_submission election user st st' w w' Hnot Hrun Hdone)
    as (session & _ & _ & _ & Husers & _).
  destruct (onComplete_spec d w') as (w'' & Hcomplete & _ & _ & _ & Hcurrent).
  rewrite Husers, find_email_mark_voted, Hstored in Hcurrent. cbn [fmap option_fmap option_map] in Hcurrent.
  destruct (mount_spec App.initial w'') as (w3 & Hmount & _).
  rewrite Hcurrent in Hmount.
  assert (Hflag : VoterDashboard.hasUserVoted (mark_voted election user stored)
                    (Election.id election) = true).
  { unfold VoterDashboard.hasUserVoted. rewrite (mark_voted_flag election user stored Hid).
    apply bool_decide_eq_true_2. apply lookup_insert_eq. }
  eexists _, w'', (mark_voted election user stored).
  split; [exact Hcomplete|]. split; [reflexivity|].
  split; [unfold eval; now rewrite getElections_run|].
  split; [unfold eval; now rewrite Hmount|].
  split; [now rewrite mark_voted_id|]. split; [exact Hflag|]. split.
  - intros dash w0 available. unfold eval. rewrite getAvailableElections_run. cbn [fst].
    intros [= <-]. apply List.Forall_forall. intros e Hin.
    apply clocked_In in Hin as [_ [j Hj]]. unfold available_at in Hj.
    apply andb_true_iff in Hj as [_ Hj]. intros E. rewrite E, Hflag in Hj. discriminate.
  - intros dash Hin. unfold VoterDashboard.getVotedElections.
    apply List.filter_In. split; [exact Hin | exact Hflag].
Qed.

End VoterLists.

Section Statistics.
Context `{Platform} `{DateParser}.
Context `{!JSON (list User.t)} `{!JSON (list Election.t)} `{!JSON (list Vote.t)}
        `{!JSON (list VotingSession.t)} `{!JSON (list SecurityLog.t)}
        `{!JSON (list ElectionResults.t)} `{!JSON User.t}.

(** The three tests of [getElectionStats] at a reading of the clock. *)
Definition counts_active (now : Z) (e : Election.t) : bool :=
  at_least (Some now) (Date_parse (Election.startDate e))
  && at_least (Date_parse (Election.endDate e)) (Some now).
Definition counts_upcoming (now : Z) (e : Election.t) : bool :=
  Validation.later (Date_parse (Election.startDate e)) (Some now).
Definition counts_completed (now : Z) (e : Election.t) : bool :=
  Validation.later (Some now) (Date_parse (Election.endDate e)).

Lemma getElectionStats_run (st : AdminDashboard.state) (w : World) :
  let n := List.length (AdminDashboard.elections st) in
  AdminDashboard.getElectionStats st w
  = (Ok {| AdminDashboard.ElectionStats.active :=
             List.length (clocked counts_active (clock_reads w)
                                  (AdminDashboard.elections st));
           AdminDashboard.ElectionStats.upcoming :=
             List.length (clocked counts_upcoming (n + clock_reads w)
                                  (AdminDashboard.elections st));
           AdminDashboard.ElectionStats.completed :=
             List.length (clocked counts_completed (n + (n + clock_reads w))
                                  (AdminDashboard.elections st));
           AdminDashboard.ElectionStats.total := n |},
     ticked (n + n + n) w).
Proof.
  intros n. unfold AdminDashboard.getElectionStats.
  erewrite bind_run by (apply (filter_clocked _ counts_active); reflexivity).
  erewrite bind_run by (apply (filter_clocked _ counts_upcoming); reflexivity).
  erewrite bind_run by (apply (filter_clocked _ counts_completed); reflexivity).
  rewrite ret_run, !clock_ticked, !ticked_ticked. reflexivity.
Qed.

(** An election with dates that parse, the start not after the end. *)
Definition well_dated (e : Election.t) : Prop :=
  exists start end_,
    Date_parse (Election.startDate e) = Some start
    /\ Date_parse (Election.endDate e) = Some end_
    /\ start <= end_.

Lemma well_dated_one (now : Z) (e : Election.t) :
  well_dated e ->
  counts_active now e = bool_decide (VoterDashboard.status_at now e = VoterDashboard.active)
  /\ counts_upcoming now e
     = bool_decide (VoterDashboard.status_at now e = VoterDashboard.upcoming)
  /\ counts_completed now e
     = bool_decide (VoterDashboard.status_at now e = VoterDashboard.completed).
Proof.
  intros (start & end_ & Hs & He & Hle).
  unfold counts_active, counts_upcoming, counts_completed, VoterDashboard.status_at.
  rewrite Hs, He. cbn [at_least Validation.later].
  destruct (Z.ltb_spec now start), (Z.ltb_spec end_ now),
    (Z.leb_spec start now), (Z.leb_spec now end_); try lia; repeat split; reflexivity.
Qed.

Lemma filter_three_ways {A} (f g h : A -> bool) (l : list A) :
  (forall x, In x l ->
     (f x = true /\ g x = false /\ h x = false)
     \/ (f x = false /\ g x = true /\ h x = false)
     \/ (f x = false /\ g x = false /\ h x = true)) ->
  (List.length (List.filter f l) + List.length (List.filter g l)
   + List.length (List.filter h l) = List.length l)%nat.
Proof.
  induction l as [|x l IH]; intros Hone; [reflexivity|].
  cbn [List.filter List.length].
  assert (IH' := IH (fun y Hy => Hone y (or_intror Hy))).
  destruct (Hone x (or_introl eq_refl)) as [(-> & -> & ->)|[(-> & -> & ->)|(-> & -> & ->)]];
    cbn [List.length]; lia.
Qed.

(** X19. The election counts of the administrator's overview.  When the
    clock does not move during the call and every loaded election has dates
    that parse with the start not after the end, [getElectionStats] counts
    each election once: the three counts are the numbers of elections the
    voter's dashboard calls active, upcoming and completed at that time, and
    they add up to the total.  An election neither of whose dates parses is
    active for the voter's dashboard and in none of the three counts. *)
Theorem election_counts_add_up (st : AdminDashboard.state) (w : World) (now : Z) :
  (forall j, (j < 3 * List.length (AdminDashboard.elections st))%nat ->
             Date_now (clock_reads w + j) = now) ->
  Forall well_dated (AdminDashboard.elections st) ->
  exists stats,
    eval (AdminDashboard.getElectionStats st) w = Ok stats
    /\ AdminDashboard.ElectionStats.active stats
       = List.length (List.filter
           (fun e => bool_decide (VoterDashboard.status_at now e = VoterDashboard.active))
           (AdminDashboard.elections st))
    /\ AdminDashboard.ElectionStats.upcoming stats
       = List.length (List.filter
           (fun e => bool_decide (VoterDashboard.status_at now e = VoterDashboard.upcoming))
           (AdminDashboard.elections st))
    /\ AdminDashboard.ElectionStats.completed stats
       = List.length (List.filter
           (fun e => bool_decide (VoterDashboard.status_at now e = VoterDashboard.completed))
           (AdminDashboard.elections st))
    /\ (AdminDashboard.ElectionStats.active stats
        + AdminDashboard.ElectionStats.upcoming stats
        + AdminDashboard.ElectionStats.completed stats
        = AdminDashboard.ElectionStats.total stats)%nat
    /\ AdminDashboard.ElectionStats.total stats = List.length (AdminDashboard.elections st)
    /\ (forall e t,
          Date_parse (Election.startDate e) = None ->
          Date_parse (Election.endDate e) = None ->
          VoterDashboard.status_at t e = VoterDashboard.active
          /\ counts_active t e = false
          /\ counts_upcoming t e = false
          /\ counts_completed t e = false).
Proof.
  intros Hstill Hdated. eexists. unfold eval. rewrite getElectionStats_run. cbn [fst].
  split; [reflexivity|].
  cbn [AdminDashboard.ElectionStats.active AdminDashboard.ElectionStats.upcoming
       AdminDashboard.ElectionStats.completed AdminDashboard.ElectionStats.total].
  set (l := AdminDashboard.elections st) in *.
  rewrite (clocked_still counts_active now)
    by (intros j Hj; apply Hstill; lia).
  rewrite (clocked_still counts_upcoming now)
    by (intros j Hj;
        replace (List.length l + clock_reads w + j)%nat
          with (clock_reads w + (List.length l + j))%nat by lia;
        apply Hstill; lia).
  rewrite (clocked_still counts_completed now)
    by (intros j Hj;
        replace (List.length l + (List.length l + clock_reads w) + j)%nat
          with (clock_reads w + (List.length l + List.length l + j))%nat by lia;
        apply Hstill; lia).
  assert (Hsame : forall (f g : Election.t -> bool),
            (forall e, well_dated e -> f e = g e) -> List.filter f l = List.filter g l).
  { intros f g Hfg. apply List.filter_ext_in. intros e Hin. apply Hfg.
    rewrite List.Forall_forall in Hdated. now apply Hdated. }
  rewrite (Hsame (counts_active now) _ (fun e He => proj1 (well_dated_one now e He))).
  rewrite (Hsame (counts_upcoming now) _
             (fun e He => proj1 (proj2 (well_dated_one now e He)))).
  rewrite (Hsame (counts_completed now) _
             (fun e He => proj2 (proj2 (well_dated_one now e He)))).
  split; [reflexivity|]. split; [reflexivity|]. split; [reflexivity|].
  split; [|split; [reflexivity|]].
  - apply filter_three_ways. intros e _.
    destruct (VoterDashboard.status_at now e); cbn; auto.
  - intros e t Hs He.
    unfold VoterDashboard.status_at, counts_active, counts_upcoming, counts_completed.
    rewrite Hs, He. repeat split; reflexivity.
Qed.

End Statistics.

Section Lists.
Context `{Platform} `{DateParser}.
Context `{!JSON (list User.t)} `{!JSON (list Election.t)} `{!JSON (list Vote.t)}
        `{!JSON (list VotingSession.t)} `{!JSON (list SecurityLog.t)}
        `{!JSON (list ElectionResults.t)} `{!JSON User.t}.

Lemma results_loadElections_run (w : World) :
  CompletedElections.loadElections w
  = (Ok (clocked counts_completed (clock_reads w) (elections_of w)),
     ticked (List.length (elections_of w)) w).
Proof.
  unfold CompletedElections.loadElections.
  rewrite (bind_run _ _ _ _ _ (getElections_run w)).
  apply (filter_clocked _ counts_completed). reflexivity.
Qed.

(** X20. The elections whose results can be viewed.  [loadElections] of
    the results viewer returns, in stored order, stored elections whose end
    date parses and lies before a reading of the clock taken during the
    call; it writes nothing.  An election whose end date does not parse is
    never listed.  While the clock does not move the list is exactly the
    stored elections that ended before that time, and it contains every
    election the voter's dashboard calls completed. *)
Theorem results_list_has_ended_elections (w : World) :
  exists listed,
    CompletedElections.loadElections w
    = (Ok listed, ticked (List.length (elections_of w)) w)
    /\ Forall (fun e => In e (elections_of w)
                        /\ exists end_ j,
                             Date_parse (Election.endDate e) = Some end_
                             /\ end_ < Date_now j)
              listed
    /\ (forall now,
          (forall j, (j < List.length (elections_of w))%nat ->
                     Date_now (clock_reads w + j) = now) ->
          listed = List.filter (counts_completed now) (elections_of w)
          /\ forall e, In e (elections_of w) ->
                       VoterDashboard.status_at now e = VoterDashboard.completed ->
                       In e listed).
Proof.
  eexists. split; [apply results_loadElections_run|]. split.
  - apply List.Forall_forall. intros e Hin.
    apply clocked_In in Hin as [Hin [j Hj]]. split; [exact Hin|].
    unfold counts_completed, Validation.later in Hj.
    destruct (Date_parse (Election.endDate e)) as [end_|]; [|discriminate].
    exists end_, j. split; [reflexivity | now apply Z.ltb_lt].
  - intros now Hstill. rewrite (clocked_still counts_completed now _ _ Hstill).
    split; [reflexivity|]. intros e Hin Hstatus. apply List.filter_In.
    split; [exact Hin|]. unfold VoterDashboard.status_at in Hstatus.
    unfold counts_completed.
    destruct (Validation.later (Date_parse (Election.startDate e)) (Some now));
      [discriminate|].
    destruct (Validation.later (Some now) (Date_parse (Election.endDate e)));
      [reflexivity | discriminate].
Qed.

Lemma severity_split (logs : list SecurityLog.t) :
  (List.length (AdminDashboard.with_severity critical logs)
   + List.length (AdminDashboard.with_severity high logs)
   + List.length (AdminDashboard.with_severity medium logs)
   + List.length (AdminDashboard.with_severity low logs)
   = List.length logs)%nat.
Proof.
  unfold AdminDashboard.with_severity.
  induction logs as [|log logs IH]; [reflexivity|].
  cbn [List.filter List.length].
  destruct (SecurityLog.severity log);
    repeat case_bool_decide; try discriminate; try congruence; cbn [List.length]; lia.
Qed.

Lemma lastDay_run (logs : list SecurityLog.t) (w : World) :
  AdminDashboard.lastDay logs w
  = (Ok (clocked (fun now log =>
                    Validation.later (Date_parse (SecurityLog.timestamp log))
                                     (Some (now - 24 * 60 * 60 * 1000)))
                 (clock_reads w) logs),
     ticked (List.length logs) w).
Proof. apply filter_clocked. reflexivity. Qed.

Lemma slice_last_spec {A} (n : nat) (l : list A) :
  (List.length (AdminDashboard.slice_last n l) = Nat.min n (List.length l))
  /\ exists older, l = older ++ AdminDashboard.slice_last n l.
Proof.
  unfold AdminDashboard.slice_last. split.
  - rewrite List.length_skipn. lia.
  - exists (firstn (List.length l - n) l). symmetry. apply List.firstn_skipn.
Qed.

End Lists.

Section Monitor.
Context `{Platform} `{DateParser}.
Context `{!JSON (list User.t)} `{!JSON (list Election.t)} `{!JSON (list Vote.t)}
        `{!JSON (list VotingSession.t)} `{!JSON (list SecurityLog.t)}
        `{!JSON (list ElectionResults.t)} `{!JSON User.t}.
Context `{!Serializable (list SecurityLog.t)}.

(** X21. The security monitor.  [loadLogs] shows the stored log newest
    first, so an entry just added is the first one shown.  The statistics
    always return: the total is the sum of the four severity counts and is
    at most the number of entries shown.  A severity filter shows entries of
    that severity only, in the order shown.  [clearLogs], when confirmed,
    empties the stored log and the list shown and leaves every other
    collection as it was; when declined it changes nothing. *)
Theorem monitor_shows_the_log (st : SecurityMonitor.state) (entry : SecurityLog.entry)
    (severity : Severity) (w : World) :
  SecurityMonitor.loadLogs st w = (Ok (SecurityMonitor.setLogs (rev (logs_of w)) st), w)
  /\ (exists added older,
        eval (Storage.addSecurityLog entry;; SecurityMonitor.loadLogs st) w
        = Ok (SecurityMonitor.setLogs (added :: older) st)
        /\ older = rev (logs_of w)
        /\ SecurityLog.type added = SecurityLog.e_type entry
        /\ SecurityLog.message added = SecurityLog.e_message entry)
  /\ (exists stats,
        eval (SecurityMonitor.getLogStats st) w = Ok stats
        /\ (SecurityMonitor.LogStats.critical stats + SecurityMonitor.LogStats.high stats
            + SecurityMonitor.LogStats.medium stats + SecurityMonitor.LogStats.low stats
            = SecurityMonitor.LogStats.total stats)%nat
        /\ (SecurityMonitor.LogStats.total stats
            <= List.length (SecurityMonitor.logs st))%nat)
  /\ SecurityMonitor.getFilteredLogs (SecurityMonitor.setFilter SecurityMonitor.all st)
     = SecurityMonitor.logs st
  /\ SecurityMonitor.getFilteredLogs
       (SecurityMonitor.setFilter (SecurityMonitor.only severity) st)
     = List.filter (fun log => bool_decide (SecurityLog.severity log = severity))
                   (SecurityMonitor.logs st)
  /\ (exists w',
        SecurityMonitor.clearLogs true st w = (Ok (SecurityMonitor.setLogs [] st), w')
        /\ logs_of w' = []
        /\ users_of w' = users_of w
        /\ elections_of w' = elections_of w
        /\ votes_of w' = votes_of w
        /\ sessions_of w' = sessions_of w
        /\ current_user_of w' = current_user_of w)
  /\ SecurityMonitor.clearLogs false st w = (Ok st, w).
Proof.
  assert (Hload : forall w0,
            SecurityMonitor.loadLogs st w0
            = (Ok (SecurityMonitor.setLogs (rev (logs_of w0)) st), w0)).
  { intros w0. unfold SecurityMonitor.loadLogs.
    now rewrite (bind_run _ _ _ _ _ (getSecurityLogs_run w0)), ret_run. }
  split; [apply Hload|]. split; [|split; [|split; [|split; [|split]]]].
  - eexists _, _. unfold eval.
    rewrite (bind_run _ _ _ _ _ (addSecurityLog_run entry w)), Hload. cbn [fst].
    read_views. rewrite rev_app_distr. cbn [rev app].
    split; [reflexivity|]. repeat split; reflexivity.
  - eexists. unfold eval, SecurityMonitor.getLogStats.
    rewrite (bind_run _ _ _ _ _ (lastDay_run _ w)), ret_run. cbn [fst].
    split; [reflexivity|].
    cbn [SecurityMonitor.LogStats.critical SecurityMonitor.LogStats.high
         SecurityMonitor.LogStats.medium SecurityMonitor.LogStats.low
         SecurityMonitor.LogStats.total].
    split; [apply severity_split | apply clocked_length].
  - reflexivity.
  - reflexivity.
  - eexists. split.
    + unfold SecurityMonitor.clearLogs.
      rewrite (bind_run _ _ _ _ _ (saveSecurityLogs_run [] w)). now rewrite ret_run.
    + read_views. repeat split; reflexivity.
  - reflexivity.
Qed.

(** X22. The administrator's overview of the log.  [loadData] keeps the
    last fifty entries of the stored log, all of them when there are fewer,
    and reads users and elections as stored, writing nothing.  The security
    counts always return; critical, high and medium together never exceed
    the total, the difference being the entries of low severity, and the
    total is at most fifty after [loadData]. *)
Theorem overview_keeps_the_last_fifty (w : World) :
  exists (st : AdminDashboard.state) (older : list SecurityLog.t)
         (stats : AdminDashboard.SecurityStats.t),
    AdminDashboard.loadData w = (Ok st, w)
    /\ AdminDashboard.elections st = elections_of w
    /\ AdminDashboard.users st = users_of w
    /\ logs_of w = older ++ AdminDashboard.securityLogs st
    /\ List.length (AdminDashboard.securityLogs st) = Nat.min 50 (List.length (logs_of w))
    /\ eval (AdminDashboard.getSecurityStats st) w = Ok stats
    /\ (AdminDashboard.SecurityStats.critical stats + AdminDashboard.SecurityStats.high stats
        + AdminDashboard.SecurityStats.medium stats
        <= AdminDashboard.SecurityStats.total stats)%nat
    /\ (AdminDashboard.SecurityStats.total stats <= 50)%nat.
Proof.
  destruct (slice_last_spec 50 (logs_of w)) as [Hlen [older Holder]].
  eexists _, older, _. split.
  { unfold AdminDashboard.loadData. do 3 js_step. now rewrite ret_run. }
  cbn [AdminDashboard.elections AdminDashboard.users AdminDashboard.securityLogs].
  split; [reflexivity|]. split; [reflexivity|]. split; [exact Holder|].
  split; [exact Hlen|].
  unfold eval, AdminDashboard.getSecurityStats.
  rewrite (bind_run _ _ _ _ _ (lastDay_run _ w)), ret_run. cbn [fst].
  split; [reflexivity|].
  cbn [AdminDashboard.SecurityStats.critical AdminDashboard.SecurityStats.high
       AdminDashboard.SecurityStats.medium AdminDashboard.SecurityStats.total].
  split.
  - cbn [AdminDashboard.securityLogs].
    match goal with |- (_ <= List.length ?l)%nat => pose proof (severity_split l) end. lia.
  - cbn [AdminDashboard.securityLogs].
    match goal with |- (List.length (clocked ?p ?k ?l) <= _)%nat =>
      pose proof (clocked_length p k l) as Hle end.
    rewrite Hlen in Hle. lia.
Qed.

End Monitor.

(* ================================================================== *)
(** * [ElectionForm] (second part of [src/components/AdminDashboard.tsx]) *)
(* ================================================================== *)

Module ElectionForm.

Record form := {
  title : string;
  description : string;
  startDate : string;
  endDate : string
}.

Record state := {
  formData : form;
  positions : list Position.t;
  errors : list string;
  isLoading : bool
}.

Definition blankForm : form :=
  {| title := ""; description := ""; startDate := ""; endDate := "" |}.

Definition blankPosition : Position.t :=
  {| Position.id := "1"; Position.title := ""; Position.description := "";
     Position.maxVotes := 1; Position.candidates := [] |}.

Definition initial : state :=
  {| formData := blankForm; positions := [blankPosition]; errors := [];
     isLoading := false |}.

Definition setFormData (f : form) (st : state) : state :=
  {| formData := f; positions := positions st; errors := errors st;
     isLoading := isLoading st |}.
Definition setPositions (p : list Position.t) (st : state) : state :=
  {| formData := formData st; positions := p; errors := errors st;
     isLoading := isLoading st |}.
Definition setErrors (e : list string) (st : state) : state :=
  {| formData := formData st; positions := positions st; errors := e;
     isLoading := isLoading st |}.
Definition setIsLoading (b : bool) (st : state) : state :=
  {| formData := formData st; positions := positions st; errors := errors st;
     isLoading := b |}.

(** [{ ...p, [field]: value }] for a key of [Position] and a value of its type. *)
Inductive positionUpdate :=
  | p_id (value : string)
  | p_title (value : string)
  | p_description (value : string)
  | p_candidates (value : list Candidate.t)
  | p_maxVotes (value : Z).

Definition withPosition (u : positionUpdate) (p : Position.t) : Position.t :=
  {| Position.id := match u with p_id v => v | _ => Position.id p end;
     Position.title := match u with p_title v => v | _ => Position.title p end;
     Position.description :=
       match u with p_description v => v | _ => Position.description p end;
     Position.candidates :=
       match u with p_candidates v => v | _ => Position.candidates p end;
     Position.maxVotes := match u with p_maxVotes v => v | _ => Position.maxVotes p end |}.

(** The keys of [Candidate]. *)
Inductive candidateKey := c_id | c_name | c_position | c_description | c_manifesto | c_photo.

#[global] Instance candidateKey_eq_dec : EqDecision candidateKey.
Proof. solve_decision. Defined.

(** [{ ...c, [field]: value }] *)
Definition withCandidate (field : candidateKey) (value : string) (c : Candidate.t)
    : Candidate.t :=
  {| Candidate.id := match field with c_id => value | _ => Candidate.id c end;
     Candidate.name := match field with c_name => value | _ => Candidate.name c end;
     Candidate.position :=
       match field with c_position => value | _ => Candidate.position c end;
     Candidate.description :=
       match field with c_description => value | _ => Candidate.description c end;
     Candidate.manifesto :=
       match field with c_manifesto => value | _ => Candidate.manifesto c end;
     Candidate.photo := match field with c_photo => Some value | _ => Candidate.photo c end |}.

(** [positions.map(p => p.id === positionId ? change(p) : p)] *)
Definition mapPosition (positionId : string) (change : Position.t -> Position.t)
    (l : list Position.t) : list Position.t :=
  map (fun p => if String.eqb (Position.id p) positionId then change p else p) l.

Definition withCandidates (cs : list Candidate.t) (p : Position.t) : Position.t :=
  withPosition (p_candidates cs) p.

Definition removePosition (positionId : string) (st : state) : state :=
  setPositions
    (List.filter (fun p => negb (String.eqb (Position.id p) positionId)) (positions st)) st.

Definition updatePosition (positionId : string) (u : positionUpdate) (st : state) : state :=
  setPositions (mapPosition positionId (withPosition u) (positions st)) st.

Definition removeCandidate (positionId candidateId : string) (st : state) : state :=
  setPositions
    (mapPosition positionId
       (fun p => withCandidates
                   (List.filter (fun c => negb (String.eqb (Candidate.id c) candidateId))
                                (Position.candidates p)) p)
       (positions st)) st.

Definition updateCandidate (positionId candidateId : string) (field : candidateKey)
    (value : string) (st : state) : state :=
  if bool_decide (field = c_name) && negb (Validation.validateCandidateName value)
     && negb (String.eqb value "")
  then st
  else
    setPositions
      (mapPosition positionId
         (fun p => withCandidates
                     (map (fun c => if String.eqb (Candidate.id c) candidateId
                                    then withCandidate field (Validation.sanitizeInput value) c
                                    else c)
                          (Position.candidates p)) p)
         (positions st)) st.

(** The messages [validateForm] collects for the candidates of a position. *)
Fixpoint candidateErrors (position : Z) (index : Z) (cs : list Candidate.t) : list string :=
  match cs with
  | [] => []
  | candidate :: rest =>
      (if negb (Text.truthy (Validation.trim (Candidate.name candidate)))
       then ["Position " +:+ Text.of_Z (position + 1) +:+ ", Candidate "
             +:+ Text.of_Z (index + 1) +:+ ": Name is required"]
       else if negb (Validation.validateCandidateName (Candidate.name candidate))
       then ["Position " +:+ Text.of_Z (position + 1) +:+ ", Candidate "
             +:+ Text.of_Z (index + 1)
             +:+ ": Name can only contain alphabets and spaces"]
       else [])
      ++ candidateErrors position (index + 1) rest
  end.

Fixpoint positionErrors (index : Z) (ps : list Position.t) : list string :=
  match ps with
  | [] => []
  | position :: rest =>
      (if negb (Text.truthy (Validation.trim (Position.title position)))
       then ["Position " +:+ Text.of_Z (index + 1) +:+ ": Title is required"] else [])
      ++ (if bool_decide (List.length (Position.candidates position) = 0%nat)
          then ["Position " +:+ Text.of_Z (index + 1)
                +:+ ": At least one candidate is required"] else [])
      ++ candidateErrors index 0 (Position.candidates position)
      ++ positionErrors (index + 1) rest
  end.

(** The messages [validateForm] collects; [validDates] is the answer of
    [isValidElectionDate]. *)
Definition newErrors (st : state) (validDates : bool) : list string :=
  let f := formData st in
  (if negb (Text.truthy (Validation.trim (title f)))
   then ["Election title is required"] else [])
  ++ (if negb (Text.truthy (Validation.trim (description f)))
      then ["Election description is required"] else [])
  ++ (if negb (Text.truthy (startDate f)) then ["Start date is required"] else [])
  ++ (if negb (Text.truthy (endDate f)) then ["End date is required"] else [])
  ++ (if negb validDates
      then ["Invalid date range. Start date must be in the future and end date must be after start date"]
      else [])
  ++ (if bool_decide (List.length (positions st) = 0%nat)
      then ["At least one position is required"] else [])
  ++ positionErrors 0 (positions st).

Section Component.
Context `{Platform} `{DateParser}.
Context `{!JSON (list Election.t)} `{!JSON (list SecurityLog.t)} `{!JSON User.t}
        `{!JSON (list Position.t)}.

Definition newPosition (now : Z) : Position.t :=
  {| Position.id := Text.of_Z now; Position.title := ""; Position.description := "";
     Position.maxVotes := 1; Position.candidates := [] |}.

Definition addPosition (st : state) : JS state :=
  now ← Browser.now;
  mret (setPositions (positions st ++ [newPosition now]) st).

Definition newCandidate (now : Z) : Candidate.t :=
  {| Candidate.id := Text.of_Z now; Candidate.name := ""; Candidate.position := "";
     Candidate.description := ""; Candidate.manifesto := ""; Candidate.photo := None |}.

Definition addCandidate (positionId : string) (st : state) : JS state :=
  now ← Browser.now;
  mret (setPositions
          (mapPosition positionId
             (fun p => withCandidates (Position.candidates p ++ [newCandidate now]) p)
             (positions st)) st).

(** [validateForm]: the state with the messages set, and whether there are
    none. *)
Definition validateForm (st : state) : JS (state * bool) :=
  validDates ← Validation.isValidElectionDate (startDate (formData st))
                                              (endDate (formData st));
  let collected := newErrors st validDates in
  mret (setErrors collected st, bool_decide (List.length collected = 0%nat)).

Definition sanitizedPosition (p : Position.t) : Position.t :=
  {| Position.id := Position.id p;
     Position.title := Validation.sanitizeInput (Position.title p);
     Position.description := Validation.sanitizeInput (Position.description p);
     Position.candidates := Position.candidates p;
     Position.maxVotes := 1 |}.

(** The election object before its hash is set. *)
Definition draft (st : state) (id_time : Z) (currentUser : option User.t) (created : Z)
    : Election.t :=
  {| Election.id := Text.of_Z id_time;
     Election.title := Validation.sanitizeInput (title (formData st));
     Election.description := Validation.sanitizeInput (description (formData st));
     Election.startDate := startDate (formData st);
     Election.endDate := endDate (formData st);
     Election.positions := map sanitizedPosition (positions st);
     Election.isActive := false;
     Election.totalVotes := 0;
     Election.createdBy :=
       match currentUser with
       | Some u => if Text.truthy (User.id u) then User.id u else "admin"
       | None => "admin"
       end;
     Election.createdAt := Date.toISOString created;
     Election.cryptographicHash := "" |}.

Definition withHash (h : string) (e : Election.t) : Election.t :=
  {| Election.id := Election.id e; Election.title := Election.title e;
     Election.description := Election.description e;
     Election.startDate := Election.startDate e; Election.endDate := Election.endDate e;
     Election.positions := Election.positions e; Election.isActive := Election.isActive e;
     Election.totalVotes := Election.totalVotes e; Election.createdBy := Election.createdBy e;
     Election.createdAt := Election.createdAt e; Election.cryptographicHash := h |}.

(** [handleSubmit]: the state it leaves, and whether it called the
    [onElectionCreated] prop. *)
Definition handleSubmit (st0 : state) : JS (state * bool) :=
  let st := setIsLoading true st0 in
  validated ← validateForm st;
  let '(st1, ok) := validated in
  if negb ok then mret (setIsLoading false st1, false)
  else
    id_time ← Browser.now;
    currentUser ← Storage.getCurrentUser;
    created ← Browser.now;
    let election0 := draft st1 id_time currentUser created in
    let election := withHash (Tokens.hashElection election0) election0 in
    elections ← Storage.getElections;
    Storage.saveElections (elections ++ [election]);;
    logUser ← Storage.getCurrentUser;
    Storage.addSecurityLog
      {| SecurityLog.e_type := admin_action;
         SecurityLog.e_message := "New election created: " +:+ Election.title election;
         SecurityLog.e_userId := User.id <$> logUser;
         SecurityLog.e_electionId := Some (Election.id election);
         SecurityLog.e_ipAddress := "localhost";
         SecurityLog.e_severity := low;
         SecurityLog.e_metadata := None |};;
    Browser.alert "Election created successfully!";;
    mret (setIsLoading false
            (setErrors [] (setPositions [blankPosition] (setFormData blankForm st1))),
          true).


(** What the page lets the administrator do to the form before submitting;
    the button that removes a position is shown while there is more than
    one. *)
Inductive event :=
  | TypeTitle (value : string)
  | TypeDescription (value : string)
  | PickStartDate (value : string)
  | PickEndDate (value : string)
  | AddPosition
  | RemovePosition (positionId : string)
  | TypePositionTitle (positionId value : string)
  | TypePositionDescription (positionId value : string)
  | AddCandidate (positionId : string)
  | RemoveCandidate (positionId candidateId : string)
  | TypeCandidateName (positionId candidateId value : string)
  | TypeCandidateDescription (positionId candidateId value : string)
  | TypeCandidateManifesto (positionId candidateId value : string).

Definition handle (e : event) (st : state) : JS state :=
  let f := formData st in
  match e with
  | TypeTitle v =>
      mret (setFormData {| title := v; description := description f;
                           startDate := startDate f; endDate := endDate f |} st)
  | TypeDescription v =>
      mret (setFormData {| title := title f; description := v;
                           startDate := startDate f; endDate := endDate f |} st)
  | PickStartDate v =>
      mret (setFormData {| title := title f; description := description f;
                           startDate := v; endDate := endDate f |} st)
  | PickEndDate v =>
      mret (setFormData {| title := title f; description := description f;
                           startDate := startDate f; endDate := v |} st)
  | AddPosition => addPosition st
  | RemovePosition positionId =>
      if bool_decide (1 < List.length (positions st))%nat
      then mret (removePosition positionId st) else mret st
  | TypePositionTitle positionId v => mret (updatePosition positionId (p_title v) st)
  | TypePositionDescription positionId v =>
      mret (updatePosition positionId (p_description v) st)
  | AddCandidate positionId => addCandidate positionId st
  | RemoveCandidate positionId candidateId =>
      mret (removeCandidate positionId candidateId st)
  | TypeCandidateName positionId candidateId v =>
      mret (updateCandidate positionId candidateId c_name v st)
  | TypeCandidateDescription positionId candidateId v =>
      mret (updateCandidate positionId candidateId c_description v st)
  | TypeCandidateManifesto positionId candidateId v =>
      mret (updateCandidate positionId candidateId c_manifesto v st)
  end.

Fixpoint after (es : list event) (st : state) : JS state :=
  match es with
  | [] => mret st
  | e :: rest => st1 ← handle e st; after rest st1
  end.

End Component.
End ElectionForm.

(* ================================================================== *)
(** * Trimming twice *)
(* ================================================================== *)

Section TrimFacts.
Import Validation.

(** A list of code points as [code_points] builds them: each is a byte
    followed by continuation bytes, and only the first may begin with a
    continuation byte. *)
Definition continued (p : string) : Prop :=
  match p with
  | EmptyString => False
  | String _ r => all_of continues r
  end.

Definition leading (p : string) : Prop :=
  match p with
  | EmptyString => False
  | String c _ => continues c = false
  end.

Definition grouped (l : list string) : Prop :=
  List.Forall continued l /\ List.Forall leading (tl l).

Lemma code_points_grouped (s : string) : grouped (code_points s).
Proof.
  induction s as [|c s [Hall Htl]]; [split; constructor|].
  cbn [code_points]. destruct (code_points s) as [|[|d p] rest] eqn:E.
  - split; [repeat constructor | constructor].
  - apply List.Forall_inv in Hall. contradiction.
  - destruct (continues d) eqn:Hd.
    + split; [|exact Htl]. constructor; [|now apply List.Forall_inv_tail in Hall].
      apply List.Forall_inv in Hall. cbn [continued] in *. now apply all_of_cons.
    + split; [constructor; [reflexivity | exact Hall]|].
      cbn [tl]. constructor; [exact Hd | exact Htl].
Qed.

Lemma code_points_cons (c : ascii) (r : string) :
  code_points (String c r)
  = match code_points r with
    | String d p :: rest =>
        if continues d then String c (String d p) :: rest
        else String c EmptyString :: String d p :: rest
    | rest => String c EmptyString :: rest
    end.
Proof. reflexivity. Qed.

Lemma code_points_group (c : ascii) (p s : string) (rest : list string) :
  all_of continues p ->
  code_points s = rest ->
  List.Forall leading rest ->
  code_points (String c (p +:+ s)) = String c p :: rest.
Proof.
  revert c. induction p as [|d p IH]; intros c Hp Hs Hrest.
  - rewrite append_nil_l, code_points_cons, Hs.
    destruct rest as [|[|e q] rest']; [reflexivity | |].
    + apply List.Forall_inv in Hrest. contradiction.
    + apply List.Forall_inv in Hrest. cbn [leading] in Hrest. now rewrite Hrest.
  - apply all_of_cons in Hp as [Hd Hp]. rewrite append_cons.
    rewrite code_points_cons, (IH d Hp Hs Hrest). now rewrite Hd.
Qed.

Lemma concat_cons (p : string) (l : list string) :
  String.concat "" (p :: l) = p +:+ String.concat "" l.
Proof. destruct l; [now rewrite append_nil_r | reflexivity]. Qed.

(** Such a list is the code points of its concatenation. *)
Lemma grouped_code_points (l : list string) :
  grouped l -> code_points (String.concat "" l) = l.
Proof.
  induction l as [|g l IH]; intros [Hall Htl]; [reflexivity|].
  cbn [tl] in Htl. rewrite concat_cons.
  destruct g as [|c p]; [apply List.Forall_inv in Hall; contradiction|].
  rewrite append_cons. apply code_points_group.
  - now apply List.Forall_inv in Hall.
  - apply IH. split; [now apply List.Forall_inv_tail in Hall|].
    destruct l; [constructor | now apply List.Forall_inv_tail in Htl].
  - exact Htl.
Qed.

Lemma grouped_tail (g : string) (l : list string) : grouped (g :: l) -> grouped l.
Proof.
  intros [Hall Htl]. split; [now apply List.Forall_inv_tail in Hall|].
  cbn [tl] in Htl. destruct l; [constructor | now apply List.Forall_inv_tail in Htl].
Qed.

Lemma grouped_drop_spaces (l : list string) : grouped l -> grouped (drop_spaces l).
Proof.
  induction l as [|g l IH]; intros Hl; [exact Hl|].
  cbn [drop_spaces]. destruct (is_space g); [|exact Hl].
  apply IH. now apply grouped_tail in Hl.
Qed.

(** What [drop_spaces] leaves at the end of a list. *)
Lemma drop_spaces_app (a : list string) (h : string) :
  is_space h = false -> exists k, drop_spaces (a ++ [h]) = k ++ [h] /\ exists j, a = j ++ k.
Proof.
  intros Hh. induction a as [|x a (k & E & j & Ej)].
  - exists []. cbn [app drop_spaces]. rewrite Hh. split; [reflexivity | now exists []].
  - cbn [app drop_spaces]. destruct (is_space x).
    + exists k. split; [exact E|]. exists (x :: j). now rewrite Ej.
    + exists (x :: a). split; [reflexivity | now exists []].
Qed.

Lemma drop_spaces_head (l : list string) :
  match drop_spaces l with
  | [] => True
  | h :: _ => is_space h = false
  end.
Proof.
  induction l as [|x l IH]; [exact I|]. cbn [drop_spaces].
  destruct (is_space x) eqn:Hx; [exact IH | exact Hx].
Qed.

Lemma drop_spaces_fixed (l : list string) :
  match l with [] => True | h :: _ => is_space h = false end -> drop_spaces l = l.
Proof. destruct l as [|h l]; [reflexivity|]. cbn [drop_spaces]. now intros ->. Qed.

(** The middle of a list between its outer white space. *)
Definition core (l : list string) : list string :=
  rev (drop_spaces (rev (drop_spaces l))).

Lemma core_fixed (l : list string) : core (core l) = core l.
Proof.
  unfold core. set (m := drop_spaces l).
  assert (Hm := drop_spaces_head l). fold m in Hm.
  destruct m as [|h t]; [reflexivity|].
  cbn [rev]. destruct (drop_spaces_app (rev t) h Hm) as (k & E & _).
  rewrite E, rev_app_distr. cbn [rev app].
  cbn [drop_spaces]. rewrite Hm. cbn [rev]. rewrite rev_involutive, <- E.
  rewrite (drop_spaces_fixed (drop_spaces (rev t ++ [h]))) by apply drop_spaces_head.
  rewrite E, rev_app_distr. reflexivity.
Qed.

Lemma grouped_core (l : list string) : grouped l -> grouped (core l).
Proof.
  intros Hl. unfold core. apply grouped_drop_spaces in Hl.
  set (m := drop_spaces l) in *.
  assert (Hm := drop_spaces_head l). fold m in Hm.
  destruct m as [|h t]; [exact Hl|].
  cbn [rev]. destruct (drop_spaces_app (rev t) h Hm) as (k & E & j & Ej).
  rewrite E, rev_app_distr. cbn [rev app].
  assert (Et : t = rev k ++ rev j).
  { rewrite <- (rev_involutive t), Ej, rev_app_distr. reflexivity. }
  destruct Hl as [Hall Htl]. cbn [tl] in Htl. rewrite Et in Hall, Htl. split.
  - constructor; [now apply List.Forall_inv in Hall|].
    apply List.Forall_inv_tail in Hall. now apply List.Forall_app in Hall as [Hk _].
  - cbn [tl]. now apply List.Forall_app in Htl as [Hk _].
Qed.

(** [s.trim().trim()] is [s.trim()]. *)
Lemma trim_trim (s : string) : trim (trim s) = trim s.
Proof.
  unfold trim. fold (core (code_points s)).
  rewrite (grouped_code_points (core (code_points s)))
    by apply grouped_core, code_points_grouped.
  fold (core (core (code_points s))). now rewrite core_fixed.
Qed.

Lemma name_byte_no_angle (s : string) :
  all_of name_byte s -> all_of (fun c => negb (angle c)) s.
Proof.
  unfold all_of. intros Hall. rewrite forallb_forall in *. intros c Hc.
  specialize (Hall c Hc). revert Hall.
  destruct c as [[] [] [] [] [] [] [] []]; vm_compute; intros E;
    first [reflexivity | discriminate E].
Qed.

(** A name the rule accepts is stored trimmed, and the rule accepts what is
    stored. *)
Lemma sanitized_name_valid (value : string) :
  validateCandidateName value = true ->
  sanitizeInput value = trim value
  /\ validateCandidateName (sanitizeInput value) = true.
Proof.
  intros Hvalid.
  assert (E : sanitizeInput value = trim value).
  { apply sanitizeInput_clean, name_byte_no_angle.
    now apply validateCandidateName_bytes. }
  split; [exact E|]. rewrite E. unfold validateCandidateName in *.
  now rewrite trim_trim.
Qed.

End TrimFacts.

(* ================================================================== *)
(** * Creating an election *)
(* ================================================================== *)

Section FormFacts.
Import Validation.

(** A candidate and a position that [validateForm] has no message for. *)
Definition named_candidate (c : Candidate.t) : Prop :=
  trim (Candidate.name c) <> "" /\ validateCandidateName (Candidate.name c) = true.

Definition staffed (p : Position.t) : Prop :=
  trim (Position.title p) <> ""
  /\ Position.candidates p <> []
  /\ List.Forall named_candidate (Position.candidates p).

Lemma truthy_false (s : string) : negb (Text.truthy s) = false <-> s <> "".
Proof.
  unfold Text.truthy. rewrite negb_involutive.
  destruct (String.eqb_spec s ""); split; congruence.
Qed.

Lemma candidateErrors_nil (position index : Z) (cs : list Candidate.t) :
  ElectionForm.candidateErrors position index cs = [] <-> List.Forall named_candidate cs.
Proof.
  revert index. induction cs as [|c cs IH]; intros index;
    cbn [ElectionForm.candidateErrors].
  - split; [constructor | reflexivity].
  - rewrite List.Forall_cons_iff, <- (IH (index + 1)). unfold named_candidate.
    destruct (negb (Text.truthy (trim (Candidate.name c)))) eqn:Hname.
    + split; [discriminate|]. intros [[Hne _] _].
      apply truthy_false in Hne. congruence.
    + apply truthy_false in Hname.
      destruct (validateCandidateName (Candidate.name c)); cbn [negb app].
      * tauto.
      * split; [discriminate|]. intros [[_ Hv] _]. discriminate.
Qed.

Lemma positionErrors_nil (index : Z) (ps : list Position.t) :
  ElectionForm.positionErrors index ps = [] <-> List.Forall staffed ps.
Proof.
  revert index. induction ps as [|p ps IH]; intros index;
    cbn [ElectionForm.positionErrors].
  - split; [constructor | reflexivity].
  - rewrite List.Forall_cons_iff, <- (IH (index + 1)). unfold staffed.
    rewrite <- (candidateErrors_nil index 0).
    destruct (negb (Text.truthy (trim (Position.title p)))) eqn:Htitle.
    + split; [discriminate|]. intros [[Hne _] _].
      apply truthy_false in Hne. congruence.
    + apply truthy_false in Htitle. cbn [app].
      destruct (Position.candidates p) as [|c cs] eqn:Hcs.
      * rewrite bool_decide_eq_true_2 by reflexivity.
        split; [discriminate|]. intros [(_ & Hne & _) _]. contradiction.
      * rewrite bool_decide_eq_false_2 by discriminate. cbn [app].
        split.
        -- intros E. apply app_eq_nil in E as [E1 E2].
           split; [split; [exact Htitle|]; split; [discriminate | exact E1] | exact E2].
        -- intros [(_ & _ & E1) E2]. now rewrite E1, E2.
Qed.

(** The form passes [validateForm] exactly when: *)
Definition valid_form (st : ElectionForm.state) (validDates : bool) : Prop :=
  trim (ElectionForm.title (ElectionForm.formData st)) <> ""
  /\ trim (ElectionForm.description (ElectionForm.formData st)) <> ""
  /\ ElectionForm.startDate (ElectionForm.formData st) <> ""
  /\ ElectionForm.endDate (ElectionForm.formData st) <> ""
  /\ validDates = true
  /\ ElectionForm.positions st <> []
  /\ List.Forall staffed (ElectionForm.positions st).

Lemma newErrors_nil (st : ElectionForm.state) (validDates : bool) :
  ElectionForm.newErrors st validDates = [] <-> valid_form st validDates.
Proof.
  unfold ElectionForm.newErrors, valid_form.
  rewrite <- (positionErrors_nil 0).
  rewrite <- !truthy_false.
  destruct (negb (Text.truthy (trim (ElectionForm.title (ElectionForm.formData st)))));
    [split; [discriminate | intros (? & _); discriminate]|].
  destruct (negb (Text.truthy
                    (trim (ElectionForm.description (ElectionForm.formData st)))));
    [split; [discriminate | intros (_ & ? & _); discriminate]|].
  destruct (negb (Text.truthy (ElectionForm.startDate (ElectionForm.formData st))));
    [split; [discriminate | intros (_ & _ & ? & _); discriminate]|].
  destruct (negb (Text.truthy (ElectionForm.endDate (ElectionForm.formData st))));
    [split; [discriminate | intros (_ & _ & _ & ? & _); discriminate]|].
  destruct validDates;
    [|split; [discriminate | intros (_ & _ & _ & _ & ? & _); discriminate]].
  cbn [negb app].
  destruct (ElectionForm.positions st) as [|p ps].
  - rewrite bool_decide_eq_true_2 by reflexivity.
    split; [discriminate | intros (_ & _ & _ & _ & _ & ? & _); contradiction].
  - rewrite bool_decide_eq_false_2 by discriminate. cbn [app].
    split; [intros E; repeat split; try reflexivity; try discriminate; exact E|].
    now intros (_ & _ & _ & _ & _ & _ & E).
Qed.

End FormFacts.

Section Creation.
Import Validation.
Context `{Platform} `{DateParser}.
Context `{!JSON (list User.t)} `{!JSON (list Election.t)} `{!JSON (list Vote.t)}
        `{!JSON (list VotingSession.t)} `{!JSON (list SecurityLog.t)}
        `{!JSON (list ElectionResults.t)} `{!JSON User.t} `{!JSON (list Position.t)}.
Context `{!Serializable (list Election.t)} `{!Serializable (list SecurityLog.t)}.

Lemma isValidElectionDate_run (startDate endDate : string) (w : World) :
  isValidElectionDate startDate endDate w
  = (Ok (later (Date_parse startDate) (Some (Date_now (clock_reads w)))
         && later (Date_parse endDate) (Date_parse startDate)),
     ticked 1 w).
Proof. reflexivity. Qed.

(** The answer [validateForm] gets about the dates of a form. *)
Definition dates_valid (st : ElectionForm.state) (w : World) : bool :=
  later (Date_parse (ElectionForm.startDate (ElectionForm.formData st)))
        (Some (Date_now (clock_reads w)))
  && later (Date_parse (ElectionForm.endDate (ElectionForm.formData st)))
           (Date_parse (ElectionForm.startDate (ElectionForm.formData st))).

Lemma validateForm_run (st : ElectionForm.state) (w : World) :
  ElectionForm.validateForm st w
  = (Ok (ElectionForm.setErrors (ElectionForm.newErrors st (dates_valid st w)) st,
         bool_decide (List.length (ElectionForm.newErrors st (dates_valid st w)) = 0%nat)),
     ticked 1 w).
Proof.
  unfold ElectionForm.validateForm.
  now rewrite (bind_run _ _ _ _ _ (isValidElectionDate_run _ _ w)), ret_run.
Qed.

(** The election [handleSubmit] stores for a form in a world. *)
Definition created (st : ElectionForm.state) (w : World) : Election.t :=
  let election0 :=
    ElectionForm.draft st (Date_now (S (clock_reads w))) (current_user_of w)
                       (Date_now (S (S (clock_reads w)))) in
  ElectionForm.withHash (Tokens.hashElection election0) election0.

Lemma later_dates (a b : option Z) :
  later a b = true <-> exists x y, a = Some x /\ b = Some y /\ y < x.
Proof.
  unfold later. destruct a as [x|], b as [y|].
  - rewrite Z.ltb_lt. split; [intros; now exists x, y|].
    now intros (x' & y' & [= <-] & [= <-] & Hlt).
  - split; [discriminate | now intros (? & ? & _ & ? & _)].
  - split; [discriminate | now intros (? & ? & ? & _)].
  - split; [discriminate | now intros (? & ? & ? & _)].
Qed.

Lemma handleSubmit_refused (st : ElectionForm.state) (w : World) :
  ~ valid_form st (dates_valid st w) ->
  ElectionForm.handleSubmit st w
  = (Ok (ElectionForm.setIsLoading false
           (ElectionForm.setErrors
              (ElectionForm.newErrors st (dates_valid st w))
              (ElectionForm.setIsLoading true st)), false),
     ticked 1 w).
Proof.
  intros Hnot. unfold ElectionForm.handleSubmit.
  rewrite (bind_run _ _ _ _ _ (validateForm_run _ w)).
  change (dates_valid (ElectionForm.setIsLoading true st) w) with (dates_valid st w).
  change (ElectionForm.newErrors (ElectionForm.setIsLoading true st) (dates_valid st w))
    with (ElectionForm.newErrors st (dates_valid st w)).
  rewrite bool_decide_eq_false_2.
  - cbn [negb]. now rewrite ret_run.
  - intros E. apply Hnot, newErrors_nil. now apply length_zero_iff_nil.
Qed.

Lemma handleSubmit_created (st : ElectionForm.state) (w : World) :
  valid_form st (dates_valid st w) ->
  exists w' entry,
    ElectionForm.handleSubmit st w = (Ok (ElectionForm.initial, true), w')
    /\ elections_of w' = elections_of w ++ [created st w]
    /\ logs_of w' = logs_of w ++ [entry]
    /\ SecurityLog.type entry = admin_action
    /\ SecurityLog.electionId entry = Some (Election.id (created st w))
    /\ SecurityLog.userId entry = User.id <$> current_user_of w
    /\ users_of w' = users_of w
    /\ votes_of w' = votes_of w
    /\ current_user_of w' = current_user_of w
    /\ effects w' = effects w ++ [Alert "Election created successfully!"].
Proof.
  intros Hok. eexists _, _. split.
  - unfold ElectionForm.handleSubmit.
    rewrite (bind_run _ _ _ _ _ (validateForm_run _ w)).
    change (dates_valid (ElectionForm.setIsLoading true st) w) with (dates_valid st w).
    change (ElectionForm.newErrors (ElectionForm.setIsLoading true st) (dates_valid st w))
      with (ElectionForm.newErrors st (dates_valid st w)).
    rewrite (proj2 (newErrors_nil st (dates_valid st w)) Hok).
    rewrite bool_decide_eq_true_2 by reflexivity. cbn [negb].
    do 7 js_next. js_step. rewrite ret_run. reflexivity.
  - read_views. repeat split; reflexivity.
Qed.

Lemma valid_form_dec (st : ElectionForm.state) (validDates : bool) :
  valid_form st validDates \/ ~ valid_form st validDates.
Proof.
  destruct (ElectionForm.newErrors st validDates) as [|e es] eqn:E.
  - left. now apply newErrors_nil.
  - right. intros Hc. apply newErrors_nil in Hc. congruence.
Qed.

(** X23. Creating an election.  [handleSubmit] of the election form
    always returns.  When it calls [onElectionCreated] it has appended one
    election to the stored ones and one [admin_action] entry to the log,
    shown one alert, reset the form and changed nothing else; the election
    is inactive with no votes, its hash is [hashElection] of it, its dates
    are the ones typed, they parse, and the start is after the clock reading
    taken and before the end; it has at least one position, each for one
    vote with at least one candidate of valid name, and its title,
    description and the titles of its positions hold no angle bracket.
    Otherwise it has read the clock once, written nothing, and shows at
    least one message, the form kept as typed. *)
Theorem created_election_is_well_formed (st : ElectionForm.state) (w : World) :
  exists (st' : ElectionForm.state) (called : bool) (w' : World),
    ElectionForm.handleSubmit st w = (Ok (st', called), w')
    /\ ElectionForm.isLoading st' = false
    /\ if called then
         exists election entry start end_,
           st' = ElectionForm.initial
           /\ elections_of w' = elections_of w ++ [election]
           /\ logs_of w' = logs_of w ++ [entry]
           /\ SecurityLog.type entry = admin_action
           /\ SecurityLog.electionId entry = Some (Election.id election)
           /\ users_of w' = users_of w
           /\ votes_of w' = votes_of w
           /\ current_user_of w' = current_user_of w
           /\ effects w' = effects w ++ [Alert "Election created successfully!"]
           /\ Election.isActive election = false
           /\ Election.totalVotes election = 0
           /\ Election.cryptographicHash election = Tokens.hashElection election
           /\ Election.startDate election
              = ElectionForm.startDate (ElectionForm.formData st)
           /\ Election.endDate election = ElectionForm.endDate (ElectionForm.formData st)
           /\ Date_parse (Election.startDate election) = Some start
           /\ Date_parse (Election.endDate election) = Some end_
           /\ Date_now (clock_reads w) < start < end_
           /\ Election.positions election <> []
           /\ List.Forall
                (fun p => Position.maxVotes p = 1
                          /\ Position.candidates p <> []
                          /\ List.Forall
                               (fun c => validateCandidateName (Candidate.name c) = true)
                               (Position.candidates p)
                          /\ all_of (fun c => negb (angle c)) (Position.title p))
                (Election.positions election)
           /\ all_of (fun c => negb (angle c)) (Election.title election)
           /\ all_of (fun c => negb (angle c)) (Election.description election)
       else
         w' = ticked 1 w
         /\ ElectionForm.errors st' <> []
         /\ ElectionForm.formData st' = ElectionForm.formData st
         /\ ElectionForm.positions st' = ElectionForm.positions st.
Proof.
  destruct (valid_form_dec st (dates_valid st w)) as [Hok|Hnot].
  - destruct (handleSubmit_created st w Hok)
      as (w' & entry & Hrun & Helections & Hlogs & Htype & Hid & _ & Husers & Hvotes
          & Hcurrent & Heffects).
    destruct Hok as (_ & _ & _ & _ & Hdates & Hsome & Hstaffed).
    unfold dates_valid in Hdates. apply andb_true_iff in Hdates as [Hstart Hend].
    apply later_dates in Hstart as (start & now & Es & [= <-] & Hfuture).
    apply later_dates in Hend as (end_ & start' & Ee & Es' & Hafter).
    assert (start' = start) by congruence. subst start'.
    exists ElectionForm.initial, true, w'. split; [exact Hrun|]. split; [reflexivity|].
    exists (created st w), entry, start, end_.
    split; [reflexivity|]. split; [exact Helections|]. split; [exact Hlogs|].
    split; [exact Htype|]. split; [exact Hid|]. split; [exact Husers|].
    split; [exact Hvotes|]. split; [exact Hcurrent|]. split; [exact Heffects|].
    split; [reflexivity|]. split; [reflexivity|]. split; [reflexivity|].
    split; [reflexivity|]. split; [reflexivity|]. split; [exact Es|]. split; [exact Ee|].
    split; [lia|]. split.
    { cbn. destruct (ElectionForm.positions st); [contradiction | discriminate]. }
    split.
    { cbn. apply List.Forall_map. eapply List.Forall_impl; [|exact Hstaffed].
      intros p (_ & Hcs & Hnamed). cbn.
      split; [reflexivity|]. split; [exact Hcs|]. split.
      - eapply List.Forall_impl; [|exact Hnamed]. now intros c [_ Hv].
      - apply sanitizeInput_no_angle. }
    split; apply sanitizeInput_no_angle.
  - exists (ElectionForm.setIsLoading false
              (ElectionForm.setErrors
                 (ElectionForm.newErrors st (dates_valid st w))
                 (ElectionForm.setIsLoading true st))), false, (ticked 1 w).
    split; [now apply handleSubmit_refused|]. split; [reflexivity|].
    split; [reflexivity|]. split; [|split; reflexivity].
    cbn [ElectionForm.errors ElectionForm.setIsLoading ElectionForm.setErrors].
    intros E. now apply Hnot, newErrors_nil.
Qed.

End Creation.

(* ================================================================== *)
(** * Editing the election form *)
(* ================================================================== *)

Section Editing.
Import Validation.
Context `{Platform} `{DateParser}.
Context `{!JSON (list Election.t)} `{!JSON (list SecurityLog.t)} `{!JSON User.t}
        `{!JSON (list Position.t)}.

Definition clean (s : string) : Prop := all_of (fun c => negb (angle c)) s.

(** A candidate as the form keeps it. *)
Definition tidy_candidate (c : Candidate.t) : Prop :=
  (Candidate.name c = "" \/ validateCandidateName (Candidate.name c) = true)
  /\ clean (Candidate.name c)
  /\ clean (Candidate.description c)
  /\ clean (Candidate.manifesto c).

Definition tidy_position (p : Position.t) : Prop :=
  Position.maxVotes p = 1 /\ List.Forall tidy_candidate (Position.candidates p).

Definition tidy (st : ElectionForm.state) : Prop :=
  List.Forall tidy_position (ElectionForm.positions st).

Lemma mapPosition_tidy (positionId : string) (change : Position.t -> Position.t)
    (l : list Position.t) :
  (forall p, tidy_position p -> tidy_position (change p)) ->
  List.Forall tidy_position l ->
  List.Forall tidy_position (ElectionForm.mapPosition positionId change l).
Proof.
  intros Hchange Hl. unfold ElectionForm.mapPosition. apply List.Forall_map.
  eapply List.Forall_impl; [|exact Hl]. intros p Hp.
  destruct (String.eqb (Position.id p) positionId); [now apply Hchange | exact Hp].
Qed.

Lemma filter_Forall {A} (P : A -> Prop) (f : A -> bool) (l : list A) :
  List.Forall P l -> List.Forall P (List.filter f l).
Proof.
  intros Hl. apply List.Forall_forall. intros x Hx. apply List.filter_In in Hx as [Hx _].
  rewrite List.Forall_forall in Hl. now apply Hl.
Qed.

Lemma updateCandidate_tidy (value : string) (field : ElectionForm.candidateKey)
    (c : Candidate.t) :
  In field [ElectionForm.c_name; ElectionForm.c_description; ElectionForm.c_manifesto] ->
  (field = ElectionForm.c_name -> value = "" \/ validateCandidateName value = true) ->
  tidy_candidate c ->
  tidy_candidate (ElectionForm.withCandidate field (sanitizeInput value) c).
Proof.
  intros Hfield Hvalue (Hname & Hn & Hd & Hm).
  pose proof (sanitizeInput_no_angle value) as Hclean.
  destruct Hfield as [<-|[<-|[<-|[]]]].
  - split; [|repeat split; assumption].
    destruct (Hvalue eq_refl) as [->|Hvalid]; [now left | right].
    now apply sanitized_name_valid.
  - repeat split; assumption.
  - repeat split; assumption.
Qed.

Lemma handle_tidy (e : ElectionForm.event) (st : ElectionForm.state) (w : World) :
  tidy st ->
  exists st' n,
    ElectionForm.handle e st w = (Ok st', ticked n w) /\ tidy st'.
Proof.
  intros Hst. unfold tidy in *.
  assert (Hedit : forall positionId candidateId field value,
            In field [ElectionForm.c_name; ElectionForm.c_description;
                      ElectionForm.c_manifesto] ->
            List.Forall tidy_position
              (ElectionForm.positions
                 (ElectionForm.updateCandidate positionId candidateId field value st))).
  { intros positionId candidateId field value Hfield.
    unfold ElectionForm.updateCandidate.
    destruct (bool_decide (field = ElectionForm.c_name)
              && negb (validateCandidateName value) && negb (String.eqb value ""))
      eqn:Hguard; [exact Hst|].
    cbn [ElectionForm.positions ElectionForm.setPositions].
    apply mapPosition_tidy; [|exact Hst]. intros p [Hmax Hcs].
    split; [exact Hmax|]. cbn. apply List.Forall_map.
    eapply List.Forall_impl; [|exact Hcs]. intros c Hc.
    destruct (String.eqb (Candidate.id c) candidateId); [|exact Hc].
    apply updateCandidate_tidy; [exact Hfield | | exact Hc].
    intros ->. rewrite bool_decide_eq_true_2 in Hguard by reflexivity.
    cbn [andb] in Hguard.
    destruct (validateCandidateName value); [now right|].
    cbn [negb andb] in Hguard. apply negb_false_iff, String.eqb_eq in Hguard. now left. }
  destruct e; cbn [ElectionForm.handle].
  1-4: eexists _, 0%nat; rewrite ret_run, ticked_0; split; [reflexivity | exact Hst].
  - exists (ElectionForm.setPositions
              (ElectionForm.positions st
               ++ [ElectionForm.newPosition (Date_now (clock_reads w))]) st), 1%nat.
    split; [reflexivity|]. cbn [ElectionForm.positions ElectionForm.setPositions].
    apply List.Forall_app. split; [exact Hst|].
    constructor; [|constructor]. split; [reflexivity | constructor].
  - destruct (bool_decide (1 < List.length (ElectionForm.positions st))%nat);
      eexists _, 0%nat; rewrite ret_run, ticked_0; (split; [reflexivity|]);
      [|exact Hst].
    cbn [ElectionForm.positions ElectionForm.removePosition ElectionForm.setPositions].
    now apply filter_Forall.
  - eexists _, 0%nat; rewrite ret_run, ticked_0; split; [reflexivity|].
    cbn [ElectionForm.positions ElectionForm.updatePosition ElectionForm.setPositions].
    apply mapPosition_tidy; [|exact Hst]. now intros p [Hmax Hcs].
  - eexists _, 0%nat; rewrite ret_run, ticked_0; split; [reflexivity|].
    cbn [ElectionForm.positions ElectionForm.updatePosition ElectionForm.setPositions].
    apply mapPosition_tidy; [|exact Hst]. now intros p [Hmax Hcs].
  - eexists _, 1%nat. split; [reflexivity|].
    cbn [ElectionForm.positions ElectionForm.setPositions].
    apply mapPosition_tidy; [|exact Hst]. intros p [Hmax Hcs].
    split; [exact Hmax|]. cbn. apply List.Forall_app. split; [exact Hcs|].
    constructor; [|constructor]. split; [now left|]. repeat split; reflexivity.
  - eexists _, 0%nat; rewrite ret_run, ticked_0; split; [reflexivity|].
    cbn [ElectionForm.positions ElectionForm.removeCandidate ElectionForm.setPositions].
    apply mapPosition_tidy; [|exact Hst]. intros p [Hmax Hcs].
    split; [exact Hmax|]. cbn. now apply filter_Forall.
  - eexists _, 0%nat; rewrite ret_run, ticked_0; split; [reflexivity|].
    apply Hedit. now left.
  - eexists _, 0%nat; rewrite ret_run, ticked_0; split; [reflexivity|].
    apply Hedit. right. now left.
  - eexists _, 0%nat; rewrite ret_run, ticked_0; split; [reflexivity|].
    apply Hedit. right. right. now left.
Qed.

Lemma after_tidy (events : list ElectionForm.event) (st : ElectionForm.state) (w : World) :
  tidy st ->
  exists st' n,
    ElectionForm.after events st w = (Ok st', ticked n w) /\ tidy st'.
Proof.
  revert st w. induction events as [|e events IH]; intros st w Hst.
  - exists st, 0%nat. cbn [ElectionForm.after]. now rewrite ret_run, ticked_0.
  - destruct (handle_tidy e st w Hst) as (st1 & n & Hrun & Hst1).
    destruct (IH st1 (ticked n w) Hst1) as (st' & m & Hrest & Hst').
    exists st', (m + n)%nat. cbn [ElectionForm.after].
    rewrite (bind_run _ _ _ _ _ Hrun), Hrest, ticked_ticked. now split.
Qed.

Lemma valid_name_not_blank (name : string) :
  validateCandidateName name = true -> trim name <> "".
Proof.
  unfold validateCandidateName. intros Hv E. rewrite E in Hv.
  apply andb_true_iff in Hv as [_ Hv]. discriminate Hv.
Qed.

Lemma tidy_candidateErrors (position index : Z) (cs : list Candidate.t) :
  List.Forall tidy_candidate cs ->
  List.Forall
    (fun message =>
       exists k, message = "Position " +:+ Text.of_Z (position + 1) +:+ ", Candidate "
                           +:+ Text.of_Z (k + 1) +:+ ": Name is required")
    (ElectionForm.candidateErrors position index cs).
Proof.
  intros Hcs. revert index.
  induction Hcs as [|c cs ([Hempty|Hvalid] & _) _ IH]; intros index;
    cbn [ElectionForm.candidateErrors]; [constructor | |].
  - rewrite Hempty. change (negb (Text.truthy (trim ""))) with true. cbn [app].
    constructor; [now exists index | apply IH].
  - rewrite (proj2 (truthy_false _) (valid_name_not_blank _ Hvalid)), Hvalid.
    cbn [negb app]. apply IH.
Qed.

(** X24. What the election form can hold.  Whatever the administrator
    types and clicks, starting from the empty form, the handlers return and
    touch nothing but the clock, and in the form they leave every position
    is for one vote, every candidate's name is empty or passes the name rule,
    and names, descriptions and manifestos hold no angle bracket: a name the
    rule rejects is not taken, and a name it accepts is stored trimmed.  So
    the only message [validateForm] can have about a candidate is that the
    name is required. *)
Theorem form_keeps_candidates_valid (events : list ElectionForm.event) (w : World) :
  exists (st : ElectionForm.state) (n : nat),
    ElectionForm.after events ElectionForm.initial w = (Ok st, ticked n w)
    /\ List.Forall
         (fun p => Position.maxVotes p = 1
                   /\ List.Forall
                        (fun c => (Candidate.name c = ""
                                   \/ validateCandidateName (Candidate.name c) = true)
                                  /\ all_of (fun c => negb (angle c)) (Candidate.name c)
                                  /\ all_of (fun c => negb (angle c))
                                            (Candidate.description c)
                                  /\ all_of (fun c => negb (angle c))
                                            (Candidate.manifesto c))
                        (Position.candidates p)
                   /\ forall position,
                        List.Forall
                          (fun message =>
                             exists k,
                               message = "Position " +:+ Text.of_Z (position + 1)
                                         +:+ ", Candidate " +:+ Text.of_Z (k + 1)
                                         +:+ ": Name is required")
                          (ElectionForm.candidateErrors position 0 (Position.candidates p)))
         (ElectionForm.positions st)
    /\ (forall value positionId candidateId,
          validateCandidateName value = false -> value <> "" ->
          ElectionForm.updateCandidate positionId candidateId ElectionForm.c_name value st
          = st)
    /\ (forall value,
          validateCandidateName value = true -> sanitizeInput value = trim value).
Proof.
  destruct (after_tidy events ElectionForm.initial w) as (st & n & Hrun & Hst).
  { constructor; [|constructor]. split; [reflexivity | constructor]. }
  exists st, n. split; [exact Hrun|]. split; [|split].
  - eapply List.Forall_impl; [|exact Hst]. intros p [Hmax Hcs].
    split; [exact Hmax|]. split; [exact Hcs|].
    intros position. now apply tidy_candidateErrors.
  - intros value positionId candidateId Hinvalid Hne.
    unfold ElectionForm.updateCandidate. rewrite Hinvalid.
    rewrite bool_decide_eq_true_2 by reflexivity.
    apply String.eqb_neq in Hne. now rewrite Hne.
  - intros value Hvalid. now apply sanitized_name_valid.
Qed.

End Editing.

(* ================================================================== *)
(** * Addresses and dates *)
(* ================================================================== *)

Section AddressFacts.
Import RegExp Validation.

Definition digit_value (c : ascii) : Z := code c - 48.

(** One to three decimal digits that write a number up to 255. *)
Definition octet_text (a : string) : Prop :=
  match a with
  | String d1 "" => digit d1 = true
  | String d1 (String d2 "") => digit d1 = true /\ digit d2 = true
  | String d1 (String d2 (String d3 "")) =>
      digit d1 = true /\ digit d2 = true /\ digit d3 = true
      /\ 100 * digit_value d1 + 10 * digit_value d2 + digit_value d3 <= 255
  | _ => False
  end.

(** The classes of the pattern, by character code. *)
Lemma octet_classes (c : ascii) :
  (digit c = true <-> 48 <= code c <= 57)
  /\ (between "0" "5" c = true <-> 48 <= code c <= 53)
  /\ (between "0" "4" c = true <-> 48 <= code c <= 52)
  /\ (one_of "01" c = true <-> 48 <= code c <= 49)
  /\ (Ascii.eqb "2" c = true <-> code c = 50)
  /\ (Ascii.eqb "5" c = true <-> code c = 53).
Proof.
  destruct c as [[] [] [] [] [] [] [] []]; vm_compute; intuition congruence.
Qed.

Lemma matches_Char (class : ascii -> bool) (prev : option ascii) (a rest : string) :
  matches (Char class) prev a rest <-> exists c, a = String c "" /\ class c = true.
Proof. reflexivity. Qed.

Ltac octet_digits :=
  repeat first [rewrite append_cons | rewrite append_nil_l | rewrite append_nil_r];
  cbn [octet_text]; unfold digit_value;
  repeat split; try (apply (proj2 (proj1 (octet_classes _)))); lia.

Lemma matches_octet (prev : option ascii) (a rest : string) :
  matches octet prev a rest <-> octet_text a.
Proof.
  unfold octet, Opt. split.
  - cbn [matches Lit].
    intros [(a1 & a2 & -> & (b1 & b2 & -> & (c1 & -> & H1)
                               & (b3 & b4 & -> & (c2 & -> & H2) & ->))
             & (c3 & -> & H3))
           |[(a1 & a2 & -> & (b1 & b2 & -> & (c1 & -> & H1) & ->)
              & (b3 & b4 & -> & (c2 & -> & H2) & (c3 & -> & H3)))
            |(a1 & a2 & -> & Hfirst & (b1 & b2 & -> & (c2 & -> & H2) & Hlast))]].
    + apply octet_classes in H1, H2. apply octet_classes in H3. octet_digits.
    + apply octet_classes in H1. apply octet_classes in H2. apply octet_classes in H3.
      octet_digits.
    + apply octet_classes in H2.
      destruct Hfirst as [(c1 & -> & H1)| ->], Hlast as [(c3 & -> & H3)| ->];
        try apply octet_classes in H1; try apply octet_classes in H3; octet_digits.
  - destruct a as [|d1 [|d2 [|d3 [|]]]]; cbn [octet_text]; try contradiction.
    + intros H1. right. right. exists "", (String d1 "").
      split; [reflexivity|]. split; [now right|].
      exists (String d1 ""), "". split; [reflexivity|].
      split; [now exists d1 | now right].
    + intros [H1 H2]. right. right. exists "", (String d1 (String d2 "")).
      split; [reflexivity|]. split; [now right|].
      exists (String d1 ""), (String d2 ""). split; [reflexivity|].
      split; [now exists d1 | left; now exists d2].
    + intros (H1 & H2 & H3 & Hle).
      pose proof (octet_classes d1) as (D1 & _ & _ & Z1 & T1 & _).
      pose proof (octet_classes d2) as (D2 & F2 & G2 & _ & _ & T2).
      pose proof (octet_classes d3) as (D3 & F3 & _).
      apply D1 in H1 as R1. apply D2 in H2 as R2. apply D3 in H3 as R3.
      unfold digit_value in Hle.
      destruct (Z_le_gt_dec (code d1) 49) as [Hsmall|Hbig].
      * right. right. exists (String d1 ""), (String d2 (String d3 "")).
        split; [reflexivity|]. split; [left; exists d1; split; [reflexivity|]; apply Z1; lia|].
        exists (String d2 ""), (String d3 ""). split; [reflexivity|].
        split; [now exists d2 | left; now exists d3].
      * assert (E1 : code d1 = 50) by lia. apply T1 in E1.
        destruct (Z_le_gt_dec (code d2) 52) as [Hsmall2|Hbig2].
        -- right. left. cbn [Lit matches].
           exists (String d1 ""), (String d2 (String d3 "")).
           split; [reflexivity|]. split.
           ++ exists (String d1 ""), "". split; [reflexivity|].
              split; [now exists d1 | reflexivity].
           ++ exists (String d2 ""), (String d3 ""). split; [reflexivity|].
              split; [exists d2; split; [reflexivity|]; apply G2; lia | now exists d3].
        -- assert (E2 : code d2 = 53) by lia. apply T2 in E2.
           left. cbn [Lit matches].
           exists (String d1 (String d2 "")), (String d3 "").
           split; [reflexivity|]. split.
           ++ exists (String d1 ""), (String d2 ""). split; [reflexivity|].
              split; [now exists d1|].
              exists (String d2 ""), "". split; [reflexivity|].
              split; [now exists d2 | reflexivity].
           ++ exists d3. split; [reflexivity|]. apply F3. lia.
Qed.

(** X25. The address rule.  [validateIPAddress] accepts exactly the
    strings made of four parts joined by three dots, each part one to three
    decimal digits that write a number from 0 to 255; leading zeros are
    accepted, and nothing may come before or after. *)
Theorem validateIPAddress_accepts (ip : string) :
  validateIPAddress ip = true
  <-> exists a b c d,
        ip = a +:+ "." +:+ b +:+ "." +:+ c +:+ "." +:+ d
        /\ octet_text a /\ octet_text b /\ octet_text c /\ octet_text d.
Proof.
  unfold validateIPAddress, ipRegex. rewrite test_anchored. cbn [matches]. split.
  - intros (x & d & -> & (x1 & x23 & -> & (a & p1 & -> & Ha & Hp1)
                          & (x2 & x3 & -> & (b & p2 & -> & Hb & Hp2)
                             & (c & p3 & -> & Hc & Hp3))) & Hd).
    apply matches_Lit in Hp1 as ->. apply matches_Lit in Hp2 as ->.
    apply matches_Lit in Hp3 as ->.
    apply matches_octet in Ha, Hb, Hc, Hd.
    exists a, b, c, d. split; [|now repeat split].
    now rewrite <- !append_assoc.
  - intros (a & b & c & d & -> & Ha & Hb & Hc & Hd).
    exists ((a +:+ ".") +:+ (b +:+ ".") +:+ (c +:+ ".")), d.
    split; [now rewrite <- !append_assoc|]. split; [|now apply matches_octet].
    exists (a +:+ "."), ((b +:+ ".") +:+ (c +:+ ".")). split; [reflexivity|]. split.
    + exists a, ".". split; [reflexivity|].
      split; [now apply matches_octet | now apply matches_Lit].
    + exists (b +:+ "."), (c +:+ "."). split; [reflexivity|]. split.
      * exists b, ".". split; [reflexivity|].
        split; [now apply matches_octet | now apply matches_Lit].
      * exists c, ".". split; [reflexivity|].
        split; [now apply matches_octet | now apply matches_Lit].
Qed.

End AddressFacts.

Section DateChecks.
Import Validation.
Context `{Platform} `{DateParser}.

(** Whether an entry counts as a recent failed log-in at a reading of the
    clock. *)
Definition recent_failure (now : Z) (log : SecurityLog.t) : bool :=
  bool_decide (SecurityLog.type log = invalid_access)
  && later (Date_parse (SecurityLog.timestamp log)) (Some (now - 15 * 60 * 1000)).

Definition failures (logs : list SecurityLog.t) : list SecurityLog.t :=
  List.filter (fun log => bool_decide (SecurityLog.type log = invalid_access)) logs.

Lemma recentFailedLogins_run (logs : list SecurityLog.t) (w : World) :
  exists recent,
    recentFailedLogins logs w = (Ok recent, ticked (List.length (failures logs)) w)
    /\ (List.length recent <= List.length (failures logs))%nat
    /\ List.Forall (fun log => In log logs /\ exists j, recent_failure (Date_now j) log = true)
                   recent
    /\ forall now,
         (forall j, (j < List.length (failures logs))%nat ->
                    Date_now (clock_reads w + j) = now) ->
         recent = List.filter (recent_failure now) logs.
Proof.
  revert w. induction logs as [|log logs IH]; intros w.
  - exists []. cbn [recentFailedLogins failures List.filter List.length].
    rewrite ret_run, ticked_0. repeat split; [lia | constructor].
  - cbn [recentFailedLogins]. unfold failures. cbn [List.filter]. fold (failures logs).
    destruct (bool_decide (SecurityLog.type log = invalid_access)) eqn:Htype.
    + destruct (IH (ticked 1 w)) as (recent & Hrun & Hlen & Hall & Hstill).
      assert (Hkeep :
                (Browser.now ≫= (fun now =>
                   mret (later (Date_parse (SecurityLog.timestamp log))
                               (Some (now - 15 * 60 * 1000))))) w
                = (Ok (later (Date_parse (SecurityLog.timestamp log))
                             (Some (Date_now (clock_reads w) - 15 * 60 * 1000))),
                   ticked 1 w)) by reflexivity.
      rewrite (bind_run _ _ _ _ _ Hkeep).
      rewrite (bind_run _ _ _ _ _ Hrun), ret_run, ticked_ticked.
      cbn [List.length andb].
      replace (List.length (failures logs) + 1)%nat
        with (S (List.length (failures logs))) by lia.
      eexists. split; [reflexivity|].
      destruct (later (Date_parse (SecurityLog.timestamp log))
                      (Some (Date_now (clock_reads w) - 15 * 60 * 1000))) eqn:Hlater.
      * split; [cbn [List.length]; lia|]. split.
        -- constructor.
           ++ split; [now left|]. exists (clock_reads w).
              unfold recent_failure. now rewrite Htype, Hlater.
           ++ eapply List.Forall_impl; [|exact Hall].
              intros x [Hin Hj]. split; [now right | exact Hj].
        -- intros now Hnow.
           assert (E : Date_now (clock_reads w) = now)
             by (rewrite <- (Hnow 0%nat) by lia; f_equal; lia).
           unfold recent_failure at 1. rewrite Htype, <- E, Hlater. cbn [andb]. f_equal.
           rewrite E. apply Hstill. intros j Hj. rewrite clock_ticked.
           rewrite <- (Hnow (S j)) by lia. f_equal. lia.
      * split; [lia|]. split.
        -- eapply List.Forall_impl; [|exact Hall].
           intros x [Hin Hj]. split; [now right | exact Hj].
        -- intros now Hnow.
           assert (E : Date_now (clock_reads w) = now)
             by (rewrite <- (Hnow 0%nat) by lia; f_equal; lia).
           unfold recent_failure at 1. rewrite Htype, <- E, Hlater. cbn [andb].
           rewrite E. apply Hstill. intros j Hj. rewrite clock_ticked.
           rewrite <- (Hnow (S j)) by lia. f_equal. lia.
    + destruct (IH w) as (recent & Hrun & Hlen & Hall & Hstill).
      rewrite (bind_run _ _ _ _ _ (ret_run false w)).
      rewrite (bind_run _ _ _ _ _ Hrun), ret_run.
      exists recent. split; [reflexivity|]. split; [exact Hlen|]. split.
      * eapply List.Forall_impl; [|exact Hall].
        intros x [Hin Hj]. split; [now right | exact Hj].
      * intros now Hnow. unfold recent_failure at 1. rewrite Htype. cbn [andb].
        now apply Hstill.
Qed.

(** X26. The checks on dates.  [isValidElectionDate] reads the clock once
    and accepts exactly when both dates parse, the start is after the
    reading and the end after the start.  [validateSessionIntegrity] refuses
    a missing session and one with an empty id or token without reading the
    clock; otherwise it accepts unless the expiry parses and lies before the
    reading, so a session whose expiry does not parse never expires.
    [detectSuspiciousActivity] reads the clock once for each
    [invalid_access] entry; it answers false whenever there are at most
    three such entries, and true only when more than three have a timestamp
    that parses and is less than fifteen minutes behind a reading. *)
Theorem date_checks (startDate endDate : string) (session : VotingSession.t)
    (logs : list SecurityLog.t) (w : World) :
  (exists ok,
     isValidElectionDate startDate endDate w = (Ok ok, ticked 1 w)
     /\ (ok = true
         <-> exists start end_,
               Date_parse startDate = Some start
               /\ Date_parse endDate = Some end_
               /\ Date_now (clock_reads w) < start < end_))
  /\ validateSessionIntegrity None w = (Ok false, w)
  /\ (VotingSession.sessionId session = "" \/ VotingSession.voterToken session = "" ->
      validateSessionIntegrity (Some session) w = (Ok false, w))
  /\ (VotingSession.sessionId session <> "" -> VotingSession.voterToken session <> "" ->
      validateSessionIntegrity (Some session) w
      = (Ok match Date_parse (VotingSession.expiresAt session) with
            | Some expiry => bool_decide (Date_now (clock_reads w) <= expiry)
            | None => true
            end, ticked 1 w))
  /\ (exists suspicious,
        detectSuspiciousActivity logs w
        = (Ok suspicious, ticked (List.length (failures logs)) w)
        /\ ((List.length (failures logs) <= 3)%nat -> suspicious = false)
        /\ (suspicious = true ->
            exists recent,
              (3 < List.length recent)%nat
              /\ List.Forall
                   (fun log => In log logs
                               /\ SecurityLog.type log = invalid_access
                               /\ exists time j,
                                    Date_parse (SecurityLog.timestamp log) = Some time
                                    /\ Date_now j - 15 * 60 * 1000 < time)
                   recent)
        /\ (forall now,
              (forall j, (j < List.length (failures logs))%nat ->
                         Date_now (clock_reads w + j) = now) ->
              suspicious
              = bool_decide (3 < List.length (List.filter (recent_failure now) logs))%nat)).
Proof.
  split; [|split; [|split; [|split]]].
  - eexists. split; [reflexivity|]. rewrite andb_true_iff. unfold later.
    destruct (Date_parse startDate) as [start|], (Date_parse endDate) as [end_|];
      rewrite ?Z.ltb_lt.
    + split; [intros [? ?]; exists start, end_; repeat split; lia|].
      intros (s & e & [= <-] & [= <-] & ? & ?). split; lia.
    + split; [intros [_ ?]; discriminate | intros (? & ? & _ & ? & _); discriminate].
    + split; [intros [? _]; discriminate | intros (? & ? & ? & _); discriminate].
    + split; [intros [? _]; discriminate | intros (? & ? & ? & _); discriminate].
  - reflexivity.
  - intros Hempty. cbn [validateSessionIntegrity]. unfold Text.truthy.
    destruct Hempty as [-> | ->]; cbn [String.eqb negb orb]; [reflexivity|].
    now rewrite orb_true_r.
  - intros Hid Htoken. cbn [validateSessionIntegrity]. unfold Text.truthy.
    apply String.eqb_neq in Hid, Htoken. rewrite Hid, Htoken. cbn [negb orb].
    rewrite (bind_run _ _ _ _ _ (now_run w)). unfold later.
    destruct (Date_parse (VotingSession.expiresAt session)) as [expiry|];
      [|now rewrite ret_run].
    destruct (Z.ltb_spec expiry (Date_now (clock_reads w))); rewrite ret_run.
    + now rewrite bool_decide_eq_false_2 by lia.
    + now rewrite bool_decide_eq_true_2 by lia.
  - destruct (recentFailedLogins_run logs w) as (recent & Hrun & Hlen & Hall & Hstill).
    eexists. unfold detectSuspiciousActivity.
    rewrite (bind_run _ _ _ _ _ Hrun), ret_run. split; [reflexivity|].
    split; [|split].
    + intros Hfew. apply bool_decide_eq_false_2. lia.
    + intros Hyes. apply bool_decide_eq_true_1 in Hyes. exists recent.
      split; [exact Hyes|]. eapply List.Forall_impl; [|exact Hall].
      intros log [Hin [j Hj]]. split; [exact Hin|].
      unfold recent_failure in Hj. apply andb_true_iff in Hj as [Htype Hj].
      apply bool_decide_eq_true_1 in Htype. split; [exact Htype|].
      unfold later in Hj.
      destruct (Date_parse (SecurityLog.timestamp log)) as [time|]; [|discriminate].
      exists time, j. split; [reflexivity | now apply Z.ltb_lt].
    + intros now Hnow. now rewrite (Hstill now Hnow).
Qed.

End DateChecks.

(* ================================================================== *)
(** * Saving the results that are viewed *)
(* ================================================================== *)

Section SavedResults.
Context `{Platform}.
Context `{!JSON (list User.t)} `{!JSON (list Election.t)} `{!JSON (list Vote.t)}
        `{!JSON (list VotingSession.t)} `{!JSON (list SecurityLog.t)}
        `{!JSON (list ElectionResults.t)} `{!JSON User.t} `{!JSON ElectionResults.t}.

(** The saved results of an election: the first with its id. *)
Definition saved_for (electionId : string) (saved : list ElectionResults.t)
    : option ElectionResults.t :=
  List.find (fun r => String.eqb (ElectionResults.electionId r) electionId) saved.

Lemma replaceOrPush_same (r : ElectionResults.t) (saved : list ElectionResults.t) :
  saved_for (ElectionResults.electionId r) (ResultsViewer.replaceOrPush r saved) = Some r.
Proof.
  unfold saved_for. induction saved as [|x saved IH]; cbn [ResultsViewer.replaceOrPush].
  - cbn [List.find]. now rewrite String.eqb_refl.
  - destruct (String.eqb (ElectionResults.electionId x) (ElectionResults.electionId r))
      eqn:E; cbn [List.find].
    + now rewrite String.eqb_refl.
    + now rewrite E.
Qed.

Lemma replaceOrPush_other (r : ElectionResults.t) (saved : list ElectionResults.t)
    (electionId : string) :
  electionId <> ElectionResults.electionId r ->
  saved_for electionId (ResultsViewer.replaceOrPush r saved) = saved_for electionId saved.
Proof.
  intros Hne. unfold saved_for.
  induction saved as [|x saved IH]; cbn [ResultsViewer.replaceOrPush].
  - cbn [List.find]. apply not_eq_sym, String.eqb_neq in Hne. now rewrite Hne.
  - destruct (String.eqb_spec (ElectionResults.electionId x) (ElectionResults.electionId r))
      as [E|E]; cbn [List.find].
    + rewrite E. apply not_eq_sym, String.eqb_neq in Hne. now rewrite Hne.
    + now rewrite IH.
Qed.

Lemma replaceOrPush_ids (r : ElectionResults.t) (saved : list ElectionResults.t) :
  map ElectionResults.electionId (ResultsViewer.replaceOrPush r saved)
  = if existsb (fun x => String.eqb (ElectionResults.electionId x)
                                    (ElectionResults.electionId r)) saved
    then map ElectionResults.electionId saved
    else map ElectionResults.electionId saved ++ [ElectionResults.electionId r].
Proof.
  induction saved as [|x saved IH]; cbn [ResultsViewer.replaceOrPush existsb map app];
    [reflexivity|].
  destruct (String.eqb_spec (ElectionResults.electionId x) (ElectionResults.electionId r))
    as [E|E]; cbn [orb map].
  - now rewrite E.
  - rewrite IH. now destruct (existsb _ saved).
Qed.

Lemma replaceOrPush_distinct (r : ElectionResults.t) (saved : list ElectionResults.t) :
  List.NoDup (map ElectionResults.electionId saved) ->
  List.NoDup (map ElectionResults.electionId (ResultsViewer.replaceOrPush r saved)).
Proof.
  intros Hdistinct. rewrite replaceOrPush_ids.
  destruct (existsb _ saved) eqn:Hex; [exact Hdistinct|].
  apply List.NoDup_app; [exact Hdistinct | repeat constructor; intros [] |].
  intros e Hin [<-|[]]. apply in_map_iff in Hin as (x & Hx & Hin).
  assert (Hyes : existsb (fun x => String.eqb (ElectionResults.electionId x)
                                              (ElectionResults.electionId r)) saved = true).
  { apply existsb_exists. exists x. split; [exact Hin | now apply String.eqb_eq]. }
  congruence.
Qed.

(** X27. Viewing results saves them.  [viewResults] returns what
    [calculateResults] returns and writes one key, the saved results, with
    the new results in the place of the first saved ones of the same
    election or at the end when there were none; users, elections, votes,
    sessions and the log read as before.  In the list written the results
    of the election are the new ones, those of every other election are the
    ones saved before, and election ids that were pairwise different still
    are. *)
Theorem viewed_results_are_saved (election : Election.t) (w : World) :
  exists (results : ElectionResults.t) (written : list ElectionResults.t) (w' : World),
    ResultsViewer.viewResults election w = (Ok results, w')
    /\ ResultsViewer.calculateResults election w = (Ok results, w)
    /\ ElectionResults.electionId results = Election.id election
    /\ written = ResultsViewer.replaceOrPush results (results_of w)
    /\ localStorage w'
       = <["voting_results" := encode (next_salt w) written]> (localStorage w)
    /\ saved_for (Election.id election) written = Some results
    /\ (forall other, other <> Election.id election ->
                      saved_for other written = saved_for other (results_of w))
    /\ (List.NoDup (map ElectionResults.electionId (results_of w)) ->
        List.NoDup (map ElectionResults.electionId written))
    /\ users_of w' = users_of w
    /\ elections_of w' = elections_of w
    /\ votes_of w' = votes_of w
    /\ sessions_of w' = sessions_of w
    /\ logs_of w' = logs_of w
    /\ effects w' = effects w.
Proof.
  eexists _, _, _. split.
  { unfold ResultsViewer.viewResults.
    rewrite (bind_run _ _ _ _ _ (calculateResults_run election w)).
    do 2 js_step. now rewrite ret_run. }
  split; [apply calculateResults_run|]. split; [reflexivity|]. split; [reflexivity|].
  split; [now autorewrite with world|].
  split.
  { exact (replaceOrPush_same
             (ElectionResults.with_verificationHash
                (Crypto.generateElectionVerificationHash (tabulated election w))
                (tabulated election w))
             (results_of w)). }
  split; [intros other Hne; now apply replaceOrPush_other|].
  split; [apply replaceOrPush_distinct|].
  read_views. repeat split; reflexivity.
Qed.

End SavedResults.

(* ================================================================== *)
(** * Active sessions ([getActiveSession] of the storage facade) *)
(* ================================================================== *)

Module Sessions.
Section WithPlatform.
Context `{Platform} `{DateParser}.
Context `{!JSON (list VotingSession.t)}.

(** [sessions.find(session => ...)]: the clock is read for the sessions
    that pass the three tests before the date. *)
Fixpoint find (electionId voterToken : string) (sessions : list VotingSession.t)
    : JS (option VotingSession.t) :=
  match sessions with
  | [] => mret None
  | session :: rest =>
      if String.eqb (VotingSession.electionId session) electionId
         && String.eqb (VotingSession.voterToken session) voterToken
         && VotingSession.isActive session
      then
        now ← Browser.now;
        if Validation.later (Date_parse (VotingSession.expiresAt session)) (Some now)
        then mret (Some session)
        else find electionId voterToken rest
      else find electionId voterToken rest
  end.

Definition getActiveSession (electionId voterToken : string)
    : JS (option VotingSession.t) :=
  sessions ← Storage.getVotingSessions;
  find electionId voterToken sessions.

End WithPlatform.
End Sessions.

Section ActiveSessions.
Context `{Platform} `{DateParser}.
Context `{!JSON (list User.t)} `{!JSON (list Election.t)} `{!JSON (list Vote.t)}
        `{!JSON (list VotingSession.t)} `{!JSON (list SecurityLog.t)}
        `{!JSON (list ElectionResults.t)} `{!JSON User.t}.
Context `{!Serializable (list User.t)} `{!Serializable (list Election.t)}
        `{!Serializable (list Vote.t)} `{!Serializable (list VotingSession.t)}
        `{!Serializable (list SecurityLog.t)}.

(** What [getActiveSession] can return. *)
Definition live (electionId voterToken : string) (s : VotingSession.t) : Prop :=
  VotingSession.electionId s = electionId
  /\ VotingSession.voterToken s = voterToken
  /\ VotingSession.isActive s = true
  /\ exists expiry j,
       Date_parse (VotingSession.expiresAt s) = Some expiry /\ Date_now j < expiry.

Lemma find_spec (electionId voterToken : string) (sessions : list VotingSession.t)
    (w : World) :
  exists r n,
    Sessions.find electionId voterToken sessions w = (Ok r, ticked n w)
    /\ match r with
       | Some s => In s sessions /\ live electionId voterToken s
       | None => True
       end.
Proof.
  revert w. induction sessions as [|s rest IH]; intros w.
  - exists None, 0%nat. cbn [Sessions.find]. now rewrite ret_run, ticked_0.
  - cbn [Sessions.find].
    destruct (String.eqb_spec (VotingSession.electionId s) electionId) as [He|He];
      cbn [andb].
    2: { destruct (IH w) as (r & n & Hrun & Hr). exists r, n. split; [exact Hrun|].
         destruct r; [split; [now right | apply Hr] | exact I]. }
    destruct (String.eqb_spec (VotingSession.voterToken s) voterToken) as [Ht|Ht];
      cbn [andb].
    2: { destruct (IH w) as (r & n & Hrun & Hr). exists r, n. split; [exact Hrun|].
         destruct r; [split; [now right | apply Hr] | exact I]. }
    destruct (VotingSession.isActive s) eqn:Ha.
    2: { destruct (IH w) as (r & n & Hrun & Hr). exists r, n. split; [exact Hrun|].
         destruct r; [split; [now right | apply Hr] | exact I]. }
    rewrite (bind_run _ _ _ _ _ (now_run w)).
    destruct (Validation.later (Date_parse (VotingSession.expiresAt s))
                               (Some (Date_now (clock_reads w)))) eqn:Hlater.
    + exists (Some s), 1%nat. rewrite ret_run. split; [reflexivity|].
      split; [now left|]. split; [exact He|]. split; [exact Ht|]. split; [exact Ha|].
      unfold Validation.later in Hlater.
      destruct (Date_parse (VotingSession.expiresAt s)) as [expiry|]; [|discriminate].
      exists expiry, (clock_reads w). split; [reflexivity | now apply Z.ltb_lt].
    + destruct (IH (ticked 1 w)) as (r & n & Hrun & Hr). exists r, (n + 1)%nat.
      rewrite Hrun, ticked_ticked. split; [reflexivity|].
      destruct r; [split; [now right | apply Hr] | exact I].
Qed.

Variable election : Election.t.
Variable user : User.t.

(** X28. A submitted ballot closes its session.  [getActiveSession]
    always returns, reading the clock and writing nothing; a session it
    returns is a stored one, for the election and token asked for, active,
    with an expiry that parses and lies after a reading of the clock.  After
    a submission that completes, it returns no session with the id of the
    session the ballot was cast in, whatever election and token are asked
    for and whatever the clock reads. *)
Theorem submitted_session_is_closed
    (st st' : VotingInterface.state) (w w' : World) (electionId voterToken : string) :
  VotingInterface.isCompleted st = false ->
  VotingInterface.submitVotes election user st w = (Ok st', w') ->
  VotingInterface.isCompleted st' = true ->
  exists (session : VotingSession.t) (r : option VotingSession.t) (n : nat),
    VotingInterface.votingSession st = Some session
    /\ Sessions.getActiveSession electionId voterToken w' = (Ok r, ticked n w')
    /\ match r with
       | Some s =>
           In s (sessions_of w')
           /\ live electionId voterToken s
           /\ VotingSession.sessionId s <> VotingSession.sessionId session
       | None => True
       end.
Proof.
  intros Hopen Hrun Hdone.
  destruct (completed_submission election user st st' w w' Hopen Hrun Hdone)
    as (session & Hs & _ & _ & _ & Hsessions).
  destruct (find_spec electionId voterToken (sessions_of w') w') as (r & n & Hfind & Hr).
  exists session, r, n. split; [exact Hs|]. split.
  - unfold Sessions.getActiveSession.
    now rewrite (bind_run _ _ _ _ _ (getVotingSessions_run w')).
  - destruct r as [s|]; [|exact I]. destruct Hr as [Hin Hlive].
    split; [exact Hin|]. split; [exact Hlive|].
    intros Hid. destruct Hlive as (_ & _ & Hactive & _).
    pose proof (deactivate_inactive session (sessions_of w)) as Hclosed.
    rewrite <- Hsessions in Hclosed. rewrite List.Forall_forall in Hclosed.
    specialize (Hclosed s Hin Hid). congruence.
Qed.

End ActiveSessions.

(* ================================================================== *)
(** * JSON text: parsing undoes printing *)
(* ================================================================== *)

Section JsonFacts.
Import Json.

Lemma string_app_cons (c : ascii) (s t : string) : String c s +:+ t = String c (s +:+ t).
Proof. reflexivity. Qed.

Lemma string_app_nil_l (t : string) : "" +:+ t = t.
Proof. reflexivity. Qed.

Lemma string_app_nil_r (s : string) : s +:+ "" = s.
Proof. induction s as [|c s IH]; [reflexivity|]. now rewrite string_app_cons, IH. Qed.

Lemma string_app_assoc (a b c : string) : (a +:+ b) +:+ c = a +:+ b +:+ c.
Proof. induction a as [|x a IH]; [reflexivity|]. now rewrite !string_app_cons, IH. Qed.

Lemma string_app_length (a b : string) :
  String.length (a +:+ b) = (String.length a + String.length b)%nat.
Proof. induction a as [|x a IH]; [reflexivity|]. rewrite string_app_cons. simpl. now rewrite IH. Qed.

Lemma code_char (n : Z) : 0 <= n < 256 -> code (char n) = n.
Proof.
  intros Hn. unfold code, char. rewrite N_ascii_embedding; lia.
Qed.

Lemma code_range (c : ascii) : 0 <= code c < 256.
Proof. unfold code. pose proof (N_ascii_bounded c). lia. Qed.

Lemma char_code (c : ascii) : char (code c) = c.
Proof. unfold code, char. rewrite N2Z.id. apply ascii_N_embedding. Qed.

(** *** String literals *)

Lemma literal_escape (c : ascii) (t : string) :
  literal (escape c +:+ t) = before (String c "") (literal t).
Proof.
  destruct c as [[] [] [] [] [] [] [] []]; reflexivity.
Qed.

Lemma before_before (a b : string) r : before a (before b r) = before (a +:+ b) r.
Proof. destruct r as [[u rest]|]; [|reflexivity]. simpl. now rewrite string_app_assoc. Qed.

Lemma literal_escape_all (s rest : string) :
  literal (escape_all s +:+ String quote rest) = Some (s, rest).
Proof.
  induction s as [|c s IH].
  - reflexivity.
  - cbn [escape_all]. rewrite string_app_assoc, literal_escape, IH. reflexivity.
Qed.

Lemma literal_quoted (s rest : string) :
  literal (tail (quoted s +:+ rest)) = Some (s, rest).
Proof.
  unfold quoted. rewrite string_app_cons. cbn [tail]. rewrite string_app_assoc, string_app_cons, string_app_nil_l.
  apply literal_escape_all.
Qed.


(** *** Integer literals *)

Definition digit_char (d : Z) : ascii := ascii_of_N (Z.to_N (48 + d)).

Lemma digit_char_spec (d : Z) :
  0 <= d <= 9 -> is_digit (digit_char d) = true /\ code (digit_char d) - 48 = d.
Proof.
  intros Hd. unfold is_digit, digit_char.
  assert (E : code (ascii_of_N (Z.to_N (48 + d))) = 48 + d).
  { unfold code. rewrite N_ascii_embedding; lia. }
  rewrite E. split; lia.
Qed.

Lemma dec_digits_unfold (k : nat) (x : Z) (acc : string) :
  Text.dec_digits (S k) x acc
  = if x / 10 =? 0 then String (digit_char (x mod 10)) acc
    else Text.dec_digits k (x / 10) (String (digit_char (x mod 10)) acc).
Proof. reflexivity. Qed.

Lemma digits_dec_digits (fuel : nat) (x : Z) (acc : string) :
  (1 <= fuel)%nat -> 0 <= x < 2 ^ Z.of_nat fuel ->
  digits (Text.dec_digits fuel x acc) 0 = digits acc x.
Proof.
  revert x acc. induction fuel as [|k IH]; intros x acc Hfuel Hx; [lia|].
  rewrite dec_digits_unfold.
  assert (Hd : 0 <= x mod 10 <= 9) by (pose proof (Z.mod_pos_bound x 10); lia).
  destruct (digit_char_spec _ Hd) as [Hdig Hcode].
  destruct (Z.eqb_spec (x / 10) 0) as [E|E].
  - cbn [digits]. rewrite Hdig, Hcode. f_equal.
    pose proof (Z.div_mod x 10 ltac:(lia)). lia.
  - assert (Hx10 : 0 < x / 10) by (pose proof (Z.div_pos x 10); lia).
    assert (Hlt : x / 10 < 2 ^ Z.of_nat k).
    { apply Z.div_lt_upper_bound; [lia|].
      rewrite Nat2Z.inj_succ, Z.pow_succ_r in Hx by lia. lia. }
    assert (Hk : (1 <= k)%nat).
    { destruct k; [|lia]. simpl in Hlt. lia. }
    rewrite IH by (try assumption; lia).
    cbn [digits]. rewrite Hdig, Hcode. f_equal.
    pose proof (Z.div_mod x 10 ltac:(lia)). lia.
Qed.

Lemma dec_digits_head (fuel : nat) (x : Z) (c : ascii) (acc : string) :
  is_digit c = true ->
  exists c' r, Text.dec_digits fuel x (String c acc) = String c' r /\ is_digit c' = true.
Proof.
  revert x c acc. induction fuel as [|k IH]; intros x c acc Hc.
  - exists c, acc. now split.
  - rewrite dec_digits_unfold.
    assert (Hd : 0 <= x mod 10 <= 9) by (pose proof (Z.mod_pos_bound x 10); lia).
    destruct (digit_char_spec _ Hd) as [Hdig _].
    destruct (x / 10 =? 0); [eexists _, _; now split|].
    now apply IH.
Qed.

Lemma dec_digits_first (k : nat) (x : Z) (acc : string) :
  exists c r, Text.dec_digits (S k) x acc = String c r /\ is_digit c = true.
Proof.
  rewrite dec_digits_unfold.
  assert (Hd : 0 <= x mod 10 <= 9) by (pose proof (Z.mod_pos_bound x 10); lia).
  destruct (digit_char_spec _ Hd) as [Hdig _].
  destruct (x / 10 =? 0); [eexists _, _; now split|].
  now apply dec_digits_head.
Qed.

Lemma dec_digits_app (fuel : nat) (x : Z) (acc rest : string) :
  Text.dec_digits fuel x acc +:+ rest = Text.dec_digits fuel x (acc +:+ rest).
Proof.
  revert x acc. induction fuel as [|k IH]; intros x acc; [reflexivity|].
  rewrite !dec_digits_unfold. destruct (x / 10 =? 0); [reflexivity|].
  now rewrite IH.
Qed.

(** Nothing that could continue a number. *)
Definition ends_number (rest : string) : Prop :=
  match rest with
  | String c _ => is_digit c = false
  | EmptyString => True
  end.

Lemma digits_done (rest : string) (x : Z) : ends_number rest -> digits rest x = (x, rest).
Proof. destruct rest as [|c r]; [reflexivity|]. simpl. now intros ->. Qed.

Lemma log2_fuel (x : Z) : 0 <= x -> x < 2 ^ Z.of_nat (Z.to_nat (Z.log2 x) + 1).
Proof.
  intros Hx. rewrite Nat2Z.inj_add, Z2Nat.id by apply Z.log2_nonneg.
  destruct (Z.eq_dec x 0) as [->|Hne]; [reflexivity|].
  change (Z.of_nat 1) with 1. rewrite Z.add_1_r.
  apply Z.log2_spec. lia.
Qed.

Lemma number_of_Z (n : Z) (rest : string) :
  ends_number rest -> number (Text.of_Z n +:+ rest) = Some (n, rest).
Proof.
  intros Hrest. unfold Text.of_Z.
  destruct (Z.ltb_spec n 0) as [Hneg|Hpos].
  - rewrite string_app_assoc, string_app_cons, string_app_nil_l. cbn [number].
    change (code "-" =? 45) with true. cbv iota.
    rewrite dec_digits_app, string_app_nil_l, Nat.add_1_r.
    destruct (dec_digits_first (Z.to_nat (Z.log2 (- n))) (- n) rest) as (c & r & E & Hc).
    rewrite E, Hc, <- E, <- Nat.add_1_r.
    rewrite digits_dec_digits; [|lia|split; [lia | apply log2_fuel; lia]].
    rewrite digits_done by assumption. cbn [fst snd]. do 2 f_equal. lia.
  - rewrite dec_digits_app, string_app_nil_l, Nat.add_1_r.
    destruct (dec_digits_first (Z.to_nat (Z.log2 n)) n rest) as (c & r & E & Hc).
    rewrite E. cbn [number].
    assert (H45 : (code c =? 45) = false).
    { unfold is_digit in Hc. apply andb_true_iff in Hc as [H1 H2]. lia. }
    rewrite H45, Hc, <- E, <- Nat.add_1_r.
    rewrite digits_dec_digits; [|lia|split; [lia | apply log2_fuel; lia]].
    now rewrite digits_done.
Qed.

(** The first character of a printed number is a digit or the sign. *)
Lemma of_Z_head (n : Z) (rest : string) :
  exists c r, Text.of_Z n +:+ rest = String c r /\ (is_digit c = true \/ code c = 45).
Proof.
  unfold Text.of_Z. destruct (n <? 0).
  - rewrite string_app_assoc, string_app_cons. eexists _, _. split; [reflexivity|]. now right.
  - rewrite dec_digits_app, Nat.add_1_r.
    destruct (dec_digits_first (Z.to_nat (Z.log2 n)) n ("" +:+ rest)) as (c & r & E & Hc).
    exists c, r. split; [assumption | now left].
Qed.


(** *** Values *)

(** Fuel that suffices to read a value back. *)
Fixpoint need (v : value) : nat :=
  match v with
  | Array l => S (need_items l)
  | Object m => S (need_fields m)
  | _ => 1
  end
with need_items (l : values) : nat :=
  match l with
  | no_items => 0
  | item v r => S (Nat.max (need v) (need_items r))
  end
with need_fields (m : members) : nat :=
  match m with
  | no_fields => 0
  | field _ v r => S (Nat.max (need v) (need_fields r))
  end.

Lemma print_items_cons (v : value) (r : values) (rest : string) :
  print_items (item v r) +:+ rest
  = print v +:+ (match r with
                 | no_items => "]" +:+ rest
                 | _ => "," +:+ print_items r +:+ rest
                 end).
Proof.
  destruct r; cbn [print_items]; now rewrite !string_app_assoc.
Qed.

Lemma print_fields_cons (k : string) (v : value) (r : members) (rest : string) :
  print_fields (field k v r) +:+ rest
  = quoted k +:+ ":" +:+ print v +:+ (match r with
                                      | no_fields => "}" +:+ rest
                                      | _ => "," +:+ print_fields r +:+ rest
                                      end).
Proof.
  destruct r; cbn [print_fields]; now rewrite !string_app_assoc.
Qed.

(** A printed value starts with a character that opens a value. *)
Definition opens_value (s : string) : Prop :=
  exists c r, s = String c r /\ code c <> 93 /\ code c <> 125.

Lemma print_opens (v : value) (rest : string) : opens_value (print v +:+ rest).
Proof.
  unfold opens_value. destruct v as [| [] | n | s | [] | []];
    try (eexists _, _; split; [reflexivity | split; discriminate]).
  cbn [print]. destruct (of_Z_head n rest) as (c & r & E & Hc).
  exists c, r. split; [assumption|].
  unfold is_digit in Hc. destruct Hc as [Hc|Hc]; [|lia].
  apply andb_true_iff in Hc as [H1 H2]. lia.
Qed.

Lemma starts_with_opens (s : string) :
  opens_value s -> starts_with 93 s = false /\ starts_with 125 s = false.
Proof.
  intros (c & r & -> & H1 & H2). cbn [starts_with]. split; lia.
Qed.

Lemma parse_value_number (f : nat) (n : Z) (rest : string) :
  ends_number rest ->
  parse_value (S f) (Text.of_Z n +:+ rest) = Some (Number n, rest).
Proof.
  intros Hrest. pose proof (number_of_Z n rest Hrest) as Hnum.
  destruct (of_Z_head n rest) as (c & r & E & Hc).
  rewrite E in *. cbn [parse_value]. rewrite Hnum.
  assert (Hcode : (48 <= code c <= 57) \/ code c = 45).
  { destruct Hc as [Hc|Hc]; [left | now right].
    unfold is_digit in Hc. apply andb_true_iff in Hc as [H1 H2]. lia. }
  cbv zeta.
  destruct (Z.eqb_spec (code c) 110); [lia|].
  destruct (Z.eqb_spec (code c) 116); [lia|].
  destruct (Z.eqb_spec (code c) 102); [lia|].
  destruct (Z.eqb_spec (code c) 91); [lia|].
  destruct (Z.eqb_spec (code c) 123); [lia|].
  destruct (Z.eqb_spec (code c) 34); [lia|].
  reflexivity.
Qed.

Lemma parse_value_string (f : nat) (s rest : string) :
  parse_value (S f) (quoted s +:+ rest) = Some (Str s, rest).
Proof.
  pose proof (literal_quoted s rest) as Hlit.
  unfold quoted in *. rewrite string_app_cons in *. cbn [tail] in Hlit.
  cbn [parse_value]. change (code quote) with 34. cbv zeta.
  change (34 =? 110) with false. change (34 =? 116) with false.
  change (34 =? 102) with false. change (34 =? 91) with false.
  change (34 =? 123) with false. change (34 =? 34) with true. cbv iota.
  now rewrite Hlit.
Qed.

Lemma ends_number_punct (c : ascii) (r : string) :
  is_digit c = false -> ends_number (String c r).
Proof. now intros H. Qed.

Lemma parse_print_mutual :
  (forall v fuel rest,
     (need v <= fuel)%nat -> ends_number rest ->
     parse_value fuel (print v +:+ rest) = Some (v, rest))
  /\ (forall l, l <> no_items -> forall fuel rest,
        (need_items l <= fuel)%nat ->
        parse_items fuel (print_items l +:+ rest) = Some (l, rest))
  /\ (forall m, m <> no_fields -> forall fuel rest,
        (need_fields m <= fuel)%nat ->
        parse_fields fuel (print_fields m +:+ rest) = Some (m, rest)).
Proof.
  apply json_mutind.
  - intros [|f] rest Hf _; [cbn [need] in Hf; lia | reflexivity].
  - intros b [|f] rest Hf _; [cbn [need] in Hf; lia | destruct b; reflexivity].
  - intros n [|f] rest Hf Hrest; [cbn [need] in Hf; lia|]. now apply parse_value_number.
  - intros s [|f] rest Hf _; [cbn [need] in Hf; lia|]. apply parse_value_string.
  - intros l IH [|f] rest Hf _; [cbn [need] in Hf; lia|].
    destruct l as [|v r]; [reflexivity|].
    change (print (Array (item v r))) with ("[" +:+ print_items (item v r)).
    rewrite string_app_assoc, string_app_cons, string_app_nil_l.
    cbn [parse_value]. change (code "[") with 91. cbv zeta.
    change (91 =? 110) with false. change (91 =? 116) with false.
    change (91 =? 102) with false. change (91 =? 91) with true. cbv iota.
    assert (Hopen : starts_with 93 (print_items (item v r) +:+ rest) = false).
    { rewrite print_items_cons. apply starts_with_opens, print_opens. }
    rewrite Hopen, IH; [reflexivity | discriminate | cbn [need] in Hf; lia].
  - intros m IH [|f] rest Hf _; [cbn [need] in Hf; lia|].
    destruct m as [|k v r]; [reflexivity|].
    change (print (Object (field k v r))) with ("{" +:+ print_fields (field k v r)).
    rewrite string_app_assoc, string_app_cons, string_app_nil_l.
    cbn [parse_value]. change (code "{") with 123. cbv zeta.
    change (123 =? 110) with false. change (123 =? 116) with false.
    change (123 =? 102) with false. change (123 =? 91) with false.
    change (123 =? 123) with true. cbv iota.
    assert (Hopen : starts_with 125 (print_fields (field k v r) +:+ rest) = false).
    { rewrite print_fields_cons. unfold quoted. now rewrite string_app_cons. }
    rewrite Hopen, IH; [reflexivity | discriminate | cbn [need] in Hf; lia].
  - intros Hne. contradiction.
  - intros v IHv r IHr _ [|f] rest Hf; [cbn [need_items] in Hf; lia|].
    cbn [need_items] in Hf.
    rewrite print_items_cons. cbn [parse_items].
    destruct r as [|v' r'].
    + rewrite IHv; [|lia | now apply ends_number_punct].
      reflexivity.
    + rewrite IHv; [|lia | now apply ends_number_punct].
      rewrite string_app_cons, string_app_nil_l. cbn [starts_with tail].
      change (code "," =? 44) with true. cbv iota.
      rewrite IHr; [reflexivity | discriminate | lia].
  - intros Hne. contradiction.
  - intros k v IHv r IHr _ [|f] rest Hf; [cbn [need_fields] in Hf; lia|].
    cbn [need_fields] in Hf.
    rewrite print_fields_cons. cbn [parse_fields].
    assert (Hq : starts_with 34 (quoted k +:+ ":" +:+ print v +:+
                   match r with
                   | no_fields => "}" +:+ rest
                   | field _ _ _ => "," +:+ print_fields r +:+ rest
                   end) = true).
    { unfold quoted. now rewrite string_app_cons. }
    rewrite Hq, literal_quoted.
    rewrite string_app_cons, string_app_nil_l. cbn [starts_with tail].
    change (code ":" =? 58) with true. cbv iota.
    destruct r as [|k' v' r'].
    + rewrite IHv; [|lia | now apply ends_number_punct].
      reflexivity.
    + rewrite IHv; [|lia | now apply ends_number_punct].
      rewrite string_app_cons, string_app_nil_l. cbn [starts_with tail].
      change (code "," =? 44) with true. cbv iota.
      rewrite IHr; [reflexivity | discriminate | lia].
Qed.

Lemma need_length :
  (forall v, (need v <= String.length (print v))%nat)
  /\ (forall l, (need_items l <= String.length (print_items l))%nat)
  /\ (forall m, (need_fields m <= String.length (print_fields m))%nat).
Proof.
  apply json_mutind.
  - simpl; lia.
  - intros []; simpl; lia.
  - intros n. destruct (of_Z_head n "") as (c & r & E & _).
    rewrite string_app_nil_r in E. cbn [print need]. rewrite E. simpl. lia.
  - intros s. simpl. lia.
  - intros [|v r] IH; [simpl; lia|].
    change (print (Array (item v r))) with ("[" +:+ print_items (item v r)).
    rewrite string_app_cons. cbn [need String.length]. rewrite string_app_nil_l. lia.
  - intros [|k v r] IH; [simpl; lia|].
    change (print (Object (field k v r))) with ("{" +:+ print_fields (field k v r)).
    rewrite string_app_cons. cbn [need String.length]. rewrite string_app_nil_l. lia.
  - simpl. lia.
  - intros v IHv r IHr.
    rewrite <- (string_app_nil_r (print_items (item v r))), print_items_cons, string_app_length.
    cbn [need_items]. destruct r as [|v' r'].
    + rewrite string_app_nil_r. cbn [String.length need_items]. lia.
    + rewrite string_app_nil_r, string_app_cons, string_app_nil_l. cbn [String.length]. lia.
  - simpl. lia.
  - intros k v IHv r IHr.
    rewrite <- (string_app_nil_r (print_fields (field k v r))), print_fields_cons, !string_app_length.
    cbn [need_fields]. destruct r as [|k' v' r'].
    + rewrite string_app_nil_r. cbn [String.length need_fields]. lia.
    + rewrite string_app_nil_r, string_app_cons, string_app_nil_l. cbn [String.length]. lia.
Qed.

(** Parsing undoes printing. *)
Lemma parse_print (v : value) : parse (print v) = Some v.
Proof.
  unfold parse.
  destruct parse_print_mutual as [Hv _].
  rewrite <- (string_app_nil_r (print v)) at 2.
  rewrite Hv; [reflexivity | | exact I].
  destruct need_length as [Hn _]. specialize (Hn v). lia.
Qed.

End JsonFacts.

(* ================================================================== *)
(** * The shapes are faithful *)
(* ================================================================== *)

Section ShapeFacts.
Import Json Shape.

(** A shape is faithful when reading undoes writing; no shape of the data
    model is written as [null]. *)
Class Faithful (A : Type) `{Shape.t A} := {
  of_to_json : forall x : A, of_json (to_json x) = Some x;
  to_json_value : forall x : A, to_json x <> Null
}.

#[global] Instance string_faithful : Faithful string.
Proof. split; [reflexivity | discriminate]. Qed.

#[global] Instance bool_faithful : Faithful bool.
Proof. split; [reflexivity | discriminate]. Qed.

#[global] Instance Z_faithful : Faithful Z.
Proof. split; [reflexivity | discriminate]. Qed.

#[global] Instance Role_faithful : Faithful Role.
Proof. split; [now intros [] | discriminate]. Qed.

#[global] Instance LogType_faithful : Faithful LogType.
Proof. split; [now intros [] | discriminate]. Qed.

#[global] Instance Severity_faithful : Faithful Severity.
Proof. split; [now intros [] | discriminate]. Qed.

Lemma of_to_items {A} `{Faithful A} (l : list A) : of_items (to_items l) = Some l.
Proof.
  induction l as [|x l IH]; [reflexivity|].
  cbn [to_items of_items]. now rewrite of_to_json, IH.
Qed.

Lemma of_to_fields {A} `{Faithful A} (l : list (string * A)) :
  of_fields (to_fields l) = Some l.
Proof.
  induction l as [|[k x] l IH]; [reflexivity|].
  cbn [to_fields of_fields]. now rewrite of_to_json, IH.
Qed.

#[global] Instance list_faithful {A} `{Faithful A} : Faithful (list A).
Proof. split; [intros l; apply of_to_items | discriminate]. Qed.

#[global] Instance dict_faithful {A} `{Faithful A} : Faithful (gmap string A).
Proof.
  split; [|discriminate]. intros m. cbn [of_json to_json dict_shape].
  rewrite of_to_fields. f_equal. apply list_to_map_to_list.
Qed.

Lemma required_put {A} `{Faithful A} (k : string) (x : A) (rest : members) :
  required k (put k x rest) = Some x.
Proof. unfold required, put. cbn [get]. rewrite String.eqb_refl. apply of_to_json. Qed.

Lemma required_put_other {A B} `{Shape.t A} `{Shape.t B}
    (k k' : string) (x : B) (rest : members) :
  String.eqb k k' = false -> required (A := A) k (put k' x rest) = required k rest.
Proof. intros E. unfold required, put. cbn [get]. now rewrite E. Qed.

Lemma required_put_optional {A B} `{Shape.t A} `{Shape.t B}
    (k k' : string) (x : option B) (rest : members) :
  String.eqb k k' = false -> required (A := A) k (put_optional k' x rest) = required k rest.
Proof. intros E. destruct x; [now apply required_put_other | reflexivity]. Qed.

Lemma optional_put_other {A B} `{Shape.t A} `{Shape.t B}
    (k k' : string) (x : B) (rest : members) :
  String.eqb k k' = false -> optional (A := A) k (put k' x rest) = optional k rest.
Proof. intros E. unfold optional, put. cbn [get]. now rewrite E. Qed.

Lemma optional_put_optional_other {A B} `{Shape.t A} `{Shape.t B}
    (k k' : string) (x : option B) (rest : members) :
  String.eqb k k' = false -> optional (A := A) k (put_optional k' x rest) = optional k rest.
Proof. intros E. destruct x; [now apply optional_put_other | reflexivity]. Qed.

Lemma optional_put_optional {A} `{Faithful A} (k : string) (x : option A) (rest : members) :
  get k rest = None -> optional k (put_optional k x rest) = Some x.
Proof.
  intros E. destruct x as [a|]; unfold optional, put_optional, put.
  - cbn [get]. rewrite String.eqb_refl. now rewrite of_to_json.
  - now rewrite E.
Qed.

Lemma get_put_other {A} `{Shape.t A} (k k' : string) (x : A) (rest : members) :
  String.eqb k k' = false -> get k (put k' x rest) = get k rest.
Proof. intros E. unfold put. cbn [get]. now rewrite E. Qed.

Lemma get_put_optional_other {A} `{Shape.t A} (k k' : string) (x : option A) (rest : members) :
  String.eqb k k' = false -> get k (put_optional k' x rest) = get k rest.
Proof. intros E. destruct x; [now apply get_put_other | reflexivity]. Qed.

Ltac absent :=
  repeat first [ rewrite get_put_other by reflexivity
               | rewrite get_put_optional_other by reflexivity ];
  reflexivity.

Ltac read_field :=
  first [ rewrite required_put
        | rewrite required_put_other by reflexivity
        | rewrite required_put_optional by reflexivity
        | rewrite optional_put_optional by absent
        | rewrite optional_put_other by reflexivity
        | rewrite optional_put_optional_other by reflexivity ].

Ltac read_record :=
  split; [|discriminate];
  intros []; cbn -[required optional put put_optional];
  repeat (repeat read_field; cbn [mbind option_bind]);
  reflexivity.

#[global] Instance User_faithful : Faithful User.t.
Proof. read_record. Qed.
#[global] Instance Candidate_faithful : Faithful Candidate.t.
Proof. read_record. Qed.
#[global] Instance Position_faithful : Faithful Position.t.
Proof. read_record. Qed.
#[global] Instance Election_faithful : Faithful Election.t.
Proof. read_record. Qed.
#[global] Instance Vote_faithful : Faithful Vote.t.
Proof. read_record. Qed.
#[global] Instance VotingSession_faithful : Faithful VotingSession.t.
Proof. read_record. Qed.
#[global] Instance SecurityLog_faithful : Faithful SecurityLog.t.
Proof. read_record. Qed.

Lemma parse_stringify {A} `{Faithful A} (x : A) : parse_as (stringify x) = Ok (Some x).
Proof.
  unfold parse_as, stringify. rewrite parse_print, of_to_json.
  pose proof (to_json_value x). now destruct (to_json x).
Qed.

(** [JSON] at a shape of the data model. *)
#[global] Instance codec {A} `{Shape.t A} : JSON A := {|
  JSON_stringify := stringify;
  JSON_parse := parse_as
|}.

#[global] Instance codec_serializable {A} `{Faithful A} : Serializable A.
Proof. intros x. apply parse_stringify. Qed.

End ShapeFacts.

Section ReferenceFacts.
Import Reference.

Lemma xor_ascii_twice (a k : ascii) : xor_ascii (xor_ascii a k) k = a.
Proof.
  destruct a, k. cbn [xor_ascii].
  now rewrite !xorb_assoc, !xorb_nilpotent, !xorb_false_r.
Qed.

Lemma mask_twice (key cur s : string) : mask key cur (mask key cur s) = s.
Proof.
  revert cur. induction s as [|c r IH]; intros cur; [reflexivity|].
  destruct cur as [|k cur'].
  - destruct key as [|k cur']; [reflexivity|].
    cbn [mask]. now rewrite xor_ascii_twice, IH.
  - cbn [mask]. now rewrite xor_ascii_twice, IH.
Qed.

Lemma fit_length (n : nat) (s : string) : String.length (fit n s) = n.
Proof.
  revert s. induction n as [|n IH]; intros s; [reflexivity|].
  destruct s; cbn [fit String.length]; now rewrite IH.
Qed.

Lemma split_at_app (a b : string) : split_at (String.length a) (a +:+ b) = (a, b).
Proof.
  induction a as [|c a IH]; [now destruct b|].
  rewrite string_app_cons. cbn [String.length split_at]. now rewrite IH.
Qed.

Lemma after_app (p s : string) : Json.after p (p +:+ s) = Some s.
Proof.
  induction p as [|c p IH]; [reflexivity|].
  rewrite string_app_cons. cbn [Json.after]. now rewrite Ascii.eqb_refl.
Qed.

Lemma decrypt_encrypt (salt message passphrase : string) :
  decrypt (encrypt salt message passphrase) passphrase = Ok message.
Proof.
  unfold decrypt, encrypt. rewrite after_app.
  pose proof (split_at_app (fit 8 salt)
                (mask (key_of passphrase (fit 8 salt)) EmptyString message)) as E.
  rewrite fit_length in E. rewrite E. now rewrite mask_twice.
Qed.

Lemma encrypt_nonempty (salt message passphrase : string) :
  encrypt salt message passphrase <> "".
Proof. unfold encrypt, header. rewrite string_app_cons. discriminate. Qed.

#[global] Instance reference : Platform := {|
  Date_now := clock;
  WordArray_random := random;
  Math_random_toString36 := random_base36;
  navigator_userAgent := "Mozilla/5.0 (X11; Linux x86_64)";
  AES_encrypt := encrypt;
  AES_decrypt := decrypt;
  AES_decrypt_encrypt := decrypt_encrypt;
  AES_encrypt_nonempty := encrypt_nonempty
|}.

End ReferenceFacts.

(* ================================================================== *)
(** * A polling day on the reference platform *)
(* ================================================================== *)

Module Scenario.

Definition fresh : World :=
  {| localStorage := ∅; clock_reads := 0; random_draws := 0; effects := [] |}.

Definition candidate (id name position : string) : Candidate.t :=
  {| Candidate.id := id; Candidate.name := name; Candidate.position := position;
     Candidate.description := "Final year"; Candidate.manifesto := "Transparency";
     Candidate.photo := None |}.

Definition president : Position.t :=
  {| Position.id := "1"; Position.title := "President";
     Position.description := "Student council president";
     Position.candidates := [candidate "1767225600001" "Asha Rao" "President";
                             candidate "1767225600002" "Vikram Shetty" "President"];
     Position.maxVotes := 1 |}.

Definition secretary : Position.t :=
  {| Position.id := "1767225600003"; Position.title := "Secretary";
     Position.description := "Student council secretary";
     Position.candidates := [candidate "1767225600004" "Meera Nair" "Secretary"];
     Position.maxVotes := 1 |}.

Definition election (id title : string) : Election.t :=
  {| Election.id := id; Election.title := title;
     Election.description := "Annual election";
     Election.startDate := "2026-01-01T00:00"; Election.endDate := "2026-01-02T00:00";
     Election.positions := [president; secretary];
     Election.isActive := true; Election.totalVotes := 0;
     Election.createdBy := "admin-1767225500000";
     Election.createdAt := "2025-12-31T20:13:20.000Z";
     Election.cryptographicHash := "" |}.

Definition council : Election.t := election "1767225600005" "Student Council 2026".
Definition sports : Election.t := election "1767225600006" "Sports Committee 2026".

Definition asha : User.t :=
  {| User.id := "1767225600007"; User.email := "asha@bnmit.in"; User.name := "Asha";
     User.role := voter; User.isVerified := true;
     User.hasVoted := Some ∅; User.votingTokens := Some ∅;
     User.registrationDate := "2025-12-31T20:13:20.000Z";
     User.lastLogin := "2025-12-31T20:13:20.000Z";
     User.password := Crypto.generateSecureHash "Passw0rd!" |}.

(** The voter opens the council election and chooses a president, leaving
    the secretary open. *)
Definition enter : JS VotingInterface.state :=
  Storage.saveUsers [asha];;
  Storage.saveElections [council; sports];;
  st ← VotingInterface.mount council asha VotingInterface.initial;
  mret (VotingInterface.handleVoteChange "1" "1767225600002" st).

Definition polling : World := exec enter fresh.

Definition ballot : VotingInterface.state :=
  match eval enter fresh with
  | Ok st => st
  | Throw _ => VotingInterface.initial
  end.

Definition polled : World :=
  exec (VotingInterface.submitVotes council asha ballot) polling.

(** The elections collection after the submission. *)
Definition counted : list Election.t := [Election.with_totalVotes 1 council; sports].










End Scenario.


Section ScenarioRuns.
Import Scenario.

(** C7 on a fresh installation: there is no user, two calls leave exactly
    the administrator of the first call, and a third changes nothing. *)
Lemma fresh_installation_gets_one_admin :
  eval Storage.getUsers fresh = Ok []
  /\ existsb is_admin [] = false
  /\ eval (initialize_times 2) fresh = Ok tt
  /\ eval Storage.getUsers (exec (initialize_times 2) fresh) = Ok [default_admin fresh]
  /\ List.filter is_admin [default_admin fresh] = [default_admin fresh]
  /\ exec (initialize_times 2) fresh = exec Storage.initializeAdminAccount fresh
  /\ Storage.initializeAdminAccount (exec (initialize_times 2) fresh)
     = (Ok tt, exec (initialize_times 2) fresh).
Proof.
  assert (Hget : eval Storage.getUsers fresh = Ok []) by (vm_compute; reflexivity).
  assert (Hno : existsb is_admin [] = false) by reflexivity.
  destruct (initializeAdminAccount_idempotent fresh [] Hget) as [_ Hagain].
  destruct (Hagain Hno 1%nat) as (H1 & H2 & _ & _ & H5 & H6 & H7).
  split; [exact Hget|]. split; [exact Hno|]. split; [exact H1|]. split; [exact H2|].
  split; [exact H5|]. split; [exact H6 | exact H7].
Defined.

(** C4 after the polling day: the voter has voted, and opening the council
    election again only adds a log entry. *)
Lemma second_entry_after_polling :
  eval (Storage.hasUserVotedInElection (User.id asha) (Election.id council)) polled
    = Ok true
  /\ exists (w' : World) (entry : SecurityLog.t),
       VotingInterface.mount council asha VotingInterface.initial polled
       = (Ok VotingInterface.initial, w')
       /\ eval Storage.getSecurityLogs w' = Ok (logs_of polled ++ [entry])
       /\ SecurityLog.type entry = double_vote_attempt
       /\ SecurityLog.severity entry = high
       /\ In OnCancel (effects w')
       /\ eval Storage.getVotingSessions w' = eval Storage.getVotingSessions polled
       /\ eval Storage.getVotes w' = eval Storage.getVotes polled.
Proof.
  assert (Hvoted : eval (Storage.hasUserVotedInElection (User.id asha)
                           (Election.id council)) polled = Ok true)
    by (vm_compute; reflexivity).
  split; [exact Hvoted|].
  destruct (second_entry_short_circuits council asha VotingInterface.initial polled Hvoted)
    as (w' & entry & Hrun & Hlogs & _ & Htype & Hsev & _ & _ & Hcancel & Hsessions
        & _ & _ & Hvotes & _).
  exists w', entry.
  split; [exact Hrun|]. split; [exact Hlogs|]. split; [exact Htype|].
  split; [exact Hsev|]. split; [exact Hcancel|]. split; [exact Hsessions | exact Hvotes].
Defined.



(** C9 on the polling day: the stored vote verifies. *)
Lemma polling_day_votes_verify :
  VotingInterface.isCompleted ballot = false
  /\ VotingInterface.submitVotes council asha ballot polling
     = (Ok (completed ballot), polled)
  /\ VotingInterface.isCompleted (completed ballot) = true
  /\ exists newVotes : list Vote.t,
       eval Storage.getVotes polled = Ok (votes_of polling ++ newVotes)
       /\ length newVotes = length (selections ballot)
       /\ Forall (fun v => Crypto.verifyVoteIntegrity v = true) newVotes.
Proof.
  assert (Hnot : VotingInterface.isCompleted ballot = false) by (vm_compute; reflexivity).
  assert (Hrun : VotingInterface.submitVotes council asha ballot polling
                 = (Ok (completed ballot), polled)) by (vm_compute; reflexivity).
  assert (Hdone : VotingInterface.isCompleted (completed ballot) = true) by reflexivity.
  destruct (submitted_votes_verify council asha ballot (completed ballot) polling polled
              Hnot Hrun Hdone)
    as (newVotes & Hvotes & Hlen & Hverify & _).
  split; [exact Hnot|]. split; [exact Hrun|]. split; [exact Hdone|].
  exists newVotes.
  split; [exact Hvotes|]. split; [exact Hlen | exact Hverify].
Defined.

(** C8 after the polling day: the council election is deleted, the sports
    election stays. *)
Lemma council_election_deleted :
  eval Storage.getElections polled = Ok counted
  /\ exists (w' : World) (votes : list Vote.t),
       eval Storage.getVotes polled = Ok votes
       /\ ElectionManagement.deleteElection counted (Election.id council) true polled
          = (Ok (other_elections (Election.id council) counted), w')
       /\ eval Storage.getElections w' = Ok (other_elections (Election.id council) counted)
       /\ eval Storage.getVotes w' = Ok (other_votes (Election.id council) votes)
       /\ eval (Storage.getElectionById (Election.id council)) w' = Ok None
       /\ eval (Storage.getVotesByElection (Election.id council)) w' = Ok []
       /\ eval Storage.getUsers w' = eval Storage.getUsers polled
       /\ eval Storage.getVotingSessions w' = eval Storage.getVotingSessions polled.
Proof.
  assert (Hstate : eval Storage.getElections polled = Ok counted)
    by (vm_compute; reflexivity).
  split; [exact Hstate|].
  destruct (deleteElection_cascades counted (Election.id council) polled Hstate)
    as (w' & votes & Hv & Hrun & He' & Hv' & Hgone & Hnone & _ & _ & _ & _ & _ & _
        & Hu & Hs).
  exists w', votes.
  split; [exact Hv|]. split; [exact Hrun|]. split; [exact He'|]. split; [exact Hv'|].
  split; [exact Hgone|]. split; [exact Hnone|]. split; [exact Hu | exact Hs].
Defined.

(** C5 at the users collection of the scenario. *)
Lemma users_collection_roundtrip :
  JSON_parse (JSON_stringify [asha]) = Ok (Some [asha])
  /\ (exists blob w1,
        Crypto.encryptSensitiveData (JSON_stringify [asha]) fresh = (Ok blob, w1)
        /\ forall w2,
             Crypto.decryptSensitiveData blob w2 = (Ok (JSON_stringify [asha]), w2))
  /\ (exists blob w1,
        Storage.encrypt [asha] fresh = (Ok blob, w1)
        /\ forall w2, Storage.decrypt blob w2 = (Ok (Some [asha]), w2)).
Proof.
  assert (Hjson : JSON_parse (JSON_stringify [asha]) = Ok (Some [asha]))
    by (vm_compute; reflexivity).
  split; [exact Hjson|].
  destruct (decrypt_encrypt_roundtrip [asha] fresh Hjson) as (_ & Hraw & Hfacade).
  split; [exact Hraw | exact Hfacade].
Defined.

End ScenarioRuns.


(* ================================================================== *)
(** * The reference platform: letter case, dates and a clock that stands *)
(* ================================================================== *)

Module ReferenceText.

(** Lower case of the ASCII letters. *)
Fixpoint lower (s : string) : string :=
  match s with
  | EmptyString => EmptyString
  | String c r => String (RegExp.fold_case c) (lower r)
  end.

(** The number a string of decimal digits writes. *)
Fixpoint digits (acc : Z) (s : string) : option Z :=
  match s with
  | EmptyString => Some acc
  | String c r =>
      if Validation.digit c then digits (10 * acc + (RegExp.code c - 48)) r else None
  end.

Definition number (s : string) : option Z :=
  match s with
  | EmptyString => None
  | _ => digits 0 s
  end.

(** Days since 1970-01-01 of a civil date. *)
Definition days (y m d : Z) : Z :=
  let y' := if m <=? 2 then y - 1 else y in
  let era := y' / 400 in
  let yoe := y' - era * 400 in
  let mp := (m + 9) mod 12 in
  let doy := (153 * mp + 2) / 5 + d - 1 in
  let doe := yoe * 365 + yoe / 4 - yoe / 100 + doy in
  era * 146097 + doe - 719468.

Definition field (s : string) (start len : nat) : option Z :=
  number (String.substring start len s).

Definition has_at (s : string) (at_ : nat) (c : string) : bool :=
  String.eqb (String.substring at_ 1 s) c.

(** [YYYY-MM-DDTHH:mm], as a date-time input writes it, read as UTC, and
    [YYYY-MM-DDTHH:mm:ss.sssZ], as [toISOString] writes it. *)
Definition parse (s : string) : option Z :=
  let short := (String.length s =? 16)%nat in
  let long := (String.length s =? 24)%nat
              && has_at s 16 ":" && has_at s 19 "." && has_at s 23 "Z" in
  if (short || long) && has_at s 4 "-" && has_at s 7 "-" && has_at s 10 "T" && has_at s 13 ":" then
    y ← field s 0 4; m ← field s 5 2; d ← field s 8 2;
    h ← field s 11 2; min ← field s 14 2;
    sec ← (if short then Some 0 else field s 17 2);
    ms ← (if short then Some 0 else field s 20 3);
    if (1 <=? m) && (m <=? 12) && (1 <=? d) && (d <=? 31) && (h <? 24) && (min <? 60)
       && (sec <? 60)
    then Some (days y m d * Date.msPerDay + h * 3600000 + min * 60000 + sec * 1000 + ms)
    else None
  else None.

End ReferenceText.

#[global] Instance ascii_case : CaseMapping := ReferenceText.lower.
#[global] Instance iso_dates : DateParser := ReferenceText.parse.

(** The reference platform with the clock stopped at a time. *)
Definition stopped (now : Z) : Platform := {|
  Date_now := fun _ => now;
  WordArray_random := Reference.random;
  Math_random_toString36 := Reference.random_base36;
  navigator_userAgent := "Mozilla/5.0 (X11; Linux x86_64)";
  AES_encrypt := Reference.encrypt;
  AES_decrypt := Reference.decrypt;
  AES_decrypt_encrypt := decrypt_encrypt;
  AES_encrypt_nonempty := encrypt_nonempty
|}.

Example parse_sample :
  Date_parse "2024-02-29T12:34:56.789Z" = Some 1709210096789
  /\ Date_parse "2026-01-01T00:00" = Some 1767225600000
  /\ Date_parse "tomorrow" = None.
Proof. vm_compute. repeat split. Qed.

(* ================================================================== *)
(** * More of the polling day *)
(* ================================================================== *)

Module PollingDay.
Import Scenario.

(** The store before the voter enters. *)
Definition prepared : World :=
  exec (Storage.saveUsers [asha];; Storage.saveElections [council; sports]) fresh.

(** The session the voter is given on entering, the state the entry leaves
    and the store after it. *)
Definition session : VotingSession.t := new_session council prepared.

Definition entered : VotingInterface.state :=
  VotingInterface.setVotes (blank_ballot council)
    (VotingInterface.setVotingSession (Some session) VotingInterface.initial).

Definition opened : World :=
  exec (VotingInterface.mount council asha VotingInterface.initial) prepared.

(** The voter as stored from then on, with the token. *)
Definition stored_asha : User.t :=
  give_token council asha (VotingSession.voterToken session) asha.

(** A choice for each position, then "Next" on the last one. *)
Definition clicks : list VotingScreen.button :=
  [VotingScreen.CandidateCard 1; VotingScreen.Next;
   VotingScreen.CandidateCard 0; VotingScreen.Next].

Definition reviewed : VotingInterface.state := VotingScreen.after council clicks session.

(** An election whose only position has the id ["__proto__"]. *)
Definition referendum : Election.t :=
  {| Election.id := "1767225600008"; Election.title := "Referendum 2026";
     Election.description := "Annual election";
     Election.startDate := "2026-01-01T00:00"; Election.endDate := "2026-01-02T00:00";
     Election.positions :=
       [{| Position.id := "__proto__"; Position.title := "President";
           Position.description := "Student council president";
           Position.candidates := Position.candidates president;
           Position.maxVotes := 1 |}];
     Election.isActive := true; Election.totalVotes := 0;
     Election.createdBy := "admin-1767225500000";
     Election.createdAt := "2025-12-31T20:13:20.000Z";
     Election.cryptographicHash := "" |}.

(** The store after the reviewed ballot is submitted. *)
Definition cast : World :=
  exec (VotingInterface.submitVotes council asha reviewed) opened.

(** A second voter fills in the registration form. *)
Definition registration : Login.state :=
  {| Login.isLogin := false; Login.showPassword := false;
     Login.formData := {| Login.email := "Meera@BNMIT.in"; Login.password := "Str0ng!Pass";
                          Login.name := " Meera Nair "; Login.confirmPassword := "Str0ng!Pass" |};
     Login.errors := []; Login.isLoading := false |}.

Definition log_in (email password : string) : Login.state :=
  {| Login.isLogin := true; Login.showPassword := false;
     Login.formData := {| Login.email := email; Login.password := password;
                          Login.name := ""; Login.confirmPassword := "" |};
     Login.errors := []; Login.isLoading := false |}.

(** The administrator fills in the election form on new year's day. *)
Definition filled : ElectionForm.state :=
  {| ElectionForm.formData :=
       {| ElectionForm.title := " Cultural Committee <2026> ";
          ElectionForm.description := "Annual election";
          ElectionForm.startDate := "2026-01-05T09:00";
          ElectionForm.endDate := "2026-01-05T17:00" |};
     ElectionForm.positions := [president];
     ElectionForm.errors := []; ElectionForm.isLoading := false |}.

(** The overview of the administrator with the two elections loaded. *)
Definition overview : AdminDashboard.state :=
  {| AdminDashboard.elections := [council; sports];
     AdminDashboard.users := [asha];
     AdminDashboard.securityLogs := [] |}.

(** The dashboard of the voter while the council ballot is open. *)
Definition dashboard : VoterDashboard.state :=
  {| VoterDashboard.elections := [council; sports];
     VoterDashboard.selectedElection := Some council |}.

(** Noon of the polling day. *)
Definition noon : Z := 1767225600000 + 12 * 3600000.

End PollingDay.

Section PollingDayRuns.
Import Scenario PollingDay.

(** The runs of the day, each evaluated once. *)
Lemma prepared_not_voted :
  eval (Storage.hasUserVotedInElection (User.id asha) (Election.id council)) prepared
  = Ok false.
Proof. vm_compute. reflexivity. Qed.

Lemma asha_enters :
  VotingInterface.mount council asha VotingInterface.initial prepared = (Ok entered, opened).
Proof. vm_compute. reflexivity. Qed.

Lemma opened_users : users_of opened = [stored_asha].
Proof. vm_compute. reflexivity. Qed.

Lemma reviewed_is_cast :
  VotingInterface.submitVotes council asha reviewed opened
  = (Ok (completed reviewed), cast).
Proof. vm_compute. reflexivity. Qed.

(** X2 on the fresh installation. *)
Lemma fresh_store_reads_back :
  eval read_all fresh = Ok ([], [], [], [], [], None)
  /\ eval (Storage.saveUsers [asha];; read_all) fresh = Ok ([asha], [], [], [], [], None)
  /\ eval (Storage.saveElections [council];; read_all) fresh
     = Ok ([], [council], [], [], [], None)
  /\ eval (Storage.setCurrentUser (Some asha);; read_all) fresh
     = Ok ([], [], [], [], [], Some asha).
Proof.
  assert (Hread : eval read_all fresh = Ok ([], [], [], [], [], None))
    by (vm_compute; reflexivity).
  destruct (saved_is_read_back fresh [] [] [] [] [] None [asha] [council] [] [] [] asha
              (Login.log login "" None low) Hread)
    as (Husers & Helections & _ & _ & _ & Hcurrent & _).
  split; [exact Hread|]. split; [exact Husers|]. split; [exact Helections | exact Hcurrent].
Defined.

(** X3 after the polling day. *)
Lemma cast_store_cleared :
  eval (Storage.clearAllData;; read_all) cast = Ok ([], [], [], [], [], None)
  /\ localStorage (exec Storage.clearAllData cast) !! "voting_votes" = None
  /\ exists a,
       eval (Storage.clearAllData;; Storage.initializeAdminAccount;; Storage.getUsers)
            cast = Ok [a]
       /\ User.role a = admin.
Proof.
  destruct (clearAllData_clears cast) as (Hall & _ & Hkeys & _ & a & Hagain & Hrole & _).
  split; [exact Hall|]. split.
  - apply Hkeys. cbn. tauto.
  - exists a. split; [exact Hagain | exact Hrole].
Defined.

(** X4 on the fresh installation. *)
Lemma fresh_admin_logs_in :
  eval Storage.getUsers fresh = Ok []
  /\ exists a,
       eval (Storage.initializeAdminAccount;; Storage.getUserByEmail "admin@bnmit.in") fresh
       = Ok (Some a)
       /\ User.role a = admin
       /\ Storage.verifyPassword "VoteBNMIT2024!Admin" (User.password a) = true.
Proof.
  assert (Hget : eval Storage.getUsers fresh = Ok []) by (vm_compute; reflexivity).
  assert (Hno : existsb is_admin [] = false) by reflexivity.
  assert (Hfree : List.find (fun u => String.eqb (User.email u) "admin@bnmit.in") []
                  = @None User.t) by reflexivity.
  destruct (default_admin_can_log_in fresh [] Hget Hno Hfree)
    as (a & Hrun & Hrole & Hpassword & _).
  split; [exact Hget|]. exists a.
  split; [exact Hrun|]. split; [exact Hrole | exact Hpassword].
Defined.

(** X5 on the polling day: the voter enters the council election. *)
Lemma asha_enters_council :
  eval (Storage.hasUserVotedInElection (User.id asha) (Election.id council)) prepared
    = Ok false
  /\ exists (w' : World) (given : VotingSession.t),
       VotingInterface.mount council asha VotingInterface.initial prepared
       = (Ok (VotingInterface.setVotes (blank_ballot council)
                (VotingInterface.setVotingSession (Some given) VotingInterface.initial)),
          w')
       /\ VotingSession.isActive given = true
       /\ eval Storage.getVotingSessions w' = Ok (sessions_of prepared ++ [given])
       /\ eval Storage.getVotes w' = eval Storage.getVotes prepared
       /\ JsObject.get (Position.id president) (blank_ballot council) = Some "".
Proof.
  destruct (first_entry_opens_a_session council asha VotingInterface.initial prepared
              prepared_not_voted)
    as (w' & given & Hrun & _ & Hactive & _ & _ & _ & Hsessions & _ & _ & _ & Hblank & _
        & Hvotes & _).
  split; [exact prepared_not_voted|]. exists w', given.
  split; [exact Hrun|]. split; [exact Hactive|]. split; [exact Hsessions|].
  split; [exact Hvotes|].
  apply Hblank; [left; reflexivity | discriminate].
Defined.

(** X6 on the polling day. *)
Lemma asha_votes_are_linked :
  VotingInterface.mount council asha VotingInterface.initial prepared = (Ok entered, opened)
  /\ VotingInterface.submitVotes council asha reviewed opened
     = (Ok (completed reviewed), cast)
  /\ exists (token : string) (newVotes : list Vote.t),
       eval Storage.getVotes cast = Ok (votes_of prepared ++ newVotes)
       /\ Forall (fun v => Vote.voterToken v = token) newVotes
       /\ Forall (fun u => User.id u = User.id asha ->
                           exists tokens,
                             User.votingTokens u = Some tokens
                             /\ tokens !! Election.id council = Some token)
                 (users_of cast).
Proof.
  assert (Hsame : VotingInterface.votingSession reviewed
                  = VotingInterface.votingSession entered) by reflexivity.
  assert (Hopen : VotingInterface.isCompleted reviewed = false) by reflexivity.
  assert (Hdone : VotingInterface.isCompleted (completed reviewed) = true) by reflexivity.
  destruct (votes_are_linked_to_the_voter council asha VotingInterface.initial entered
              reviewed (completed reviewed) prepared opened cast
              prepared_not_voted asha_enters Hsame Hopen reviewed_is_cast Hdone)
    as (token & newVotes & _ & Hvotes & Htokens & _ & Husers).
  split; [exact asha_enters|]. split; [exact reviewed_is_cast|].
  exists token, newVotes.
  split; [exact Hvotes|]. split; [exact Htokens | exact Husers].
Defined.

(** X7 on the polling day: the same ballot is submitted again. *)
Lemma asha_second_submission :
  VotingInterface.submitVotes council asha reviewed opened
  = (Ok (completed reviewed), cast)
  /\ In stored_asha (users_of opened)
  /\ exists (w'' : World) (entry : SecurityLog.t),
       VotingInterface.submitVotes council asha reviewed cast = (Ok reviewed, w'')
       /\ eval Storage.getVotes w'' = eval Storage.getVotes cast
       /\ eval Storage.getSecurityLogs w'' = Ok (logs_of cast ++ [entry])
       /\ SecurityLog.type entry = double_vote_attempt
       /\ SecurityLog.severity entry = critical.
Proof.
  assert (Hopen : VotingInterface.isCompleted reviewed = false) by reflexivity.
  assert (Hdone : VotingInterface.isCompleted (completed reviewed) = true) by reflexivity.
  assert (Hin : In stored_asha (users_of opened))
    by (rewrite opened_users; left; reflexivity).
  assert (Hid : User.id stored_asha = User.id asha) by reflexivity.
  assert (Hsession : VotingInterface.votingSession reviewed = Some session) by reflexivity.
  destruct (second_submission_is_blocked council asha reviewed (completed reviewed)
              reviewed session opened cast Hopen reviewed_is_cast Hdone
              (ex_intro _ stored_asha (conj Hin Hid)) Hsession)
    as (w'' & entry & Hagain & Hvotes & _ & _ & _ & Hlogs & Htype & Hseverity & _).
  split; [exact reviewed_is_cast|]. split; [exact Hin|].
  exists w'', entry.
  split; [exact Hagain|]. split; [exact Hvotes|]. split; [exact Hlogs|].
  split; [exact Htype | exact Hseverity].
Defined.

(** A ballot for a position whose id is ["__proto__"]: the mount effect
    creates no entry, "Next" shows the confirmation with nothing chosen, and
    a click on a candidate creates the entry. *)
Example ballot_of_an_inherited_name :
  VotingInterface.votes (VotingScreen.mounted referendum session) = []
  /\ VotingInterface.showConfirmation
       (VotingScreen.after referendum [VotingScreen.Next] session) = true
  /\ selections (VotingScreen.after referendum [VotingScreen.Next] session) = []
  /\ VotingInterface.votes
       (VotingScreen.after referendum [VotingScreen.CandidateCard 0] session)
     = [("__proto__", "1767225600001")].
Proof. repeat split. Qed.

(** X9 at the council election: both positions chosen, then "Next". *)
Lemma council_ballot_stays_sound :
  Election.positions council <> []
  /\ (VotingInterface.currentStep reviewed < List.length (Election.positions council))%nat
  /\ List.NoDup (map fst (VotingInterface.votes reviewed))
  /\ In (Position.id secretary) (map fst (VotingInterface.votes reviewed))
  /\ (VotingInterface.showConfirmation reviewed = true ->
      fst (VotingInterface.validateVotes council reviewed) = true).
Proof.
  assert (Hsome : Election.positions council <> []) by discriminate.
  destruct (interface_keeps_the_ballot_sound council session clicks Hsome)
    as (Hstep & _ & Hkeys & _ & Hevery & _ & Hshown & _).
  split; [exact Hsome|]. split; [exact Hstep|]. split; [exact Hkeys|].
  split; [apply Hevery; [right; left; reflexivity | discriminate]|].
  intros Hshow. exact (proj1 (Hshown Hshow)).
Defined.

(** X10 at the council election: the reviewed ballot is submitted. *)
Lemma council_ballot_cast_in_full :
  Election.positions council <> []
  /\ VotingInterface.showConfirmation reviewed = true
  /\ VotingInterface.submitVotes council asha reviewed opened
     = (Ok (completed reviewed), cast)
  /\ exists newVotes : list Vote.t,
       eval Storage.getVotes cast = Ok (votes_of opened ++ newVotes)
       /\ List.NoDup (map Vote.positionId newVotes)
       /\ (forall position, In position (Election.positions council) ->
             exists v, In v newVotes /\ Vote.positionId v = Position.id position)
       /\ Forall (fun v => Vote.voterToken v = VotingSession.voterToken session) newVotes.
Proof.
  assert (Hsome : Election.positions council <> []) by discriminate.
  assert (Hshow : VotingInterface.showConfirmation reviewed = true) by reflexivity.
  assert (Hdone : VotingInterface.isCompleted (completed reviewed) = true) by reflexivity.
  destruct (confirmed_ballot_is_cast_in_full council asha session clicks
              (completed reviewed) opened cast Hsome Hshow reviewed_is_cast Hdone)
    as (newVotes & Hvotes & Hdistinct & Hevery & Hall).
  split; [exact Hsome|]. split; [exact Hshow|]. split; [exact reviewed_is_cast|].
  exists newVotes. split; [exact Hvotes|]. split; [exact Hdistinct|].
  split.
  { intros position Hin. apply Hevery; [exact Hin|].
    destruct Hin as [<-|[<-|[]]]; discriminate. }
  eapply Forall_impl; [exact Hall|]. intros v Hv. exact (proj2 (proj2 Hv)).
Defined.

(** X14 on the polling day: a second voter registers and logs in. *)
Lemma meera_registers_and_logs_in :
  registers registration opened
  /\ exists (user : User.t) (st1 st2 : Login.state) (w1 w2 : World),
       Login.handleSubmit registration opened = (Ok (st1, Some user), w1)
       /\ users_of w1 = users_of opened ++ [user]
       /\ User.role user = voter
       /\ User.email user = Login.sanitizedEmail registration
       /\ Login.handleSubmit (log_in "Meera@BNMIT.in" "Str0ng!Pass") w1
          = (Ok (st2, Some user), w2).
Proof.
  assert (Hregisters : registers registration opened).
  { unfold registers.
    split; [reflexivity|]. split; [vm_compute; reflexivity|].
    split; [vm_compute; reflexivity|]. split; [reflexivity|].
    unfold user_of_email. rewrite opened_users. vm_compute. reflexivity. }
  destruct (registration_then_login registration (log_in "Meera@BNMIT.in" "Str0ng!Pass")
              opened Hregisters eq_refl eq_refl eq_refl)
    as (user & st1 & st2 & w1 & w2 & Hrun & Husers & Hrole & Haddress & _ & _ & _ & _
        & Hagain & _).
  split; [exact Hregisters|]. exists user, st1, st2, w1, w2.
  split; [exact Hrun|]. split; [exact Husers|]. split; [exact Hrole|].
  split; [exact Haddress | exact Hagain].
Defined.

(** X15 on the polling day: a log-in attempt with a guessed password. *)
Lemma asha_login_attempt :
  Login.isLogin (log_in "asha@bnmit.in" "guess") = true
  /\ exists (st' : Login.state) (r : option User.t) (w' : World),
       Login.handleSubmit (log_in "asha@bnmit.in" "guess") opened = (Ok (st', r), w')
       /\ users_of w' = users_of opened
       /\ (r = None <-> Login.errors st' <> []).
Proof.
  assert (Hmode : Login.isLogin (log_in "asha@bnmit.in" "guess") = true) by reflexivity.
  destruct (login_attempts_are_logged (log_in "asha@bnmit.in" "guess") opened Hmode)
    as (st' & r & w' & Hrun & Husers & Herrors & _).
  split; [exact Hmode|]. exists st', r, w'.
  split; [exact Hrun|]. split; [exact Husers | exact Herrors].
Defined.

(** X16 on the polling day: the registration keeps e-mails distinct. *)
Lemma polling_emails_stay_distinct :
  List.NoDup (map User.email (users_of opened))
  /\ exists (st' : Login.state) (r : option User.t) (w' : World),
       Login.handleSubmit registration opened = (Ok (st', r), w')
       /\ List.NoDup (map User.email (users_of w')).
Proof.
  assert (Hdistinct : List.NoDup (map User.email (users_of opened))).
  { rewrite opened_users. constructor; [intros [] | constructor]. }
  destruct (emails_stay_distinct registration opened Hdistinct)
    as (st' & r & w' & Hrun & Hafter & _).
  split; [exact Hdistinct|]. exists st', r, w'. split; [exact Hrun | exact Hafter].
Defined.

(** X17 on the polling day: the voter stays signed in. *)
Lemma asha_stays_signed_in :
  eval (App.handleLogin asha App.initial;; App.mount App.initial) opened
  = Ok {| App.currentUser := Some asha; App.isLoading := false |}
  /\ eval (App.handleLogout App.initial;; App.mount App.initial) opened
     = Ok {| App.currentUser := None; App.isLoading := false |}.
Proof.
  destruct (session_survives_reload asha App.initial opened) as (Hin & Hout & _).
  split; [exact Hin | exact Hout].
Defined.

(** X18 on the polling day: the council election moves to the voted list. *)
Lemma council_moves_to_voted :
  VotingInterface.submitVotes council asha reviewed opened
  = (Ok (completed reviewed), cast)
  /\ eval (Storage.getUserByEmail (User.email asha)) opened = Ok (Some stored_asha)
  /\ exists (d' : VoterDashboard.state) (w'' : World) (reloaded : User.t),
       VoterDashboard.onComplete asha dashboard cast = (Ok d', w'')
       /\ eval (App.mount App.initial) w''
          = Ok {| App.currentUser := Some reloaded; App.isLoading := false |}
       /\ VoterDashboard.hasUserVoted reloaded (Election.id council) = true
       /\ In council (VoterDashboard.getVotedElections reloaded dashboard).
Proof.
  assert (Hopen : VotingInterface.isCompleted reviewed = false) by reflexivity.
  assert (Hdone : VotingInterface.isCompleted (completed reviewed) = true) by reflexivity.
  assert (Hstored : eval (Storage.getUserByEmail (User.email asha)) opened
                    = Ok (Some stored_asha)).
  { unfold eval. rewrite getUserByEmail_run, opened_users. reflexivity. }
  assert (Hid : User.id stored_asha = User.id asha) by reflexivity.
  destruct (cast_ballot_moves_to_voted council asha reviewed (completed reviewed)
              dashboard stored_asha opened cast Hopen reviewed_is_cast Hdone Hstored Hid)
    as (d' & w'' & reloaded & Hcomplete & _ & _ & Hmount & _ & Hflag & _ & Hvoted).
  split; [exact reviewed_is_cast|]. split; [exact Hstored|]. exists d', w'', reloaded.
  split; [exact Hcomplete|]. split; [exact Hmount|]. split; [exact Hflag|].
  apply Hvoted. left. reflexivity.
Defined.

(** X19 at noon of the polling day, the clock stopped: both elections are
    counted. *)
Lemma overview_counts_at_noon :
  Forall (@well_dated iso_dates) (AdminDashboard.elections overview)
  /\ exists stats,
       eval (@AdminDashboard.getElectionStats (stopped noon) iso_dates overview) fresh
       = Ok stats
       /\ (AdminDashboard.ElectionStats.active stats
           + AdminDashboard.ElectionStats.upcoming stats
           + AdminDashboard.ElectionStats.completed stats
           = AdminDashboard.ElectionStats.total stats)%nat
       /\ AdminDashboard.ElectionStats.total stats = 2%nat.
Proof.
  assert (Hdated : forall id title, @well_dated iso_dates (election id title)).
  { intros id title. exists 1767225600000, 1767312000000.
    split; [vm_compute; reflexivity|]. split; [vm_compute; reflexivity | lia]. }
  assert (Hall : Forall (@well_dated iso_dates) (AdminDashboard.elections overview)).
  { repeat constructor; apply Hdated. }
  destruct (@election_counts_add_up (stopped noon) iso_dates overview fresh noon
              (fun j _ => eq_refl) Hall)
    as (stats & Hrun & _ & _ & _ & Hsum & Htotal & _).
  split; [exact Hall|]. exists stats.
  split; [exact Hrun|]. split; [exact Hsum | exact Htotal].
Defined.

(** X21 after the polling day. *)
Lemma cast_log_is_shown :
  SecurityMonitor.loadLogs SecurityMonitor.initial cast
  = (Ok (SecurityMonitor.setLogs (rev (logs_of cast)) SecurityMonitor.initial), cast)
  /\ exists w',
       SecurityMonitor.clearLogs true SecurityMonitor.initial cast
       = (Ok (SecurityMonitor.setLogs [] SecurityMonitor.initial), w')
       /\ logs_of w' = []
       /\ votes_of w' = votes_of cast.
Proof.
  destruct (monitor_shows_the_log SecurityMonitor.initial
              (Login.log login "" None low) high cast)
    as (Hload & _ & _ & _ & _ & (w' & Hclear & Hlogs & _ & _ & Hvotes & _) & _).
  split; [exact Hload|]. exists w'.
  split; [exact Hclear|]. split; [exact Hlogs | exact Hvotes].
Defined.

(** X23 on new year's day: the administrator creates an election. *)
Lemma cultural_committee_is_created :
  eval (ElectionForm.handleSubmit filled) fresh = Ok (ElectionForm.initial, true)
  /\ exists (w' : World) (election : Election.t),
       ElectionForm.handleSubmit filled fresh = (Ok (ElectionForm.initial, true), w')
       /\ elections_of w' = elections_of fresh ++ [election]
       /\ Election.isActive election = false
       /\ Election.cryptographicHash election = Tokens.hashElection election.
Proof.
  assert (Hcreated : eval (ElectionForm.handleSubmit filled) fresh
                     = Ok (ElectionForm.initial, true)) by (vm_compute; reflexivity).
  destruct (created_election_is_well_formed filled fresh)
    as (st' & called & w' & Hrun & _ & Hcase).
  unfold eval in Hcreated. rewrite Hrun in Hcreated. cbn [fst] in Hcreated.
  injection Hcreated as -> ->.
  destruct Hcase as (election & entry & start & end_ & _ & Helections & _ & _ & _ & _ & _
                     & _ & _ & Hactive & _ & Hhash & _).
  split; [unfold eval; now rewrite Hrun|]. exists w', election.
  split; [exact Hrun|]. split; [exact Helections|]. split; [exact Hactive | exact Hhash].
Defined.

(** X28 after the polling day: the session of the ballot is closed. *)
Lemma asha_session_is_closed :
  VotingInterface.submitVotes council asha reviewed opened
  = (Ok (completed reviewed), cast)
  /\ exists (r : option VotingSession.t) (n : nat),
       Sessions.getActiveSession (Election.id council) (VotingSession.voterToken session)
                                 cast
       = (Ok r, ticked n cast)
       /\ match r with
          | Some s => VotingSession.sessionId s <> VotingSession.sessionId session
          | None => True
          end.
Proof.
  assert (Hopen : VotingInterface.isCompleted reviewed = false) by reflexivity.
  assert (Hdone : VotingInterface.isCompleted (completed reviewed) = true) by reflexivity.
  assert (Hsession : VotingInterface.votingSession reviewed = Some session) by reflexivity.
  destruct (submitted_session_is_closed council asha reviewed (completed reviewed) opened
              cast (Election.id council) (VotingSession.voterToken session)
              Hopen reviewed_is_cast Hdone)
    as (given & r & n & Hs & Hfind & Hr).
  assert (given = session) by congruence. subst given.
  split; [exact reviewed_is_cast|]. exists r, n. split; [exact Hfind|].
  destruct r as [s|]; [exact (proj2 (proj2 Hr)) | exact I].
Defined.

End PollingDayRuns.
